(* ===== verification/_CoqProject ===== *)
-Q . S2P
Prelude.v
PyBytes.v
CInt.v
PyFormat.v
Machine.v
Bpf.v
BpfSem.v
BpfResolve.v
BpfLayout.v
BpfSim.v
BpfAccept.v
BpfTheorems.v
BpfVerify.v
PyDict.v
Syscalls.v
Ctypes.v
Structs.v
StructTypes.v
Filter.v
FilterSpec.v
FilterLabels.v
FilterCorrect.v
FilterGen.v
FilterRun.v
FilterCompile.v
FilterApi.v
FilterLife.v
FilterTheorems.v
Effects.v
RawSyscall.v
Demo.v
RawTheorems.v
Notify.v
NotifyFacts.v
Load.v
NotifyTheorems.v
NotifyLife.v
Installed.v
Display.v
LoadTheorems.v
LoadLive.v
Support.v
Probe.v
Termination.v
