(* ===== verification/Prelude.v ===== *)
(** * seccompy: a verified model of seccomp-BPF filtering in Python

    seccompy builds seccomp filters in pure Python: a [Filter] collects rules on
    syscalls and their arguments, compiles them to a classic BPF program for the
    native architecture and installs it through seccomp(2); a [Listener] answers
    user notifications; [testing.probe] tries a filter in a forked child.  This
    development models the whole package as functions on explicit state and
    proves it correct against a specification of what a filter means.

    ** Parts of the program and where they are modelled

    - src/src/seccompy/bpf.py, the instruction model and the assembler: [Bpf]
      (one definition per function, [mk_*] for the dataclass constructors).
      [BpfSem] holds the two interpreters of src/tests/test_bpf.py, [run_source]
      and [run_packed], which give programs their meaning, over the machines of
      [Machine].  [BpfResolve] (offsets and jump resolution), [BpfLayout] (what
      is emitted), [BpfSim] (simulation) and [BpfAccept] (errors) carry the
      lemmas, [BpfTheorems] the theorems.  [BpfVerify] states the checks of the
      kernel's verifier as a decision procedure.
    - src/src/seccompy/syscalls.py, tables and lookups: [Syscalls], over the
      insertion-ordered dicts of [PyDict].
    - src/src/seccompy/filter.py, rules and code generation: [Filter].
      [FilterSpec] is the specification: [verdict] decides a syscall from the
      rules alone.  [FilterLabels] (label names are distinct), [FilterCorrect]
      (the code of one condition), [FilterGen] (the generator as a pure
      function), [FilterRun] (running the generated code) and [FilterCompile]
      (size, shape, assembled bytes) lead to the compiled program; [FilterApi]
      and [FilterLife] model the calls a program can make on a filter object as
      a transition system, and [FilterTheorems] has the theorems.
    - src/src/seccompy/_syscall.py: the ctypes structures in [Structs], each from
      one declaration of its fields, to which [Ctypes] gives the C layout (and
      [StructTypes]: the layout is the one of linux/seccomp.h, every memory image
      is a structure), the conversion of integers to C in [CInt], the calls in
      [RawSyscall], their theorems in [RawTheorems].
    - [Filter.load]: [Load], with [LoadTheorems] (what a load that ended did) and
      [LoadLive] (that it succeeds).  [Installed] is the specification of what a
      history of calls leaves installed in the kernel.
    - src/src/seccompy/notify.py: [Notify], frame facts in [NotifyFacts],
      theorems in [NotifyTheorems] and [NotifyLife].
    - src/src/seccompy/__init__.py: [Support].  src/src/seccompy/testing.py:
      [Probe], both processes of a fork.  src/src/seccompy/errors.py: the type
      [exn] below.
    - [Termination]: everything that reaches the kernel ends.  [Display] with
      [PyFormat]: what [repr] shows of filters and listeners.

    ** How state and effects correspond

    A Python object is a record with one field per slot, a method a function from
    the record to a result and a new record; an exception is [Raise] (file
    [Prelude]), a dynamically typed argument a [pyobj].  Bytes are lists of
    integers 0 .. 255 and machine words integers with their wrap-around written
    out ([PyBytes]); an integer argument of a foreign function keeps its low 32
    bits or raises ([CInt]).  The kernel is a parameter ([Effects], class [Kernel]): an
    oracle that answers a call from the history of the calls before it, or never
    answers it, as when [recv] waits for an event that does not come or a filter
    kills the process; so theorems hold for every kernel and every pattern of
    interruption.  What a theorem expects of the kernel is a class of its own:
    [Patient], [Supporting], [Reaps].
    [platform.machine()] and [sys.platform] are parameters as well.  [Demo] is a
    concrete kernel, used by the witnesses only.

    ** What the theorems show

    - Assembler: symbolic and assembled program agree on every input; a program
      is accepted exactly if its jumps go forward to bound labels; every error
      has its documented cause; jump resolution converges.
    - Filter: the bytes of every filter built through the API compute [verdict];
      they pass the kernel's checks; compilation fails only on an unsupported
      platform; the first match wins; conditions mean what was written; payloads
      and errors of each method; the invariant of the object and of its cache.
    - Kernel layer: EINTR loops repeat one request until it is answered and
      terminate if no call blocks or is interrupted for ever; which errno means
      what; a load that returns set no_new_privs and installed exactly the
      compiled program, unless the kernel reported a failed thread
      synchronisation; what a failed load leaves behind; on a kernel that
      supports what is asked for, a filter of up to 1365 instructions does load.
    - Listener: messages encode what was asked for; structures have the layout of
      linux/seccomp.h and are typed memory in both directions; on every path of
      the constructor, what happens to the descriptor; afterwards it is used only
      while the listener is open, and a successful close is the last use.
    - Probe: the child's fate is reported and the caller's filter untouched; the
      child never returns into the caller.
    Some theorems record behaviour a reader may not expect:
    [load_accepts_tsync_failure], [x32_takes_default], [aarch64_name_aliases],
    [probe_errno_clamped] and [feature_query_truncates]; and
    [Listener_init_outcome] and [listener_descriptor] include the paths on which a
    descriptor is left open or closed a second time.

    ** Fuel and bounds

    [run_packed] and [run_source] take one unit of fuel per record or instruction
    and one more, enough because jumps go forward (proved where it is used:
    results are [Some]).  The EINTR loops take fuel from their caller; [None]
    stands for running out or for a call that is not answered, and
    [package_terminates] and [call_retries] show that enough fuel exists.  Theorems on compilation assume fewer than 2^32 / 3
    instructions, where offsets still fit in 32 bits; 1365 is 4096 / 3, the
    kernel's limit under the worst expansion of a jump.

    ** Not modelled

    The libc handle that [_get_libc] caches, a constant of the process, and a
    failure to load libc; non-integer arguments where the code passes them on to
    ctypes; non-ASCII machine names in [str.lower]; the tests other than the two
    interpreters.  Exception messages are the constant text of the f-string. *)

From stdpp Require Export base gmap list strings pretty relations.
From Stdlib Require Export ZArith Lia.

#[global] Open Scope string_scope.
#[global] Open Scope list_scope.
#[global] Open Scope Z_scope.
#[global] Set Default Proof Using "Type".

(** ** Python values and exceptions *)

(** A dynamically typed argument.  [bool] is a subclass of [int] in Python, so a
    boolean is a [PyInt] 0 or 1.  Every other object is known by its class name:
    the code only ever tests it with [isinstance(value, int)]. *)
Inductive pyobj :=
| PyInt (z : Z)
| PyStr (s : string)
| PyObj (cls : string).

#[export] Instance pyobj_eq_dec : EqDecision pyobj.
Proof. solve_decision. Defined.

(** [isinstance(v, int)], returning the integer. *)
Definition as_int (v : pyobj) : option Z :=
  match v with PyInt z => Some z | _ => None end.

(** [isinstance(v, int) and lo <= v <= hi], returning the integer. *)
Definition int_between (lo hi : Z) (v : pyobj) : option Z :=
  match as_int v with
  | Some z => if (lo <=? z) && (z <=? hi) then Some z else None
  | None => None
  end.

(** Exceptions.  A message is the constant text of the f-string that builds it;
    the interpolated operand is left out.  [SeccompError] derives from [OSError]
    and [UnsupportedError] from [SeccompError]; the latter is also raised with a
    message only, in which case its [errno] attribute is [None]. *)
Inductive exn :=
| ValueError (msg : string)
| TypeError (msg : string)
| RuntimeError (msg : string)
| KeyError (key : string)
| IndexError
| StructError
| AssertionError (msg : string)
| OSError (errno : option Z)
| SeccompError (errno : Z)
| UnsupportedError (errno : option Z)
| OtherError (cls : string).

#[export] Instance exn_eq_dec : EqDecision exn.
Proof. solve_decision. Defined.

(** ** The error monad *)

Inductive result (A : Type) :=
| Ok (a : A)
| Raise (e : exn).
Arguments Ok {A} a.
Arguments Raise {A} e.

#[export] Instance result_eq_dec {A} `{EqDecision A} : EqDecision (result A).
Proof. solve_decision. Defined.

#[export] Instance result_ret : MRet result := @Ok.
#[export] Instance result_bind : MBind result := λ A B f m,
  match m with Ok a => f a | Raise e => Raise e end.
#[export] Instance result_fmap : FMap result := λ A B f m,
  match m with Ok a => Ok (f a) | Raise e => Raise e end.

(** [if b: raise e]. *)
Definition raise_if (b : bool) (e : exn) : result unit :=
  if b then Raise e else Ok tt.

(** Convert a failed test into an exception. *)
Definition or_raise {A} (o : option A) (e : exn) : result A :=
  match o with Some a => Ok a | None => Raise e end.

(** Whether a computation returned normally. *)
Definition is_ok {A} (r : result A) : bool :=
  match r with Ok _ => true | Raise _ => false end.

(** Evaluate fallible computations from left to right, stopping at the first
    exception. *)
Fixpoint sequence {A} (l : list (result A)) : result (list A) :=
  match l with
  | [] => Ok []
  | r :: l => x ← r; xs ← sequence l; Ok (x :: xs)
  end.

(** [for x in l: acc = f(acc, x)] where the body may raise. *)
Fixpoint foldM {A B} (f : B → A → result B) (acc : B) (l : list A) : result B :=
  match l with
  | [] => Ok acc
  | x :: l => acc' ← f acc x; foldM f acc' l
  end.

(** [enumerate(l)] starting at [i]. *)
Fixpoint enumerate_from {A} (i : nat) (l : list A) : list (nat * A) :=
  match l with
  | [] => []
  | x :: l => (i, x) :: enumerate_from (S i) l
  end.
Abbreviation enumerate := (enumerate_from 0).

(** [l[v]] on a Python list: a negative index counts from the end, an index out
    of range raises [IndexError], a non-integer one [TypeError]. *)
Definition list_getitem {A} (l : list A) (v : pyobj) : result A :=
  match v with
  | PyInt z =>
      let n := Z.of_nat (length l) in
      let i := if z <? 0 then z + n else z in
      if i <? 0 then Raise IndexError
      else or_raise (l !! Z.to_nat i) IndexError
  | _ => Raise (TypeError "list indices must be integers or slices")
  end.

(** [d[k]] on a dict with string keys. *)
Definition dict_getitem {A} (d : gmap string A) (k : string) : result A :=
  or_raise (d !! k) (KeyError k).

(** ** Tactics *)

Lemma Ok_inj {A} (a b : A) : Ok a = Ok b → a = b.
Proof. congruence. Qed.

(** Split a successful chain of monadic binds into its successful parts. *)
Ltac inv_ok :=
  repeat match goal with
  | H : mbind _ ?m = Ok _ |- _ =>
      let E := fresh "E" in
      destruct m eqn:E; cbn [mbind result_bind] in H; [|discriminate H]
  | H : Ok _ = Ok _ |- _ => apply Ok_inj in H; subst
  | H : Raise _ = Ok _ |- _ => discriminate H
  | H : Ok _ = Raise _ |- _ => discriminate H
  | H : or_raise ?o _ = Ok _ |- _ =>
      let E := fresh "E" in
      destruct o eqn:E; cbn [or_raise] in H; [|discriminate H]
  | H : raise_if ?b _ = Ok _ |- _ =>
      let E := fresh "E" in
      destruct b eqn:E; cbn [raise_if] in H; [discriminate H|]
  end.

(** Turn boolean comparisons in the context into propositions for [lia]. *)
Ltac bool_to_prop :=
  repeat match goal with
  | H : (_ && _) = true |- _ => apply andb_prop in H as [? ?]
  | H : (_ && _) = false |- _ => apply andb_false_iff in H as [?|?]
  | H : (_ || _) = false |- _ => apply orb_false_iff in H as [? ?]
  | H : (_ || _) = true |- _ => apply orb_true_iff in H as [?|?]
  | H : negb _ = true |- _ => apply negb_true_iff in H
  | H : negb _ = false |- _ => apply negb_false_iff in H
  | H : (_ <=? _) = true |- _ => apply Z.leb_le in H
  | H : (_ <=? _) = false |- _ => apply Z.leb_gt in H
  | H : (_ <? _) = true |- _ => apply Z.ltb_lt in H
  | H : (_ <? _) = false |- _ => apply Z.ltb_ge in H
  | H : (_ =? _) = true |- _ => apply Z.eqb_eq in H
  | H : (_ =? _) = false |- _ => apply Z.eqb_neq in H
  end.

(** ** Generic lemmas *)

#[export] Set Warnings "-clear-no-such-hyp".

Lemma bind_ok {A B} (m : result A) (f : A → result B) b :
  (m ≫= f) = Ok b ↔ ∃ a, m = Ok a ∧ f a = Ok b.
Proof. destruct m; cbn; naive_solver. Qed.

Lemma int_between_Some lo hi v z :
  int_between lo hi v = Some z ↔ v = PyInt z ∧ lo <= z <= hi.
Proof.
  unfold int_between. destruct v as [z'| |]; cbn; [|naive_solver..].
  destruct (_ && _) eqn:E; bool_to_prop; naive_solver lia.
Qed.

Lemma int_between_PyInt lo hi z :
  lo <= z <= hi → int_between lo hi (PyInt z) = Some z.
Proof. intros. by apply int_between_Some. Qed.

Lemma sequence_Forall2 {A} (l : list (result A)) xs :
  sequence l = Ok xs ↔ Forall2 (λ r x, r = Ok x) l xs.
Proof.
  split.
  - revert xs. induction l as [|r l IH]; intros xs H; cbn in H; inv_ok; constructor; auto.
  - induction 1 as [|r x l xs -> _ IH]; [done|]. cbn. by rewrite IH.
Qed.

Lemma enumerate_from_lookup {A} (l : list A) i j x :
  enumerate_from i l !! j = Some x ↔ ∃ y, l !! j = Some y ∧ x = ((i + j)%nat, y).
Proof.
  revert i j. induction l as [|a l IH]; intros i j; cbn.
  - rewrite !lookup_nil. naive_solver.
  - destruct j; cbn.
    + rewrite Nat.add_0_r. naive_solver.
    + rewrite IH. by rewrite Nat.add_succ_r.
Qed.

Lemma list_getitem_nat {A} (l : list A) (i : nat) :
  list_getitem l (PyInt (Z.of_nat i)) = or_raise (l !! i) IndexError.
Proof.
  unfold list_getitem. assert ((Z.of_nat i <? 0) = false) as E by (apply Z.ltb_ge; lia).
  by rewrite E, E, Nat2Z.id.
Qed.

(** ** Hint databases *)

Create HintDb py discriminated.
#[export] Hint Resolve int_between_PyInt : py.
