(* ===== verification/PyBytes.v ===== *)
(** * Byte strings, [struct] and the C memory image of integers

    A [bytes] object is a list of integers in [0, 255].  This file models the
    part of Python's [struct] module the code uses, the ["<HBBI"] format of
    [struct sock_filter] with its range checks, and the little-endian image of
    a fixed-width integer, which is what a ctypes field holds on both supported
    architectures.  It proves the round trips the components build on. *)

From S2P Require Import Prelude.

(** [n] little-endian bytes of [z], taken modulo [256 ^ n] (a ctypes integer
    field wraps the same way, so a negative value is stored as its two's
    complement). *)
Fixpoint le_bytes (n : nat) (z : Z) : list Z :=
  match n with
  | O => []
  | S n => z mod 256 :: le_bytes n (z / 256)
  end.

(** [int.from_bytes(l, "little")]. *)
Fixpoint le_value (l : list Z) : Z :=
  match l with
  | [] => 0
  | b :: l => b + 256 * le_value l
  end.

Definition is_byte (b : Z) : Prop := 0 <= b < 256.

(** Two's complement reading of a [w]-bit value. *)
Definition to_signed (w : Z) (z : Z) : Z :=
  let u := z mod 2 ^ w in
  if u <? 2 ^ (w - 1) then u else u - 2 ^ w.

(** The fields [struct.unpack_from("<HBBI", ...)] yields: one
    [struct sock_filter] record. *)
Record sock_filter := SockFilter { sf_code : Z; sf_jt : Z; sf_jf : Z; sf_k : Z }.

#[export] Instance sock_filter_eq_dec : EqDecision sock_filter.
Proof. solve_decision. Defined.

Definition sock_filter_ok (f : sock_filter) : Prop :=
  0 <= sf_code f < 65536 ∧ is_byte (sf_jt f) ∧ is_byte (sf_jf f) ∧ 0 <= sf_k f < 2 ^ 32.

(** The eight bytes of one record. *)
Definition pack_record (f : sock_filter) : list Z :=
  le_bytes 2 (sf_code f) ++ le_bytes 1 (sf_jt f) ++ le_bytes 1 (sf_jf f) ++ le_bytes 4 (sf_k f).

Definition pack_all (fs : list sock_filter) : list Z := fs ≫= pack_record.

(** [struct.pack("<HBBI", code, jt, jf, k)]: an argument outside its field's
    range raises [struct.error]. *)
Definition struct_pack_HBBI (c t f kk : Z) : result (list Z) :=
  if (0 <=? c) && (c <=? 65535) && (0 <=? t) && (t <=? 255)
     && (0 <=? f) && (f <=? 255) && (0 <=? kk) && (kk <=? 4294967295)
  then Ok (pack_record (SockFilter c t f kk))
  else Raise StructError.

(** [struct.unpack_from("<HBBI", buf, off)] for [off >= 0]: a buffer with fewer
    than eight bytes left raises [struct.error]. *)
Definition struct_unpack_HBBI (buf : list Z) (off : Z) : result sock_filter :=
  if off + 8 <=? Z.of_nat (length buf) then
    let r := drop (Z.to_nat off) buf in
    Ok (SockFilter (le_value (take 2 r))
                   (le_value (take 1 (drop 2 r)))
                   (le_value (take 1 (drop 3 r)))
                   (le_value (take 4 (drop 4 r))))
  else Raise StructError.

(** [l.ljust(n, b"\0")]. *)
Definition ljust (n : nat) (l : list Z) : list Z := l ++ replicate (n - length l) 0.

(** ** Little-endian lemmas *)

Lemma length_le_bytes n z : length (le_bytes n z) = n.
Proof. revert z. induction n; intros z; cbn; auto. Qed.

Lemma le_bytes_is_byte n z : Forall is_byte (le_bytes n z).
Proof.
  revert z. induction n; intros z; cbn; constructor; auto.
  apply Z.mod_pos_bound. lia.
Qed.

Lemma le_value_le_bytes n z : le_value (le_bytes n z) = z mod 256 ^ Z.of_nat n.
Proof.
  revert z. induction n as [|n IH]; intros z; cbn [le_bytes le_value].
  - by rewrite Z.mod_1_r.
  - rewrite IH, Nat2Z.inj_succ, Z.pow_succ_r by lia.
    rewrite Z.rem_mul_r by lia. lia.
Qed.

Lemma le_value_le_bytes_small n z :
  0 <= z < 256 ^ Z.of_nat n → le_value (le_bytes n z) = z.
Proof. intros. rewrite le_value_le_bytes. by apply Z.mod_small. Qed.

Lemma le_value_bound l :
  Forall is_byte l → 0 <= le_value l < 256 ^ Z.of_nat (length l).
Proof.
  unfold is_byte. induction 1 as [|b l Hb _ IH]; cbn [le_value length]; [lia|].
  rewrite Nat2Z.inj_succ, Z.pow_succ_r by lia. lia.
Qed.

Lemma le_bytes_le_value l :
  Forall is_byte l → le_bytes (length l) (le_value l) = l.
Proof.
  unfold is_byte. induction 1 as [|b l Hb Hl IH]; cbn [le_bytes le_value length]; [done|].
  replace (b + 256 * le_value l) with (b + le_value l * 256) by lia.
  rewrite Z.mod_add, Z.div_add, Z.mod_small, Z.div_small by lia.
  by rewrite Z.add_0_l, IH.
Qed.

(** Storing a value keeps its low bytes only. *)
Lemma le_bytes_mod n z : le_bytes n (z mod 256 ^ Z.of_nat n) = le_bytes n z.
Proof.
  rewrite <- le_value_le_bytes.
  pose proof (le_bytes_le_value (le_bytes n z) (le_bytes_is_byte n z)) as H.
  by rewrite length_le_bytes in H.
Qed.

Lemma le_value_app l1 l2 :
  le_value (l1 ++ l2) = le_value l1 + 256 ^ Z.of_nat (length l1) * le_value l2.
Proof.
  induction l1 as [|b l1 IH]; cbn [app le_value length]; [lia|].
  rewrite IH, Nat2Z.inj_succ, Z.pow_succ_r by lia. lia.
Qed.

Lemma le_value_zeros n : le_value (replicate n 0) = 0.
Proof. induction n as [|n IH]; cbn; [done|]. by rewrite IH. Qed.

(** Zero padding on the right does not change the little-endian value. *)
Lemma le_value_ljust n l : le_value (ljust n l) = le_value l.
Proof. unfold ljust. rewrite le_value_app, le_value_zeros. lia. Qed.

(** Splitting a field: the low [n] bytes and the bytes above them. *)
Lemma le_bytes_add n m z :
  le_bytes (n + m) z = le_bytes n z ++ le_bytes m (z / 256 ^ Z.of_nat n).
Proof.
  revert z. induction n as [|n IH]; intros z; cbn [le_bytes app Nat.add].
  - by rewrite Z.div_1_r.
  - rewrite IH, Nat2Z.inj_succ, Z.pow_succ_r, Z.div_div by lia. done.
Qed.

Lemma to_signed_id w z :
  0 < w → - 2 ^ (w - 1) <= z < 2 ^ (w - 1) → to_signed w z = z.
Proof.
  intros Hw Hz. unfold to_signed.
  assert (2 ^ w = 2 * 2 ^ (w - 1)) as Hp.
  { rewrite <- Z.pow_succ_r by lia. f_equal. lia. }
  destruct (Z.lt_ge_cases z 0).
  - assert (z mod 2 ^ w = z + 2 ^ w) as ->.
    { symmetry. apply Z.mod_unique_pos with (-1); lia. }
    destruct (_ <? _) eqn:E; bool_to_prop; lia.
  - rewrite Z.mod_small by lia. destruct (_ <? _) eqn:E; bool_to_prop; lia.
Qed.

Lemma to_signed_mod w z : to_signed w (z mod 2 ^ w) = to_signed w z.
Proof. unfold to_signed. by rewrite Zmod_mod. Qed.

(** ** [struct sock_filter] records *)

Lemma length_pack_record f : length (pack_record f) = 8%nat.
Proof. unfold pack_record. by rewrite !length_app, !length_le_bytes. Qed.

Lemma length_pack_all fs : length (pack_all fs) = (8 * length fs)%nat.
Proof.
  unfold pack_all. induction fs as [|f fs IH]; [done|].
  cbn [mbind list_bind]. fold (fs ≫= pack_record).
  rewrite length_app, length_pack_record, IH. cbn. lia.
Qed.

Lemma pack_all_app fs1 fs2 : pack_all (fs1 ++ fs2) = pack_all fs1 ++ pack_all fs2.
Proof. apply bind_app. Qed.

Lemma pack_all_cons f fs : pack_all (f :: fs) = pack_record f ++ pack_all fs.
Proof. done. Qed.

Lemma struct_pack_HBBI_ok c t f kk bs :
  struct_pack_HBBI c t f kk = Ok bs ↔
  sock_filter_ok (SockFilter c t f kk) ∧ bs = pack_record (SockFilter c t f kk).
Proof.
  unfold struct_pack_HBBI, sock_filter_ok, is_byte. cbn.
  destruct (_ && _) eqn:E; bool_to_prop; split.
  1: intros [= <-]; split; [lia|done].
  1: by intros [_ ->].
  all: try done.
  all: intros [? _]; lia.
Qed.

Lemma struct_pack_HBBI_eq c t f kk :
  sock_filter_ok (SockFilter c t f kk) →
  struct_pack_HBBI c t f kk = Ok (pack_record (SockFilter c t f kk)).
Proof. intros. by apply struct_pack_HBBI_ok. Qed.

Lemma unpack_pack_record f rest :
  sock_filter_ok f →
  struct_unpack_HBBI (pack_record f ++ rest) 0 = Ok f.
Proof.
  intros (Hc & Ht & Hf & Hk). unfold struct_unpack_HBBI.
  rewrite length_app, length_pack_record.
  destruct (_ <=? _) eqn:E; bool_to_prop; [|lia].
  unfold is_byte in *. destruct f as [c t j kk]; cbn [sf_code sf_jt sf_jf sf_k] in *.
  change (Z.to_nat 0) with 0%nat. rewrite drop_0. f_equal.
  unfold pack_record. cbn [sf_code sf_jt sf_jf sf_k]. rewrite <- !app_assoc.
  f_equal.
  - rewrite take_app_length' by (by rewrite length_le_bytes).
    by apply le_value_le_bytes_small.
  - rewrite drop_app_length' by (by rewrite length_le_bytes).
    rewrite take_app_length' by (by rewrite length_le_bytes).
    by apply le_value_le_bytes_small.
  - rewrite app_assoc, drop_app_length'
      by (by rewrite length_app, !length_le_bytes).
    rewrite take_app_length' by (by rewrite length_le_bytes).
    by apply le_value_le_bytes_small.
  - rewrite 2!app_assoc, drop_app_length'
      by (by rewrite !length_app, !length_le_bytes).
    rewrite take_app_length' by (by rewrite length_le_bytes).
    by apply le_value_le_bytes_small.
Qed.

(** Reading record [i] of a packed program gives back the record, and reading
    past the last one is an error. *)
Lemma unpack_pack_all fs (i : nat) :
  Forall sock_filter_ok fs →
  struct_unpack_HBBI (pack_all fs) (Z.of_nat i * 8) = or_raise (fs !! i) StructError.
Proof.
  intros Hfs. destruct (fs !! i) as [f|] eqn:Hi; cbn [or_raise].
  - pose proof (lookup_lt_Some _ _ _ Hi) as Hlt.
    rewrite <- (take_drop_middle fs i f Hi), pack_all_app, pack_all_cons.
    assert (sock_filter_ok f) as Hf by (by eapply Forall_lookup_1).
    rewrite <- (unpack_pack_record f (pack_all (drop (S i) fs)) Hf).
    unfold struct_unpack_HBBI.
    rewrite !length_app, !length_pack_all, length_pack_record, length_take_le by lia.
    rewrite drop_app_length' by (rewrite length_pack_all, length_take_le; lia).
    change (Z.to_nat 0) with 0%nat. rewrite drop_0.
    destruct (_ <=? _) eqn:E1, (0 + 8 <=? _) eqn:E2; bool_to_prop; done || lia.
  - apply lookup_ge_None in Hi. unfold struct_unpack_HBBI. rewrite length_pack_all.
    destruct (_ <=? _) eqn:E; bool_to_prop; [lia|done].
Qed.
