(* ===== verification/CInt.v ===== *)
(** * Integers that cross into C

    A Python integer has no width; the C functions the package reaches do.  A
    foreign function called without [argtypes] takes every integer argument as a
    C [int]: ctypes reads it as an [unsigned long] or, failing that, as a [long],
    raises [ctypes.ArgumentError] if it is neither, and keeps the low 32 bits.
    The functions of module [os] do not wrap: a descriptor that is no C [int] is
    an [OverflowError]. *)

From S2P Require Import Prelude PyBytes.

(** A value of the C type [int]. *)
Definition is_c_int (z : Z) : Prop := - 2 ^ 31 <= z < 2 ^ 31.

#[export] Instance is_c_int_dec z : Decision (is_c_int z).
Proof. unfold is_c_int. apply _. Defined.

(** The C [int] with the low 32 bits of an integer. *)
Abbreviation int32 := (to_signed 32).

(** An integer argument of a foreign function, on a 64-bit platform. *)
Definition c_int (z : Z) : result Z :=
  if (- 2 ^ 63 <=? z) && (z <? 2 ^ 64) then Ok (int32 z)
  else Raise (OtherError "ArgumentError").

(** The integer arguments of one call, converted from left to right. *)
Definition c_ints (args : list Z) : result (list Z) := sequence (c_int <$> args).

(** A descriptor argument of a function of module [os]. *)
Definition os_fd (fd : Z) : result Z :=
  if bool_decide (is_c_int fd) then Ok fd else Raise (OtherError "OverflowError").

(** ** Lemmas *)

Lemma to_signed_range w z : 0 < w → - 2 ^ (w - 1) <= to_signed w z < 2 ^ (w - 1).
Proof.
  intros Hw. unfold to_signed.
  assert (2 ^ w = 2 * 2 ^ (w - 1)) as Hp by (rewrite <- Z.pow_succ_r by lia; f_equal; lia).
  pose proof (Z.mod_pos_bound z (2 ^ w) ltac:(lia)).
  destruct (_ <? _) eqn:E; bool_to_prop; lia.
Qed.

(** The low bits are those of the integer. *)
Lemma to_signed_low w z : 0 < w → to_signed w z mod 2 ^ w = z mod 2 ^ w.
Proof.
  intros Hw. unfold to_signed. destruct (_ <? _); [by rewrite Zmod_mod|].
  rewrite <- (Z.mod_add _ 1) by lia. rewrite Z.mul_1_l, Z.sub_add. apply Zmod_mod.
Qed.

Lemma c_int_ok z c :
  c_int z = Ok c ↔ - 2 ^ 63 <= z < 2 ^ 64 ∧ c = int32 z.
Proof.
  unfold c_int. destruct (_ && _) eqn:E; bool_to_prop.
  - split; [intros [= <-]; split; [lia|done]|by intros [_ ->]].
  - split; [done|lia].
  - split; [done|lia].
Qed.

Lemma c_int_id z : is_c_int z → c_int z = Ok z.
Proof.
  unfold is_c_int. intros Hz. apply c_int_ok. split; [lia|].
  symmetry. by apply to_signed_id.
Qed.

(** A 32-bit word arrives with all its bits. *)
Lemma c_int_u32 z : 0 <= z < 2 ^ 32 → c_int z = Ok (int32 z).
Proof. intros. apply c_int_ok. split; [lia|done]. Qed.

Lemma os_fd_id fd : is_c_int fd → os_fd fd = Ok fd.
Proof. intros. unfold os_fd. by rewrite bool_decide_true. Qed.

Lemma os_fd_raise fd : ¬ is_c_int fd → os_fd fd = Raise (OtherError "OverflowError").
Proof. intros. unfold os_fd. by rewrite bool_decide_false. Qed.

Create HintDb cint discriminated.
#[export] Hint Resolve c_int_id os_fd_id c_int_u32 : cint.
