(* ===== verification/PyFormat.v ===== *)
(** * Python's formatting of integers

    The f-strings of the package print integers in decimal, for which stdpp's
    [pretty] serves, and in hexadecimal with prefix ([:#x]), defined here.  The
    lemmas take such strings apart again: a number contains no separator, so the
    text before the first separator determines it. *)

From Stdlib Require Import Ascii.
From S2P Require Import Prelude.

(** ** Separators *)

(** Strings in which the character [c] does not occur. *)
Fixpoint no_char (c : ascii) (s : string) : Prop :=
  match s with
  | EmptyString => True
  | String c' s => c' ≠ c ∧ no_char c s
  end.

(** The first [c] ends the text before it. *)
Lemma split_char c a b x y :
  no_char c a → no_char c b → a +:+ String c x = b +:+ String c y → a = b ∧ x = y.
Proof.
  revert b. induction a as [|c1 a IH]; intros [|c2 b]; cbn.
  - by intros _ _ [= ->].
  - intros _ [Hc _] [= <- _]. done.
  - intros [Hc _] _ [= -> _]. done.
  - intros [_ Ha] [_ Hb] [= -> H]. destruct (IH b Ha Hb H) as [-> ->]. done.
Qed.

(** Characters that no decimal number contains. *)
Definition separator (c : ascii) : bool :=
  bool_decide (c ∉ String.list_ascii_of_string "-0123456789").

Lemma pretty_N_char_no c x : separator c = true → pretty_N_char x ≠ c.
Proof.
  unfold separator. intros Hc%bool_decide_eq_true_1 <-. apply Hc.
  unfold pretty_N_char. repeat case_match; cbn; set_solver.
Qed.

Section decimal.
Context (c : ascii) (Hc : separator c = true).

Lemma pretty_N_go_no x s : no_char c s → no_char c (pretty_N_go x s).
Proof using Hc.
  revert s. induction (N.lt_wf_0 x) as [x _ IH]; intros s Hs.
  assert (x = 0 ∨ 0 < x)%N as [->|Hx] by lia; [by rewrite pretty_N_go_0|].
  rewrite pretty_N_go_step by done. apply IH; [by apply N.div_lt|].
  split; [by apply pretty_N_char_no|done].
Qed.

Lemma pretty_N_no (x : N) : no_char c (pretty x).
Proof using Hc.
  unfold pretty, pretty_N. case_decide; [|by apply pretty_N_go_no].
  split; [|done]. change "0"%char with (pretty_N_char 0). by apply pretty_N_char_no.
Qed.

Lemma pretty_nat_no (x : nat) : no_char c (pretty x).
Proof using Hc. apply pretty_N_no. Qed.

Lemma pretty_Z_no (x : Z) : no_char c (pretty x).
Proof using Hc.
  destruct x as [|p|p]; [apply (pretty_N_no 0)|apply pretty_N_no|].
  change (pretty (Z.neg p)) with (String "-" (pretty (N.pos p))).
  split; [|apply pretty_N_no]. unfold separator in Hc. apply bool_decide_eq_true_1 in Hc.
  intros <-. apply Hc. cbn. set_solver.
Qed.
End decimal.

(** ** Hexadecimal *)

Definition hex_digits : list ascii := String.list_ascii_of_string "0123456789abcdef".

Definition hex_digit (d : Z) : ascii := nth (Z.to_nat d) hex_digits "?"%char.

(** The digits of [z >= 0] in front of [acc]; [n] bounds their number. *)
Fixpoint hex_go (n : nat) (z : Z) (acc : string) : string :=
  match n with
  | O => acc
  | S n =>
      let acc' := String (hex_digit (z mod 16)) acc in
      if z <? 16 then acc' else hex_go n (z / 16) acc'
  end.

(** [format(z, "#x")]; a number has at most one digit more than bits. *)
Definition py_hex (z : Z) : string :=
  (if z <? 0 then "-" else "") +:+ "0x" +:+
    hex_go (S (Z.to_nat (Z.log2 (Z.abs z)))) (Z.abs z) "".

(** Reading hexadecimal digits. *)
Definition digit_value (c : ascii) : option Z :=
  Z.of_nat ∘ fst <$> list_find (.= c) hex_digits.

Fixpoint hex_read (s : string) (acc : Z) : option Z :=
  match s with
  | EmptyString => Some acc
  | String c s => d ← digit_value c; hex_read s (16 * acc + d)
  end.

(** [int(s, 16)] on what [format] writes. *)
Definition py_of_hex (s : string) : option Z :=
  match s with
  | String "-" (String "0" (String "x" s)) => Z.opp <$> hex_read s 0
  | String "0" (String "x" s) => hex_read s 0
  | _ => None
  end.

(** Case analysis on a digit. *)
Lemma digit_cases (P : Z → Prop) :
  Forall P [0; 1; 2; 3; 4; 5; 6; 7; 8; 9; 10; 11; 12; 13; 14; 15] → ∀ d, 0 <= d < 16 → P d.
Proof.
  intros H d Hd. rewrite Forall_forall in H. apply H.
  rewrite !elem_of_cons. lia.
Qed.

Lemma digit_value_hex d : 0 <= d < 16 → digit_value (hex_digit d) = Some d.
Proof. revert d. apply digit_cases. repeat (constructor; [done|]). constructor. Qed.

Lemma hex_digit_no c d : c ∉ hex_digits → 0 <= d < 16 → hex_digit d ≠ c.
Proof.
  intros Hc Hd E. apply Hc. rewrite <- E. clear c Hc E. revert d Hd. apply digit_cases.
  repeat (constructor; [cbn; set_solver|]). constructor.
Qed.

Lemma hex_read_go n : ∀ z acc a,
  0 <= z < 16 ^ Z.of_nat n → hex_read (hex_go n z acc) a =
    hex_read acc (16 ^ Z.of_nat (String.length (hex_go n z acc) - String.length acc) * a + z).
Proof.
  induction n as [|n IH]; intros z acc a Hz.
  - cbn [hex_go]. rewrite Nat.sub_diag. change (16 ^ Z.of_nat 0) with 1 in *. f_equal. lia.
  - cbn [hex_go]. rewrite Nat2Z.inj_succ, Z.pow_succ_r in Hz by lia.
    pose proof (Z.mod_pos_bound z 16 ltac:(lia)). destruct (z <? 16) eqn:E; bool_to_prop.
    + cbn [hex_read String.length]. rewrite digit_value_hex by lia. cbn [mbind option_bind].
      rewrite Nat.sub_succ_l, Nat.sub_diag, Z.mod_small by lia. done.
    + rewrite IH by (split; [by apply Z.div_pos; lia|apply Z.div_lt_upper_bound; lia]).
      cbn [hex_read]. rewrite digit_value_hex by lia. cbn [mbind option_bind]. f_equal.
      set (l := String.length (hex_go n (z / 16) (String (hex_digit (z mod 16)) acc))).
      assert (S (String.length acc) <= l)%nat as Hl.
      { unfold l. clear. generalize (z / 16) as y.
        assert (∀ m y s, (String.length s <= String.length (hex_go m y s))%nat) as Hm.
        { induction m as [|m IHm]; intros y s; cbn; [lia|]. destruct (_ <? _); cbn; [lia|].
          specialize (IHm (y / 16) (String (hex_digit (y mod 16)) s)). cbn in IHm. lia. }
        intros y. apply (Hm n y (String (hex_digit (z mod 16)) acc)). }
      cbn [String.length]. replace (l - String.length acc)%nat with (S (l - S (String.length acc))) by lia.
      rewrite Nat2Z.inj_succ, Z.pow_succ_r by lia. pose proof (Z.div_mod z 16 ltac:(lia)). lia.
Qed.

Lemma hex_bound z : 0 <= z → 0 <= z < 16 ^ Z.of_nat (S (Z.to_nat (Z.log2 z))).
Proof.
  intros Hz. split; [done|]. rewrite Nat2Z.inj_succ, Z2Nat.id by apply Z.log2_nonneg.
  destruct (Z.eq_dec z 0) as [->|Hne]; [done|].
  apply Z.lt_le_trans with (2 ^ Z.succ (Z.log2 z)); [by apply Z.log2_spec; lia|].
  apply Z.pow_le_mono_l. lia.
Qed.

(** What is written is read back. *)
Lemma py_hex_read z : py_of_hex (py_hex z) = Some z.
Proof.
  assert (hex_read (hex_go (S (Z.to_nat (Z.log2 (Z.abs z)))) (Z.abs z) "") 0 = Some (Z.abs z)) as H.
  { rewrite hex_read_go by (apply hex_bound; lia). cbn [hex_read]. f_equal. lia. }
  unfold py_hex. destruct (z <? 0) eqn:E; bool_to_prop.
  - change ("-" +:+ "0x" +:+ ?s) with (String "-" (String "0" (String "x" s))).
    unfold py_of_hex. rewrite H. cbn. f_equal. lia.
  - change ("" +:+ "0x" +:+ ?s) with (String "0" (String "x" s)).
    unfold py_of_hex. rewrite H. f_equal. lia.
Qed.

#[export] Instance py_hex_inj : Inj (=) (=) py_hex.
Proof. intros a b H. apply (inj Some). by rewrite <- !py_hex_read, H. Qed.

Lemma hex_go_no c n : ∀ z acc,
  c ∉ hex_digits → 0 <= z → no_char c acc → no_char c (hex_go n z acc).
Proof.
  induction n as [|n IH]; intros z acc Hc Hz Ha; cbn [hex_go]; [done|].
  assert (no_char c (String (hex_digit (z mod 16)) acc)) as Ha'.
  { split; [|done]. apply hex_digit_no; [done|]. apply Z.mod_pos_bound. lia. }
  destruct (_ <? _); [done|]. apply IH; [done| |done]. by apply Z.div_pos.
Qed.

Lemma py_hex_no c z : c ∉ "-"%char :: "x"%char :: hex_digits → no_char c (py_hex z).
Proof.
  intros Hc. assert (c ∉ hex_digits) as Hd by set_solver.
  pose proof (hex_go_no c (S (Z.to_nat (Z.log2 (Z.abs z)))) (Z.abs z) "" Hd (Z.abs_nonneg z) I).
  unfold py_hex. assert (c ≠ "-"%char ∧ c ≠ "x"%char ∧ c ≠ "0"%char) as (? & ? & ?).
  { split_and!; [set_solver..|]. intros ->. apply Hd. cbn. set_solver. }
  destruct (z <? 0); cbn; split_and!; done.
Qed.
