(* ===== verification/Machine.v ===== *)
(** * Deterministic machines and lock-step simulation

    The interpreters of tests/test_bpf.py are [while True] loops over an
    accumulator and a program counter.  Each is modelled as a step function on
    configurations together with a fuelled loop; this file has what their proofs
    share: monotonicity in the fuel, a measure that bounds the number of steps,
    and the simulation principle that transports outcomes from one machine to
    another. *)

From S2P Require Import Prelude.

(** One iteration either continues in a new configuration or leaves the loop,
    with a value or an exception. *)
Inductive outcome (C : Type) :=
| Next (c : C)
| Halt (r : result Z).
Arguments Next {C} c.
Arguments Halt {C} r.

(** The loop; [None] means the fuel ran out. *)
Fixpoint run_machine {C} (step : C → outcome C) (fuel : nat) (c : C) : option (result Z) :=
  match fuel with
  | O => None
  | S fuel =>
      match step c with
      | Next c' => run_machine step fuel c'
      | Halt r => Some r
      end
  end.

Section machine.
Context {C : Type} (step : C → outcome C).

Definition steps_to (c c' : C) : Prop := step c = Next c'.

Lemma run_mono fuel fuel' c r :
  (fuel <= fuel')%nat → run_machine step fuel c = Some r → run_machine step fuel' c = Some r.
Proof.
  revert fuel' c. induction fuel as [|fuel IH]; intros [|fuel'] c Hle; cbn; try done; [lia|].
  destruct (step c); [|done]. apply IH. lia.
Qed.

Lemma run_det fuel fuel' c r r' :
  run_machine step fuel c = Some r → run_machine step fuel' c = Some r' → r = r'.
Proof.
  intros H1 H2. destruct (Nat.le_ge_cases fuel fuel') as [Hle|Hle].
  - apply (run_mono _ _ _ _ Hle) in H1. congruence.
  - apply (run_mono _ _ _ _ Hle) in H2. congruence.
Qed.

(** A run that reaches a halting configuration ends with its result. *)
Lemma run_reach c c' r :
  rtc steps_to c c' → step c' = Halt r → ∃ fuel, run_machine step fuel c = Some r.
Proof.
  intros Hr Hh. induction Hr as [c|c c1 c2 H _ IH].
  - exists 1%nat. cbn. by rewrite Hh.
  - destruct (IH Hh) as [fuel Hf]. exists (S fuel). cbn. by rewrite H.
Qed.

(** A strictly decreasing measure bounds the fuel a run needs. *)
Lemma run_total (m : C → nat) (I : C → Prop) :
  (∀ c c', I c → step c = Next c' → I c' ∧ (m c' < m c)%nat) →
  ∀ fuel c, I c → (m c < fuel)%nat → ∃ r, run_machine step fuel c = Some r.
Proof.
  intros Hm fuel. induction fuel as [|fuel IH]; intros c HI Hlt; [lia|]. cbn.
  destruct (step c) as [c'|r] eqn:E; [|by eauto].
  destruct (Hm c c' HI E). apply IH; [done|lia].
Qed.

(** The two facts together: enough fuel and a reachable halting state. *)
Lemma run_reach_total (m : C → nat) (I : C → Prop) fuel c c' r :
  (∀ c c', I c → step c = Next c' → I c' ∧ (m c' < m c)%nat) →
  I c → (m c < fuel)%nat →
  rtc steps_to c c' → step c' = Halt r → run_machine step fuel c = Some r.
Proof.
  intros Hm HI Hlt Hr Hh.
  destruct (run_total m I Hm fuel c HI Hlt) as [r' Hr'].
  destruct (run_reach c c' r Hr Hh) as [fuel' Hf].
  by rewrite Hr', (run_det _ _ _ _ _ Hr' Hf).
Qed.
End machine.

(** Two runs have the same outcome when they return the same value or both
    raise. *)
Definition same_outcome (r r' : result Z) : Prop :=
  match r, r' with
  | Ok v, Ok v' => v = v'
  | Raise _, Raise _ => True
  | _, _ => False
  end.

Section simulation.
Context {C D : Type} (stepC : C → outcome C) (stepD : D → outcome D).
Context (R : C → D → Prop).

(** Every source step is matched by one or more target steps, every halt by
    target steps that end in a halt with the same outcome. *)
Hypothesis sim_next : ∀ c d c',
  R c d → stepC c = Next c' → ∃ d', rtc (steps_to stepD) d d' ∧ R c' d'.
Hypothesis sim_halt : ∀ c d r,
  R c d → stepC c = Halt r →
  ∃ d' r', rtc (steps_to stepD) d d' ∧ stepD d' = Halt r' ∧ same_outcome r r'.

Lemma simulation_run fuel c d r :
  R c d → run_machine stepC fuel c = Some r →
  ∃ d' r', rtc (steps_to stepD) d d' ∧ stepD d' = Halt r' ∧ same_outcome r r'.
Proof using sim_next sim_halt.
  revert c d. induction fuel as [|fuel IH]; intros c d HR; cbn; [done|].
  destruct (stepC c) as [c'|r0] eqn:E.
  - intros Hrun. destruct (sim_next c d c' HR E) as (d1 & Hd1 & HR1).
    destruct (IH c' d1 HR1 Hrun) as (d' & r' & Hd' & Hh & Hs).
    exists d', r'. split; [by etrans|done].
  - intros [= ->]. by apply (sim_halt c d r).
Qed.
End simulation.
