(* ===== verification/Bpf.v ===== *)
(** * bpf.py: the instruction model and the assembler

    Instructions are a type with one constructor per dataclass of the module;
    the [mk_*] functions are the dataclass constructors with the checks of their
    [__post_init__].  Labels are a dict from names to Python values, since
    [assemble] itself rejects a label that is not an integer.  The functions
    below translate the module's functions one by one; an exception is a
    [Raise]. *)

From S2P Require Import Prelude PyBytes.

Definition BPF_LD_ABS_W : Z := 0x20.
Definition BPF_ALU_AND_K : Z := 0x54.
Definition BPF_RET_K : Z := 0x06.
Definition BPF_JA : Z := 0x05.
Definition BPF_JEQ : Z := 0x15.
Definition BPF_JGT : Z := 0x25.
Definition BPF_JGEQ : Z := 0x35.
Definition BPF_JSET : Z := 0x45.

Definition _JUMP_OPS : list Z := [BPF_JEQ; BPF_JGT; BPF_JGEQ; BPF_JSET].
Definition _MAX_COND_JUMP : Z := 255.
Definition _U32_MAX : Z := 0xFFFFFFFF.

(** [InsnBase] is an instance of the base class itself, the only kind of
    instruction [_emit] does not know. *)
Inductive Insn :=
| Load (k : Z)
| And (k : Z)
| Jump (op k : Z) (jt jf : option string)
| Ja (target : string)
| Ret (k : Z)
| InsnBase.

#[export] Instance Insn_eq_dec : EqDecision Insn.
Proof. solve_decision. Defined.

(** ** Construction *)

(** The value comes back as the integer it was checked to be. *)
Definition _check_u32 (name : string) (value : pyobj) : result Z :=
  or_raise (int_between 0 _U32_MAX value)
    (ValueError (name +:+ " does not fit in a u32")).

Definition mk_Load (k : pyobj) : result Insn :=
  z ← _check_u32 "offset" k; Ok (Load z).

Definition mk_And (k : pyobj) : result Insn :=
  z ← _check_u32 "operand" k; Ok (And z).

Definition mk_Jump (op : Z) (k : pyobj) (jt jf : option string) : result Insn :=
  raise_if (negb (bool_decide (op ∈ _JUMP_OPS)))
    (ValueError "not a conditional jump opcode");;
  z ← _check_u32 "operand" k; Ok (Jump op z jt jf).

Definition mk_Ret (k : pyobj) : result Insn :=
  z ← _check_u32 "result" k; Ok (Ret z).

(** ** Assembly *)

(** The loop that fills [pos], left to right and in place. *)
Definition _positions (sizes : list Z) : list Z :=
  foldl (λ pos i, <[i := pos !!! (i - 1)%nat + sizes !!! (i - 1)%nat]> pos)
        (replicate (length sizes + 1) 0) (seq 1 (length sizes)).

Definition _expanded_size (jt jf : option string) : Z :=
  match jt with
  | None => 2
  | Some _ => match jf with Some _ => 3 | None => 2 end
  end.

Definition _targets (insn : Insn) : list string :=
  match insn with
  | Jump _ _ jt jf => option_list jt ++ option_list jf
  | Ja target => [target]
  | _ => []
  end.

Definition _validate_labels (insns : list Insn) (labels : gmap string pyobj) : result unit :=
  foldM (λ _ insn,
    foldM (λ _ target,
      match labels !! target with
      | None => Raise (ValueError "undefined label")
      | Some idx =>
          match int_between 0 (Z.of_nat (length insns)) idx with
          | None => Raise (ValueError "label out of range")
          | Some _ => Ok tt
          end
      end) tt (_targets insn)) tt insns.

Definition _offset (target : option string) (labels : gmap string pyobj)
    (pos : list Z) (i : nat) : result (option Z) :=
  match target with
  | None => Ok None
  | Some t =>
      idx ← dict_getitem labels t;
      p ← list_getitem pos idx;
      pi ← list_getitem pos (PyInt (Z.of_nat i));
      let off := p - pi - 1 in
      if off <? 0 then Raise (ValueError "backward jump to label")
      else Ok (Some off)
  end.

(** [for target in (jump.jt, jump.jf)] with its early [return True]. *)
Definition _needs_expansion (jt jf : option string) (labels : gmap string pyobj)
    (pos : list Z) (i : nat) : result bool :=
  let far (off : option Z) :=
    match off with Some o => _MAX_COND_JUMP <? o | None => false end in
  off ← _offset jt labels pos i;
  if far off then Ok true
  else off' ← _offset jf labels pos i; Ok (far off').

(** The body of the inner loop of [_resolve_sizes] for one instruction. *)
Definition _resolve_insn (labels : gmap string pyobj) (pos : list Z)
    (st : list Z * bool) (ii : nat * Insn) : result (list Z * bool) :=
  let '(sizes, changed) := st in
  let '(i, insn) := ii in
  match insn with
  | Jump _ _ jt jf =>
      if 1 <? sizes !!! i then Ok (sizes, changed)
      else
        far ← _needs_expansion jt jf labels pos i;
        if (far : bool) then Ok (<[i := _expanded_size jt jf]> sizes, true)
        else Ok (sizes, changed)
  | _ => Ok (sizes, changed)
  end.

(** The outer [for _ in range(len(insns) + 1)]; [n] is the number of passes
    left. *)
Fixpoint _resolve_loop (insns : list Insn) (labels : gmap string pyobj)
    (n : nat) (sizes : list Z) : result (list Z) :=
  match n with
  | O => Raise (ValueError "jump resolution did not converge")
  | S n =>
      let pos := _positions sizes in
      '(sizes', changed) ← foldM (_resolve_insn labels pos) (sizes, false) (enumerate insns);
      if (changed : bool) then _resolve_loop insns labels n sizes' else Ok sizes'
  end.

Definition _resolve_sizes (insns : list Insn) (labels : gmap string pyobj) : result (list Z) :=
  _resolve_loop insns labels (length insns + 1) (replicate (length insns) 1).

Definition _ja_bytes (target : option string) (labels : gmap string pyobj)
    (pos : list Z) (pc : Z) : result (list Z) :=
  match target with
  | None => Raise (ValueError "JA without a target")
  | Some t =>
      idx ← dict_getitem labels t;
      p ← list_getitem pos idx;
      let off := p - pc - 1 in
      if (off <? 0) || (0xFFFFFFFF <? off)
      then Raise (ValueError "JA target out of range")
      else struct_pack_HBBI BPF_JA 0 0 off
  end.

Definition _emit_expanded (op k : Z) (jt jf : option string) (labels : gmap string pyobj)
    (pos : list Z) (i : nat) : result (list Z) :=
  pi ← list_getitem pos (PyInt (Z.of_nat i));
  match jt with
  | None =>
      out ← struct_pack_HBBI op 1 0 k;
      ja ← _ja_bytes jf labels pos (pi + 1);
      Ok (out ++ ja)
  | Some _ =>
      out ← struct_pack_HBBI op 0 1 k;
      ja ← _ja_bytes jt labels pos (pi + 1);
      match jf with
      | None => Ok (out ++ ja)
      | Some _ =>
          ja' ← _ja_bytes jf labels pos (pi + 2);
          Ok (out ++ ja ++ ja')
      end
  end.

(** [x or 0] on an optional offset. *)
Definition or_zero (o : option Z) : Z := default 0 o.

Definition _emit (insn : Insn) (labels : gmap string pyobj) (pos : list Z)
    (i : nat) (size : Z) : result (list Z) :=
  match insn with
  | Load k => struct_pack_HBBI BPF_LD_ABS_W 0 0 k
  | And k => struct_pack_HBBI BPF_ALU_AND_K 0 0 k
  | Ja target =>
      off ← _offset (Some target) labels pos i;
      match off with
      | None => Raise (ValueError "JA target out of range")
      | Some o =>
          if 0xFFFFFFFF <? o then Raise (ValueError "JA target out of range")
          else struct_pack_HBBI BPF_JA 0 0 o
      end
  | Ret k => struct_pack_HBBI BPF_RET_K 0 0 k
  | Jump op k jt jf =>
      jt' ← _offset jt labels pos i;
      jf' ← _offset jf labels pos i;
      if size =? 1 then
        if (_MAX_COND_JUMP <? or_zero jt') || (_MAX_COND_JUMP <? or_zero jf')
        then Raise (ValueError "conditional jump out of range")
        else struct_pack_HBBI op (or_zero jt') (or_zero jf') k
      else _emit_expanded op k jt jf labels pos i
  | InsnBase => Raise (TypeError "unknown instruction")
  end.

Definition assemble (insns : list Insn) (labels : gmap string pyobj) : result (list Z) :=
  _validate_labels insns labels;;
  sizes ← _resolve_sizes insns labels;
  let pos := _positions sizes in
  foldM (λ out '(i, insn), bs ← _emit insn labels pos i (sizes !!! i); Ok (out ++ bs))
        [] (enumerate insns).
