(* ===== verification/BpfSem.v ===== *)
(** * tests/test_bpf.py: the two interpreters

    The repository's tests give classic BPF its meaning by two interpreters:
    [run_packed] over the assembled bytes and [run_source] over the symbolic
    program.  Both are loops over an accumulator and a program counter; a
    program is run against the bytes of a [struct seccomp_data].  They are the
    semantics every theorem about generated code refers to. *)

From S2P Require Import Prelude PyBytes Machine Bpf.

(** An interpreter configuration: the accumulator and the program counter. *)
Record config := Config { acc : Z; pc : Z }.

(** [int.from_bytes(data[k : k + 4].ljust(4, b"\0"), "little")]. *)
Definition load_word (data : list Z) (k : Z) : Z :=
  le_value (ljust 4 (take 4 (drop (Z.to_nat k) data))).

(** The condition of a conditional jump, by opcode. *)
Definition jump_cond (op a k : Z) : option bool :=
  if op =? BPF_JEQ then Some (a =? k)
  else if op =? BPF_JGT then Some (k <? a)
  else if op =? BPF_JGEQ then Some (k <=? a)
  else if op =? BPF_JSET then Some (negb (Z.land a k =? 0))
  else None.

(** One iteration of the loop of [run_packed]. *)
Definition packed_step (prog data : list Z) (c : config) : outcome config :=
  match struct_unpack_HBBI prog (pc c * 8) with
  | Raise e => Halt (Raise e)
  | Ok (SockFilter op jt jf k) =>
      if op =? BPF_LD_ABS_W then Next (Config (load_word data k) (pc c + 1))
      else if op =? BPF_ALU_AND_K then Next (Config (Z.land (acc c) k) (pc c + 1))
      else if op =? BPF_JA then Next (Config (acc c) (pc c + (1 + k)))
      else match jump_cond op (acc c) k with
           | Some b => Next (Config (acc c) (pc c + (1 + (if b then jt else jf))))
           | None =>
               if op =? BPF_RET_K then Halt (Ok k)
               else Halt (Raise (AssertionError "bad opcode"))
           end
  end.

(** Jumps only go forward, so a run visits every record at most once: one
    iteration per record and one more suffice. *)
Definition run_packed (prog data : list Z) : option (result Z) :=
  run_machine (packed_step prog data) (S (length prog / 8)) (Config 0 0).

(** [labels[target] if target is not None else pc + 1]; a value that is not an
    integer cannot index the instruction list. *)
Definition jump_to (labels : gmap string pyobj) (target : option string) (a p : Z)
    : outcome config :=
  match target with
  | None => Next (Config a (p + 1))
  | Some t =>
      match dict_getitem labels t with
      | Raise e => Halt (Raise e)
      | Ok (PyInt z) => Next (Config a z)
      | Ok _ => Halt (Raise (TypeError "list indices must be integers or slices"))
      end
  end.

(** One iteration of the loop of [run_source]. *)
Definition source_step (insns : list Insn) (labels : gmap string pyobj) (data : list Z)
    (c : config) : outcome config :=
  match list_getitem insns (PyInt (pc c)) with
  | Raise e => Halt (Raise e)
  | Ok (Load k) => Next (Config (load_word data k) (pc c + 1))
  | Ok (And k) => Next (Config (Z.land (acc c) k) (pc c + 1))
  | Ok (Jump op k jt jf) =>
      match jump_cond op (acc c) k with
      | None => Halt (Raise (KeyError "opcode"))
      | Some b => jump_to labels (if b then jt else jf) (acc c) (pc c)
      end
  | Ok (Ja t) => jump_to labels (Some t) (acc c) (pc c)
  | Ok (Ret k) => Halt (Ok k)
  | Ok InsnBase => Halt (Raise (TypeError "bad insn"))
  end.

(** A symbolic program whose jumps go forward visits every instruction at most
    once; one that jumps backward may run out of this fuel. *)
Definition run_source (insns : list Insn) (labels : gmap string pyobj) (data : list Z)
    : option (result Z) :=
  run_machine (source_step insns labels data) (S (length insns)) (Config 0 0).

(** ** Lemmas about the packed interpreter *)

Lemma jump_cond_op op a k : op ∈ _JUMP_OPS → ∃ b, jump_cond op a k = Some b.
Proof.
  unfold _JUMP_OPS. rewrite !elem_of_cons, elem_of_nil.
  intros [->|[->|[->|[->|[]]]]]; eexists; reflexivity.
Qed.

Lemma jump_op_cases op :
  op ∈ _JUMP_OPS →
  (op =? BPF_LD_ABS_W) = false ∧ (op =? BPF_ALU_AND_K) = false ∧ (op =? BPF_JA) = false.
Proof.
  unfold _JUMP_OPS. rewrite !elem_of_cons, elem_of_nil.
  intros [->|[->|[->|[->|[]]]]]; done.
Qed.

Lemma jump_op_range op : op ∈ _JUMP_OPS → 0 <= op < 65536.
Proof.
  unfold _JUMP_OPS. rewrite !elem_of_cons, elem_of_nil.
  intros [->|[->|[->|[->|[]]]]]; done.
Qed.

Section packed.
Context (fs : list sock_filter) (data : list Z) (Hfs : Forall sock_filter_ok fs).

Let step := packed_step (pack_all fs) data.

(** The step at record [i] of a packed program, read off the record. *)
Lemma packed_step_at a (i : nat) :
  step (Config a (Z.of_nat i)) =
  match fs !! i with
  | None => Halt (Raise StructError)
  | Some (SockFilter op jt jf k) =>
      let p := Z.of_nat i in
      if op =? BPF_LD_ABS_W then Next (Config (load_word data k) (p + 1))
      else if op =? BPF_ALU_AND_K then Next (Config (Z.land a k) (p + 1))
      else if op =? BPF_JA then Next (Config a (p + (1 + k)))
      else match jump_cond op a k with
           | Some b => Next (Config a (p + (1 + (if b then jt else jf))))
           | None =>
               if op =? BPF_RET_K then Halt (Ok k)
               else Halt (Raise (AssertionError "bad opcode"))
           end
  end.
Proof using Hfs.
  unfold step, packed_step. cbn [pc acc]. rewrite unpack_pack_all by done.
  by destruct (fs !! i) as [[]|].
Qed.

(** The program counter only moves forward, so every run ends. *)
Lemma packed_step_forward a (i : nat) c' :
  step (Config a (Z.of_nat i)) = Next c' →
  ∃ i', pc c' = Z.of_nat i' ∧ (i < i')%nat ∧ (i < length fs)%nat.
Proof using Hfs.
  rewrite packed_step_at. destruct (fs !! i) as [[op jt jf k]|] eqn:Hi; [|done].
  pose proof (Forall_lookup_1 _ _ _ _ Hfs Hi) as (_ & Ht & Hf & Hk).
  unfold is_byte in *; cbn [sf_code sf_jt sf_jf sf_k] in *.
  apply lookup_lt_Some in Hi.
  intros Hs. exists (Z.to_nat (pc c')).
  repeat case_match; simplify_eq; cbn [pc]; lia.
Qed.

Lemma run_packed_reach c r :
  rtc (steps_to step) (Config 0 0) c → step c = Halt r →
  run_packed (pack_all fs) data = Some r.
Proof using Hfs.
  intros Hr Hh. unfold run_packed.
  rewrite length_pack_all, (Nat.mul_comm 8), Nat.div_mul by done.
  apply (run_reach_total step (λ c, (length fs - Z.to_nat (pc c))%nat)
           (λ c, ∃ i, pc c = Z.of_nat i)) with (c' := c); [|by exists 0%nat|cbn; lia|done..].
  intros [a p] c' [i Hi] Hs. cbn [pc] in *. subst p.
  apply packed_step_forward in Hs as (i' & -> & ? & ?). split; [by eauto|lia].
Qed.
End packed.
