(* ===== verification/BpfResolve.v ===== *)
(** * The assembler: labels, offsets and jump resolution

    What each phase of [assemble] computes: positions as prefix sums, the
    programs whose labels are valid, the offset of a jump, and the fixed point
    that jump resolution reaches. *)

From S2P Require Import Prelude PyBytes Machine Bpf BpfSem.

(** ** Prefix sums: what [_positions] computes *)

Definition zsum (l : list Z) : Z := foldr Z.add 0 l.

Definition position (sizes : list Z) (i : nat) : Z := zsum (take i sizes).

Lemma zsum_app l1 l2 : zsum (l1 ++ l2) = zsum l1 + zsum l2.
Proof. unfold zsum. induction l1 as [|x l1 IH]; cbn; [done|]. rewrite IH. lia. Qed.

Lemma position_S sizes i s :
  sizes !! i = Some s → position sizes (S i) = position sizes i + s.
Proof.
  intros Hi. unfold position. rewrite (take_S_r _ _ _ Hi), zsum_app. cbn. lia.
Qed.

Lemma zsum_nonneg l : Forall (λ s, 1 <= s) l → Z.of_nat (length l) <= zsum l.
Proof. induction 1; cbn; unfold zsum in *; lia. Qed.

Lemma position_mono sizes i j :
  Forall (λ s, 1 <= s) sizes → (i <= j <= length sizes)%nat →
  position sizes i + Z.of_nat (j - i) <= position sizes j.
Proof.
  intros Hs Hij. unfold position.
  rewrite <- (take_drop i (take j sizes)), take_take, Nat.min_l, zsum_app by lia.
  pose proof (zsum_nonneg (drop i (take j sizes))) as Hn.
  rewrite length_drop, length_take_le in Hn by lia.
  apply Z.add_le_mono_l, Hn, Forall_drop, Forall_take, Hs.
Qed.

(** The in-place loop after [m] iterations. *)
Lemma positions_loop sizes m :
  (m <= length sizes)%nat →
  let pos := foldl (λ pos i, <[i := pos !!! (i - 1)%nat + sizes !!! (i - 1)%nat]> pos)
               (replicate (length sizes + 1) 0) (seq 1 m) in
  length pos = (length sizes + 1)%nat ∧
  ∀ i, (i <= m)%nat → pos !! i = Some (position sizes i).
Proof.
  induction m as [|m IH]; intros Hm; cbn zeta.
  - split; [apply length_replicate|]. intros i Hi. assert (i = 0%nat) as -> by lia.
    cbn. rewrite lookup_replicate_2 by lia. done.
  - destruct IH as [Hlen IH]; [lia|]. rewrite seq_S, foldl_app. cbn [foldl].
    set (pos := foldl _ _ _) in *. rewrite length_insert. split; [done|].
    destruct (lookup_lt_is_Some_2 sizes m) as [s Hs]; [lia|].
    replace (1 + m - 1)%nat with m by lia.
    pose proof (IH m ltac:(lia)) as Hp.
    rewrite (list_lookup_total_correct pos m _ Hp),
      (list_lookup_total_correct sizes m _ Hs), <- (position_S _ _ _ Hs).
    intros i Hi. destruct (decide (i = S m)) as [->|].
    + by rewrite list_lookup_insert_eq by lia.
    + rewrite list_lookup_insert_ne by lia. apply IH. lia.
Qed.

Lemma positions_lookup sizes i :
  (i <= length sizes)%nat → _positions sizes !! i = Some (position sizes i).
Proof. by apply positions_loop. Qed.

Lemma positions_getitem sizes (i : nat) :
  (i <= length sizes)%nat →
  list_getitem (_positions sizes) (PyInt (Z.of_nat i)) = Ok (position sizes i).
Proof. intros. rewrite list_getitem_nat, positions_lookup by done. done. Qed.

(** ** Well-formed programs *)

(** The invariant the dataclass constructors establish. *)
Definition insn_ok (insn : Insn) : Prop :=
  match insn with
  | Load k | And k | Ret k => 0 <= k <= _U32_MAX
  | Jump op k _ _ => op ∈ _JUMP_OPS ∧ 0 <= k <= _U32_MAX
  | Ja _ | InsnBase => True
  end.

(** [t] names an instruction of an [n]-instruction program, or its end. *)
Definition target_at (labels : gmap string pyobj) (n : nat) (t : string) (j : nat) : Prop :=
  labels !! t = Some (PyInt (Z.of_nat j)) ∧ (j <= n)%nat.

(** Every jump names a later position. *)
Definition forward_program (insns : list Insn) (labels : gmap string pyobj) : Prop :=
  ∀ i insn, insns !! i = Some insn →
    ∀ t, t ∈ _targets insn → ∃ j, target_at labels (length insns) t j ∧ (i < j)%nat.

(** Some jump names its own position or an earlier one. *)
Definition backward_jump (insns : list Insn) (labels : gmap string pyobj) : Prop :=
  ∃ i insn t j, insns !! i = Some insn ∧ t ∈ _targets insn ∧
    target_at labels (length insns) t j ∧ (j <= i)%nat.

(** The error [assemble] reports for such a jump. *)
Definition backward_error (insns : list Insn) (labels : gmap string pyobj) (e : exn) : Prop :=
  e = ValueError "backward jump to label" ∧ backward_jump insns labels.

(** Where a jump of instruction [i] to [target] continues; no target means the
    next instruction. *)
Definition dest (labels : gmap string pyobj) (n i : nat) (target : option string) (j : nat) : Prop :=
  match target with
  | None => j = S i
  | Some t => target_at labels n t j ∧ (i < j)%nat
  end.

Lemma dest_det labels n i t j j' : dest labels n i t j → dest labels n i t j' → j = j'.
Proof. destruct t; cbn; unfold target_at; [|congruence]. intros [[? _] _] [[? _] _]. simplify_eq. lia. Qed.

(** Identify two destinations of the same jump. *)
Ltac same_dest :=
  repeat match goal with
  | H1 : dest ?l ?n ?i ?o ?x, H2 : dest ?l ?n ?i ?o ?y |- _ =>
      let E := fresh in
      assert (x = y) as E by (exact (dest_det l n i o x y H1 H2));
      clear H1; first [subst x | subst y]
  end.

(** ** Validation of labels *)

Lemma foldM_unit {A} (f : A → result unit) l :
  foldM (λ _ x, f x) tt l = Ok tt ↔ Forall (λ x, f x = Ok tt) l.
Proof.
  induction l as [|x l IH]; cbn; [by split; constructor|].
  rewrite Forall_cons, <- IH. destruct (f x) as [[]|e]; naive_solver.
Qed.

Lemma foldM_unit_raise {A} (f : A → result unit) l e :
  foldM (λ _ x, f x) tt l = Raise e → ∃ x, x ∈ l ∧ f x = Raise e.
Proof.
  induction l as [|x l IH]; cbn; [done|]. destruct (f x) as [[]|e'] eqn:E; cbn.
  - intros H. destruct (IH H) as (y & Hy & ?). exists y. by rewrite elem_of_cons; auto.
  - intros [= ->]. exists x. by rewrite elem_of_cons; auto.
Qed.

Lemma validate_labels_ok insns labels :
  _validate_labels insns labels = Ok tt ↔
  ∀ insn t, insn ∈ insns → t ∈ _targets insn → ∃ j, target_at labels (length insns) t j.
Proof.
  unfold _validate_labels. rewrite foldM_unit, Forall_forall.
  setoid_rewrite foldM_unit. setoid_rewrite Forall_forall.
  assert (∀ t, match labels !! t with
      | None => Raise (ValueError "undefined label")
      | Some idx => match int_between 0 (Z.of_nat (length insns)) idx with
          | None => Raise (ValueError "label out of range") | Some _ => Ok tt end
      end = Ok tt ↔ ∃ j, target_at labels (length insns) t j) as Ht.
  { intros t. unfold target_at. destruct (labels !! t) as [v|]; [|naive_solver].
    destruct (int_between _ _ v) as [z|] eqn:E.
    - apply int_between_Some in E as [-> Hz]. split; [|done]. intros _.
      exists (Z.to_nat z). rewrite Z2Nat.id by lia. split; [done|lia].
    - split; [done|]. intros (j & [= ->] & Hj).
      rewrite int_between_PyInt in E by lia. done. }
  setoid_rewrite Ht. naive_solver.
Qed.

(** Some jump names a label that is missing, or whose value is not a position
    of the program. *)
Definition undefined_label (insns : list Insn) (labels : gmap string pyobj) : Prop :=
  ∃ insn t, insn ∈ insns ∧ t ∈ _targets insn ∧ labels !! t = None.

Definition label_out_of_range (insns : list Insn) (labels : gmap string pyobj) : Prop :=
  ∃ insn t v, insn ∈ insns ∧ t ∈ _targets insn ∧ labels !! t = Some v ∧
    ∀ j : nat, (j <= length insns)%nat → v ≠ PyInt (Z.of_nat j).

(** A failed validation is one of the two documented errors. *)
Lemma validate_labels_raise insns labels e :
  _validate_labels insns labels = Raise e →
  e = ValueError "undefined label" ∧ undefined_label insns labels ∨
  e = ValueError "label out of range" ∧ label_out_of_range insns labels.
Proof.
  intros H. apply foldM_unit_raise in H as (insn & Hin & H).
  apply foldM_unit_raise in H as (t & Ht & H).
  destruct (labels !! t) as [v|] eqn:El; [|injection H as <-; left; split; [done|by exists insn, t]].
  destruct (int_between _ _ v) eqn:Ei; [done|]. injection H as <-. right. split; [done|].
  exists insn, t, v. split_and!; [done..|]. intros j Hj ->.
  by rewrite int_between_PyInt in Ei by lia.
Qed.

(** ** Offsets *)

Section offsets.
Context (labels : gmap string pyobj) (sizes : list Z).
Context (Hsizes : Forall (λ s, 1 <= s) sizes).
Abbreviation n := (length sizes).

Lemma offset_some t i j :
  target_at labels n t j → (i <= n)%nat →
  _offset (Some t) labels (_positions sizes) i =
    if decide (i < j)%nat then Ok (Some (position sizes j - position sizes i - 1))
    else Raise (ValueError "backward jump to label").
Proof using Hsizes.
  intros [Ht Hj] Hi. unfold _offset, dict_getitem. rewrite Ht. cbn [or_raise mbind result_bind].
  rewrite !positions_getitem by done. cbn [mbind result_bind].
  case_decide.
  - pose proof (position_mono sizes i j Hsizes). destruct (_ <? _) eqn:E; bool_to_prop; [lia|done].
  - pose proof (position_mono sizes j i Hsizes). destruct (_ <? _) eqn:E; bool_to_prop; [done|lia].
Qed.

(** A valid target is either ahead, at a computed distance, or rejected. *)
Lemma offset_cases o i :
  (∀ t, o = Some t → ∃ j, target_at labels n t j) → (i < n)%nat →
  (∃ j, dest labels n i o j ∧
     _offset o labels (_positions sizes) i =
       Ok (match o with None => None | Some _ => Some (position sizes j - position sizes i - 1) end)) ∨
  (_offset o labels (_positions sizes) i = Raise (ValueError "backward jump to label") ∧
   ∃ t j, o = Some t ∧ target_at labels n t j ∧ (j <= i)%nat).
Proof using Hsizes.
  intros Ho Hi. destruct o as [t|]; [|left; by exists (S i)].
  destruct (Ho t eq_refl) as [j Hj]. rewrite (offset_some t i j Hj) by lia.
  case_decide; [left; by exists j|right]. split; [done|]. exists t, j. split_and!; [done..|lia].
Qed.

Lemma offset_ok o i r :
  (∀ t, o = Some t → ∃ j, target_at labels n t j) → (i < n)%nat →
  _offset o labels (_positions sizes) i = Ok r →
  ∃ j, dest labels n i o j ∧
    r = match o with None => None | Some _ => Some (position sizes j - position sizes i - 1) end.
Proof using Hsizes.
  intros Ho Hi Hr. destruct (offset_cases o i Ho Hi) as [(j & Hd & E)|[E _]];
    rewrite E in Hr; simplify_eq. eauto.
Qed.

Lemma offset_forward o i j :
  dest labels n i o j → (i < n)%nat →
  _offset o labels (_positions sizes) i =
    Ok (match o with None => None | Some _ => Some (position sizes j - position sizes i - 1) end).
Proof using Hsizes.
  intros Hd Hi. destruct o as [t|]; [|done]. destruct Hd as [Ht Hlt].
  rewrite (offset_some t i j Ht) by lia. by rewrite decide_True.
Qed.
End offsets.

(** ** Jump resolution *)

Definition expandable (insn : Insn) : Prop :=
  ∃ op k jt jf, insn = Jump op k jt jf ∧ (is_Some jt ∨ is_Some jf).

(** A slot is either unexpanded or has the size of its trampoline. *)
Definition size_ok (insn : Insn) (s : Z) : Prop :=
  s = 1 ∨ expandable insn ∧
    match insn with Jump _ _ jt jf => s = _expanded_size jt jf | _ => False end.

Definition sizes_ok (insns : list Insn) (sizes : list Z) : Prop := Forall2 size_ok insns sizes.

Lemma expanded_size_range jt jf : 2 <= _expanded_size jt jf <= 3.
Proof. destruct jt, jf; cbn; lia. Qed.

Lemma size_ok_range insn s : size_ok insn s → 1 <= s <= 3.
Proof.
  intros [->|[_ H]]; [lia|]. destruct insn; try done. subst.
  pose proof (expanded_size_range jt jf). lia.
Qed.

Lemma sizes_ok_pos insns sizes : sizes_ok insns sizes → Forall (λ s, 1 <= s) sizes.
Proof. induction 1 as [|? ? ? ? Hs]; constructor; [|done]. apply size_ok_range in Hs. lia. Qed.

Lemma sizes_ok_length insns sizes : sizes_ok insns sizes → length sizes = length insns.
Proof. intros H. symmetry. by apply Forall2_length in H. Qed.

Lemma sizes_ok_replicate insns : sizes_ok insns (replicate (length insns) 1).
Proof. induction insns; cbn; constructor; [by left|done]. Qed.

Lemma sizes_ok_total insns sizes :
  sizes_ok insns sizes → ∀ i, position sizes i <= 3 * Z.of_nat (length insns).
Proof.
  unfold position. induction 1 as [|insn s insns sizes Hs _ IH]; intros i; cbn [length].
  - rewrite take_nil. cbn. lia.
  - destruct i as [|i]; cbn [take zsum foldr].
    + lia.
    + specialize (IH i). apply size_ok_range in Hs. unfold zsum in *. lia.
Qed.

(** How many slots have been expanded: the quantity that bounds the passes. *)
Definition expanded (sizes : list Z) : nat := length (filter (λ s, 1 < s) sizes).

Lemma expanded_le sizes : (expanded sizes <= length sizes)%nat.
Proof. apply length_filter. Qed.

Lemma expanded_insert sizes i s s' :
  sizes !! i = Some s → s <= 1 → 1 < s' → expanded (<[i := s']> sizes) = S (expanded sizes).
Proof.
  intros Hi Hs Hs'. unfold expanded.
  rewrite insert_take_drop by (by eapply lookup_lt_Some).
  rewrite <- (take_drop_middle sizes i s Hi) at 3.
  rewrite !filter_app, !length_app, !filter_cons, decide_True, decide_False by lia.
  cbn [length]. lia.
Qed.

Lemma needs_expansion_jump jt jf labels pos i :
  _needs_expansion jt jf labels pos i = Ok true → is_Some jt ∨ is_Some jf.
Proof. destruct jt, jf; cbn; [eauto..|done]. Qed.

Section resolve.
Context (insns : list Insn) (labels : gmap string pyobj).
Context (Hvalid : _validate_labels insns labels = Ok tt).
Abbreviation n := (length insns).

Lemma jump_targets_valid i op k jt jf o t :
  insns !! i = Some (Jump op k jt jf) → o = jt ∨ o = jf → o = Some t →
  ∃ j, target_at labels n t j.
Proof using Hvalid.
  intros Hi Ho ->. apply (proj1 (validate_labels_ok insns labels) Hvalid (Jump op k jt jf)).
  - by eapply list_elem_of_lookup_2.
  - cbn. rewrite elem_of_app. destruct Ho as [<-|<-]; [left|right]; cbn; apply list_elem_of_singleton; done.
Qed.

(** What a pass from instruction [i] on, started with [(sizes, changed)] and
    ended with [(sizes', changed')], guarantees: it only expands, it reports
    every expansion, and a pass that reports none leaves no jump too far. *)
Record pass_post (pos : list Z) (i : nat) (sizes : list Z) (changed : bool)
    (sizes' : list Z) (changed' : bool) : Prop := {
  pass_sizes : sizes_ok insns sizes';
  pass_mono : (expanded sizes <= expanded sizes')%nat;
  pass_strict : (changed' = true → changed = false → expanded sizes < expanded sizes')%nat;
  pass_same : changed' = false → changed = false ∧ sizes' = sizes;
  pass_near : changed' = false → ∀ j op k jt jf, (i <= j)%nat →
    insns !! j = Some (Jump op k jt jf) → sizes !!! j <= 1 →
    _needs_expansion jt jf labels pos j = Ok false }.

Lemma pass_nil pos sizes changed i :
  sizes_ok insns sizes → drop i insns = [] → pass_post pos i sizes changed sizes changed.
Proof.
  intros Hs Hrest. split; [done|lia|by intros ->|done|].
  intros _ j op k jt jf Hj Hlk. apply lookup_lt_Some in Hlk.
  apply (f_equal length) in Hrest. rewrite length_drop in Hrest. cbn in Hrest. lia.
Qed.

Lemma pass_cons pos i insn sizes changed sizes1 changed1 sizes2 changed2 :
  insns !! i = Some insn →
  (expanded sizes <= expanded sizes1)%nat →
  (changed1 = true → changed = false → expanded sizes < expanded sizes1)%nat →
  (changed1 = false → changed = false ∧ sizes1 = sizes) →
  (∀ op k jt jf, insn = Jump op k jt jf → changed1 = false →
     sizes !!! i <= 1 → _needs_expansion jt jf labels pos i = Ok false) →
  pass_post pos (S i) sizes1 changed1 sizes2 changed2 →
  pass_post pos i sizes changed sizes2 changed2.
Proof.
  intros Hi Hle Hlt Hf Hj [HA HB HC HD HE]. split; [done|lia|..].
  - intros Hc2 Hc. destruct changed1; [specialize (Hlt eq_refl Hc); lia|].
    specialize (HC Hc2 eq_refl). destruct (Hf eq_refl) as [_ ->]. lia.
  - intros Hc2. destruct (HD Hc2) as (-> & ->). by apply Hf.
  - intros Hc2. destruct (HD Hc2) as (-> & ->). destruct (Hf eq_refl) as [-> ->].
    intros j op k jt jf Hij Hlk Hsz.
    destruct (decide (i = j)) as [<-|]; [|apply (HE Hc2 j op k); [lia|done..]].
    rewrite Hi in Hlk. simplify_eq. by eapply Hj.
Qed.

Lemma jump_backward sizes0 i op k jt jf o t j :
  sizes_ok insns sizes0 → insns !! i = Some (Jump op k jt jf) → o = jt ∨ o = jf → o = Some t →
  target_at labels (length sizes0) t j → (j <= i)%nat → backward_jump insns labels.
Proof.
  intros H0 Hi Ho -> Ht Hj. rewrite (sizes_ok_length _ _ H0) in Ht.
  exists i, (Jump op k jt jf), t, j. split_and!; [done| |done|done].
  cbn. rewrite elem_of_app. destruct Ho as [<-|<-]; cbn; rewrite list_elem_of_singleton; auto.
Qed.

(** The size test of a jump can only fail on a backward label. *)
Lemma needs_expansion_raise sizes0 i op k jt jf e :
  sizes_ok insns sizes0 → insns !! i = Some (Jump op k jt jf) →
  _needs_expansion jt jf labels (_positions sizes0) i = Raise e →
  backward_error insns labels e.
Proof using Hvalid.
  intros H0 Hi En. unfold _needs_expansion in En.
  pose proof (sizes_ok_pos _ _ H0) as Hp. pose proof (sizes_ok_length _ _ H0) as Hlen0.
  pose proof (lookup_lt_Some _ _ _ Hi) as Hlt.
  assert (∀ o, o = jt ∨ o = jf → ∀ t, o = Some t → ∃ j, target_at labels (length sizes0) t j) as Hv.
  { intros o Ho t Ht. rewrite Hlen0. by eapply jump_targets_valid. }
  assert (∀ o, o = jt ∨ o = jf → ∀ e, _offset o labels (_positions sizes0) i = Raise e →
    backward_error insns labels e) as Hoff.
  { intros o Ho e' He'.
    destruct (offset_cases labels sizes0 Hp o i (Hv o Ho) ltac:(lia))
      as [(j & _ & Ej)|[Ej (t & j & Ht & Hj & Hle)]]; [congruence|].
    split; [congruence|]. by eapply jump_backward. }
  destruct (_offset jt _ _ _) as [r|e'] eqn:Ej; cbn [mbind result_bind] in En;
    [|injection En as <-; by apply (Hoff jt); auto].
  destruct (match r with Some o => _ | None => _ end); [done|].
  destruct (_offset jf _ _ _) as [r'|e'] eqn:Ej'; cbn [mbind result_bind] in En; [done|].
  injection En as <-. by apply (Hoff jf); auto.
Qed.

(** The state after expanding the jump at [i]. *)
Lemma expand_at sizes i op k jt jf :
  sizes_ok insns sizes → insns !! i = Some (Jump op k jt jf) →
  sizes !!! i <= 1 → is_Some jt ∨ is_Some jf →
  let sizes' := <[i := _expanded_size jt jf]> sizes in
  sizes_ok insns sizes' ∧ expanded sizes' = S (expanded sizes).
Proof.
  intros Hs Hi Hle Hsome. cbn zeta. pose proof (expanded_size_range jt jf).
  destruct (lookup_lt_is_Some_2 sizes i) as [s Hsi].
  { rewrite (sizes_ok_length _ _ Hs). by eapply lookup_lt_Some. }
  rewrite (list_lookup_total_correct sizes i s Hsi) in Hle. split.
  - unfold sizes_ok. rewrite <- (list_insert_id insns i _ Hi). apply Forall2_insert; [done|].
    right. split; [|done]. by exists op, k, jt, jf.
  - apply (expanded_insert _ _ s); [done|lia..].
Qed.

Ltac pass_solve := try eassumption; intros; simplify_eq; try done; lia || congruence || auto.

(** One pass over the instructions from [i] on. *)
Lemma resolve_pass sizes0 rest i sizes changed :
  sizes_ok insns sizes0 → sizes_ok insns sizes → drop i insns = rest →
  let pos := _positions sizes0 in
  match foldM (_resolve_insn labels pos) (sizes, changed) (enumerate_from i rest) with
  | Raise e => backward_error insns labels e
  | Ok (sizes', changed') => pass_post pos i sizes changed sizes' changed'
  end.
Proof using Hvalid.
  intros H0. cbn zeta. revert i sizes changed.
  induction rest as [|insn rest IH]; intros i sizes changed Hs Hrest; [by apply pass_nil|].
  assert (insns !! i = Some insn) as Hi.
  { pose proof (lookup_drop insns i 0) as Hl. rewrite Hrest, Nat.add_0_r in Hl. done. }
  assert (drop (S i) insns = rest) as Hrest'.
  { by erewrite drop_S in Hrest by done; simplify_eq. }
  cbn [enumerate_from foldM]. unfold _resolve_insn at 2.
  assert (∀ sizes1 changed1, sizes_ok insns sizes1 →
    (∀ sizes2 changed2, pass_post (_positions sizes0) (S i) sizes1 changed1 sizes2 changed2 →
       pass_post (_positions sizes0) i sizes changed sizes2 changed2) →
    match foldM (_resolve_insn labels (_positions sizes0)) (sizes1, changed1)
            (enumerate_from (S i) rest) with
    | Raise e => backward_error insns labels e
    | Ok (sizes', changed') => pass_post (_positions sizes0) i sizes changed sizes' changed'
    end) as Hstep.
  { intros sizes1 changed1 Hs1 Hpost. specialize (IH (S i) sizes1 changed1 Hs1 Hrest').
    destruct (foldM _ _ _) as [[]|]; auto. }
  destruct insn as [| |op k jt jf| | |];
    try (apply Hstep; [done|]; intros ?? Hp; eapply pass_cons; pass_solve).
  destruct (1 <? sizes !!! i) eqn:E1; bool_to_prop.
  { apply Hstep; [done|]. intros ?? Hp. eapply pass_cons; pass_solve. }
  destruct (_needs_expansion _ _ _ _ _) as [[]|e] eqn:En; cbn [mbind result_bind].
  - destruct (expand_at sizes i op k jt jf Hs Hi E1) as [Hs1 Hex];
      [by eapply needs_expansion_jump|].
    apply Hstep; [done|]. intros ?? Hp. eapply pass_cons; pass_solve.
  - apply Hstep; [done|]. intros ?? Hp. eapply pass_cons; pass_solve.
  - exact (needs_expansion_raise sizes0 i op k jt jf e H0 Hi En).
Qed.

(** The fixed point: every jump still in one slot reaches its targets. *)
Definition resolved (sizes : list Z) : Prop :=
  sizes_ok insns sizes ∧
  ∀ i op k jt jf, insns !! i = Some (Jump op k jt jf) → sizes !!! i <= 1 →
    _needs_expansion jt jf labels (_positions sizes) i = Ok false.

(** Each pass that changes anything expands a further slot, so one more pass
    than there are unexpanded slots always suffices. *)
Lemma resolve_loop_ok n sizes :
  sizes_ok insns sizes → (length insns - expanded sizes < n)%nat →
  match _resolve_loop insns labels n sizes with
  | Raise e => backward_error insns labels e
  | Ok sizes' => resolved sizes'
  end.
Proof using Hvalid.
  revert sizes. induction n as [|n IH]; intros sizes Hs Hn; [lia|]. cbn [_resolve_loop].
  pose proof (resolve_pass sizes insns 0 sizes false Hs Hs eq_refl) as Hp.
  cbn zeta in Hp. destruct (foldM _ _ _) as [[sizes' changed']|e]; [|done].
  destruct Hp as [HA HB HC HD HE]. cbn [mbind result_bind]. destruct changed'.
  - apply IH; [done|]. specialize (HC eq_refl eq_refl).
    pose proof (expanded_le sizes'). rewrite (sizes_ok_length _ _ HA) in *. lia.
  - destruct (HD eq_refl) as [_ ->]. split; [done|].
    intros i op k jt jf. apply (HE eq_refl i op k). lia.
Qed.

Lemma resolve_sizes_ok :
  match _resolve_sizes insns labels with
  | Raise e => backward_error insns labels e
  | Ok sizes => resolved sizes
  end.
Proof using Hvalid. apply resolve_loop_ok; [apply sizes_ok_replicate|lia]. Qed.
End resolve.
