(* ===== verification/BpfLayout.v ===== *)
(** * The assembler: the emitted records

    Each instruction becomes one record or, for a far jump, a hop over
    trampolines; the program is the concatenation of these chunks at the
    positions jump resolution chose. *)

From S2P Require Import Prelude PyBytes Machine Bpf BpfSem BpfResolve.

(** ** What is emitted *)

(** The records written for instruction [i], given the position [P] of every
    instruction: one record, or a hop over one or two unconditional jumps. *)
Inductive emits (labels : gmap string pyobj) (n : nat) (P : nat → Z) (i : nat) :
    Insn → list sock_filter → Prop :=
| emits_Load k : emits labels n P i (Load k) [SockFilter BPF_LD_ABS_W 0 0 k]
| emits_And k : emits labels n P i (And k) [SockFilter BPF_ALU_AND_K 0 0 k]
| emits_Ret k : emits labels n P i (Ret k) [SockFilter BPF_RET_K 0 0 k]
| emits_Ja t j :
    dest labels n i (Some t) j →
    emits labels n P i (Ja t) [SockFilter BPF_JA 0 0 (P j - P i - 1)]
| emits_near op k jt jf j j' :
    dest labels n i jt j → dest labels n i jf j' → P (S i) = P i + 1 →
    emits labels n P i (Jump op k jt jf) [SockFilter op (P j - P i - 1) (P j' - P i - 1) k]
| emits_far_false op k f j :
    dest labels n i (Some f) j →
    emits labels n P i (Jump op k None (Some f))
      [SockFilter op 1 0 k; SockFilter BPF_JA 0 0 (P j - (P i + 1) - 1)]
| emits_far_true op k t j :
    dest labels n i (Some t) j →
    emits labels n P i (Jump op k (Some t) None)
      [SockFilter op 0 1 k; SockFilter BPF_JA 0 0 (P j - (P i + 1) - 1)]
| emits_far_both op k t f j j' :
    dest labels n i (Some t) j → dest labels n i (Some f) j' →
    emits labels n P i (Jump op k (Some t) (Some f))
      [SockFilter op 0 1 k; SockFilter BPF_JA 0 0 (P j - (P i + 1) - 1);
       SockFilter BPF_JA 0 0 (P j' - (P i + 2) - 1)].

Lemma pack_record_single f : pack_record f = pack_all [f].
Proof. rewrite pack_all_cons. change (pack_all []) with (@nil Z). by rewrite app_nil_r. Qed.

Section emission.
Context (insns : list Insn) (labels : gmap string pyobj) (sizes : list Z).
Context (Hvalid : _validate_labels insns labels = Ok tt).
Context (Hres : resolved insns labels sizes).
Abbreviation n := (length insns).
Abbreviation P := (position sizes).
Abbreviation pos := (_positions sizes).

#[local] Lemma Hsizes : Forall (λ s, 1 <= s) sizes.
Proof using Hres. eapply sizes_ok_pos, Hres. Qed.

#[local] Lemma Hlen : length sizes = n.
Proof using Hres. eapply sizes_ok_length, Hres. Qed.

Lemma emit_offset o i r :
  (∀ t, o = Some t → ∃ j, target_at labels n t j) → (i < n)%nat →
  _offset o labels pos i = Ok r →
  ∃ j, dest labels n i o j ∧ r = match o with None => None | Some _ => Some (P j - P i - 1) end.
Proof using Hres. rewrite <- Hlen. apply offset_ok, Hsizes. Qed.

Lemma ja_bytes_ok o p bs :
  (∀ t, o = Some t → ∃ j, target_at labels n t j) →
  _ja_bytes o labels pos p = Ok bs →
  ∃ t j, o = Some t ∧ target_at labels n t j ∧ 0 <= P j - p - 1 < 2 ^ 32 ∧
    bs = pack_record (SockFilter BPF_JA 0 0 (P j - p - 1)).
Proof using Hres.
  intros Ho Hbs. destruct o as [t|]; [|done]. destruct (Ho t eq_refl) as (j & Ht & Hj).
  unfold _ja_bytes, dict_getitem in Hbs. rewrite Ht in Hbs. cbn [or_raise mbind result_bind] in Hbs.
  rewrite positions_getitem in Hbs by (by rewrite Hlen). cbn [mbind result_bind] in Hbs.
  destruct (_ || _) eqn:E; [done|]. bool_to_prop.
  apply struct_pack_HBBI_ok in Hbs as [_ ->]. exists t, j. split_and!; done || lia.
Qed.

(** A chunk of records that stands for instruction [i]. *)
Definition chunk (i : nat) (insn : Insn) (fs : list sock_filter) : Prop :=
  emits labels n P i insn fs ∧ Z.of_nat (length fs) = sizes !!! i ∧ Forall sock_filter_ok fs.

Lemma size_at i insn : insns !! i = Some insn → size_ok insn (sizes !!! i).
Proof using Hres.
  intros Hi. destruct Hres as [Hs _].
  destruct (Forall2_lookup_l _ _ _ _ _ Hs Hi) as (s & Hsi & Hok).
  by rewrite (list_lookup_total_correct sizes i s Hsi).
Qed.

Lemma position_next i : (i < n)%nat → P (S i) = P i + sizes !!! i.
Proof using Hres.
  intros Hi. destruct (lookup_lt_is_Some_2 sizes i) as [s Hs]; [by rewrite Hlen|].
  by rewrite (position_S _ _ _ Hs), (list_lookup_total_correct sizes i s Hs).
Qed.

Lemma emit_near i op k jt jf bs :
  insns !! i = Some (Jump op k jt jf) → insn_ok (Jump op k jt jf) → sizes !!! i = 1 →
  _emit (Jump op k jt jf) labels pos i 1 = Ok bs →
  ∃ fs, chunk i (Jump op k jt jf) fs ∧ bs = pack_all fs.
Proof using Hvalid Hres.
  intros Hi Hok Hsz Hbs. cbn [_emit] in Hbs. inv_ok.
  pose proof (lookup_lt_Some _ _ _ Hi) as Hlt.
  pose proof (jump_targets_valid insns labels Hvalid i op k jt jf) as Hv.
  pose proof (position_next i Hlt) as HPS. rewrite Hsz in HPS.
  apply emit_offset in E as (j & Hj & ->); [|by eauto|done].
  apply emit_offset in E0 as (j' & Hj' & ->); [|by eauto|done].
  cbn [Z.eqb] in Hbs. change (1 =? 1) with true in Hbs. cbn iota in Hbs.
  assert (∀ o j, dest labels n i o j →
    or_zero match o with Some _ => Some (P j - P i - 1) | None => None end = P j - P i - 1) as Hz.
  { intros [t|] ? Hd; cbn; [done|]. cbn in Hd. subst. lia. }
  rewrite (Hz _ _ Hj), (Hz _ _ Hj') in Hbs.
  destruct (_ || _) eqn:Eb; [done|]. bool_to_prop.
  apply struct_pack_HBBI_ok in Hbs as [Hf ->].
  eexists. rewrite pack_record_single. split; [|reflexivity].
  split_and!; [by apply emits_near|by rewrite Hsz|by cbn [app]; auto 10 using Forall_cons_2, Forall_nil_2].
Qed.

Lemma emit_far i op k jt jf bs :
  insns !! i = Some (Jump op k jt jf) → insn_ok (Jump op k jt jf) →
  is_Some jt ∨ is_Some jf → sizes !!! i = _expanded_size jt jf →
  (∀ t, jt = Some t ∨ jf = Some t → ∃ j, dest labels n i (Some t) j) →
  _emit_expanded op k jt jf labels pos i = Ok bs →
  ∃ fs, chunk i (Jump op k jt jf) fs ∧ bs = pack_all fs.
Proof using Hvalid Hres.
  intros Hi Hok Hsome Hsz Hfwd Hbs. unfold _emit_expanded in Hbs.
  pose proof (lookup_lt_Some _ _ _ Hi) as Hlt.
  rewrite positions_getitem in Hbs by (rewrite Hlen; lia). cbn [mbind result_bind] in Hbs.
  assert (∀ t bs p, jt = Some t ∨ jf = Some t → _ja_bytes (Some t) labels pos p = Ok bs →
    ∃ j, dest labels n i (Some t) j ∧ sock_filter_ok (SockFilter BPF_JA 0 0 (P j - p - 1)) ∧
      bs = pack_record (SockFilter BPF_JA 0 0 (P j - p - 1))) as Hja.
  { intros t bs0 p Ht Hb. destruct (Hfwd t Ht) as (j & Hd).
    apply ja_bytes_ok in Hb as (t' & j' & [= <-] & Ht' & Hr & ->);
      [|intros t' [= <-]; exists j; apply Hd].
    assert (j' = j) as -> by (destruct Hd as [[] _], Ht'; simplify_eq; lia).
    exists j. split_and!; [done| |done]. unfold sock_filter_ok, is_byte; cbn. unfold BPF_JA. lia. }
  destruct jt as [t|]; [|destruct jf as [f|]; [|by destruct Hsome as [[? ?]|[? ?]]]]; inv_ok.
  - destruct (Hja t a0 (P i + 1) (or_introl eq_refl) E0) as (j & Hd & Hok1 & ->).
    apply struct_pack_HBBI_ok in E as [Hok0 ->].
    destruct jf as [f|]; inv_ok.
    + destruct (Hja f a (P i + 2) (or_intror eq_refl) E) as (j' & Hd' & Hok2 & ->).
      eexists. split; [|rewrite !pack_record_single, <- !pack_all_app; reflexivity].
      split_and!; [by apply emits_far_both|by rewrite Hsz|by cbn [app]; auto 10 using Forall_cons_2, Forall_nil_2].
    + eexists. split; [|rewrite !pack_record_single, <- !pack_all_app; reflexivity].
      split_and!; [by apply emits_far_true|by rewrite Hsz|by cbn [app]; auto 10 using Forall_cons_2, Forall_nil_2].
  - destruct (Hja f a0 (P i + 1) (or_intror eq_refl) E0) as (j & Hd & Hok1 & ->).
    apply struct_pack_HBBI_ok in E as [Hok0 ->].
    eexists. split; [|rewrite !pack_record_single, <- !pack_all_app; reflexivity].
    split_and!; [by apply emits_far_false|by rewrite Hsz|by cbn [app]; auto 10 using Forall_cons_2, Forall_nil_2].
Qed.

Lemma emit_ok i insn bs :
  insns !! i = Some insn → insn_ok insn →
  _emit insn labels pos i (sizes !!! i) = Ok bs →
  ∃ fs, chunk i insn fs ∧ bs = pack_all fs.
Proof using Hvalid Hres.
  intros Hi Hok Hbs. pose proof (lookup_lt_Some _ _ _ Hi) as Hlt.
  pose proof (size_at i insn Hi) as Hsz.
  destruct insn as [k|k|op k jt jf|t|k|]; cbn [_emit] in Hbs.
  1,2,5: apply struct_pack_HBBI_ok in Hbs as [Hf ->]; destruct Hsz as [Hsz|[_ []]];
    eexists; (split; [|apply pack_record_single]);
    split_and!; [by constructor|by rewrite Hsz|by cbn [app]; auto 10 using Forall_cons_2, Forall_nil_2].
  - destruct Hsz as [Hsz|[(?&?&?&?&[= <- <- <- <-]&Hsome) Hsz]].
    { rewrite Hsz in Hbs. by eapply emit_near. }
    pose proof (expanded_size_range jt jf). inv_ok.
    destruct (_ =? 1) eqn:E1; bool_to_prop; [lia|].
    pose proof (jump_targets_valid insns labels Hvalid i op k jt jf) as Hv.
    apply emit_offset in E as (j & Hj & _); [|by eauto|done].
    apply emit_offset in E0 as (j' & Hj' & _); [|by eauto|done].
    apply (emit_far i op k jt jf bs); auto. intros t [->| ->]; eauto.
  - destruct Hsz as [Hsz|[_ []]]. inv_ok. apply emit_offset in E as (j & Hj & ->); [..|done].
    + destruct (_ <? _) eqn:E2; [done|]. apply struct_pack_HBBI_ok in Hbs as [Hf ->].
      eexists. split; [|apply pack_record_single].
      split_and!; [by constructor|by rewrite Hsz|by cbn [app]; auto 10 using Forall_cons_2, Forall_nil_2].
    + intros t' [= <-]. apply (proj1 (validate_labels_ok insns labels) Hvalid (Ja t)).
      * by eapply list_elem_of_lookup_2.
      * cbn. by apply list_elem_of_singleton.
  - done.
Qed.
End emission.

(** ** The assembled program as a list of chunks *)

Record layout (insns : list Insn) (labels : gmap string pyobj) (sizes : list Z)
    (fss : list (list sock_filter)) : Prop := {
  layout_length : length fss = length insns;
  layout_chunk : ∀ i insn, insns !! i = Some insn →
    ∃ fs, fss !! i = Some fs ∧ chunk insns labels sizes i insn fs;
  layout_position : ∀ i, (i <= length insns)%nat →
    position sizes i = Z.of_nat (length (concat (take i fss)));
  layout_ok : Forall sock_filter_ok (concat fss) }.

Lemma emit_loop_ok insns labels sizes :
  _validate_labels insns labels = Ok tt → resolved insns labels sizes →
  Forall insn_ok insns →
  ∀ rest i out prog, drop i insns = rest →
    foldM (λ out '(i, insn), bs ← _emit insn labels (_positions sizes) i (sizes !!! i); Ok (out ++ bs))
      out (enumerate_from i rest) = Ok prog →
    ∃ fss, prog = out ++ pack_all (concat fss) ∧ length fss = length rest ∧
      ∀ j insn, rest !! j = Some insn →
        ∃ fs, fss !! j = Some fs ∧ chunk insns labels sizes (i + j) insn fs.
Proof.
  intros Hv Hr Hok rest. induction rest as [|insn rest IH]; intros i out prog Hd Hf.
  { cbn in Hf. inv_ok. exists []. by rewrite app_nil_r. }
  assert (insns !! i = Some insn) as Hi.
  { pose proof (lookup_drop insns i 0) as Hl. rewrite Hd, Nat.add_0_r in Hl. done. }
  assert (drop (S i) insns = rest) as Hd'.
  { by erewrite drop_S in Hd by done; simplify_eq. }
  cbn [enumerate_from foldM] in Hf. apply bind_ok in Hf as (out' & Hb & Hf).
  apply bind_ok in Hb as (bs & Hb & [= <-]).
  destruct (emit_ok insns labels sizes Hv Hr i insn bs Hi) as (fs & Hc & ->);
    [by eapply Forall_lookup_1|done|].
  destruct (IH (S i) _ prog Hd' Hf) as (fss & -> & Hl & Hch).
  exists (fs :: fss). cbn [concat length]. rewrite pack_all_app, <- app_assoc.
  split_and!; [done|lia|]. intros [|j] insn' Hj; cbn in Hj.
  - simplify_eq. exists fs. rewrite Nat.add_0_r. done.
  - destruct (Hch j insn' Hj) as (fs' & Hfs' & Hc'). exists fs'.
    rewrite Nat.add_succ_r. done.
Qed.

Lemma concat_take_S {A} (fss : list (list A)) i fs :
  fss !! i = Some fs → concat (take (S i) fss) = concat (take i fss) ++ fs.
Proof. intros Hi. rewrite (take_S_r _ _ _ Hi), concat_app. cbn. by rewrite app_nil_r. Qed.

Lemma concat_lookup {A} (fss : list (list A)) i fs j x :
  fss !! i = Some fs → fs !! j = Some x →
  concat fss !! (length (concat (take i fss)) + j)%nat = Some x.
Proof.
  intros Hi Hj.
  assert (concat fss = concat (take (S i) fss) ++ concat (drop (S i) fss)) as ->
    by (by rewrite <- concat_app, take_drop).
  rewrite (concat_take_S _ _ _ Hi), <- app_assoc.
  rewrite lookup_app_r by lia. rewrite Nat.add_comm, Nat.add_sub.
  apply lookup_app_l_Some, Hj.
Qed.

Lemma assemble_layout insns labels prog :
  Forall insn_ok insns → assemble insns labels = Ok prog →
  ∃ sizes fss, _resolve_sizes insns labels = Ok sizes ∧ layout insns labels sizes fss ∧
    prog = pack_all (concat fss).
Proof.
  intros Hok Ha. unfold assemble in Ha. inv_ok. destruct a.
  pose proof (resolve_sizes_ok insns labels E) as Hr. rewrite E0 in Hr.
  destruct (emit_loop_ok insns labels a0 E Hr Hok insns 0 [] prog eq_refl Ha)
    as (fss & -> & Hl & Hch). cbn [app Nat.add] in Hch |- *.
  exists a0, fss. split_and!; [done| |done]. split; [done|done|..].
  - intros i. induction i as [|i IH]; intros Hi; [done|].
    destruct (lookup_lt_is_Some_2 insns i) as [insn Hin]; [lia|].
    destruct (Hch i insn Hin) as (fs & Hfs & _ & Hlen & _).
    rewrite (concat_take_S _ _ _ Hfs), length_app, Nat2Z.inj_add, <- IH, Hlen by lia.
    by eapply position_next.
  - apply Forall_concat, Forall_forall. intros fs Hfs.
    apply list_elem_of_lookup in Hfs as [i Hi].
    destruct (lookup_lt_is_Some_2 insns i) as [insn Hin];
      [rewrite <- Hl; by eapply lookup_lt_Some|].
    destruct (Hch i insn Hin) as (fs' & Hfs' & _ & _ & Hf). by simplify_eq.
Qed.
