(* ===== verification/BpfSim.v ===== *)
(** * The assembler: simulation

    The assembled bytes simulate the symbolic program: every source step is
    matched by one to three steps of the packed interpreter, and both machines
    halt with the same outcome. *)

From S2P Require Import Prelude PyBytes Machine Bpf BpfSem BpfResolve BpfLayout.

(** ** Simulation *)

Section simulate.
Context (insns : list Insn) (labels : gmap string pyobj) (sizes : list Z)
  (fss : list (list sock_filter)) (data : list Z).
Context (Hok : Forall insn_ok insns) (Hl : layout insns labels sizes fss).
Abbreviation n := (length insns).
Abbreviation P := (position sizes).
Abbreviation fs := (concat fss).
Abbreviation src := (source_step insns labels data).
Abbreviation tgt := (packed_step (pack_all fs) data).

(** Source and target agree on the accumulator, and the target is at the
    first record of the source instruction. *)
Definition match_config (c d : config) : Prop :=
  acc c = acc d ∧ ∃ i : nat, pc c = Z.of_nat i ∧ (i <= n)%nat ∧ pc d = P i.

Lemma match_at a i : (i <= n)%nat → match_config (Config a (Z.of_nat i)) (Config a (P i)).
Proof. intros. split; [done|]. by exists i. Qed.

(** The target step at record [j] of the chunk of instruction [i]. *)
Lemma tgt_step i insn ch j op t f kk a :
  insns !! i = Some insn → fss !! i = Some ch → ch !! j = Some (SockFilter op t f kk) →
  tgt (Config a (P i + Z.of_nat j)) =
    let p := P i + Z.of_nat j in
    if op =? BPF_LD_ABS_W then Next (Config (load_word data kk) (p + 1))
    else if op =? BPF_ALU_AND_K then Next (Config (Z.land a kk) (p + 1))
    else if op =? BPF_JA then Next (Config a (p + (1 + kk)))
    else match jump_cond op a kk with
         | Some b => Next (Config a (p + (1 + (if b then t else f))))
         | None => if op =? BPF_RET_K then Halt (Ok kk)
                   else Halt (Raise (AssertionError "bad opcode"))
         end.
Proof using Hl.
  intros Hi Hch Hj. pose proof (lookup_lt_Some _ _ _ Hi) as Hlt.
  rewrite (layout_position _ _ _ _ Hl) by lia. rewrite <- Nat2Z.inj_add.
  rewrite packed_step_at by apply Hl. by rewrite (concat_lookup _ _ _ _ _ Hch Hj).
Qed.

(** One trampoline slot: an unconditional jump to where [j'] starts. *)
Lemma tgt_ja i insn ch j kk a q :
  insns !! i = Some insn → fss !! i = Some ch →
  ch !! j = Some (SockFilter BPF_JA 0 0 kk) → q = P i + Z.of_nat j + (1 + kk) →
  steps_to tgt (Config a (P i + Z.of_nat j)) (Config a q).
Proof using Hl.
  intros Hi Hch Hj ->. unfold steps_to. by rewrite (tgt_step i insn ch j _ _ _ _ _ Hi Hch Hj).
Qed.

(** The first record of an expanded or plain conditional jump. *)
Lemma tgt_cond i insn ch op t f kk a b q :
  insns !! i = Some insn → fss !! i = Some ch → ch !! 0%nat = Some (SockFilter op t f kk) →
  op ∈ _JUMP_OPS → jump_cond op a kk = Some b → q = P i + (1 + (if b then t else f)) →
  steps_to tgt (Config a (P i)) (Config a q).
Proof using Hl.
  intros Hi Hch H0 Hop Hb ->. destruct (jump_op_cases op Hop) as (E1 & E2 & E3).
  unfold steps_to. pose proof (tgt_step i insn ch 0 _ _ _ _ a Hi Hch H0) as Hs.
  rewrite Z.add_0_r in Hs. rewrite Hs. cbn zeta. by rewrite E1, E2, E3, Hb.
Qed.

(** A conditional jump reaches its destination in one, two or three steps. *)
Lemma tgt_jump i op k jt jf a b j :
  insns !! i = Some (Jump op k jt jf) → jump_cond op a k = Some b →
  dest labels n i (if b then jt else jf) j →
  rtc (steps_to tgt) (Config a (P i)) (Config a (P j)).
Proof using Hok Hl.
  intros Hi Hb Hd. destruct (layout_chunk _ _ _ _ Hl i _ Hi) as (ch & Hch & Hem & Hlen & _).
  pose proof (Forall_lookup_1 _ _ _ _ Hok Hi) as [Hop _].
  pose proof (lookup_lt_Some _ _ _ Hi) as Hlt.
  assert (P (S i) = P i + Z.of_nat (length ch)) as HPS.
  { rewrite !(layout_position _ _ _ _ Hl) by lia. rewrite (concat_take_S _ _ _ Hch), length_app. lia. }
  inversion Hem; subst; cbn [length] in HPS; destruct b; same_dest.
  - apply rtc_once. eapply tgt_cond; [done..|]. cbn iota. lia.
  - apply rtc_once. eapply tgt_cond; [done..|]. cbn iota. lia.
  - apply rtc_once. eapply tgt_cond; [done..|]. cbn in Hd. subst. cbn iota. lia.
  - eapply rtc_l; [eapply tgt_cond; done|]. apply rtc_once.
    apply (tgt_ja i _ _ 1 _ _ _ Hi Hch eq_refl). cbn iota. lia.
  - eapply rtc_l; [eapply tgt_cond; done|]. apply rtc_once.
    apply (tgt_ja i _ _ 1 _ _ _ Hi Hch eq_refl). cbn iota. lia.
  - apply rtc_once. eapply tgt_cond; [done..|]. cbn in Hd. subst. cbn iota. lia.
  - eapply rtc_l; [eapply tgt_cond; done|]. apply rtc_once.
    apply (tgt_ja i _ _ 1 _ _ _ Hi Hch eq_refl). cbn iota. lia.
  - eapply rtc_l; [eapply tgt_cond; done|]. apply rtc_once.
    apply (tgt_ja i _ _ 2 _ _ _ Hi Hch eq_refl). cbn iota. lia.
Qed.

Lemma source_step_at a (i : nat) :
  src (Config a (Z.of_nat i)) =
  match insns !! i with
  | None => Halt (Raise IndexError)
  | Some (Load k) => Next (Config (load_word data k) (Z.of_nat i + 1))
  | Some (And k) => Next (Config (Z.land a k) (Z.of_nat i + 1))
  | Some (Jump op k jt jf) =>
      match jump_cond op a k with
      | None => Halt (Raise (KeyError "opcode"))
      | Some b => jump_to labels (if b then jt else jf) a (Z.of_nat i)
      end
  | Some (Ja t) => jump_to labels (Some t) a (Z.of_nat i)
  | Some (Ret k) => Halt (Ok k)
  | Some InsnBase => Halt (Raise (TypeError "bad insn"))
  end.
Proof.
  unfold source_step. cbn [pc acc]. rewrite list_getitem_nat.
  by destruct (insns !! i) as [[]|].
Qed.

Lemma jump_to_dest o a i j :
  dest labels n i o j → jump_to labels o a (Z.of_nat i) = Next (Config a (Z.of_nat j)).
Proof.
  destruct o as [t|]; cbn.
  - intros [[Ht _] _]. unfold dict_getitem. by rewrite Ht.
  - intros ->. do 2 f_equal. lia.
Qed.

Lemma dest_le o i j : dest labels n i o j → (i < n)%nat → (i < j <= n)%nat.
Proof. destruct o; cbn; unfold target_at; lia. Qed.

(** The destinations of a jump of an assembled program. *)
Lemma jump_dest i op k jt jf b :
  insns !! i = Some (Jump op k jt jf) → ∃ j, dest labels n i (if b : bool then jt else jf) j.
Proof using Hl.
  intros Hi. destruct (layout_chunk _ _ _ _ Hl i _ Hi) as (ch & _ & Hem & _).
  inversion Hem; subst; destruct b; eauto; by exists (S i).
Qed.

(** Every source step leads to a later instruction, and the target follows. *)
Lemma simulate_step a i c :
  (i <= n)%nat → src (Config a (Z.of_nat i)) = Next c →
  ∃ a' j, c = Config a' (Z.of_nat j) ∧ (i < j <= n)%nat ∧
    rtc (steps_to tgt) (Config a (P i)) (Config a' (P j)).
Proof using Hok Hl.
  intros Hle. rewrite source_step_at. destruct (insns !! i) as [insn|] eqn:Hi; [|done].
  pose proof (lookup_lt_Some _ _ _ Hi) as Hlt.
  destruct (layout_chunk _ _ _ _ Hl i _ Hi) as (ch & Hch & Hem & _).
  assert (P (S i) = P i + Z.of_nat (length ch)) as HPS.
  { rewrite !(layout_position _ _ _ _ Hl) by lia. rewrite (concat_take_S _ _ _ Hch), length_app. lia. }
  assert (∀ op kk a', ch = [SockFilter op 0 0 kk] →
    tgt (Config a (P i)) = Next (Config a' (P i + 1)) →
    rtc (steps_to tgt) (Config a (P i)) (Config a' (P (S i)))) as Hone.
  { intros op kk a' -> Hs. cbn [length] in HPS. rewrite HPS. by apply rtc_once. }
  assert (∀ op kk, ch = [SockFilter op 0 0 kk] → ch !! 0%nat = Some (SockFilter op 0 0 kk)) as H0
    by (by intros ?? ->).
  destruct insn as [k|k|op k jt jf|t|k|]; [..|done|done].
  1,2: inversion Hem; subst; intros [= <-]; eexists _, (S i);
    (split; [f_equal; lia|]); (split; [lia|]); eapply Hone; [done|];
    pose proof (tgt_step i _ _ 0 _ _ _ _ a Hi Hch eq_refl) as Hs;
    rewrite Z.add_0_r in Hs; rewrite Hs; done.
  - destruct (jump_cond op a k) as [b|] eqn:Hb; [|done].
    destruct (jump_dest i op k jt jf b Hi) as [j Hd]. rewrite (jump_to_dest _ _ _ j Hd).
    intros [= <-]. exists a, j. split; [done|]. split; [by eapply dest_le|]. by eapply tgt_jump.
  - inversion Hem; subst. rewrite (jump_to_dest _ _ _ j) by done.
    intros [= <-]. exists a, j. split; [done|]. split; [by eapply dest_le|].
    apply rtc_once. rewrite <- (Z.add_0_r (P i)).
    apply (tgt_ja i _ _ 0 _ _ _ Hi Hch eq_refl). lia.
Qed.

Lemma simulate_halt a i r :
  (i <= n)%nat → src (Config a (Z.of_nat i)) = Halt r →
  ∃ r', tgt (Config a (P i)) = Halt r' ∧ same_outcome r r'.
Proof using Hok Hl.
  intros Hle. rewrite source_step_at. destruct (insns !! i) as [insn|] eqn:Hi.
  - destruct (layout_chunk _ _ _ _ Hl i _ Hi) as (ch & Hch & Hem & _).
    pose proof (Forall_lookup_1 _ _ _ _ Hok Hi) as Hin.
    destruct insn as [k|k|op k jt jf|t|k|]; try done.
    + destruct (jump_cond_op op a k (proj1 Hin)) as [b ->].
      destruct (jump_dest i op k jt jf b Hi) as [j Hd]. by rewrite (jump_to_dest _ _ _ j Hd).
    + inversion Hem; subst. by rewrite (jump_to_dest _ _ _ j).
    + inversion Hem; subst. intros [= <-]. exists (Ok k). split; [|done].
      pose proof (tgt_step i _ _ 0 _ _ _ _ a Hi Hch eq_refl) as Hs.
      rewrite Z.add_0_r in Hs. by rewrite Hs.
    + inversion Hem.
  - intros [= <-]. apply lookup_ge_None in Hi. exists (Raise StructError). split; [|done].
    rewrite (layout_position _ _ _ _ Hl) by lia.
    rewrite packed_step_at by apply Hl. rewrite take_ge by (rewrite (layout_length _ _ _ _ Hl); lia).
    by rewrite lookup_ge_None_2.
Qed.

(** The source program terminates, the target too, with the same outcome. *)
Lemma simulate_run :
  ∃ r r', run_source insns labels data = Some r ∧
    run_packed (pack_all fs) data = Some r' ∧ same_outcome r r'.
Proof using Hok Hl.
  destruct (run_total src (λ c, (n - Z.to_nat (pc c))%nat)
    (λ c, ∃ i, pc c = Z.of_nat i ∧ (i <= n)%nat)) with (fuel := S n) (c := Config 0 0) as [r Hr].
  - intros [a p] c' (i & Hi & Hle) Hs. cbn [pc] in Hi. subst p.
    destruct (simulate_step a i c' Hle Hs) as (a' & j & -> & Hij & _). cbn [pc].
    split; [by exists j; split; [|lia]|]. lia.
  - exists 0%nat. cbn. split; [done|lia].
  - cbn. lia.
  - exists r. destruct (simulation_run src tgt match_config) with (fuel := S n)
      (c := Config 0 0) (d := Config 0 (P 0)) (r := r) as (d' & r' & Hd & Hh & Hsame).
    + intros [a p] [a' q] c' (Ha & i & Hp & Hle & Hq) Hs. cbn in Ha, Hp, Hq. subst.
      destruct (simulate_step a' i c' Hle Hs) as (a'' & j & -> & Hij & Hr').
      eexists. split; [done|]. apply match_at. lia.
    + intros [a p] [a' q] r0 (Ha & i & Hp & Hle & Hq) Hs. cbn in Ha, Hp, Hq. subst.
      destruct (simulate_halt a' i r0 Hle Hs) as (r' & Hr' & Hsame).
      eexists _, r'. split; [apply rtc_refl|]. done.
    + apply (match_at 0 0). lia.
    + done.
    + exists r'. split; [done|]. split; [|done].
      eapply run_packed_reach; [apply Hl|apply Hd|done].
Qed.
End simulate.
