(* ===== verification/BpfAccept.v ===== *)
(** * The assembler: which programs it accepts

    Emission cannot fail on a program whose jumps go forward; every error of
    [assemble] has its documented cause. *)

From S2P Require Import Prelude PyBytes Machine Bpf BpfSem BpfResolve BpfLayout BpfSim.

(** ** When [assemble] succeeds *)

(** Even if every jump expands, offsets stay below 2^32. *)
Definition small_program (insns : list Insn) : Prop :=
  3 * Z.of_nat (length insns) <= 2 ^ 32.

Section succeed.
Context (insns : list Insn) (labels : gmap string pyobj) (sizes : list Z).
Context (Hvalid : _validate_labels insns labels = Ok tt).
Context (Hres : resolved insns labels sizes).
Context (Hsmall : small_program insns).
Abbreviation n := (length insns).
Abbreviation P := (position sizes).
Abbreviation pos := (_positions sizes).

(** A jump distance is nonnegative and small. *)
Lemma distance_range i j :
  (i < j <= n)%nat → 0 <= P j - P i - 1 ∧ P j < 2 ^ 32 + 1 ∧ 0 <= P i.
Proof using Hres Hsmall.
  intros Hij. destruct Hres as [Hs _]. pose proof (sizes_ok_pos _ _ Hs) as Hp.
  pose proof (sizes_ok_length _ _ Hs) as Hlen.
  pose proof (position_mono sizes i j Hp) as H1. pose proof (sizes_ok_total _ _ Hs j) as H2.
  pose proof (position_mono sizes 0 i Hp) as H3. unfold small_program in Hsmall.
  assert (P 0 = 0) by done. lia.
Qed.

Lemma ja_bytes_forward t i j p :
  target_at labels n t j → (i < j)%nat → P i + 1 <= p → p < P j →
  is_ok (_ja_bytes (Some t) labels pos p) = true.
Proof using Hres Hsmall.
  intros [Ht Hj] Hij Hp1 Hp2. pose proof (distance_range i j ltac:(lia)) as Hd.
  unfold _ja_bytes, dict_getitem. rewrite Ht. cbn [or_raise mbind result_bind].
  destruct Hres as [Hs _].
  rewrite positions_getitem by (rewrite (sizes_ok_length _ _ Hs); lia). cbn [mbind result_bind].
  destruct (_ || _) eqn:E; bool_to_prop; [lia..|].
  rewrite struct_pack_HBBI_eq; [done|]. unfold sock_filter_ok, is_byte, BPF_JA; cbn. lia.
Qed.

Lemma emit_expanded_forward i op k jt jf :
  insns !! i = Some (Jump op k jt jf) → insn_ok (Jump op k jt jf) →
  is_Some jt ∨ is_Some jf → sizes !!! i = _expanded_size jt jf →
  (∀ t, jt = Some t ∨ jf = Some t → ∃ j, target_at labels n t j ∧ (i < j)%nat) →
  is_ok (_emit_expanded op k jt jf labels pos i) = true.
Proof using Hres Hsmall.
  intros Hi [Hop Hk] Hsome Hsz Hf. pose proof (lookup_lt_Some _ _ _ Hi) as Hlt.
  pose proof (position_next _ _ _ Hres i Hlt) as HPS. rewrite Hsz in HPS.
  pose proof (jump_op_range op Hop) as Hopr. unfold _U32_MAX in Hk.
  destruct Hres as [Hs _]. pose proof (sizes_ok_pos _ _ Hs) as Hp.
  unfold _emit_expanded. rewrite positions_getitem by (rewrite (sizes_ok_length _ _ Hs); lia).
  cbn [mbind result_bind].
  assert (∀ a b, is_byte a → is_byte b →
    struct_pack_HBBI op a b k = Ok (pack_record (SockFilter op a b k))) as Hpk.
  { intros. apply struct_pack_HBBI_eq. split_and!; cbn; done || lia. }
  assert (∀ t p, jt = Some t ∨ jf = Some t → P i + 1 <= p < P (S i) →
    ∃ bs, _ja_bytes (Some t) labels pos p = Ok bs) as Hja.
  { intros t p Ht Hrange. destruct (Hf t Ht) as (j & Hj & Hij).
    pose proof (position_mono sizes (S i) j Hp) as Hm.
    rewrite (sizes_ok_length _ _ Hs) in Hm. unfold target_at in Hj.
    pose proof (ja_bytes_forward t i j p Hj Hij) as Hb.
    destruct (_ja_bytes _ _ _ _) as [bs|]; [by eauto|]. cbn in Hb. discriminate Hb; lia. }
  destruct jt as [t|]; [|destruct jf as [f|]; [|by destruct Hsome as [[? ?]|[? ?]]]].
  - rewrite Hpk by done. cbn [mbind result_bind].
    destruct (Hja t (P i + 1)) as [bs ->]; [by left|destruct jf; cbn in HPS; lia|].
    cbn [mbind result_bind]. destruct jf as [f|]; [|done].
    destruct (Hja f (P i + 2)) as [bs' ->]; [by right|cbn in HPS; lia|done].
  - rewrite Hpk by done. cbn [mbind result_bind].
    destruct (Hja f (P i + 1)) as [bs ->]; [by right|cbn in HPS; lia|done].
Qed.

(** Emission of a jump whose targets are all ahead. *)
Lemma emit_jump_forward i op k jt jf :
  insns !! i = Some (Jump op k jt jf) → insn_ok (Jump op k jt jf) →
  (∀ t, jt = Some t ∨ jf = Some t → ∃ j, target_at labels n t j ∧ (i < j)%nat) →
  is_ok (_emit (Jump op k jt jf) labels pos i (sizes !!! i)) = true.
Proof using Hres Hsmall.
  intros Hi Hok Hf. pose proof (lookup_lt_Some _ _ _ Hi) as Hlt.
  pose proof (size_at _ _ _ Hres i _ Hi) as Hsz.
  pose proof (sizes_ok_pos _ _ (proj1 Hres)) as Hp.
  pose proof (sizes_ok_length _ _ (proj1 Hres)) as Hlen.
  assert (∀ o, o = jt ∨ o = jf → ∃ j, dest labels n i o j) as Hd.
  { intros [t|] Ho; [|by exists (S i)]. apply Hf. destruct Ho; auto. }
  destruct (Hd jt) as [j Hj]; [by left|]. destruct (Hd jf) as [j' Hj']; [by right|].
  pose proof (offset_forward labels sizes Hp jt i j) as Et.
  pose proof (offset_forward labels sizes Hp jf i j') as Ef. rewrite Hlen in Et, Ef.
  specialize (Et Hj Hlt). specialize (Ef Hj' Hlt).
  cbn [_emit]. rewrite Et, Ef. cbn [mbind result_bind].
  destruct Hsz as [Hsz|[(?&?&?&?&[= <- <- <- <-]&Hsome) Hsz]]; rewrite Hsz.
  2: { pose proof (expanded_size_range jt jf).
       destruct (_ =? 1) eqn:E1; bool_to_prop; [lia|].
       by apply emit_expanded_forward. }
  change (1 =? 1) with true. cbn iota.
  pose proof (proj2 Hres i op k jt jf Hi ltac:(lia)) as Hn. unfold _needs_expansion in Hn.
  rewrite Et, Ef in Hn. cbn [mbind result_bind] in Hn.
  pose proof (distance_range i j (dest_le insns labels jt i j Hj Hlt)).
  pose proof (distance_range i j' (dest_le insns labels jf i j' Hj' Hlt)).
  destruct Hok as [Hop Hk]. pose proof (jump_op_range op Hop). unfold _U32_MAX, _MAX_COND_JUMP in *.
  match type of Hn with (if ?b then _ else _) = _ => destruct b eqn:Eb; [done|] end.
  injection Hn as Eb'.
  match goal with |- context [ (255 <? or_zero ?x) || (255 <? or_zero ?y) ] =>
    assert (0 <= or_zero x <= 255 ∧ 0 <= or_zero y <= 255) as [Hx Hy]
      by (destruct jt, jf; cbn in *; bool_to_prop; lia) end.
  destruct (_ || _) eqn:E; bool_to_prop; [lia..|].
  rewrite struct_pack_HBBI_eq; [done|]. unfold sock_filter_ok, is_byte; cbn; lia.
Qed.

(** The only errors emission can raise. *)
Lemma emit_raise i insn e :
  insns !! i = Some insn → insn_ok insn →
  _emit insn labels pos i (sizes !!! i) = Raise e →
  backward_error insns labels e ∨
  insn = InsnBase ∧ e = TypeError "unknown instruction".
Proof using Hvalid Hres Hsmall.
  intros Hi Hok He. pose proof (lookup_lt_Some _ _ _ Hi) as Hlt.
  pose proof (sizes_ok_pos _ _ (proj1 Hres)) as Hp.
  pose proof (sizes_ok_length _ _ (proj1 Hres)) as Hlen.
  pose proof (proj1 (validate_labels_ok insns labels) Hvalid insn) as Hv.
  specialize (λ t, Hv t ltac:(by eapply list_elem_of_lookup_2)).
  assert (∀ o, (∀ t, o = Some t → t ∈ _targets insn) →
    (∃ j, dest labels n i o j) ∨
    _offset o labels pos i = Raise (ValueError "backward jump to label") ∧
    backward_jump insns labels) as Hoff.
  { intros o Ho. destruct (offset_cases labels sizes Hp o i) as [(j & Hd & _)|(E & t & j & Ht & Hj & Hle)].
    - intros t Ht. rewrite Hlen. auto.
    - lia.
    - left. exists j. by rewrite Hlen in Hd.
    - right. split; [done|]. rewrite Hlen in Hj. exists i, insn, t, j. auto. }
  destruct insn as [k|k|op k jt jf|t|k|]; cbn [_emit] in He.
  1,2,5: unfold insn_ok, _U32_MAX in Hok; rewrite struct_pack_HBBI_eq in He; [done|];
    split_and!; cbn; done || lia.
  - destruct (Hoff jt) as [[j Hj]|[E Hb]]; [intros t ->; cbn; set_solver| |].
    2: { rewrite E in He. injection He as <-. by left. }
    destruct (Hoff jf) as [[j' Hj']|[E Hb]]; [intros t ->; cbn; set_solver| |].
    2: { pose proof (offset_forward labels sizes Hp jt i j) as Et. rewrite Hlen in Et.
         rewrite (Et Hj Hlt), E in He. injection He as <-. by left. }
    assert (is_ok (_emit (Jump op k jt jf) labels pos i (sizes !!! i)) = true) as Hk.
    { apply emit_jump_forward; [done..|]. intros t [->| ->]; eauto. }
    cbn [_emit] in Hk. by rewrite He in Hk.
  - destruct (Hoff (Some t)) as [[j Hj]|[E Hb]]; [by intros ? [= <-]; set_solver| |].
    2: { rewrite E in He. injection He as <-. by left. }
    pose proof (offset_forward labels sizes Hp (Some t) i j) as Et. rewrite Hlen in Et.
    rewrite (Et Hj Hlt) in He. cbn [mbind result_bind] in He.
    pose proof (distance_range i j (dest_le insns labels _ i j Hj Hlt)).
    destruct (_ <? _) eqn:E; bool_to_prop; [lia|].
    rewrite struct_pack_HBBI_eq in He; [done|]. split_and!; cbn; done || lia.
  - right. by injection He as <-.
Qed.
End succeed.

Lemma foldM_raise {A B} (f : B → A → result B) l acc e :
  foldM f acc l = Raise e → ∃ acc' x, x ∈ l ∧ f acc' x = Raise e.
Proof.
  revert acc. induction l as [|x l IH]; intros acc; cbn; [done|].
  destruct (f acc x) as [acc'|e'] eqn:E; cbn.
  - intros (acc'' & y & Hy & ?)%IH. exists acc'', y. by rewrite elem_of_cons; auto.
  - intros [= ->]. exists acc, x. by rewrite elem_of_cons; auto.
Qed.

(** All the ways assembly can fail. *)
Lemma assemble_raise insns labels e :
  Forall insn_ok insns → small_program insns → assemble insns labels = Raise e →
  (_validate_labels insns labels = Raise e) ∨ backward_error insns labels e ∨
  InsnBase ∈ insns ∧ e = TypeError "unknown instruction".
Proof.
  intros Hok Hs He. unfold assemble in He.
  destruct (_validate_labels insns labels) as [[]|e'] eqn:Hv;
    cbn [mbind result_bind] in He; [|left; congruence].
  pose proof (resolve_sizes_ok insns labels Hv) as Hr.
  destruct (_resolve_sizes insns labels) as [sizes|e'];
    cbn [mbind result_bind] in He; [|right; left; by injection He as <-].
  apply foldM_raise in He as (out & [i insn] & Hin & He).
  apply list_elem_of_lookup in Hin as [j Hj].
  apply enumerate_from_lookup in Hj as (insn' & Hj & [= -> ->]).
  destruct (_emit _ _ _ _ _) as [bs|e'] eqn:Ee; cbn in He; [done|]. injection He as ->.
  apply (emit_raise insns labels sizes Hv Hr Hs) in Ee as [?|[-> ?]];
    [by auto| |done|by eapply Forall_lookup_1].
  right; right. split; [by eapply list_elem_of_lookup_2|done].
Qed.

Lemma elem_of_jump_targets op k jt jf t :
  t ∈ _targets (Jump op k jt jf) ↔ jt = Some t ∨ jf = Some t.
Proof. cbn. rewrite elem_of_app. destruct jt, jf; cbn; set_solver. Qed.

Lemma layout_forward insns labels sizes fss :
  layout insns labels sizes fss → forward_program insns labels.
Proof.
  intros Hl i insn Hi t Ht. destruct (layout_chunk _ _ _ _ Hl i insn Hi) as (fs & _ & Hem & _).
  destruct insn as [k|k|op k jt jf|t'|k|]; try by apply not_elem_of_nil in Ht.
  - apply elem_of_jump_targets in Ht.
    inversion Hem; subst; destruct Ht as [?|?]; simplify_eq; eauto.
  - apply list_elem_of_singleton in Ht as ->. inversion Hem; subst. eauto.
Qed.

Lemma layout_no_base insns labels sizes fss :
  layout insns labels sizes fss → InsnBase ∉ insns.
Proof.
  intros Hl [i Hi]%list_elem_of_lookup.
  destruct (layout_chunk _ _ _ _ Hl i _ Hi) as (fs & _ & Hem & _). inversion Hem.
Qed.

Lemma forward_not_backward insns labels :
  forward_program insns labels → backward_jump insns labels → False.
Proof.
  intros Hf (i & insn & t & j & Hi & Ht & [Hj _] & Hle).
  destruct (Hf i insn Hi t Ht) as (j' & [Hj' _] & Hlt). simplify_eq. lia.
Qed.

Lemma forward_valid insns labels :
  forward_program insns labels → _validate_labels insns labels = Ok tt.
Proof.
  intros Hf. apply validate_labels_ok. intros insn t [i Hi]%list_elem_of_lookup Ht.
  destruct (Hf i insn Hi t Ht) as (j & Hj & _). eauto.
Qed.

(** The length of the output: between one and three records per instruction. *)
Lemma layout_size insns labels sizes fss :
  layout insns labels sizes fss →
  (length insns <= length (concat fss) <= 3 * length insns)%nat.
Proof.
  intros Hl. pose proof (layout_position _ _ _ _ Hl (length insns) ltac:(lia)) as Hp.
  rewrite take_ge in Hp by (rewrite (layout_length _ _ _ _ Hl); lia).
  assert (∀ fss', Forall (λ fs : list sock_filter, (1 <= length fs <= 3)%nat) fss' →
    (length fss' <= length (concat fss') <= 3 * length fss')%nat) as Hc.
  { induction 1; cbn; rewrite ?length_app; lia. }
  rewrite <- (layout_length _ _ _ _ Hl). apply Hc, Forall_forall.
  intros fs [i Hi]%list_elem_of_lookup.
  destruct (lookup_lt_is_Some_2 insns i) as [insn Hin];
    [rewrite <- (layout_length _ _ _ _ Hl); by eapply lookup_lt_Some|].
  destruct (layout_chunk _ _ _ _ Hl i insn Hin) as (fs' & Hfs' & Hem & _).
  simplify_eq. inversion Hem; cbn; lia.
Qed.

#[export] Instance insn_ok_dec insn : Decision (insn_ok insn).
Proof. destruct insn; cbn; apply _. Defined.
