(* ===== verification/BpfTheorems.v ===== *)
(** * What the assembler promises

    [assemble] terminates without ever giving up on jump resolution, rejects
    exactly the programs whose labels are undefined, out of range or backward,
    and otherwise produces bytes that [run_packed] executes exactly as
    [run_source] executes the symbolic program, trampolines included. *)

From S2P Require Import Prelude PyBytes Machine Bpf BpfSem BpfResolve BpfLayout BpfSim.
From S2P Require Import BpfAccept.

(** ** The theorems *)

(** A far jump with both branches out of range of an 8-bit offset. *)
Definition far_insns : list Insn :=
  [Load 0; Jump BPF_JEQ 7 (Some "yes") (Some "no")] ++ replicate 300 (Load 0) ++
  [Ret 0x7FFF0000; Ret 0x80000000].
Definition far_labels : gmap string pyobj := {["yes" := PyInt 302; "no" := PyInt 303]}.
Definition far_prog : list Z :=
  match assemble far_insns far_labels with Ok p => p | Raise _ => [] end.

(** C3.  The assembler preserves behaviour.  For any program built from checked
    instructions that [assemble] accepts, and any packet data, the symbolic
    program and the assembled bytes both terminate and have the same outcome:
    they return the same value, or both run off the end. *)
Theorem assemble_correct (insns : list Insn) (labels : gmap string pyobj)
    (prog data : list Z)
    (Hok : Forall insn_ok insns) (Ha : assemble insns labels = Ok prog) :
  ∃ r r', run_source insns labels data = Some r ∧ run_packed prog data = Some r' ∧
    same_outcome r r'.
Proof.
  destruct (assemble_layout insns labels prog Hok Ha) as (sizes & fss & _ & Hl & ->).
  by apply (simulate_run insns labels sizes).
Qed.

Lemma assemble_correct_witness :
  ∃ r r', run_source far_insns far_labels [7; 0; 0; 0] = Some r ∧
    run_packed far_prog [7; 0; 0; 0] = Some r' ∧ same_outcome r r'.
Proof.
  apply (assemble_correct far_insns far_labels far_prog [7; 0; 0; 0]).
  - apply (bool_decide_unpack _). vm_compute. exact I.
  - vm_compute. reflexivity.
Defined.

(** C7.  [assemble] accepts exactly the programs whose jumps all name a label
    bound to a strictly later position (the end included) and whose
    instructions it knows. *)
Theorem assemble_accepts_iff (insns : list Insn) (labels : gmap string pyobj)
    (Hok : Forall insn_ok insns) (Hs : small_program insns) :
  (∃ prog, assemble insns labels = Ok prog) ↔
  forward_program insns labels ∧ InsnBase ∉ insns.
Proof.
  split.
  - intros [prog Ha]. destruct (assemble_layout _ _ _ Hok Ha) as (sizes & fss & _ & Hl & _).
    eauto using layout_forward, layout_no_base.
  - intros [Hf Hb]. destruct (assemble insns labels) as [prog|e] eqn:E; [by eauto|].
    apply assemble_raise in E as [E|[[_ E]|[E _]]]; [|by destruct (forward_not_backward _ _ Hf E)|done..].
    by rewrite forward_valid in E.
Qed.

Lemma assemble_accepts_iff_witness :
  (∃ prog, assemble far_insns far_labels = Ok prog) ↔
  forward_program far_insns far_labels ∧ InsnBase ∉ far_insns.
Proof.
  apply (assemble_accepts_iff far_insns far_labels).
  - apply (bool_decide_unpack _). vm_compute. exact I.
  - vm_compute. discriminate.
Defined.

(** C11.  Every failure of [assemble] is one of the documented [ValueError]s and
    has its stated cause (or is the [TypeError] for a bare [Insn()]): in
    particular no [struct.error], [KeyError] or [IndexError] escapes, no
    conditional jump is left out of range and jump resolution always
    converges. *)
Theorem assemble_errors (insns : list Insn) (labels : gmap string pyobj) (e : exn)
    (Hok : Forall insn_ok insns) (Hs : small_program insns)
    (He : assemble insns labels = Raise e) :
  e = ValueError "undefined label" ∧ undefined_label insns labels ∨
  e = ValueError "label out of range" ∧ label_out_of_range insns labels ∨
  e = ValueError "backward jump to label" ∧ backward_jump insns labels ∨
  e = TypeError "unknown instruction" ∧ InsnBase ∈ insns.
Proof.
  apply assemble_raise in He as [He|[He|He]]; [|by destruct He; auto..|done|done].
  apply validate_labels_raise in He as [He|He]; auto.
Qed.

Lemma assemble_errors_witness :
  assemble [Load 0; Ja "start"; Ret 0] {["start" := PyInt 0]} =
    Raise (ValueError "backward jump to label") ∧
  (ValueError "backward jump to label" = ValueError "undefined label" ∧
     undefined_label [Load 0; Ja "start"; Ret 0] {["start" := PyInt 0]} ∨
   ValueError "backward jump to label" = ValueError "label out of range" ∧
     label_out_of_range [Load 0; Ja "start"; Ret 0] {["start" := PyInt 0]} ∨
   ValueError "backward jump to label" = ValueError "backward jump to label" ∧
     backward_jump [Load 0; Ja "start"; Ret 0] {["start" := PyInt 0]} ∨
   ValueError "backward jump to label" = TypeError "unknown instruction" ∧
     InsnBase ∈ [Load 0; Ja "start"; Ret 0]).
Proof.
  split; [vm_compute; reflexivity|].
  apply (assemble_errors [Load 0; Ja "start"; Ret 0] {["start" := PyInt 0]}).
  - apply (bool_decide_unpack _). vm_compute. exact I.
  - vm_compute. discriminate.
  - vm_compute. reflexivity.
Defined.

(** C12.  Jump resolution terminates at a fixed point.  With valid labels,
    [_resolve_sizes] never reports that it did not converge: within
    [len(insns) + 1] passes it returns sizes under which every conditional
    jump left in one slot reaches both targets, unless a jump goes backward. *)
Theorem resolve_sizes_fixpoint (insns : list Insn) (labels : gmap string pyobj)
    (Hv : _validate_labels insns labels = Ok tt) :
  (∃ sizes, _resolve_sizes insns labels = Ok sizes ∧ sizes_ok insns sizes ∧
     ∀ i op k jt jf, insns !! i = Some (Jump op k jt jf) → sizes !!! i <= 1 →
       _needs_expansion jt jf labels (_positions sizes) i = Ok false) ∨
  (_resolve_sizes insns labels = Raise (ValueError "backward jump to label") ∧
     backward_jump insns labels).
Proof.
  pose proof (resolve_sizes_ok insns labels Hv) as Hr.
  destruct (_resolve_sizes insns labels) as [sizes|e]; [left; by exists sizes|].
  destruct Hr as [-> Hb]. by right.
Qed.

Lemma resolve_sizes_fixpoint_witness :
  (∃ sizes, _resolve_sizes far_insns far_labels = Ok sizes ∧ sizes_ok far_insns sizes ∧
     ∀ i op k jt jf, far_insns !! i = Some (Jump op k jt jf) → sizes !!! i <= 1 →
       _needs_expansion jt jf far_labels (_positions sizes) i = Ok false) ∨
  (_resolve_sizes far_insns far_labels = Raise (ValueError "backward jump to label") ∧
     backward_jump far_insns far_labels).
Proof. apply (resolve_sizes_fixpoint far_insns far_labels). vm_compute. reflexivity. Defined.

(** The output is a whole number of 8-byte records, between one and three
    per instruction, and each record decodes to fields in range. *)
Theorem assemble_size (insns : list Insn) (labels : gmap string pyobj) (prog : list Z)
    (Hok : Forall insn_ok insns) (Ha : assemble insns labels = Ok prog) :
  ∃ fs : list sock_filter, prog = pack_all fs ∧ Forall sock_filter_ok fs ∧
    length prog = (8 * length fs)%nat ∧
    (length insns <= length fs <= 3 * length insns)%nat.
Proof.
  destruct (assemble_layout insns labels prog Hok Ha) as (sizes & fss & _ & Hl & ->).
  exists (concat fss). split_and!; [done|apply Hl|apply length_pack_all|by eapply layout_size..].
Qed.

Lemma assemble_size_witness :
  ∃ fs : list sock_filter, far_prog = pack_all fs ∧ Forall sock_filter_ok fs ∧
    length far_prog = (8 * length fs)%nat ∧
    (length far_insns <= length fs <= 3 * length far_insns)%nat.
Proof.
  apply (assemble_size far_insns far_labels far_prog).
  - apply (bool_decide_unpack _). vm_compute. exact I.
  - vm_compute. reflexivity.
Defined.
