(* ===== verification/BpfVerify.v ===== *)
(** * The kernel's checks on a filter program

    seccomp(2) installs a program only if it passes the checks the kernel
    documents for classic BPF and for seccomp filters: between 1 and 4096
    instructions, only the permitted opcodes, word loads that are aligned and
    inside [struct seccomp_data], jumps that stay inside the program, and a
    return at the end.  The checks are stated here as a decision procedure on
    the decoded records, and the assembler is shown to produce programs that
    pass them when its input qualifies. *)

From S2P Require Import Prelude PyBytes Machine Bpf BpfSem BpfResolve BpfLayout BpfSim.
From S2P Require Import BpfAccept.

Definition BPF_MAXINSNS : Z := 4096.
Definition SECCOMP_DATA_SIZE : Z := 64.

(** The check of record [i] of [n]. *)
Definition check_record (n i : nat) (f : sock_filter) : bool :=
  let room := Z.of_nat n - Z.of_nat i - 1 in
  if sf_code f =? BPF_LD_ABS_W then (sf_k f mod 4 =? 0) && (sf_k f <? SECCOMP_DATA_SIZE)
  else if sf_code f =? BPF_JA then sf_k f <? room
  else if bool_decide (sf_code f ∈ _JUMP_OPS) then (sf_jt f <? room) && (sf_jf f <? room)
  else (sf_code f =? BPF_ALU_AND_K) || (sf_code f =? BPF_RET_K).

Definition kernel_accepts (fs : list sock_filter) : bool :=
  (1 <=? Z.of_nat (length fs)) && (Z.of_nat (length fs) <=? BPF_MAXINSNS) &&
  forallb (λ '(i, f), check_record (length fs) i f) (enumerate fs) &&
  match last fs with Some f => sf_code f =? BPF_RET_K | None => false end.

Lemma kernel_accepts_intro fs f0 :
  Z.of_nat (length fs) <= BPF_MAXINSNS →
  (∀ i f, fs !! i = Some f → check_record (length fs) i f = true) →
  last fs = Some f0 → sf_code f0 = BPF_RET_K → kernel_accepts fs = true.
Proof.
  intros Hn Hr Hl Hc. unfold kernel_accepts. rewrite Hl, Hc.
  assert (1 <= length fs)%nat as H1 by (destruct fs; [done|cbn; lia]).
  apply andb_true_intro; split; [|done]. apply andb_true_intro; split.
  - apply andb_true_intro. split; apply Z.leb_le; lia.
  - apply forallb_forall. intros [i f] Hin%list_elem_of_In.
    apply list_elem_of_lookup in Hin as [j Hj].
    apply enumerate_from_lookup in Hj as (f' & Hj & [= -> ->]). by apply Hr.
Qed.

Lemma check_ja n k w :
  w < Z.of_nat n - Z.of_nat k - 1 → check_record n k (SockFilter BPF_JA 0 0 w) = true.
Proof. intros. unfold check_record. cbn. by apply Z.ltb_lt. Qed.

Lemma check_jump n k op jt jf w :
  op ∈ _JUMP_OPS → jt < Z.of_nat n - Z.of_nat k - 1 → jf < Z.of_nat n - Z.of_nat k - 1 →
  check_record n k (SockFilter op jt jf w) = true.
Proof.
  intros Hop Ht Hf. destruct (jump_op_cases op Hop) as (E1 & _ & E3).
  unfold check_record. cbn [sf_code sf_jt sf_jf sf_k]. rewrite E1, E3, bool_decide_true by done.
  apply andb_true_intro. split; by apply Z.ltb_lt.
Qed.

(** Every record belongs to the chunk of an instruction. *)
Lemma concat_lookup_inv {A} (fss : list (list A)) k x :
  concat fss !! k = Some x →
  ∃ i fs j, fss !! i = Some fs ∧ fs !! j = Some x ∧ k = (length (concat (take i fss)) + j)%nat.
Proof.
  revert k. induction fss as [|fs fss IH]; intros k; cbn [concat]; [done|].
  intros [Hk|[Hle Hk]]%lookup_app_Some.
  - by exists 0%nat, fs, k.
  - destruct (IH _ Hk) as (i & fs' & j & Hi & Hj & Heq). exists (S i), fs', j.
    split_and!; [done..|]. cbn [take concat]. rewrite length_app. lia.
Qed.

(** Instructions whose records pass the opcode and load checks. *)
Definition checkable (insn : Insn) : Prop :=
  match insn with
  | Load k => 0 <= k < SECCOMP_DATA_SIZE ∧ k mod 4 = 0
  | And _ | Ret _ | Ja _ => True
  | Jump op _ _ _ => op ∈ _JUMP_OPS
  | InsnBase => False
  end.

Section accepted.
Context (insns : list Insn) (labels : gmap string pyobj) (sizes : list Z)
  (fss : list (list sock_filter)).
Context (Hl : layout insns labels sizes fss) (Hc : Forall checkable insns).
(** Every label names an instruction, and the last one returns. *)
Hypothesis Hlabels : ∀ t v, labels !! t = Some v →
  ∃ q : nat, v = PyInt (Z.of_nat q) ∧ (q < length insns)%nat.
Hypothesis Hlast : ∃ k, last insns = Some (Ret k).
Abbreviation n := (length insns).
Abbreviation P := (position sizes).
Abbreviation fs := (concat fss).

Lemma position_total : P n = Z.of_nat (length fs).
Proof using Hl.
  rewrite (layout_position _ _ _ _ Hl) by lia.
  by rewrite take_ge by (rewrite (layout_length _ _ _ _ Hl); lia).
Qed.

Lemma position_lt i j : (i < j <= n)%nat → P i < P j.
Proof using Hl.
  intros Hij. rewrite !(layout_position _ _ _ _ Hl) by lia.
  destruct (lookup_lt_is_Some_2 insns i) as [insn Hi]; [lia|].
  destruct (layout_chunk _ _ _ _ Hl i insn Hi) as (ch & Hch & Hem & _).
  assert (concat (take (S i) fss) `prefix_of` concat (take j fss)) as [r Hr].
  { rewrite <- (take_drop (S i) (take j fss)), take_take, Nat.min_l, concat_app by lia.
    by apply prefix_app_r. }
  rewrite Hr, length_app, (concat_take_S _ _ _ Hch), length_app.
  assert (1 <= length ch)%nat by (inversion Hem; cbn; lia). lia.
Qed.

(** The last instruction is a return, so a jump is not the last. *)
Lemma not_last i op k jt jf : insns !! i = Some (Jump op k jt jf) → (S i < n)%nat.
Proof using Hlast.
  intros Hi. pose proof (lookup_lt_Some _ _ _ Hi). destruct Hlast as [k' Hk].
  rewrite last_lookup in Hk. destruct (decide (S i = n)) as [E|]; [|lia].
  rewrite <- E in Hk. cbn in Hk. congruence.
Qed.

(** A destination is an instruction, and its position inside the program. *)
Lemma dest_inside i o j :
  dest labels n i o j → (S i < n)%nat ∨ is_Some o → (i < j < n)%nat.
Proof using Hlabels.
  destruct o as [t|]; cbn.
  - intros [[Ht _] Hlt] _. destruct (Hlabels _ _ Ht) as (q & [= Hq] & Hlt'). lia.
  - intros -> [H|[? ?]]; [lia|done].
Qed.

(** The room left behind record [j] of the chunk of [i]. *)
Lemma chunk_position i insn ch :
  insns !! i = Some insn → fss !! i = Some ch → P (S i) = P i + Z.of_nat (length ch).
Proof using Hl.
  intros Hi Hch. pose proof (lookup_lt_Some _ _ _ Hi).
  rewrite !(layout_position _ _ _ _ Hl) by lia.
  rewrite (concat_take_S _ _ _ Hch), length_app. lia.
Qed.

Lemma jump_records_checked i op k jt jf ch j f :
  insns !! i = Some (Jump op k jt jf) → fss !! i = Some ch → ch !! j = Some f →
  emits labels n P i (Jump op k jt jf) ch → op ∈ _JUMP_OPS →
  check_record (length fs) (length (concat (take i fss)) + j) f = true.
Proof using Hl Hlabels Hlast.
  intros Hi Hch Hj Hem Hop. pose proof (lookup_lt_Some _ _ _ Hi) as Hlt.
  pose proof (not_last _ _ _ _ _ Hi) as Hnl.
  pose proof (chunk_position i _ _ Hi Hch) as HPS.
  pose proof (position_lt (S i) n ltac:(lia)) as HSn.
  pose proof position_total as Htot. pose proof (layout_position _ _ _ _ Hl i ltac:(lia)) as HPi.
  assert (∀ o j', dest labels n i o j' → P j' < P n) as Hd.
  { intros o j' Hd. pose proof (dest_inside i o j' Hd (or_introl Hnl)). apply position_lt. lia. }
  inversion Hem; subst; cbn [length] in HPS;
    repeat match goal with H : dest _ _ _ _ _ |- _ => apply Hd in H end;
    repeat (destruct j as [|j]; cbn in Hj; [|try done]); simplify_eq;
    first [apply check_ja | apply check_jump; [done|..]]; lia.
Qed.

Lemma records_checked k f : fs !! k = Some f → check_record (length fs) k f = true.
Proof using Hl Hc Hlabels Hlast.
  intros Hk. apply concat_lookup_inv in Hk as (i & ch & j & Hch & Hj & ->).
  pose proof (lookup_lt_Some _ _ _ Hch) as Hi. rewrite (layout_length _ _ _ _ Hl) in Hi.
  destruct (lookup_lt_is_Some_2 insns i Hi) as [insn Hin].
  destruct (layout_chunk _ _ _ _ Hl i insn Hin) as (ch' & Hch' & Hem & _). simplify_eq.
  pose proof (Forall_lookup_1 _ _ _ _ Hc Hin) as Hck.
  destruct insn as [w|w|op w jt jf|t|w|]; cbn in Hck; [| |by eapply jump_records_checked|..];
    inversion Hem; subst; destruct j as [|j]; cbn in Hj; simplify_eq.
  - unfold check_record. cbn. destruct Hck as [Hlt ->]. apply Z.ltb_lt. lia.
  - done.
  - apply check_ja. pose proof (chunk_position i _ _ Hin Hch) as HPS.
    pose proof (layout_position _ _ _ _ Hl i ltac:(lia)).
    assert (P j0 < P n) as Hj0; [|rewrite position_total in Hj0; lia].
    match goal with H : dest _ _ _ _ _ |- _ =>
      pose proof (dest_inside i _ _ H (or_intror (ex_intro _ _ eq_refl))) end.
    apply position_lt. lia.
  - done.
Qed.

Lemma last_record : ∃ f, last fs = Some f ∧ sf_code f = BPF_RET_K.
Proof using Hl Hlast.
  destruct Hlast as [k Hk]. rewrite last_lookup in Hk.
  pose proof (lookup_lt_Some _ _ _ Hk) as Hlt.
  destruct (layout_chunk _ _ _ _ Hl _ _ Hk) as (ch & Hch & Hem & _). inversion Hem; subst.
  exists (SockFilter BPF_RET_K 0 0 k). split; [|done].
  rewrite <- (take_ge fss n) by (rewrite (layout_length _ _ _ _ Hl); lia).
  replace n with (S (pred n)) by lia. by rewrite (concat_take_S _ _ _ Hch), last_snoc.
Qed.

Lemma layout_accepted : Z.of_nat (length fs) <= BPF_MAXINSNS → kernel_accepts fs = true.
Proof using Hl Hc Hlabels Hlast.
  intros Hn. destruct last_record as (f & Hf & Hcode).
  by apply (kernel_accepts_intro _ f Hn records_checked Hf).
Qed.
End accepted.
