(* ===== verification/PyDict.v ===== *)
(** * Insertion-ordered dicts

    A Python dict whose iteration order matters is an association list in
    insertion order: assigning to an existing key keeps its place, a new key
    goes to the end. *)

From S2P Require Import Prelude.

Section dict.
Context {K V : Type} `{EqDecision K}.

(** [d.get(k)]. *)
Fixpoint dict_get (k : K) (d : list (K * V)) : option V :=
  match d with
  | [] => None
  | (k', v) :: d => if decide (k = k') then Some v else dict_get k d
  end.

(** [d[k] = v]. *)
Fixpoint dict_set (k : K) (v : V) (d : list (K * V)) : list (K * V) :=
  match d with
  | [] => [(k, v)]
  | (k', v') :: d => if decide (k = k') then (k', v) :: d else (k', v') :: dict_set k v d
  end.

(** A dict display: the entries are assigned from left to right. *)
Definition dict_of_list (l : list (K * V)) : list (K * V) :=
  foldl (λ d kv, dict_set kv.1 kv.2 d) [] l.

Definition dict_keys (d : list (K * V)) : list K := d.*1.

Lemma dict_get_set_eq k v d : dict_get k (dict_set k v d) = Some v.
Proof.
  induction d as [|[k' v'] d IH]; cbn; [by rewrite decide_True|].
  case_decide as E; cbn; [by rewrite decide_True|by rewrite decide_False].
Qed.

Lemma dict_get_set_ne k k' v d : k ≠ k' → dict_get k (dict_set k' v d) = dict_get k d.
Proof.
  intros Hne. induction d as [|[k1 v1] d IH]; cbn; [by rewrite decide_False|].
  case_decide as E; cbn; subst; case_decide; done.
Qed.

Lemma dict_keys_set k v d :
  dict_keys (dict_set k v d) = if decide (k ∈ dict_keys d) then dict_keys d else dict_keys d ++ [k].
Proof.
  unfold dict_keys. induction d as [|[k' v'] d IH]; cbn [dict_set].
  - rewrite decide_False; [done|]. apply not_elem_of_nil.
  - destruct (decide (k = k')) as [<-|Hne].
    + rewrite !fmap_cons. cbn [fst]. rewrite decide_True; [done|]. apply elem_of_cons. by left.
    + rewrite !fmap_cons, IH. cbn [fst].
      destruct (decide (k ∈ d.*1)) as [Hin|Hin].
      * rewrite decide_True; [done|]. apply elem_of_cons. by right.
      * rewrite decide_False; [done|]. by rewrite not_elem_of_cons.
Qed.

Lemma dict_set_NoDup k v d : NoDup (dict_keys d) → NoDup (dict_keys (dict_set k v d)).
Proof.
  intros Hd. rewrite dict_keys_set. case_decide as E; [done|].
  apply NoDup_app. split_and!; [done| |apply NoDup_singleton].
  intros x Hx. rewrite list_elem_of_singleton. by intros ->.
Qed.

Lemma dict_get_elem_of k v d : dict_get k d = Some v → (k, v) ∈ d.
Proof.
  induction d as [|[k' v'] d IH]; cbn; [done|].
  case_decide as E; [intros [= ->]; subst; left|intros; right; auto].
Qed.

Lemma elem_of_dict_get k v d : NoDup (dict_keys d) → (k, v) ∈ d → dict_get k d = Some v.
Proof.
  intros Hd. induction d as [|[k' v'] d IH]; cbn in *; [by intros ?%not_elem_of_nil|].
  apply NoDup_cons in Hd as [Hk Hd]. intros [[= -> ->]|Hin]%elem_of_cons.
  - by rewrite decide_True.
  - rewrite decide_False; [auto|]. intros ->. apply Hk, list_elem_of_fmap.
    by exists (k', v).
Qed.

Lemma dict_get_None k d : dict_get k d = None ↔ k ∉ dict_keys d.
Proof.
  induction d as [|[k' v'] d IH]; cbn; [split; [intros _; apply not_elem_of_nil|done]|].
  rewrite not_elem_of_cons. case_decide; naive_solver.
Qed.

Lemma dict_set_Forall (P : V → Prop) k v d :
  P v → Forall (λ kv, P kv.2) d → Forall (λ kv, P kv.2) (dict_set k v d).
Proof.
  intros Hv. induction 1 as [|[k' v'] d Hp Hd IH]; cbn; [by repeat constructor|].
  case_decide; constructor; auto.
Qed.
End dict.

(** [d.setdefault(k, []).append(x)]. *)
Definition dict_append {K V} `{EqDecision K} (k : K) (x : V) (d : list (K * list V))
    : list (K * list V) :=
  dict_set k (default [] (dict_get k d) ++ [x]) d.
