(* ===== verification/Syscalls.v ===== *)
(** * syscalls.py: the syscall tables and their lookups

    The two tables are transcribed entry by entry, in order, and assembled into
    dicts the way the module does: a dict display followed by one assignment.
    [platform.machine()] is the environment's answer, a parameter of every
    function that reads it.  Name lookup and number lookup are proved inverse
    to each other on both architectures. *)

From S2P Require Import Prelude PyDict.

Definition AUDIT_ARCH_X86_64 : Z := 0xC000003E.
Definition AUDIT_ARCH_AARCH64 : Z := 0xC00000B7.

(** Lines 30-159 of the table. *)
Definition X86_64_SYSCALLS_1 : list (string * Z) :=
  [("read", 0); ("write", 1); ("open", 2); ("close", 3); ("stat", 4); ("fstat", 5);
   ("lstat", 6); ("poll", 7); ("lseek", 8); ("mmap", 9); ("mprotect", 10); ("munmap", 11);
   ("brk", 12); ("rt_sigaction", 13); ("rt_sigprocmask", 14); ("rt_sigreturn", 15);
   ("ioctl", 16); ("pread64", 17); ("pwrite64", 18); ("readv", 19); ("writev", 20);
   ("access", 21); ("pipe", 22); ("select", 23); ("sched_yield", 24); ("mremap", 25);
   ("msync", 26); ("mincore", 27); ("madvise", 28); ("shmget", 29); ("shmat", 30);
   ("shmctl", 31); ("dup", 32); ("dup2", 33); ("pause", 34); ("nanosleep", 35);
   ("getitimer", 36); ("alarm", 37); ("setitimer", 38); ("getpid", 39); ("sendfile", 40);
   ("socket", 41); ("connect", 42); ("accept", 43); ("sendto", 44); ("recvfrom", 45);
   ("sendmsg", 46); ("recvmsg", 47); ("shutdown", 48); ("bind", 49); ("listen", 50);
   ("getsockname", 51); ("getpeername", 52); ("socketpair", 53); ("setsockopt", 54);
   ("getsockopt", 55); ("clone", 56); ("fork", 57); ("vfork", 58); ("execve", 59);
   ("exit", 60); ("wait4", 61); ("kill", 62); ("uname", 63); ("semget", 64);
   ("semop", 65); ("semctl", 66); ("shmdt", 67); ("msgget", 68); ("msgsnd", 69);
   ("msgrcv", 70); ("msgctl", 71); ("fcntl", 72); ("flock", 73); ("fsync", 74);
   ("fdatasync", 75); ("truncate", 76); ("ftruncate", 77); ("getdents", 78);
   ("getcwd", 79); ("chdir", 80); ("fchdir", 81); ("rename", 82); ("mkdir", 83);
   ("rmdir", 84); ("creat", 85); ("link", 86); ("unlink", 87); ("symlink", 88);
   ("readlink", 89); ("chmod", 90); ("fchmod", 91); ("chown", 92); ("fchown", 93);
   ("lchown", 94); ("umask", 95); ("gettimeofday", 96); ("getrlimit", 97);
   ("getrusage", 98); ("sysinfo", 99); ("times", 100); ("ptrace", 101); ("getuid", 102);
   ("syslog", 103); ("getgid", 104); ("setuid", 105); ("setgid", 106); ("geteuid", 107);
   ("getegid", 108); ("setpgid", 109); ("getppid", 110); ("getpgrp", 111);
   ("setsid", 112); ("setreuid", 113); ("setregid", 114); ("getgroups", 115);
   ("setgroups", 116); ("setresuid", 117); ("getresuid", 118); ("setresgid", 119);
   ("getresgid", 120); ("getpgid", 121); ("setfsuid", 122); ("setfsgid", 123);
   ("getsid", 124); ("capget", 125); ("capset", 126); ("rt_sigpending", 127);
   ("rt_sigtimedwait", 128); ("rt_sigqueueinfo", 129)].

(** Lines 160-289 of the table. *)
Definition X86_64_SYSCALLS_2 : list (string * Z) :=
  [("rt_sigsuspend", 130); ("sigaltstack", 131); ("utime", 132); ("mknod", 133);
   ("uselib", 134); ("personality", 135); ("ustat", 136); ("statfs", 137);
   ("fstatfs", 138); ("sysfs", 139); ("getpriority", 140); ("setpriority", 141);
   ("sched_setparam", 142); ("sched_getparam", 143); ("sched_setscheduler", 144);
   ("sched_getscheduler", 145); ("sched_get_priority_max", 146);
   ("sched_get_priority_min", 147); ("sched_rr_get_interval", 148); ("mlock", 149);
   ("munlock", 150); ("mlockall", 151); ("munlockall", 152); ("vhangup", 153);
   ("modify_ldt", 154); ("pivot_root", 155); ("_sysctl", 156); ("prctl", 157);
   ("arch_prctl", 158); ("adjtimex", 159); ("setrlimit", 160); ("chroot", 161);
   ("sync", 162); ("acct", 163); ("settimeofday", 164); ("mount", 165); ("umount2", 166);
   ("swapon", 167); ("swapoff", 168); ("reboot", 169); ("sethostname", 170);
   ("setdomainname", 171); ("iopl", 172); ("ioperm", 173); ("create_module", 174);
   ("init_module", 175); ("delete_module", 176); ("get_kernel_syms", 177);
   ("query_module", 178); ("quotactl", 179); ("nfsservctl", 180); ("getpmsg", 181);
   ("putpmsg", 182); ("afs_syscall", 183); ("tuxcall", 184); ("security", 185);
   ("gettid", 186); ("readahead", 187); ("setxattr", 188); ("lsetxattr", 189);
   ("fsetxattr", 190); ("getxattr", 191); ("lgetxattr", 192); ("fgetxattr", 193);
   ("listxattr", 194); ("llistxattr", 195); ("flistxattr", 196); ("removexattr", 197);
   ("lremovexattr", 198); ("fremovexattr", 199); ("tkill", 200); ("time", 201);
   ("futex", 202); ("sched_setaffinity", 203); ("sched_getaffinity", 204);
   ("set_thread_area", 205); ("io_setup", 206); ("io_destroy", 207);
   ("io_getevents", 208); ("io_submit", 209); ("io_cancel", 210);
   ("get_thread_area", 211); ("lookup_dcookie", 212); ("epoll_create", 213);
   ("epoll_ctl_old", 214); ("epoll_wait_old", 215); ("remap_file_pages", 216);
   ("getdents64", 217); ("set_tid_address", 218); ("restart_syscall", 219);
   ("semtimedop", 220); ("fadvise64", 221); ("timer_create", 222); ("timer_settime", 223);
   ("timer_gettime", 224); ("timer_getoverrun", 225); ("timer_delete", 226);
   ("clock_settime", 227); ("clock_gettime", 228); ("clock_getres", 229);
   ("clock_nanosleep", 230); ("exit_group", 231); ("epoll_wait", 232); ("epoll_ctl", 233);
   ("tgkill", 234); ("utimes", 235); ("vserver", 236); ("mbind", 237);
   ("set_mempolicy", 238); ("get_mempolicy", 239); ("mq_open", 240); ("mq_unlink", 241);
   ("mq_timedsend", 242); ("mq_timedreceive", 243); ("mq_notify", 244);
   ("mq_getsetattr", 245); ("kexec_load", 246); ("waitid", 247); ("add_key", 248);
   ("request_key", 249); ("keyctl", 250); ("ioprio_set", 251); ("ioprio_get", 252);
   ("inotify_init", 253); ("inotify_add_watch", 254); ("inotify_rm_watch", 255);
   ("migrate_pages", 256); ("openat", 257); ("mkdirat", 258); ("mknodat", 259)].

(** Lines 290-413 of the table. *)
Definition X86_64_SYSCALLS_3 : list (string * Z) :=
  [("fchownat", 260); ("futimesat", 261); ("newfstatat", 262); ("unlinkat", 263);
   ("renameat", 264); ("linkat", 265); ("symlinkat", 266); ("readlinkat", 267);
   ("fchmodat", 268); ("faccessat", 269); ("pselect6", 270); ("ppoll", 271);
   ("unshare", 272); ("set_robust_list", 273); ("get_robust_list", 274); ("splice", 275);
   ("tee", 276); ("sync_file_range", 277); ("vmsplice", 278); ("move_pages", 279);
   ("utimensat", 280); ("epoll_pwait", 281); ("signalfd", 282); ("timerfd_create", 283);
   ("eventfd", 284); ("fallocate", 285); ("timerfd_settime", 286);
   ("timerfd_gettime", 287); ("accept4", 288); ("signalfd4", 289); ("eventfd2", 290);
   ("epoll_create1", 291); ("dup3", 292); ("pipe2", 293); ("inotify_init1", 294);
   ("preadv", 295); ("pwritev", 296); ("rt_tgsigqueueinfo", 297);
   ("perf_event_open", 298); ("recvmmsg", 299); ("fanotify_init", 300);
   ("fanotify_mark", 301); ("prlimit64", 302); ("name_to_handle_at", 303);
   ("open_by_handle_at", 304); ("clock_adjtime", 305); ("syncfs", 306); ("sendmmsg", 307);
   ("setns", 308); ("getcpu", 309); ("process_vm_readv", 310); ("process_vm_writev", 311);
   ("kcmp", 312); ("finit_module", 313); ("sched_setattr", 314); ("sched_getattr", 315);
   ("renameat2", 316); ("seccomp", 317); ("getrandom", 318); ("memfd_create", 319);
   ("kexec_file_load", 320); ("bpf", 321); ("execveat", 322); ("userfaultfd", 323);
   ("membarrier", 324); ("mlock2", 325); ("copy_file_range", 326); ("preadv2", 327);
   ("pwritev2", 328); ("pkey_mprotect", 329); ("pkey_alloc", 330); ("pkey_free", 331);
   ("statx", 332); ("io_pgetevents", 333); ("rseq", 334); ("uretprobe", 335);
   ("uprobe", 336); ("pidfd_send_signal", 424); ("io_uring_setup", 425);
   ("io_uring_enter", 426); ("io_uring_register", 427); ("open_tree", 428);
   ("move_mount", 429); ("fsopen", 430); ("fsconfig", 431); ("fsmount", 432);
   ("fspick", 433); ("pidfd_open", 434); ("clone3", 435); ("close_range", 436);
   ("openat2", 437); ("pidfd_getfd", 438); ("faccessat2", 439); ("process_madvise", 440);
   ("epoll_pwait2", 441); ("mount_setattr", 442); ("quotactl_fd", 443);
   ("landlock_create_ruleset", 444); ("landlock_add_rule", 445);
   ("landlock_restrict_self", 446); ("process_mrelease", 448); ("futex_waitv", 449);
   ("set_mempolicy_home_node", 450); ("cachestat", 451); ("fchmodat2", 452);
   ("map_shadow_stack", 453); ("futex_wake", 454); ("futex_wait", 455);
   ("futex_requeue", 456); ("statmount", 457); ("listmount", 458);
   ("lsm_get_self_attr", 459); ("lsm_set_self_attr", 460); ("lsm_list_modules", 461);
   ("mseal", 462); ("setxattrat", 463); ("getxattrat", 464); ("listxattrat", 465);
   ("removexattrat", 466); ("open_tree_attr", 467); ("file_getattr", 468);
   ("file_setattr", 469); ("listns", 470); ("rseq_slice_yield", 471)].

(** Lines 419-548 of the table. *)
Definition AARCH64_SYSCALLS_1 : list (string * Z) :=
  [("io_setup", 0); ("io_destroy", 1); ("io_submit", 2); ("io_cancel", 3);
   ("io_getevents", 4); ("setxattr", 5); ("lsetxattr", 6); ("fsetxattr", 7);
   ("getxattr", 8); ("lgetxattr", 9); ("fgetxattr", 10); ("listxattr", 11);
   ("llistxattr", 12); ("flistxattr", 13); ("removexattr", 14); ("lremovexattr", 15);
   ("fremovexattr", 16); ("getcwd", 17); ("lookup_dcookie", 18); ("eventfd2", 19);
   ("epoll_create1", 20); ("epoll_ctl", 21); ("epoll_pwait", 22); ("dup", 23);
   ("dup3", 24); ("fcntl", 25); ("fcntl64", 25); ("inotify_init1", 26);
   ("inotify_add_watch", 27); ("inotify_rm_watch", 28); ("ioctl", 29); ("ioprio_set", 30);
   ("ioprio_get", 31); ("flock", 32); ("mknodat", 33); ("mkdirat", 34); ("unlinkat", 35);
   ("symlinkat", 36); ("linkat", 37); ("renameat", 38); ("umount2", 39); ("mount", 40);
   ("pivot_root", 41); ("nfsservctl", 42); ("statfs", 43); ("statfs64", 43);
   ("fstatfs", 44); ("fstatfs64", 44); ("truncate", 45); ("truncate64", 45);
   ("ftruncate", 46); ("ftruncate64", 46); ("fallocate", 47); ("faccessat", 48);
   ("chdir", 49); ("fchdir", 50); ("chroot", 51); ("fchmod", 52); ("fchmodat", 53);
   ("fchownat", 54); ("fchown", 55); ("openat", 56); ("close", 57); ("vhangup", 58);
   ("pipe2", 59); ("quotactl", 60); ("getdents64", 61); ("lseek", 62); ("llseek", 62);
   ("read", 63); ("write", 64); ("readv", 65); ("writev", 66); ("pread64", 67);
   ("pwrite64", 68); ("preadv", 69); ("pwritev", 70); ("sendfile", 71);
   ("sendfile64", 71); ("pselect6", 72); ("ppoll", 73); ("signalfd4", 74);
   ("vmsplice", 75); ("splice", 76); ("tee", 77); ("readlinkat", 78); ("fstatat", 79);
   ("newfstatat", 79); ("fstatat64", 79); ("fstat", 80); ("fstat64", 80); ("sync", 81);
   ("fsync", 82); ("fdatasync", 83); ("sync_file_range2", 84); ("sync_file_range", 84);
   ("timerfd_create", 85); ("timerfd_settime", 86); ("timerfd_gettime", 87);
   ("utimensat", 88); ("acct", 89); ("capget", 90); ("capset", 91); ("personality", 92);
   ("exit", 93); ("exit_group", 94); ("waitid", 95); ("set_tid_address", 96);
   ("unshare", 97); ("futex", 98); ("set_robust_list", 99); ("get_robust_list", 100);
   ("nanosleep", 101); ("getitimer", 102); ("setitimer", 103); ("kexec_load", 104);
   ("init_module", 105); ("delete_module", 106); ("timer_create", 107);
   ("timer_gettime", 108); ("timer_getoverrun", 109); ("timer_settime", 110);
   ("timer_delete", 111); ("clock_settime", 112); ("clock_gettime", 113);
   ("clock_getres", 114); ("clock_nanosleep", 115); ("syslog", 116); ("ptrace", 117);
   ("sched_setparam", 118)].

(** Lines 549-678 of the table. *)
Definition AARCH64_SYSCALLS_2 : list (string * Z) :=
  [("sched_setscheduler", 119); ("sched_getscheduler", 120); ("sched_getparam", 121);
   ("sched_setaffinity", 122); ("sched_getaffinity", 123); ("sched_yield", 124);
   ("sched_get_priority_max", 125); ("sched_get_priority_min", 126);
   ("sched_rr_get_interval", 127); ("restart_syscall", 128); ("kill", 129);
   ("tkill", 130); ("tgkill", 131); ("sigaltstack", 132); ("rt_sigsuspend", 133);
   ("rt_sigaction", 134); ("rt_sigprocmask", 135); ("rt_sigpending", 136);
   ("rt_sigtimedwait", 137); ("rt_sigqueueinfo", 138); ("rt_sigreturn", 139);
   ("setpriority", 140); ("getpriority", 141); ("reboot", 142); ("setregid", 143);
   ("setgid", 144); ("setreuid", 145); ("setuid", 146); ("setresuid", 147);
   ("getresuid", 148); ("setresgid", 149); ("getresgid", 150); ("setfsuid", 151);
   ("setfsgid", 152); ("times", 153); ("setpgid", 154); ("getpgid", 155); ("getsid", 156);
   ("setsid", 157); ("getgroups", 158); ("setgroups", 159); ("uname", 160);
   ("sethostname", 161); ("setdomainname", 162); ("getrlimit", 163); ("setrlimit", 164);
   ("getrusage", 165); ("umask", 166); ("prctl", 167); ("getcpu", 168);
   ("gettimeofday", 169); ("settimeofday", 170); ("adjtimex", 171); ("getpid", 172);
   ("getppid", 173); ("getuid", 174); ("geteuid", 175); ("getgid", 176); ("getegid", 177);
   ("gettid", 178); ("sysinfo", 179); ("mq_open", 180); ("mq_unlink", 181);
   ("mq_timedsend", 182); ("mq_timedreceive", 183); ("mq_notify", 184);
   ("mq_getsetattr", 185); ("msgget", 186); ("msgctl", 187); ("msgrcv", 188);
   ("msgsnd", 189); ("semget", 190); ("semctl", 191); ("semtimedop", 192); ("semop", 193);
   ("shmget", 194); ("shmctl", 195); ("shmat", 196); ("shmdt", 197); ("socket", 198);
   ("socketpair", 199); ("bind", 200); ("listen", 201); ("accept", 202); ("connect", 203);
   ("getsockname", 204); ("getpeername", 205); ("sendto", 206); ("recvfrom", 207);
   ("setsockopt", 208); ("getsockopt", 209); ("shutdown", 210); ("sendmsg", 211);
   ("recvmsg", 212); ("readahead", 213); ("brk", 214); ("munmap", 215); ("mremap", 216);
   ("add_key", 217); ("request_key", 218); ("keyctl", 219); ("clone", 220);
   ("execve", 221); ("mmap", 222); ("mmap2", 222); ("fadvise64", 223);
   ("fadvise64_64", 223); ("swapon", 224); ("swapoff", 225); ("mprotect", 226);
   ("msync", 227); ("mlock", 228); ("munlock", 229); ("mlockall", 230);
   ("munlockall", 231); ("mincore", 232); ("madvise", 233); ("remap_file_pages", 234);
   ("mbind", 235); ("get_mempolicy", 236); ("set_mempolicy", 237); ("migrate_pages", 238);
   ("move_pages", 239); ("rt_tgsigqueueinfo", 240); ("perf_event_open", 241);
   ("accept4", 242); ("recvmmsg", 243); ("wait4", 260); ("prlimit64", 261);
   ("fanotify_init", 262)].

(** Lines 679-777 of the table. *)
Definition AARCH64_SYSCALLS_3 : list (string * Z) :=
  [("fanotify_mark", 263); ("name_to_handle_at", 264); ("open_by_handle_at", 265);
   ("clock_adjtime", 266); ("syncfs", 267); ("setns", 268); ("sendmmsg", 269);
   ("process_vm_readv", 270); ("process_vm_writev", 271); ("kcmp", 272);
   ("finit_module", 273); ("sched_setattr", 274); ("sched_getattr", 275);
   ("renameat2", 276); ("seccomp", 277); ("getrandom", 278); ("memfd_create", 279);
   ("bpf", 280); ("execveat", 281); ("userfaultfd", 282); ("membarrier", 283);
   ("mlock2", 284); ("copy_file_range", 285); ("preadv2", 286); ("pwritev2", 287);
   ("pkey_mprotect", 288); ("pkey_alloc", 289); ("pkey_free", 290); ("statx", 291);
   ("io_pgetevents", 292); ("rseq", 293); ("kexec_file_load", 294);
   ("clock_gettime64", 403); ("clock_settime64", 404); ("clock_adjtime64", 405);
   ("clock_getres_time64", 406); ("clock_nanosleep_time64", 407);
   ("timer_gettime64", 408); ("timer_settime64", 409); ("timerfd_gettime64", 410);
   ("timerfd_settime64", 411); ("utimensat_time64", 412); ("pselect6_time64", 413);
   ("ppoll_time64", 414); ("io_pgetevents_time64", 416); ("recvmmsg_time64", 417);
   ("mq_timedsend_time64", 418); ("mq_timedreceive_time64", 419);
   ("semtimedop_time64", 420); ("rt_sigtimedwait_time64", 421); ("futex_time64", 422);
   ("sched_rr_get_interval_time64", 423); ("pidfd_send_signal", 424);
   ("io_uring_setup", 425); ("io_uring_enter", 426); ("io_uring_register", 427);
   ("open_tree", 428); ("move_mount", 429); ("fsopen", 430); ("fsconfig", 431);
   ("fsmount", 432); ("fspick", 433); ("pidfd_open", 434); ("clone3", 435);
   ("close_range", 436); ("openat2", 437); ("pidfd_getfd", 438); ("faccessat2", 439);
   ("process_madvise", 440); ("epoll_pwait2", 441); ("mount_setattr", 442);
   ("quotactl_fd", 443); ("landlock_create_ruleset", 444); ("landlock_add_rule", 445);
   ("landlock_restrict_self", 446); ("process_mrelease", 448); ("futex_waitv", 449);
   ("set_mempolicy_home_node", 450); ("cachestat", 451); ("fchmodat2", 452);
   ("map_shadow_stack", 453); ("futex_wake", 454); ("futex_wait", 455);
   ("futex_requeue", 456); ("statmount", 457); ("listmount", 458);
   ("lsm_get_self_attr", 459); ("lsm_set_self_attr", 460); ("lsm_list_modules", 461);
   ("mseal", 462); ("setxattrat", 463); ("getxattrat", 464); ("listxattrat", 465);
   ("removexattrat", 466); ("open_tree_attr", 467); ("file_getattr", 468);
   ("file_setattr", 469); ("listns", 470); ("rseq_slice_yield", 471)].

Definition X86_64_SYSCALLS : list (string * Z) :=
  dict_set "memfd_secret" 447
    (dict_of_list (X86_64_SYSCALLS_1 ++ X86_64_SYSCALLS_2 ++ X86_64_SYSCALLS_3)).

Definition AARCH64_SYSCALLS : list (string * Z) :=
  dict_set "memfd_secret" 447
    (dict_of_list (AARCH64_SYSCALLS_1 ++ AARCH64_SYSCALLS_2 ++ AARCH64_SYSCALLS_3)).

Arguments X86_64_SYSCALLS : simpl never.
Arguments AARCH64_SYSCALLS : simpl never.

(** An entry of [_ARCHES]. *)
Record arch_entry := ArchEntry {
  arch_name : string; arch_audit : Z; arch_table : list (string * Z) }.

Definition _ARCHES : list (string * arch_entry) :=
  [("x86_64", ArchEntry "x86_64" AUDIT_ARCH_X86_64 X86_64_SYSCALLS);
   ("amd64", ArchEntry "x86_64" AUDIT_ARCH_X86_64 X86_64_SYSCALLS);
   ("aarch64", ArchEntry "aarch64" AUDIT_ARCH_AARCH64 AARCH64_SYSCALLS);
   ("arm64", ArchEntry "aarch64" AUDIT_ARCH_AARCH64 AARCH64_SYSCALLS)].

(** [str.lower] on the ASCII letters. *)
Definition ascii_lower (c : Ascii.ascii) : Ascii.ascii :=
  let n := Ascii.nat_of_ascii c in
  if (65 <=? n)%nat && (n <=? 90)%nat then Ascii.ascii_of_nat (n + 32) else c.

Fixpoint str_lower (s : string) : string :=
  match s with
  | EmptyString => EmptyString
  | String c s => String (ascii_lower c) (str_lower s)
  end.

(** The [str | int] argument of [syscall_nr] and of the rule methods; any other
    object is looked up in the table like a name, which takes a hash. *)
Inductive syscall_arg :=
| SysName (name : string)
| SysNr (nr : Z)
| SysOther (hashable : bool).

Section native.
Context (platform_machine : string).

Definition _native : result arch_entry :=
  or_raise (dict_get (str_lower platform_machine) _ARCHES) (UnsupportedError None).

Definition arch : result string := arch_name <$> _native.

Definition audit_arch : result Z := arch_audit <$> _native.

Definition syscall_nr (syscall : syscall_arg) : result Z :=
  match syscall with
  | SysNr nr =>
      if (0 <=? nr) && (nr <=? 0xFFFFFFFF) then Ok nr
      else Raise (ValueError "syscall number out of range")
  | SysName name =>
      native ← _native;
      or_raise (dict_get name (arch_table native)) (ValueError "unknown syscall")
  | SysOther hashable =>
      native ← _native;
      Raise (if (hashable : bool) then ValueError "unknown syscall" else TypeError "unhashable type")
  end.

(** The first entry, in table order, with the given number. *)
Definition syscall_name (nr : Z) : result string :=
  native ← _native;
  or_raise (fst <$> (snd <$> list_find (λ kv, kv.2 = nr) (arch_table native)))
    (ValueError "unknown syscall number").
End native.

(** ** Table invariants *)

(** The first name a table has for a number: what the loop of [syscall_name]
    finds. *)
Definition first_name (t : list (string * Z)) (nr : Z) : option string :=
  fst <$> (snd <$> list_find (λ kv, kv.2 = nr) t).

(** The aarch64 names that share their number with an earlier entry. *)
Definition aarch64_aliases : list string :=
  ["fcntl64"; "statfs64"; "fstatfs64"; "truncate64"; "ftruncate64"; "llseek"; "sendfile64";
   "newfstatat"; "fstatat64"; "fstat64"; "sync_file_range"; "mmap2"; "fadvise64_64"].

(** Names are unique, numbers lie in the UAPI range 0 .. 471, and a name is the
    first of its number unless it is one of [aliases]. *)
Definition table_ok (aliases : list string) (t : list (string * Z)) : Prop :=
  NoDup (dict_keys t) ∧ Forall (λ kv, 0 <= kv.2 <= 471) t ∧
  Forall (λ kv, first_name t kv.2 = Some kv.1 ↔ kv.1 ∉ aliases) t.

#[export] Instance table_ok_dec al t : Decision (table_ok al t).
Proof. unfold table_ok. apply _. Defined.

Lemma x86_table_ok : table_ok [] X86_64_SYSCALLS.
Proof. apply (bool_decide_unpack _). vm_compute. exact I. Qed.

Lemma aarch64_table_ok : table_ok aarch64_aliases AARCH64_SYSCALLS.
Proof. apply (bool_decide_unpack _). vm_compute. exact I. Qed.

(** What a supported machine name selects. *)
Lemma native_cases machine e :
  _native machine = Ok e →
  e = ArchEntry "x86_64" AUDIT_ARCH_X86_64 X86_64_SYSCALLS ∨
  e = ArchEntry "aarch64" AUDIT_ARCH_AARCH64 AARCH64_SYSCALLS.
Proof.
  unfold _native. intros H. inv_ok. apply dict_get_elem_of in E.
  unfold _ARCHES in E. rewrite !elem_of_cons in E.
  destruct E as [E|[E|[E|[E|E]]]]; [..|by apply not_elem_of_nil in E];
    apply (f_equal snd) in E; cbn [snd] in E; [left|left|right|right]; exact E.
Qed.

Lemma native_table_ok machine e :
  _native machine = Ok e →
  table_ok (if decide (arch_name e = "aarch64") then aarch64_aliases else []) (arch_table e).
Proof.
  intros [-> | ->]%native_cases; [apply x86_table_ok|apply aarch64_table_ok].
Qed.

Lemma first_name_get al t nr s :
  table_ok al t → first_name t nr = Some s → dict_get s t = Some nr.
Proof.
  intros (Hk & _ & _). unfold first_name.
  destruct (list_find _ t) as [[i [s' nr']]|] eqn:Hf; cbn; [|done]. intros [= ->].
  apply list_find_Some in Hf as (Hi & Hn & _). cbn in Hn. subst nr'.
  apply elem_of_dict_get; [done|]. by eapply list_elem_of_lookup_2.
Qed.

Lemma get_first_name t nr s :
  dict_get s t = Some nr → ∃ s', first_name t nr = Some s'.
Proof.
  intros Hg%dict_get_elem_of. unfold first_name.
  destruct (list_find_elem_of (λ kv, kv.2 = nr) t (s, nr) Hg eq_refl) as [[i [s' nr']] Hf].
  rewrite Hf. by eexists.
Qed.

Lemma audit_arch_range machine a : audit_arch machine = Ok a → 0 <= a <= 0xFFFFFFFF.
Proof.
  unfold audit_arch. destruct (_native machine) as [e|] eqn:E; cbn; [|done].
  intros [= <-]. apply native_cases in E as [-> | ->]; done.
Qed.

Lemma syscall_nr_range machine arg nr :
  syscall_nr machine arg = Ok nr → 0 <= nr <= 0xFFFFFFFF.
Proof.
  destruct arg as [s|z|hashable]; cbn.
  - intros H. inv_ok. apply native_table_ok in E as (_ & Hr & _).
    apply dict_get_elem_of in E0. rewrite Forall_forall in Hr. specialize (Hr _ E0). cbn in Hr. lia.
  - destruct (_ && _) eqn:E; [|done]. bool_to_prop. intros [= <-]. lia.
  - by destruct (_native machine).
Qed.

(** ** The theorems *)

(** C29.  Every name [syscall_nr] resolves has a canonical name under
    [syscall_name], which resolves to the same number; the round trip gives
    back the name itself except for thirteen aarch64 aliases. *)
Theorem syscall_name_roundtrip (machine s : string) (nr : Z)
    (H : syscall_nr machine (SysName s) = Ok nr) :
  ∃ s', syscall_name machine nr = Ok s' ∧ syscall_nr machine (SysName s') = Ok nr ∧
    (s' = s ↔ ¬ (arch machine = Ok "aarch64" ∧ s ∈ aarch64_aliases)).
Proof.
  unfold syscall_nr, syscall_name, arch in *. destruct (_native machine) as [e|] eqn:E; [|done].
  cbn [mbind result_bind fmap result_fmap] in *. inv_ok.
  pose proof (native_table_ok _ _ E) as Ht.
  destruct (get_first_name _ _ _ E0) as [s' Hs']. exists s'. unfold first_name in Hs'.
  rewrite Hs', (first_name_get _ _ _ _ Ht Hs'). split_and!; [done..|].
  destruct Ht as (_ & _ & Hal). rewrite Forall_forall in Hal.
  specialize (Hal _ (dict_get_elem_of _ _ _ E0)). cbn in Hal. unfold first_name in Hal.
  rewrite Hs' in Hal. case_decide as Ed.
  - rewrite Ed. naive_solver.
  - pose proof (not_elem_of_nil s). split; [|naive_solver]. intros _ [[= He] _]. naive_solver.
Qed.

Lemma syscall_name_roundtrip_witness :
  ∃ s', syscall_name "x86_64" 257 = Ok s' ∧ syscall_nr "x86_64" (SysName s') = Ok 257 ∧
    (s' = "openat" ↔ ¬ (arch "x86_64" = Ok "aarch64" ∧ "openat" ∈ aarch64_aliases)).
Proof. apply (syscall_name_roundtrip "x86_64" "openat" 257). vm_compute. reflexivity. Defined.

(** The table that the documentation gives for a machine name. *)
Definition documented_table (machine : string) : option (list (string * Z)) :=
  if decide (str_lower machine ∈ ["x86_64"; "amd64"]) then Some X86_64_SYSCALLS
  else if decide (str_lower machine ∈ ["aarch64"; "arm64"]) then Some AARCH64_SYSCALLS
  else None.

Lemma native_documented machine :
  match _native machine with
  | Ok e => documented_table machine = Some (arch_table e)
  | Raise e => documented_table machine = None ∧ e = UnsupportedError None
  end.
Proof.
  unfold _native, documented_table, _ARCHES.
  generalize (str_lower machine), X86_64_SYSCALLS, AARCH64_SYSCALLS. intros m t1 t2.
  cbn [dict_get].
  repeat case_decide; cbn [or_raise]; subst; try done;
    repeat match goal with
    | H : context [_ ∈ _ :: _] |- _ => rewrite !elem_of_cons, elem_of_nil in H
    end; naive_solver.
Qed.

(** C30.  Every outcome of [syscall_nr].  A raw number is passed through if it
    fits in 32 bits and is a [ValueError] otherwise, whatever the platform.  A
    name resolves to a number exactly if the table of the native architecture
    has that entry, and then the number fits in 32 bits; a name that is not in
    the table is a [ValueError], as is any other object that can be a dict key;
    on a machine without a table both are an [UnsupportedError]. *)
Theorem syscall_nr_outcomes (machine name : string) (z : Z) (hashable : bool) :
  syscall_nr machine (SysNr z) =
    (if decide (0 <= z < 2 ^ 32) then Ok z else Raise (ValueError "syscall number out of range")) ∧
  match documented_table machine with
  | Some table =>
      NoDup table.*1 ∧
      (∀ nr, syscall_nr machine (SysName name) = Ok nr ↔ (name, nr) ∈ table) ∧
      (∀ nr, (name, nr) ∈ table → 0 <= nr < 2 ^ 32) ∧
      (syscall_nr machine (SysName name) = Raise (ValueError "unknown syscall") ↔ name ∉ table.*1) ∧
      syscall_nr machine (SysOther hashable) =
        Raise (if hashable then ValueError "unknown syscall" else TypeError "unhashable type")
  | None =>
      syscall_nr machine (SysName name) = Raise (UnsupportedError None) ∧
      syscall_nr machine (SysOther hashable) = Raise (UnsupportedError None)
  end.
Proof.
  split.
  { cbn [syscall_nr]. case_decide as Hz; destruct (_ && _) eqn:E; bool_to_prop; done || lia. }
  pose proof (native_documented machine) as Hd. cbn [syscall_nr].
  destruct (_native machine) as [e|e] eqn:En.
  2: { by destruct Hd as [-> ->]. }
  rewrite Hd. cbn [mbind result_bind].
  pose proof (native_table_ok _ _ En) as (Hk & Hr & _). change (arch_table e).*1 with (dict_keys (arch_table e)).
  assert (∀ nr, or_raise (dict_get name (arch_table e)) (ValueError "unknown syscall") = Ok nr ↔
    (name, nr) ∈ arch_table e) as Hok.
  { intros nr. split.
    - destruct (dict_get name (arch_table e)) as [nr'|] eqn:Hg; cbn [or_raise]; [|done].
      intros [= <-]. by apply dict_get_elem_of.
    - intros Hin. by rewrite (elem_of_dict_get _ _ _ Hk Hin). }
  split_and!; [done..| | |done].
  - intros nr Hin. rewrite Forall_forall in Hr. specialize (Hr _ Hin). cbn in Hr. lia.
  - rewrite <- dict_get_None. by destruct (dict_get name (arch_table e)).
Qed.

(** On aarch64 [syscall_name] does not return the native name of every
    number: 79 ([newfstatat]) reads as ["fstatat"] and 84 ([sync_file_range])
    as ["sync_file_range2"], although both native names resolve to those
    numbers. *)
Theorem aarch64_name_aliases :
  syscall_nr "aarch64" (SysName "newfstatat") = Ok 79 ∧
  syscall_name "aarch64" 79 = Ok "fstatat" ∧
  syscall_nr "aarch64" (SysName "sync_file_range") = Ok 84 ∧
  syscall_name "aarch64" 84 = Ok "sync_file_range2".
Proof. vm_compute. done. Qed.
