(* ===== verification/Ctypes.v ===== *)
(** * ctypes structures

    What a [_fields_] declaration means: the C layout it gives and the access to
    the fields by name.  Each field lies at the next multiple of its own alignment
    and the whole is padded to the largest one; an integer is stored little-endian
    on both supported architectures, wraps to its width when it is assigned and is
    read back with the sign of its declared type. *)

From S2P Require Import Prelude PyBytes.

Inductive ctype :=
| CPrim (width : nat) (signed : bool)
| CArray (item : ctype) (n : nat)
| CStruct (fields : list (string * ctype)).

Definition c_uint16 : ctype := CPrim 2 false.
Definition c_uint32 : ctype := CPrim 4 false.
Definition c_uint64 : ctype := CPrim 8 false.
Definition c_int32 : ctype := CPrim 4 true.
Definition c_int64 : ctype := CPrim 8 true.
Definition c_ushort : ctype := c_uint16.
Definition c_void_p : ctype := CPrim 8 false.

(** One step of an access path: [.name] or [[i]]. *)
Inductive selector := Dot (name : string) | Item (i : nat).
Abbreviation path := (list selector).

#[export] Instance selector_eq_dec : EqDecision selector.
Proof. solve_decision. Defined.

(** ** Layout *)

Definition align_up (a off : nat) : nat := (off + a - 1) / a * a.

Fixpoint c_align (t : ctype) : nat :=
  match t with
  | CPrim w _ => w
  | CArray t _ => c_align t
  | CStruct fs => max_list (map (λ f, c_align f.2) fs)
  end.

Fixpoint c_size (t : ctype) : nat :=
  match t with
  | CPrim w _ => w
  | CArray t n => (n * c_size t)%nat
  | CStruct fs =>
      align_up (max_list (map (λ f, c_align f.2) fs))
        (foldl (λ off f, (align_up (c_align f.2) off + c_size f.2)%nat) 0%nat fs)
  end.

(** A scalar in the memory of an object. *)
Record slot := mkSlot { s_off : nat; s_width : nat; s_signed : bool }.

Definition move (k : nat) (s : selector) (x : path * slot) : path * slot :=
  (s :: x.1, mkSlot (k + s_off x.2) (s_width x.2) (s_signed x.2)).

(** The scalars of an object, in the order of their addresses. *)
Fixpoint slots (t : ctype) : list (path * slot) :=
  match t with
  | CPrim w sg => [([], mkSlot 0 w sg)]
  | CArray t n => concat (map (λ i, map (move (i * c_size t) (Item i)) (slots t)) (seq 0 n))
  | CStruct fs =>
      (foldl (λ acc f,
        let off := align_up (c_align f.2) acc.2 in
        (acc.1 ++ map (move off (Dot f.1)) (slots f.2), (off + c_size f.2)%nat)) ([], 0%nat) fs).1
  end.

(** [ctypes.sizeof] of a structure with these [_fields_]. *)
Definition c_sizeof (fields : list (string * ctype)) : Z := Z.of_nat (c_size (CStruct fields)).

(** ** Access *)

Fixpoint at_path {A} (p : path) (l : list (path * A)) : option A :=
  match l with
  | [] => None
  | (q, x) :: l => if decide (p = q) then Some x else at_path p l
  end.

(** Store the scalars [l] from address [pos] on, with the values assigned to
    their paths; what was not assigned is zero, and so is the padding. *)
Fixpoint store_slots (values : list (path * Z)) (pos : nat) (l : list (path * slot)) : list Z :=
  match l with
  | [] => []
  | (p, s) :: l =>
      replicate (s_off s - pos) 0 ++ le_bytes (s_width s) (default 0 (at_path p values)) ++
      store_slots values (s_off s + s_width s) l
  end.

(** The memory of a structure after its fields were assigned. *)
Definition c_store (fields : list (string * ctype)) (values : list (path * Z)) : list Z :=
  ljust (c_size (CStruct fields)) (store_slots values 0 (slots (CStruct fields))).

(** The unsigned and the signed integer of [w] bytes at an address. *)
Definition field (b : list Z) (off w : nat) : Z := le_value (take w (drop off b)).

Definition sfield (b : list Z) (off w : nat) : Z := to_signed (8 * Z.of_nat w) (field b off w).

(** Reading a field of a structure. *)
Definition c_get (fields : list (string * ctype)) (b : list Z) (p : path) : Z :=
  match at_path p (slots (CStruct fields)) with
  | Some s => (if s_signed s then sfield else field) b (s_off s) (s_width s)
  | None => 0
  end.
