(* ===== verification/Structs.v ===== *)
(** * _syscall.py: the ctypes structures

    Each structure is declared once, by the names and C types of its [_fields_];
    [Ctypes] gives the declaration its layout, stores the assigned fields and reads
    them back by name.  A structure is used as a record with the memory image the
    kernel reads or writes. *)

From S2P Require Import Prelude PyBytes Ctypes.

(** ** The declarations *)

Definition SockFprog_fields : list (string * ctype) :=
  [("len", c_ushort); ("filter", c_void_p)].

Definition SeccompData_fields : list (string * ctype) :=
  [("nr", c_int32);
   ("arch", c_uint32);
   ("instruction_pointer", c_uint64);
   ("args", CArray c_uint64 6)].

Definition SeccompNotif_fields : list (string * ctype) :=
  [("id", c_uint64);
   ("pid", c_uint32);
   ("flags", c_uint32);
   ("data", CStruct SeccompData_fields)].

Definition SeccompNotifResp_fields : list (string * ctype) :=
  [("id", c_uint64);
   ("val", c_int64);
   ("error", c_int32);
   ("flags", c_uint32)].

Definition SeccompNotifAddfd_fields : list (string * ctype) :=
  [("id", c_uint64);
   ("flags", c_uint32);
   ("srcfd", c_uint32);
   ("newfd", c_uint32);
   ("newfd_flags", c_uint32)].

Definition SeccompNotifSizes_fields : list (string * ctype) :=
  [("seccomp_notif", c_uint16);
   ("seccomp_notif_resp", c_uint16);
   ("seccomp_data", c_uint16)].

(** ** Their values *)

Record SeccompData := {
  sd_nr : Z; sd_arch : Z; sd_instruction_pointer : Z; sd_args : list Z }.

Record SeccompNotif := { sn_id : Z; sn_pid : Z; sn_flags : Z; sn_data : SeccompData }.

Record SeccompNotifResp := { sr_id : Z; sr_val : Z; sr_error : Z; sr_flags : Z }.

Record SeccompNotifAddfd := {
  sa_id : Z; sa_flags : Z; sa_srcfd : Z; sa_newfd : Z; sa_newfd_flags : Z }.

Record SeccompNotifSizes := {
  ss_seccomp_notif : Z; ss_seccomp_notif_resp : Z; ss_seccomp_data : Z }.

(** ** Memory images: the fields by their names *)

Definition SeccompData_values (d : SeccompData) : list (path * Z) :=
  [([Dot "nr"], sd_nr d); ([Dot "arch"], sd_arch d);
   ([Dot "instruction_pointer"], sd_instruction_pointer d)] ++
  imap (λ i arg, ([Dot "args"; Item i], arg)) (sd_args d).

Definition SeccompData_bytes (d : SeccompData) : list Z :=
  c_store SeccompData_fields (SeccompData_values d).

Definition SeccompNotif_bytes (n : SeccompNotif) : list Z :=
  c_store SeccompNotif_fields
    ([([Dot "id"], sn_id n); ([Dot "pid"], sn_pid n); ([Dot "flags"], sn_flags n)] ++
     ((λ '(p, v), (Dot "data" :: p, v)) <$> SeccompData_values (sn_data n))).

Definition SeccompNotifResp_bytes (r : SeccompNotifResp) : list Z :=
  c_store SeccompNotifResp_fields
    [([Dot "id"], sr_id r); ([Dot "error"], sr_error r); ([Dot "val"], sr_val r);
     ([Dot "flags"], sr_flags r)].

Definition SeccompNotifAddfd_bytes (a : SeccompNotifAddfd) : list Z :=
  c_store SeccompNotifAddfd_fields
    [([Dot "id"], sa_id a); ([Dot "flags"], sa_flags a); ([Dot "srcfd"], sa_srcfd a);
     ([Dot "newfd"], sa_newfd a); ([Dot "newfd_flags"], sa_newfd_flags a)].

Definition SeccompNotifSizes_bytes (s : SeccompNotifSizes) : list Z :=
  c_store SeccompNotifSizes_fields
    [([Dot "seccomp_notif"], ss_seccomp_notif s);
     ([Dot "seccomp_notif_resp"], ss_seccomp_notif_resp s);
     ([Dot "seccomp_data"], ss_seccomp_data s)].

Definition SeccompData_get (get : path → Z) : SeccompData :=
  {| sd_nr := get [Dot "nr"]; sd_arch := get [Dot "arch"];
     sd_instruction_pointer := get [Dot "instruction_pointer"];
     sd_args := (λ i, get [Dot "args"; Item i]) <$> seq 0 6 |}.

Definition SeccompData_of_bytes (b : list Z) : SeccompData :=
  SeccompData_get (c_get SeccompData_fields b).

Definition SeccompNotif_of_bytes (b : list Z) : SeccompNotif :=
  let get := c_get SeccompNotif_fields b in
  {| sn_id := get [Dot "id"]; sn_pid := get [Dot "pid"]; sn_flags := get [Dot "flags"];
     sn_data := SeccompData_get (λ p, get (Dot "data" :: p)) |}.

Definition SeccompNotifResp_of_bytes (b : list Z) : SeccompNotifResp :=
  let get := c_get SeccompNotifResp_fields b in
  {| sr_id := get [Dot "id"]; sr_val := get [Dot "val"]; sr_error := get [Dot "error"];
     sr_flags := get [Dot "flags"] |}.

Definition SeccompNotifAddfd_of_bytes (b : list Z) : SeccompNotifAddfd :=
  let get := c_get SeccompNotifAddfd_fields b in
  {| sa_id := get [Dot "id"]; sa_flags := get [Dot "flags"]; sa_srcfd := get [Dot "srcfd"];
     sa_newfd := get [Dot "newfd"]; sa_newfd_flags := get [Dot "newfd_flags"] |}.

Definition SeccompNotifSizes_of_bytes (b : list Z) : SeccompNotifSizes :=
  let get := c_get SeccompNotifSizes_fields b in
  {| ss_seccomp_notif := get [Dot "seccomp_notif"];
     ss_seccomp_notif_resp := get [Dot "seccomp_notif_resp"];
     ss_seccomp_data := get [Dot "seccomp_data"] |}.

(** ** Values a field can hold without wrapping *)

Definition is_u (w : nat) (z : Z) : Prop := 0 <= z < 256 ^ Z.of_nat w.
Definition is_s (w : nat) (z : Z) : Prop :=
  - 2 ^ (8 * Z.of_nat w - 1) <= z < 2 ^ (8 * Z.of_nat w - 1).

Definition SeccompData_ok (d : SeccompData) : Prop :=
  is_s 4 (sd_nr d) ∧ is_u 4 (sd_arch d) ∧ is_u 8 (sd_instruction_pointer d) ∧
  length (sd_args d) = 6%nat ∧ Forall (is_u 8) (sd_args d).

Definition SeccompNotif_ok (n : SeccompNotif) : Prop :=
  is_u 8 (sn_id n) ∧ is_u 4 (sn_pid n) ∧ is_u 4 (sn_flags n) ∧ SeccompData_ok (sn_data n).

Definition SeccompNotifResp_ok (r : SeccompNotifResp) : Prop :=
  is_u 8 (sr_id r) ∧ is_s 8 (sr_val r) ∧ is_s 4 (sr_error r) ∧ is_u 4 (sr_flags r).

Definition SeccompNotifAddfd_ok (a : SeccompNotifAddfd) : Prop :=
  is_u 8 (sa_id a) ∧ is_u 4 (sa_flags a) ∧ is_u 4 (sa_srcfd a) ∧ is_u 4 (sa_newfd a) ∧
  is_u 4 (sa_newfd_flags a).

Definition SeccompNotifSizes_ok (s : SeccompNotifSizes) : Prop :=
  is_u 2 (ss_seccomp_notif s) ∧ is_u 2 (ss_seccomp_notif_resp s) ∧ is_u 2 (ss_seccomp_data s).

(** ** The layout the declarations give *)

Lemma SeccompData_bytes_eq d :
  length (sd_args d) = 6%nat →
  SeccompData_bytes d =
    le_bytes 4 (sd_nr d) ++ le_bytes 4 (sd_arch d) ++ le_bytes 8 (sd_instruction_pointer d) ++
    (sd_args d ≫= le_bytes 8).
Proof.
  destruct d as [nr ar ip args]. cbn [sd_args]. intros Hl.
  do 6 (destruct args as [|? args]; [done|]). by destruct args.
Qed.

Lemma SeccompNotif_bytes_eq n :
  length (sd_args (sn_data n)) = 6%nat →
  SeccompNotif_bytes n =
    le_bytes 8 (sn_id n) ++ le_bytes 4 (sn_pid n) ++ le_bytes 4 (sn_flags n) ++
    SeccompData_bytes (sn_data n).
Proof.
  destruct n as [id pid fl [nr ar ip args]]. cbn [sn_data sd_args]. intros Hl.
  do 6 (destruct args as [|? args]; [done|]). by destruct args.
Qed.

Lemma SeccompNotifResp_bytes_eq r :
  SeccompNotifResp_bytes r =
    le_bytes 8 (sr_id r) ++ le_bytes 8 (sr_val r) ++ le_bytes 4 (sr_error r) ++
    le_bytes 4 (sr_flags r).
Proof. reflexivity. Qed.

Lemma SeccompNotifAddfd_bytes_eq a :
  SeccompNotifAddfd_bytes a =
    le_bytes 8 (sa_id a) ++ le_bytes 4 (sa_flags a) ++ le_bytes 4 (sa_srcfd a) ++
    le_bytes 4 (sa_newfd a) ++ le_bytes 4 (sa_newfd_flags a).
Proof. reflexivity. Qed.

Lemma SeccompNotifSizes_bytes_eq s :
  SeccompNotifSizes_bytes s =
    le_bytes 2 (ss_seccomp_notif s) ++ le_bytes 2 (ss_seccomp_notif_resp s) ++
    le_bytes 2 (ss_seccomp_data s).
Proof. reflexivity. Qed.

Lemma SeccompData_of_bytes_eq b :
  SeccompData_of_bytes b =
    {| sd_nr := sfield b 0 4; sd_arch := field b 4 4; sd_instruction_pointer := field b 8 8;
       sd_args := (λ i, field b (16 + 8 * i) 8) <$> seq 0 6 |}.
Proof. reflexivity. Qed.

Lemma field_drop b k off w : field (drop k b) off w = field b (k + off) w.
Proof. unfold field. by rewrite drop_drop. Qed.

Lemma SeccompNotif_of_bytes_eq b :
  SeccompNotif_of_bytes b =
    {| sn_id := field b 0 8; sn_pid := field b 8 4; sn_flags := field b 12 4;
       sn_data := SeccompData_of_bytes (drop 16 b) |}.
Proof.
  rewrite SeccompData_of_bytes_eq. unfold sfield. cbn [fmap list_fmap seq].
  rewrite !field_drop. reflexivity.
Qed.

Lemma SeccompNotifResp_of_bytes_eq b :
  SeccompNotifResp_of_bytes b =
    {| sr_id := field b 0 8; sr_val := sfield b 8 8; sr_error := sfield b 16 4;
       sr_flags := field b 20 4 |}.
Proof. reflexivity. Qed.

Lemma SeccompNotifAddfd_of_bytes_eq b :
  SeccompNotifAddfd_of_bytes b =
    {| sa_id := field b 0 8; sa_flags := field b 8 4; sa_srcfd := field b 12 4;
       sa_newfd := field b 16 4; sa_newfd_flags := field b 20 4 |}.
Proof. reflexivity. Qed.

Lemma SeccompNotifSizes_of_bytes_eq b :
  SeccompNotifSizes_of_bytes b =
    {| ss_seccomp_notif := field b 0 2; ss_seccomp_notif_resp := field b 2 2;
       ss_seccomp_data := field b 4 2 |}.
Proof. reflexivity. Qed.

(** ** Field lemmas *)

Lemma field_head w z rest : is_u w z → field (le_bytes w z ++ rest) 0 w = z.
Proof.
  intros Hz. unfold field. rewrite drop_0, take_app_length' by (by rewrite length_le_bytes).
  by apply le_value_le_bytes_small.
Qed.

Lemma field_skip w z rest off w' :
  field (le_bytes w z ++ rest) (w + off) w' = field rest off w'.
Proof.
  unfold field. rewrite <- drop_drop, drop_app_length' by (by rewrite length_le_bytes). done.
Qed.

Lemma sfield_head w z rest :
  (0 < w)%nat → is_s w z → sfield (le_bytes w z ++ rest) 0 w = z.
Proof.
  intros Hw Hz. unfold sfield, field.
  rewrite drop_0, take_app_length' by (by rewrite length_le_bytes).
  rewrite le_value_le_bytes. replace 256 with (2 ^ 8) by done.
  rewrite <- Z.pow_mul_r by lia. rewrite to_signed_mod. apply to_signed_id; [lia|done].
Qed.

Lemma sfield_skip w z rest off w' :
  sfield (le_bytes w z ++ rest) (w + off) w' = sfield rest off w'.
Proof. unfold sfield. by rewrite field_skip. Qed.

Lemma field_last w z : is_u w z → field (le_bytes w z) 0 w = z.
Proof. intros. rewrite <- (app_nil_r (le_bytes w z)). by apply field_head. Qed.

Lemma sfield_last w z : (0 < w)%nat → is_s w z → sfield (le_bytes w z) 0 w = z.
Proof. intros. rewrite <- (app_nil_r (le_bytes w z)). by apply sfield_head. Qed.

(** Read a field of a concatenation of little-endian images. *)
Ltac field_read :=
  repeat first
    [ rewrite field_head by done | rewrite field_last by done
    | rewrite sfield_head by (done || lia) | rewrite sfield_last by (done || lia)
    | match goal with
      | |- context [field (le_bytes ?w ?z ++ ?r) ?off ?w'] =>
          let o := eval compute in (off - w)%nat in
          change (field (le_bytes w z ++ r) off w') with (field (le_bytes w z ++ r) (w + o) w');
          rewrite (field_skip w z r o w')
      | |- context [sfield (le_bytes ?w ?z ++ ?r) ?off ?w'] =>
          let o := eval compute in (off - w)%nat in
          change (sfield (le_bytes w z ++ r) off w') with (sfield (le_bytes w z ++ r) (w + o) w');
          rewrite (sfield_skip w z r o w')
      end ].

Lemma SeccompData_roundtrip d :
  SeccompData_ok d → SeccompData_of_bytes (SeccompData_bytes d) = d.
Proof.
  intros (Hnr & Harch & Hip & Hlen & Hargs).
  destruct d as [nr ar ip args]; cbn [sd_nr sd_arch sd_instruction_pointer sd_args] in *.
  do 6 (destruct args as [|? args]; [done|]). destruct args; [|done].
  rewrite !Forall_cons in Hargs. destruct_and! Hargs.
  rewrite SeccompData_of_bytes_eq, SeccompData_bytes_eq by done.
  cbn [sd_nr sd_arch sd_instruction_pointer sd_args mbind list_bind seq fmap list_fmap
       Nat.add Nat.mul].
  rewrite app_nil_r. f_equal; field_read; done.
Qed.

Lemma length_bind_le_bytes w l : length (l ≫= le_bytes w) = (w * length l)%nat.
Proof.
  induction l as [|x l IH]; [cbn; lia|].
  change ((x :: l) ≫= le_bytes w) with (le_bytes w x ++ (l ≫= le_bytes w)).
  rewrite length_app, length_le_bytes, IH. cbn. lia.
Qed.

Lemma SeccompNotif_roundtrip n :
  SeccompNotif_ok n → SeccompNotif_of_bytes (SeccompNotif_bytes n) = n.
Proof.
  intros (Hid & Hpid & Hfl & Hd).
  rewrite SeccompNotif_of_bytes_eq, SeccompNotif_bytes_eq by apply Hd.
  assert (drop 16 (le_bytes 8 (sn_id n) ++ le_bytes 4 (sn_pid n) ++ le_bytes 4 (sn_flags n) ++
    SeccompData_bytes (sn_data n)) = SeccompData_bytes (sn_data n)) as ->.
  { rewrite !app_assoc. apply drop_app_length'. by rewrite !length_app, !length_le_bytes. }
  rewrite (SeccompData_roundtrip _ Hd). destruct n; cbn [sn_id sn_pid sn_flags sn_data] in *.
  f_equal; field_read; done.
Qed.

Lemma SeccompNotifResp_roundtrip r :
  SeccompNotifResp_ok r → SeccompNotifResp_of_bytes (SeccompNotifResp_bytes r) = r.
Proof.
  intros (H1 & H2 & H3 & H4). destruct r; cbn [sr_id sr_val sr_error sr_flags] in *.
  rewrite SeccompNotifResp_of_bytes_eq, SeccompNotifResp_bytes_eq.
  cbn [sr_id sr_val sr_error sr_flags]. f_equal; field_read; done.
Qed.

Lemma SeccompNotifAddfd_roundtrip a :
  SeccompNotifAddfd_ok a → SeccompNotifAddfd_of_bytes (SeccompNotifAddfd_bytes a) = a.
Proof.
  intros (H1 & H2 & H3 & H4 & H5).
  destruct a; cbn [sa_id sa_flags sa_srcfd sa_newfd sa_newfd_flags] in *.
  rewrite SeccompNotifAddfd_of_bytes_eq, SeccompNotifAddfd_bytes_eq.
  cbn [sa_id sa_flags sa_srcfd sa_newfd sa_newfd_flags]. f_equal; field_read; done.
Qed.

Lemma SeccompNotifSizes_roundtrip s :
  SeccompNotifSizes_ok s → SeccompNotifSizes_of_bytes (SeccompNotifSizes_bytes s) = s.
Proof.
  intros (H1 & H2 & H3).
  destruct s; cbn [ss_seccomp_notif ss_seccomp_notif_resp ss_seccomp_data] in *.
  rewrite SeccompNotifSizes_of_bytes_eq, SeccompNotifSizes_bytes_eq.
  cbn [ss_seccomp_notif ss_seccomp_notif_resp ss_seccomp_data]. f_equal; field_read; done.
Qed.
