(* ===== verification/StructTypes.v ===== *)
(** * Every memory image is a structure

    The other direction of the round trips of [Structs]: whatever bytes the
    kernel leaves in a structure, decoding them gives values in the ranges of the
    declared C types, and storing these values gives back the bytes. *)

From S2P Require Import Prelude PyBytes CInt Ctypes Structs.

(** The memory of an object of [n] bytes. *)
Definition is_image (n : nat) (b : list Z) : Prop := length b = n ∧ Forall is_byte b.

#[export] Instance is_image_dec n b : Decision (is_image n b).
Proof. unfold is_image, is_byte. apply _. Defined.

Section fields.
Context (b : list Z) (Hb : Forall is_byte b).

Lemma field_image off w :
  (off + w <= length b)%nat → le_bytes w (field b off w) = take w (drop off b).
Proof using Hb.
  intros Hl. unfold field.
  assert (length (take w (drop off b)) = w) as Hw by (rewrite length_take, length_drop; lia).
  rewrite <- Hw at 1. apply le_bytes_le_value. by apply Forall_take, Forall_drop.
Qed.

Lemma field_range off w : (off + w <= length b)%nat → is_u w (field b off w).
Proof using Hb.
  intros Hl. unfold field, is_u.
  pose proof (le_value_bound (take w (drop off b))) as Hv.
  rewrite length_take, length_drop, Nat.min_l in Hv by lia.
  apply Hv. by apply Forall_take, Forall_drop.
Qed.

Lemma pow256 w : 256 ^ Z.of_nat w = 2 ^ (8 * Z.of_nat w).
Proof using Type. rewrite Z.pow_mul_r by lia. done. Qed.

Lemma sfield_image off w :
  (0 < w)%nat → (off + w <= length b)%nat →
  le_bytes w (sfield b off w) = take w (drop off b).
Proof using Hb.
  intros Hw Hl. rewrite <- field_image by done. unfold sfield.
  rewrite <- (le_bytes_mod w (to_signed _ _)), <- (le_bytes_mod w (field b off w)), pow256.
  by rewrite to_signed_low by lia.
Qed.

Lemma sfield_range off w : (0 < w)%nat → is_s w (sfield b off w).
Proof using Type. intros Hw. unfold sfield, is_s. apply to_signed_range. lia. Qed.
End fields.

(** Consecutive fields join to what they were cut from. *)
Lemma join_fields (b : list Z) off w :
  take w (drop off b) ++ drop (off + w) b = drop off b.
Proof. rewrite <- drop_drop. apply take_drop. Qed.

Lemma last_field (b : list Z) off w :
  length b = (off + w)%nat → take w (drop off b) = drop off b.
Proof. intros Hl. apply take_ge. rewrite length_drop. lia. Qed.

#[local] Ltac fields_typed := first [apply field_range | apply sfield_range]; (done || lia).

(** Join the fields in front of a suffix of [b]. *)
#[local] Ltac join b :=
  repeat match goal with
  | |- context [take ?w (drop ?off b) ++ drop ?off' b] =>
      change (drop off' b) with (drop (off + w) b); rewrite (join_fields b off w)
  end.

(** Rewrite the images of all fields, then join them from the last. *)
#[local] Ltac rejoin b Hb Hl :=
  rewrite ?(field_image b Hb), ?(sfield_image b Hb) by lia;
  match goal with
  | |- context [take ?w (drop ?off b)] => rewrite (last_field b off w) by (rewrite Hl; reflexivity)
  end;
  join b.

Lemma SeccompNotifResp_image b :
  is_image 24 b →
  SeccompNotifResp_ok (SeccompNotifResp_of_bytes b) ∧
  SeccompNotifResp_bytes (SeccompNotifResp_of_bytes b) = b.
Proof.
  intros [Hl Hb]. rewrite SeccompNotifResp_bytes_eq, SeccompNotifResp_of_bytes_eq. unfold SeccompNotifResp_ok.
  cbn [sr_id sr_val sr_error sr_flags].
  split; [split_and!; fields_typed|by rejoin b Hb Hl].
Qed.

Lemma SeccompNotifAddfd_image b :
  is_image 24 b →
  SeccompNotifAddfd_ok (SeccompNotifAddfd_of_bytes b) ∧
  SeccompNotifAddfd_bytes (SeccompNotifAddfd_of_bytes b) = b.
Proof.
  intros [Hl Hb]. rewrite SeccompNotifAddfd_bytes_eq, SeccompNotifAddfd_of_bytes_eq. unfold SeccompNotifAddfd_ok.
  cbn [sa_id sa_flags sa_srcfd sa_newfd sa_newfd_flags].
  split; [split_and!; fields_typed|by rejoin b Hb Hl].
Qed.

Lemma SeccompNotifSizes_image b :
  is_image 6 b →
  SeccompNotifSizes_ok (SeccompNotifSizes_of_bytes b) ∧
  SeccompNotifSizes_bytes (SeccompNotifSizes_of_bytes b) = b.
Proof.
  intros [Hl Hb]. rewrite SeccompNotifSizes_bytes_eq, SeccompNotifSizes_of_bytes_eq. unfold SeccompNotifSizes_ok.
  cbn [ss_seccomp_notif ss_seccomp_notif_resp ss_seccomp_data].
  split; [split_and!; fields_typed|by rejoin b Hb Hl].
Qed.

Lemma SeccompData_image b :
  is_image 64 b →
  SeccompData_ok (SeccompData_of_bytes b) ∧
  SeccompData_bytes (SeccompData_of_bytes b) = b.
Proof.
  intros [Hl Hb]. rewrite SeccompData_bytes_eq, SeccompData_of_bytes_eq by done.
  unfold SeccompData_ok.
  cbn [sd_nr sd_arch sd_instruction_pointer sd_args seq fmap list_fmap length mbind list_bind
       Nat.add Nat.mul].
  split.
  - split_and!; [fields_typed..|done|].
    repeat (apply Forall_cons; split; [fields_typed|]). apply Forall_nil_2.
  - rewrite app_nil_r. by rejoin b Hb Hl.
Qed.

Lemma SeccompNotif_image b :
  is_image 80 b →
  SeccompNotif_ok (SeccompNotif_of_bytes b) ∧
  SeccompNotif_bytes (SeccompNotif_of_bytes b) = b.
Proof.
  intros [Hl Hb].
  assert (is_image 64 (drop 16 b)) as Hd by (split; [by rewrite length_drop, Hl|by apply Forall_drop]).
  apply SeccompData_image in Hd as [Hok Heq].
  rewrite SeccompNotif_of_bytes_eq, SeccompNotif_bytes_eq by apply Hok. unfold SeccompNotif_ok.
  cbn [sn_id sn_pid sn_flags sn_data]. split.
  - split_and!; [fields_typed..|done].
  - rewrite Heq, !(field_image b Hb) by lia. by join b.
Qed.

(** ** Images of well-typed values *)

Lemma Forall_byte_bind w l : Forall is_byte (l ≫= le_bytes w).
Proof. apply Forall_bind, Forall_true. intros z. apply le_bytes_is_byte. Qed.

(** The image of a structure is made of field images. *)
#[local] Ltac image :=
  split; [by rewrite ?length_app, ?length_le_bytes
         |repeat (apply Forall_app; split); auto using le_bytes_is_byte, Forall_byte_bind].

Lemma SeccompData_is_image d : SeccompData_ok d → is_image 64 (SeccompData_bytes d).
Proof.
  intros (_ & _ & _ & Hl & _). rewrite SeccompData_bytes_eq by done. split.
  - by rewrite !length_app, !length_le_bytes, length_bind_le_bytes, Hl.
  - repeat (apply Forall_app; split); auto using le_bytes_is_byte, Forall_byte_bind.
Qed.

Lemma SeccompNotif_is_image n : SeccompNotif_ok n → is_image 80 (SeccompNotif_bytes n).
Proof.
  intros (_ & _ & _ & Hd). rewrite SeccompNotif_bytes_eq by apply Hd.
  destruct (SeccompData_is_image _ Hd) as [Hl Hb]. split.
  - by rewrite !length_app, !length_le_bytes, Hl.
  - repeat (apply Forall_app; split); auto using le_bytes_is_byte, Forall_byte_bind.
Qed.

Lemma SeccompNotifResp_is_image r : is_image 24 (SeccompNotifResp_bytes r).
Proof. rewrite SeccompNotifResp_bytes_eq. image. Qed.

Lemma SeccompNotifAddfd_is_image a : is_image 24 (SeccompNotifAddfd_bytes a).
Proof. rewrite SeccompNotifAddfd_bytes_eq. image. Qed.

Lemma SeccompNotifSizes_is_image s : is_image 6 (SeccompNotifSizes_bytes s).
Proof. rewrite SeccompNotifSizes_bytes_eq. image. Qed.

(** ** The structures and their memory *)

(** Well-typed values and memory images of [size] bytes correspond one to one. *)
Definition typed_memory {A} (size : nat) (ok : A → Prop) (store : A → list Z)
    (fetch : list Z → A) : Prop :=
  (∀ a, ok a → is_image size (store a) ∧ fetch (store a) = a) ∧
  (∀ b, is_image size b → ok (fetch b) ∧ store (fetch b) = b).

(** At each of these offsets, and of this width, the memory holds this value. *)
Definition holds_fields (b : list Z) (fields : list (nat * nat * Z)) : Prop :=
  Forall (λ '(off, w, z), take w (drop off b) = le_bytes w z) fields.

(** The fields of linux/seccomp.h by offset and width. *)
Definition uapi_data (d : SeccompData) : list (nat * nat * Z) :=
  ([(0, 4, sd_nr d); (4, 4, sd_arch d); (8, 8, sd_instruction_pointer d)] ++
   imap (λ i arg, (16 + 8 * i, 8, arg)) (sd_args d))%nat.
Definition uapi_notif (n : SeccompNotif) : list (nat * nat * Z) :=
  ([(0, 8, sn_id n); (8, 4, sn_pid n); (12, 4, sn_flags n)] ++
   ((λ '(off, w, z), (16 + off, w, z)) <$> uapi_data (sn_data n)))%nat.
Definition uapi_resp (r : SeccompNotifResp) : list (nat * nat * Z) :=
  [(0, 8, sr_id r); (8, 8, sr_val r); (16, 4, sr_error r); (20, 4, sr_flags r)]%nat.
Definition uapi_addfd (a : SeccompNotifAddfd) : list (nat * nat * Z) :=
  [(0, 8, sa_id a); (8, 4, sa_flags a); (12, 4, sa_srcfd a); (16, 4, sa_newfd a);
   (20, 4, sa_newfd_flags a)]%nat.
Definition uapi_sizes (s : SeccompNotifSizes) : list (nat * nat * Z) :=
  [(0, 2, ss_seccomp_notif s); (2, 2, ss_seccomp_notif_resp s); (4, 2, ss_seccomp_data s)]%nat.

(** With six arguments the image is a list of bytes that computes. *)
Lemma data_fields d : SeccompData_ok d → holds_fields (SeccompData_bytes d) (uapi_data d).
Proof.
  destruct d as [nr ar ip args]. intros (_ & _ & _ & Hl & _). cbn in Hl.
  do 6 (destruct args as [|? args]; [done|]). destruct args; [|done]. repeat constructor.
Qed.

Lemma notif_fields n : SeccompNotif_ok n → holds_fields (SeccompNotif_bytes n) (uapi_notif n).
Proof.
  destruct n as [id pid fl [nr ar ip args]]. intros (_ & _ & _ & _ & _ & _ & Hl & _). cbn in Hl.
  do 6 (destruct args as [|? args]; [done|]). destruct args; [|done]. repeat constructor.
Qed.

(** C24.  The notification structures are those of linux/seccomp.h, as typed
    memory.  From the one declaration of each: its size is the C structure's; a
    value whose fields fit their C types is stored with every field at the offset
    and width of the header, the signed ones in two's complement, and read back
    unchanged; and whatever bytes the kernel leaves there decode to fields of the
    header's types, the six arguments included, that store as the same bytes. *)
Theorem notif_structs_typed :
  (c_sizeof SeccompData_fields = 64 ∧ c_sizeof SeccompNotif_fields = 80 ∧
   c_sizeof SeccompNotifResp_fields = 24 ∧ c_sizeof SeccompNotifAddfd_fields = 24 ∧
   c_sizeof SeccompNotifSizes_fields = 6) ∧
  (∀ d, SeccompData_ok d → holds_fields (SeccompData_bytes d) (uapi_data d)) ∧
  (∀ n, SeccompNotif_ok n → holds_fields (SeccompNotif_bytes n) (uapi_notif n)) ∧
  (∀ r, holds_fields (SeccompNotifResp_bytes r) (uapi_resp r)) ∧
  (∀ a, holds_fields (SeccompNotifAddfd_bytes a) (uapi_addfd a)) ∧
  (∀ s, holds_fields (SeccompNotifSizes_bytes s) (uapi_sizes s)) ∧
  typed_memory 64 SeccompData_ok SeccompData_bytes SeccompData_of_bytes ∧
  typed_memory 80 SeccompNotif_ok SeccompNotif_bytes SeccompNotif_of_bytes ∧
  typed_memory 24 SeccompNotifResp_ok SeccompNotifResp_bytes SeccompNotifResp_of_bytes ∧
  typed_memory 24 SeccompNotifAddfd_ok SeccompNotifAddfd_bytes SeccompNotifAddfd_of_bytes ∧
  typed_memory 6 SeccompNotifSizes_ok SeccompNotifSizes_bytes SeccompNotifSizes_of_bytes.
Proof.
  split; [vm_compute; done|]. split; [apply data_fields|]. split; [apply notif_fields|].
  do 3 (split; [repeat constructor|]). unfold typed_memory.
  split_and!; first
    [ apply SeccompData_image | apply SeccompNotif_image | apply SeccompNotifResp_image
    | apply SeccompNotifAddfd_image | apply SeccompNotifSizes_image
    | intros a Ha; split; [|auto using SeccompData_roundtrip, SeccompNotif_roundtrip,
        SeccompNotifResp_roundtrip, SeccompNotifAddfd_roundtrip, SeccompNotifSizes_roundtrip] ].
  - by apply SeccompData_is_image.
  - by apply SeccompNotif_is_image.
  - apply SeccompNotifResp_is_image.
  - apply SeccompNotifAddfd_is_image.
  - apply SeccompNotifSizes_is_image.
Qed.
