(* ===== verification/Filter.v ===== *)
(** * filter.py: rules, conditions and code generation

    The state of a [Filter] object is a record with one field per slot; the
    rules are a dict in insertion order.  Each method is a function from the
    state to a new state or an exception; every check that can raise precedes
    the mutation, so an exception leaves the object as it was.  [_compile]
    threads the instruction list and the label dict it fills. *)

From S2P Require Import Prelude PyFormat PyDict Bpf Syscalls.

Definition SECCOMP_RET_DATA : Z := 0x0000FFFF.
Definition _OFF_NR : Z := 0.
Definition _OFF_ARCH : Z := 4.
Definition _OFF_ARG0 : Z := 16.
Definition _U64 : Z := 0xFFFFFFFFFFFFFFFF.

(** The members of [Action]; [KILL] is an alias of [KILL_THREAD]. *)
Inductive Action :=
| KILL_PROCESS | KILL_THREAD | TRAP | ERRNO | USER_NOTIF | TRACE | LOG | ALLOW.

Definition Action_value (a : Action) : Z :=
  match a with
  | KILL_PROCESS => 0x80000000
  | KILL_THREAD => 0x00000000
  | TRAP => 0x00030000
  | ERRNO => 0x00050000
  | USER_NOTIF => 0x7FC00000
  | TRACE => 0x7FF00000
  | LOG => 0x7FFC0000
  | ALLOW => 0x7FFF0000
  end.

(** The bits of [FilterFlag]. *)
Definition FLAG_TSYNC : Z := 1.
Definition FLAG_LOG : Z := 2.
Definition FLAG_SPEC_ALLOW : Z := 4.
Definition FLAG_NEW_LISTENER : Z := 8.
Definition FLAG_TSYNC_ESRCH : Z := 16.
Definition FLAG_WAIT_KILLABLE_RECV : Z := 32.

(** ** Argument conditions *)

Inductive CmpOp := EQ | NE | LT | LE | GT | GE | MASKED_EQ.

#[export] Instance CmpOp_eq_dec : EqDecision CmpOp.
Proof. solve_decision. Defined.

(** [CmpOp(op)]: the member with that value.  An object that is no integer is no
    member; a float equal to one is not represented. *)
Definition CmpOp_of (op : pyobj) : result CmpOp :=
  or_raise
    (z ← as_int op;
     if 0 <=? z then [EQ; NE; LT; LE; GT; GE; MASKED_EQ] !! Z.to_nat z else None)
    (ValueError "not a valid CmpOp").

Record ArgCmp := mkArgCmp { index : Z; op : CmpOp; value : Z; mask : Z }.

#[export] Instance ArgCmp_eq_dec : EqDecision ArgCmp.
Proof. solve_decision. Defined.

(** The constructor with its [__post_init__]. *)
Definition mk_ArgCmp (index op value mask : pyobj) : result ArgCmp :=
  o ← CmpOp_of op;
  i ← or_raise (int_between 0 5 index) (ValueError "argument index out of range");
  v ← or_raise (int_between 0 _U64 value) (ValueError "argument value out of range");
  m ← or_raise (int_between 0 _U64 mask) (ValueError "argument mask out of range");
  (if decide (o = MASKED_EQ) then
     raise_if (negb (Z.land v (Z.lnot m) =? 0))
       (ValueError "masked-eq value has bits outside the mask")
   else raise_if (negb (m =? _U64))
       (ValueError "mask is only meaningful with MASKED_EQ"));;
  Ok (mkArgCmp i o v m).

(** One condition as callers write it: an [ArgCmp], a tuple of any length, or an
    object that has none. *)
Inductive ArgCond :=
| CondCmp (c : ArgCmp)
| CondTuple (items : list pyobj)
| CondOther (cls : string).

Definition _coerce_cond (cond : ArgCond) : result ArgCmp :=
  match cond with
  | CondCmp c => Ok c
  | CondTuple [index; op; value] =>
      CmpOp_of op;; mk_ArgCmp index op value (PyInt _U64)
  | CondTuple [index; op; value; mask] =>
      CmpOp_of op;; mk_ArgCmp index op value mask
  | CondTuple items =>
      Raise (ValueError (if (length items <? 4)%nat then "not enough values to unpack"
                         else "too many values to unpack"))
  | CondOther _ => Raise (TypeError "object has no len()")
  end.

(** The [args] parameter: absent, an index-to-value mapping in its iteration
    order, or an iterable of conditions. *)
Inductive Args :=
| NoArgs
| ArgsMapping (items : list (pyobj * pyobj))
| ArgsConds (conds : list ArgCond).

(** [sorted(l, key=lambda cond: cond.index)]: a stable sort. *)
Fixpoint insert_cond (c : ArgCmp) (l : list ArgCmp) : list ArgCmp :=
  match l with
  | [] => [c]
  | c' :: l' => if index c <=? index c' then c :: l else c' :: insert_cond c l'
  end.

Definition sort_conds (l : list ArgCmp) : list ArgCmp := foldr insert_cond [] l.

(** The conditions of a rule, from the [args] of the call. *)
Definition rule_conds (args : Args) : result (list ArgCmp) :=
  match args with
  | NoArgs => Ok []
  | ArgsMapping items =>
      raw ← sequence ((λ '(index, value), mk_ArgCmp index (PyInt 0) value (PyInt _U64)) <$> items);
      Ok (sort_conds raw)
  | ArgsConds conds =>
      raw ← sequence (_coerce_cond <$> conds);
      Ok (sort_conds raw)
  end.

(** ** The Filter object *)

Record _Rule := mkRule { action : Z; args : list ArgCmp }.

Record Filter := mkFilter {
  _default : Z;
  _flags : Z;
  _rules : list (Z * list _Rule);
  _program : option (list Z);
  _loaded : bool }.

Definition Filter_init (default flags : pyobj) : result Filter :=
  d ← or_raise (int_between 0 0xFFFFFFFF default) (ValueError "default action out of range");
  f ← or_raise (int_between 0 0xFFFFFFFF flags) (ValueError "filter flags out of range");
  Ok (mkFilter d f [] None false).

Definition _check_mutable (self : Filter) : result unit :=
  raise_if (_loaded self) (RuntimeError "filter is already loaded").

(** [self._loaded = True], the last effect of a successful [load]. *)
Definition set_loaded (self : Filter) : Filter :=
  mkFilter (_default self) (_flags self) (_rules self) (_program self) true.

Section filter.
Context (platform_machine : string).

Definition _add (self : Filter) (syscall : syscall_arg) (action : Z) (args : Args)
    : result Filter :=
  _check_mutable self;;
  nr ← syscall_nr platform_machine syscall;
  conds ← rule_conds args;
  Ok (mkFilter (_default self) (_flags self)
        (dict_append nr (mkRule action conds) (_rules self)) None (_loaded self)).

Definition allow (self : Filter) (syscall : syscall_arg) (args : Args) : result Filter :=
  _add self syscall (Action_value ALLOW) args.

Definition kill (self : Filter) (syscall : syscall_arg) (args : Args) : result Filter :=
  _add self syscall (Action_value KILL_PROCESS) args.

Definition kill_thread (self : Filter) (syscall : syscall_arg) (args : Args) : result Filter :=
  _add self syscall (Action_value KILL_THREAD) args.

Definition trap (self : Filter) (syscall : syscall_arg) (args : Args) : result Filter :=
  _add self syscall (Action_value TRAP) args.

Definition errno (self : Filter) (syscall : syscall_arg) (error : pyobj) (args : Args)
    : result Filter :=
  e ← or_raise (int_between 0 SECCOMP_RET_DATA error) (ValueError "errno out of range");
  _add self syscall (Z.lor (Action_value ERRNO) e) args.

Definition trace (self : Filter) (syscall : syscall_arg) (msg : pyobj) (args : Args)
    : result Filter :=
  m ← or_raise (int_between 0 SECCOMP_RET_DATA msg) (ValueError "trace message out of range");
  _add self syscall (Z.lor (Action_value TRACE) m) args.

Definition log (self : Filter) (syscall : syscall_arg) (args : Args) : result Filter :=
  _add self syscall (Action_value LOG) args.

Definition notify (self : Filter) (syscall : syscall_arg) (args : Args) : result Filter :=
  _add self syscall (Action_value USER_NOTIF) args.
End filter.

(** ** Code generation *)

(** The local variables [insns] and [labels] of [_compile]. *)
Record asm := mkAsm { insns : list Insn; labels : gmap string pyobj }.

Definition append (i : result Insn) (st : asm) : result asm :=
  insn ← i; Ok (mkAsm (insns st ++ [insn]) (labels st)).

Definition appends (l : list (result Insn)) (st : asm) : result asm :=
  foldM (λ st i, append i st) st l.

(** [labels[name] = len(insns)]. *)
Definition set_label (name : string) (st : asm) : asm :=
  mkAsm (insns st) (<[name := PyInt (Z.of_nat (length (insns st)))]> (labels st)).

Definition _emit_cond (st : asm) (cond : ArgCmp) (fail passed : string) : result asm :=
  let lo_off := _OFF_ARG0 + 8 * index cond in
  let hi_off := lo_off + 4 in
  let lo := Z.land (value cond) 0xFFFFFFFF in
  let hi := Z.land (Z.shiftr (value cond) 32) 0xFFFFFFFF in
  st' ←
    match op cond with
    | EQ => appends
        [mk_Load (PyInt lo_off);
         mk_Jump BPF_JEQ (PyInt lo) None (Some fail);
         mk_Load (PyInt hi_off);
         mk_Jump BPF_JEQ (PyInt hi) None (Some fail)] st
    | NE => appends
        [mk_Load (PyInt lo_off);
         mk_Jump BPF_JEQ (PyInt lo) None (Some passed);
         mk_Load (PyInt hi_off);
         mk_Jump BPF_JEQ (PyInt hi) (Some fail) None] st
    | LT | LE => appends
        [mk_Load (PyInt hi_off);
         mk_Jump BPF_JGT (PyInt hi) (Some fail) None;
         mk_Jump BPF_JEQ (PyInt hi) None (Some passed);
         mk_Load (PyInt lo_off);
         mk_Jump (if decide (op cond = LT) then BPF_JGEQ else BPF_JGT) (PyInt lo)
           (Some fail) None] st
    | GT | GE => appends
        [mk_Load (PyInt hi_off);
         mk_Jump BPF_JGT (PyInt hi) (Some passed) None;
         mk_Jump BPF_JEQ (PyInt hi) None (Some fail);
         mk_Load (PyInt lo_off);
         mk_Jump (if decide (op cond = GT) then BPF_JGT else BPF_JGEQ) (PyInt lo)
           (Some passed) (Some fail)] st
    | MASKED_EQ =>
        let mlo := Z.land (mask cond) 0xFFFFFFFF in
        let mhi := Z.land (Z.shiftr (mask cond) 32) 0xFFFFFFFF in
        foldM (λ st '(off, m, v),
          if m =? 0 then Ok st
          else appends
            [mk_Load (PyInt off); mk_And (PyInt m);
             mk_Jump BPF_JEQ (PyInt v) None (Some fail)] st)
          st [(lo_off, mlo, lo); (hi_off, mhi, hi)]
    end;
  Ok (set_label passed st').

(** The f-strings that name the labels. *)
Definition block_label (nr : Z) : string := "block_" +:+ pretty nr.
Definition next_label (nr : Z) (i : nat) : string :=
  "next_" +:+ pretty nr +:+ "_" +:+ pretty i.
Definition hit_label (nr : Z) (i j : nat) : string :=
  "hit_" +:+ pretty nr +:+ "_" +:+ pretty i +:+ "_" +:+ pretty j.

(** [for i, rule in enumerate(rules)] with its [break]; the flag is
    [falls_through]. *)
Fixpoint _compile_rules (nr : Z) (st : asm) (rules : list (nat * _Rule)) : result (asm * bool) :=
  match rules with
  | [] => Ok (st, true)
  | (i, rule) :: rules =>
      match args rule with
      | [] => st' ← append (mk_Ret (PyInt (action rule))) st; Ok (st', false)
      | _ =>
          let nxt := next_label nr i in
          st ← foldM (λ st '(j, cond), _emit_cond st cond nxt (hit_label nr i j))
                 st (enumerate (args rule));
          st ← append (mk_Ret (PyInt (action rule))) st;
          _compile_rules nr (set_label nxt st) rules
      end
  end.

(** The body of [for nr, rules in self._rules.items()]. *)
Definition _compile_block (default : Z) (st : asm) (entry : Z * list _Rule) : result asm :=
  let '(nr, rules) := entry in
  let st := set_label (block_label nr) st in
  '(st, falls_through) ← _compile_rules nr st (enumerate rules);
  if (falls_through : bool) then append (mk_Ret (PyInt default)) st else Ok st.

(** [_compile] up to the call of [assemble]. *)
Definition _compile_insns (platform_machine : string) (self : Filter) : result asm :=
  aa ← audit_arch platform_machine;
  st ← appends
    [mk_Load (PyInt _OFF_ARCH);
     mk_Jump BPF_JEQ (PyInt aa) None (Some "kill");
     mk_Load (PyInt _OFF_NR)] (mkAsm [] ∅);
  st ← appends
    ((λ nr, mk_Jump BPF_JEQ (PyInt (Z.land nr 0xFFFFFFFF)) (Some (block_label nr)) None)
       <$> dict_keys (_rules self)) st;
  st ← append (mk_Ret (PyInt (_default self))) st;
  st ← foldM (_compile_block (_default self)) st (_rules self);
  append (mk_Ret (PyInt (Action_value KILL_PROCESS))) (set_label "kill" st).

Definition _compile (platform_machine : string) (self : Filter) : result (list Z) :=
  st ← _compile_insns platform_machine self;
  assemble (insns st) (labels st).

(** The [program] property: compile on first use, then answer from the cache. *)
Definition program (platform_machine : string) (self : Filter) : Filter * result (list Z) :=
  match _program self with
  | Some p => (self, Ok p)
  | None =>
      match _compile platform_machine self with
      | Ok p => (mkFilter (_default self) (_flags self) (_rules self) (Some p) (_loaded self), Ok p)
      | Raise e => (self, Raise e)
      end
  end.

(** ** Looking at a filter *)

(** The read-only properties. *)
Definition Filter_default (self : Filter) : Z := _default self.
Definition Filter_flags (self : Filter) : Z := _flags self.
Definition Filter_loaded (self : Filter) : bool := _loaded self.

(** A filter refuses to be copied. *)
Definition Filter_copy (self : Filter) : result Filter :=
  Raise (TypeError "Filter cannot be copied: clone its rules instead").
Definition Filter_deepcopy (self : Filter) : result Filter :=
  Raise (TypeError "Filter cannot be copied: clone its rules instead").

(** [sum(len(r) for r in self._rules.values())]. *)
Definition rule_count (self : Filter) : nat := sum_list_with (λ entry, length entry.2) (_rules self).

(** [cls] is [type(self).__name__]. *)
Definition Filter_repr (cls : string) (self : Filter) : string :=
  let state := if _loaded self then "loaded" else "building" in
  cls +:+ "(default=" +:+ py_hex (_default self) +:+
    ", rules=" +:+ pretty (rule_count self) +:+ ", " +:+ state +:+ ")".
