(* ===== verification/FilterSpec.v ===== *)
(** * What a filter means

    The abstract specification the compiled program has to implement, written
    from the documentation: a syscall entered through a foreign ABI is killed;
    otherwise the rules of its number are tried in insertion order, the first
    whose conditions all hold gives the action, and the default applies when
    none does.  Conditions are unsigned comparisons of whole 64-bit arguments.
    The second half of the file relates this to 32-bit words: what the program
    can load from [struct seccomp_data] and how word-wise comparisons decide
    the 64-bit ones. *)

From S2P Require Import Prelude PyBytes PyDict BpfSem Syscalls Ctypes Structs Filter.

(** ** Specification *)

Definition cond_holds (c : ArgCmp) (vals : list Z) : bool :=
  let a := vals !!! Z.to_nat (index c) in
  match op c with
  | EQ => a =? value c
  | NE => negb (a =? value c)
  | LT => a <? value c
  | LE => a <=? value c
  | GT => value c <? a
  | GE => value c <=? a
  | MASKED_EQ => Z.land a (mask c) =? value c
  end.

Definition rule_matches (r : _Rule) (vals : list Z) : bool :=
  forallb (λ c, cond_holds c vals) (args r).

(** The action of the first matching rule. *)
Fixpoint first_match (rules : list _Rule) (vals : list Z) : option Z :=
  match rules with
  | [] => None
  | r :: rules => if rule_matches r vals then Some (action r) else first_match rules vals
  end.

(** The verdict on one syscall, for a native audit architecture [aa]. *)
Definition verdict (aa : Z) (f : Filter) (d : SeccompData) : Z :=
  if sd_arch d =? aa then
    default (_default f)
      (dict_get (sd_nr d mod 2 ^ 32) (_rules f) ≫= λ rules, first_match rules (sd_args d))
  else Action_value KILL_PROCESS.

(** ** Invariants of the filter data *)

(** What [ArgCmp.__post_init__] establishes. *)
Definition ArgCmp_ok (c : ArgCmp) : Prop :=
  0 <= index c <= 5 ∧ 0 <= value c <= _U64 ∧ 0 <= mask c <= _U64 ∧
  (op c = MASKED_EQ → Z.land (value c) (Z.lnot (mask c)) = 0).

Definition Rule_ok (r : _Rule) : Prop :=
  0 <= action r <= 0xFFFFFFFF ∧ Forall ArgCmp_ok (args r).

Record rules_ok (rules : list (Z * list _Rule)) : Prop := {
  rules_keys : NoDup (dict_keys rules);
  rules_range : Forall (λ kv, 0 <= kv.1 <= 0xFFFFFFFF) rules;
  rules_each : Forall (λ kv, Forall Rule_ok kv.2) rules }.

(** ** Words of [struct seccomp_data] *)

Definition lo32 (z : Z) : Z := z mod 2 ^ 32.
Definition hi32 (z : Z) : Z := z / 2 ^ 32.

Lemma lo32_land z : Z.land z 0xFFFFFFFF = lo32 z.
Proof. change 0xFFFFFFFF with (Z.ones 32). by rewrite Z.land_ones. Qed.

Lemma hi32_land z : 0 <= z <= _U64 → Z.land (Z.shiftr z 32) 0xFFFFFFFF = hi32 z.
Proof.
  intros Hz. unfold _U64 in Hz. rewrite lo32_land. unfold lo32, hi32.
  rewrite Z.shiftr_div_pow2 by done. apply Z.mod_small.
  split; [apply Z.div_pos; lia|]. apply Z.div_lt_upper_bound; lia.
Qed.

Lemma lo32_range z : 0 <= lo32 z <= 0xFFFFFFFF.
Proof. pose proof (Z.mod_pos_bound z (2 ^ 32)). unfold lo32. lia. Qed.

Lemma hi32_range z : 0 <= z <= _U64 → 0 <= hi32 z <= 0xFFFFFFFF.
Proof.
  intros Hz. unfold _U64 in Hz. unfold hi32. split; [apply Z.div_pos; lia|].
  apply Z.lt_succ_r, Z.div_lt_upper_bound; lia.
Qed.

Lemma lo_hi z : z = hi32 z * 2 ^ 32 + lo32 z.
Proof. unfold lo32, hi32. pose proof (Z.div_mod z (2 ^ 32)). lia. Qed.

(** Word-wise equality and order decide the 64-bit ones. *)
Lemma eq_words a b : a = b ↔ lo32 a = lo32 b ∧ hi32 a = hi32 b.
Proof.
  split; [by intros ->|]. intros [Hl Hh]. by rewrite (lo_hi a), (lo_hi b), Hl, Hh.
Qed.

Lemma lt_words a b : a < b ↔ hi32 a < hi32 b ∨ hi32 a = hi32 b ∧ lo32 a < lo32 b.
Proof.
  pose proof (lo_hi a). pose proof (lo_hi b).
  pose proof (lo32_range a). pose proof (lo32_range b). nia.
Qed.

Lemma lo32_and a b : lo32 (Z.land a b) = Z.land (lo32 a) (lo32 b).
Proof.
  unfold lo32. rewrite <- !Z.land_ones by done.
  apply Z.bits_inj'. intros n Hn. rewrite !Z.land_spec.
  destruct (Z.testbit a n), (Z.testbit b n), (Z.testbit (Z.ones 32) n); done.
Qed.

Lemma hi32_and a b : hi32 (Z.land a b) = Z.land (hi32 a) (hi32 b).
Proof. unfold hi32. rewrite <- !Z.shiftr_div_pow2 by done. apply Z.shiftr_land. Qed.

(** A word of the mask that is zero constrains nothing: the value has no bits
    there either. *)
Lemma value_inside_mask v m :
  Z.land v (Z.lnot m) = 0 → Z.land v m = v.
Proof.
  intros H. apply Z.bits_inj'. intros n Hn. rewrite Z.land_spec.
  assert (Z.testbit (Z.land v (Z.lnot m)) n = false) as Hb by (by rewrite H, Z.bits_0).
  rewrite Z.land_spec, Z.lnot_spec in Hb by done.
  by destruct (Z.testbit v n), (Z.testbit m n).
Qed.

Lemma load_word_field b off : load_word b (Z.of_nat off) = field b off 4.
Proof. unfold load_word, field. by rewrite le_value_ljust, Nat2Z.id. Qed.

(** The low and high words of a 64-bit field. *)
Lemma field_lo w z rest :
  is_u 8 z → w = 8%nat → field (le_bytes w z ++ rest) 0 4 = lo32 z.
Proof.
  intros Hz ->. change 8%nat with (4 + 4)%nat. rewrite le_bytes_add, <- app_assoc.
  unfold field. rewrite drop_0, take_app_length' by (by rewrite length_le_bytes).
  by rewrite le_value_le_bytes.
Qed.

Lemma field_hi w z rest :
  is_u 8 z → w = 8%nat → field (le_bytes w z ++ rest) 4 4 = hi32 z.
Proof.
  intros Hz ->. change 8%nat with (4 + 4)%nat at 1. rewrite le_bytes_add, <- app_assoc.
  match goal with |- field ?b 4 4 = _ => change (field b 4 4) with (field b (4 + 0) 4) end.
  rewrite field_skip. apply field_head.
  unfold is_u in *. change (256 ^ Z.of_nat 4) with (2 ^ 32).
  split; [apply Z.div_pos; lia|]. apply Z.div_lt_upper_bound; lia.
Qed.

(** Inside the argument array: field [off] of argument [i]. *)
Lemma field_args l i v off :
  l !! i = Some v → (off + 4 <= 8)%nat →
  field (l ≫= le_bytes 8) (8 * i + off) 4 = field (le_bytes 8 v) off 4.
Proof.
  intros Hi Hoff. rewrite <- (take_drop_middle l i v Hi).
  pose proof (lookup_lt_Some _ _ _ Hi) as Hlt. unfold field. rewrite bind_app.
  assert (length (take i l ≫= le_bytes 8) = (8 * i)%nat) as Hlen.
  { rewrite length_bind_le_bytes, length_take_le; lia. }
  rewrite <- drop_drop, drop_app_length' by done.
  change ((v :: drop (S i) l) ≫= le_bytes 8) with (le_bytes 8 v ++ (drop (S i) l ≫= le_bytes 8)).
  rewrite drop_app_le by (rewrite length_le_bytes; lia).
  by rewrite take_app_le by (rewrite length_drop, length_le_bytes; lia).
Qed.

Section load.
Context (d : SeccompData) (Hd : SeccompData_ok d).
Abbreviation data := (SeccompData_bytes d).

Lemma load_nr : load_word data _OFF_NR = sd_nr d mod 2 ^ 32.
Proof using Hd.
  change _OFF_NR with (Z.of_nat 0).
  rewrite load_word_field, SeccompData_bytes_eq by apply Hd. unfold field.
  rewrite drop_0, take_app_length' by (by rewrite length_le_bytes).
  by rewrite le_value_le_bytes.
Qed.

Lemma load_arch : load_word data _OFF_ARCH = sd_arch d.
Proof using Hd.
  destruct Hd as (_ & Ha & _ & Hlen & _). change _OFF_ARCH with (Z.of_nat 4).
  rewrite load_word_field, SeccompData_bytes_eq by done. field_read. done.
Qed.

(** Both words of argument [i]. *)
Lemma load_arg i :
  0 <= i <= 5 →
  load_word data (_OFF_ARG0 + 8 * i) = lo32 (sd_args d !!! Z.to_nat i) ∧
  load_word data (_OFF_ARG0 + 8 * i + 4) = hi32 (sd_args d !!! Z.to_nat i) ∧
  0 <= sd_args d !!! Z.to_nat i <= _U64.
Proof using Hd.
  intros Hi. destruct Hd as (_ & _ & _ & Hlen & Hargs).
  destruct (lookup_lt_is_Some_2 (sd_args d) (Z.to_nat i)) as [v Hv]; [lia|].
  rewrite (list_lookup_total_correct (sd_args d) _ v Hv).
  pose proof (Forall_lookup_1 _ _ _ _ Hargs Hv) as Hu.
  assert (∀ off : nat, (off + 4 <= 8)%nat →
    load_word data (16 + 8 * i + Z.of_nat off) = field (le_bytes 8 v) off 4) as Hload.
  { intros off Hoff.
    replace (16 + 8 * i + Z.of_nat off) with (Z.of_nat (4 + (4 + (8 + (8 * Z.to_nat i + off))))) by lia.
    rewrite load_word_field, SeccompData_bytes_eq, !field_skip by done. by apply field_args. }
  pose proof (Hload 0%nat) as H0. pose proof (Hload 4%nat) as H4.
  rewrite <- (app_nil_r (le_bytes 8 v)), field_lo, Z.add_0_r in H0 by done.
  rewrite <- (app_nil_r (le_bytes 8 v)), field_hi in H4 by done.
  unfold _OFF_ARG0. split_and!; [apply H0; lia|apply H4; lia|..].
  all: unfold is_u in Hu; unfold _U64; change (256 ^ Z.of_nat 8) with (2 ^ 64) in Hu; lia.
Qed.
End load.
