(* ===== verification/FilterLabels.v ===== *)
(** * The labels [_compile] makes are distinct

    Labels are strings built from decimal numbers.  [lab] is their abstract
    syntax and [lab_name] the f-strings; the map is injective, because a
    decimal number has no underscore, so no label a filter defines can clash
    with another. *)

From Stdlib Require Import Ascii.
From S2P Require Import Prelude PyFormat Bpf Filter.

Inductive lab :=
| LKill
| LBlock (nr : Z)
| LNext (nr : Z) (i : nat)
| LHit (nr : Z) (i j : nat).

Definition lab_name (l : lab) : string :=
  match l with
  | LKill => "kill"
  | LBlock nr => block_label nr
  | LNext nr i => next_label nr i
  | LHit nr i j => hit_label nr i j
  end.

#[export] Instance lab_name_inj : Inj (=) (=) lab_name.
Proof.
  intros [|nr|nr i|nr i j] [|nr'|nr' i'|nr' i' j'] H; cbn in H;
    unfold block_label, next_label, hit_label in H; cbn in H; try discriminate H; try done.
  - injection H as H. by rewrite (pretty_Z_inj _ _ H).
  - injection H as H. apply split_char in H as [H1 H2]; [|by apply pretty_Z_no..].
    by rewrite (pretty_Z_inj _ _ H1), (pretty_nat_inj _ _ H2).
  - injection H as H. apply split_char in H as [H1 H2]; [|by apply pretty_Z_no..].
    apply split_char in H2 as [H2 H3]; [|by apply pretty_nat_no..].
    by rewrite (pretty_Z_inj _ _ H1), (pretty_nat_inj _ _ H2), (pretty_nat_inj _ _ H3).
Qed.
