(* ===== verification/FilterCorrect.v ===== *)
(** * Correctness of the compiled filter

    [_compile] turns the rules of a filter into a program that decides every
    syscall as the specification [verdict] does.  The proof follows the code
    generator: each emitting function is shown to extend the program with a
    segment whose labels are fresh, whose jumps go forward and which, in any
    program that contains it, runs as the part of the specification it stands
    for. *)

From S2P Require Import Prelude PyBytes PyDict Machine Bpf BpfSem BpfResolve BpfLayout BpfSim.
From S2P Require Import BpfAccept Syscalls Structs Filter FilterSpec FilterLabels.

(** ** Running a segment of a program *)

Section exec.
Context (fin : asm) (data : list Z).
Abbreviation step := (source_step (insns fin) (labels fin) data).

Definition lab_at (t : string) (q : nat) : Prop :=
  labels fin !! t = Some (PyInt (Z.of_nat q)).

(** Where control continues after a jump at [p]. *)
Definition goto (target : option string) (p q : nat) : Prop :=
  match target with None => q = S p | Some t => lab_at t q end.

Definition code_at (p : nat) (c : list Insn) : Prop :=
  ∀ j i, c !! j = Some i → insns fin !! (p + j)%nat = Some i.

(** From accumulator [a] at instruction [p], execution reaches [a'] at [q]. *)
Definition reach (a : Z) (p : nat) (a' : Z) (q : nat) : Prop :=
  rtc (steps_to step) (Config a (Z.of_nat p)) (Config a' (Z.of_nat q)).

(** From there, execution stops with the value [v]. *)
Definition returns (a : Z) (p : nat) (v : Z) : Prop :=
  ∃ a' q, reach a p a' q ∧ insns fin !! q = Some (Ret v).

Lemma reach_refl a p : reach a p a p.
Proof. apply rtc_refl. Qed.

Lemma reach_trans a p a' q a'' r : reach a p a' q → reach a' q a'' r → reach a p a'' r.
Proof. unfold reach. by etrans. Qed.

Lemma reach_returns a p a' q v : reach a p a' q → returns a' q v → returns a p v.
Proof. intros Hr (a'' & r & Hr' & Hret). exists a'', r. eauto using reach_trans. Qed.

Lemma ret_returns a p v : insns fin !! p = Some (Ret v) → returns a p v.
Proof. intros H. exists a, p. split; [apply reach_refl|done]. Qed.

Lemma reach_load a p k a' q :
  insns fin !! p = Some (Load k) → reach (load_word data k) (S p) a' q → reach a p a' q.
Proof.
  intros Hp. apply rtc_l. unfold steps_to. rewrite source_step_at, Hp. do 2 f_equal. lia.
Qed.

Lemma reach_and a p k a' q :
  insns fin !! p = Some (And k) → reach (Z.land a k) (S p) a' q → reach a p a' q.
Proof.
  intros Hp. apply rtc_l. unfold steps_to. rewrite source_step_at, Hp. do 2 f_equal. lia.
Qed.

Lemma reach_jump a p o k jt jf b r a' q :
  insns fin !! p = Some (Jump o k jt jf) → jump_cond o a k = Some b →
  goto (if b then jt else jf) p r → reach a r a' q → reach a p a' q.
Proof.
  intros Hp Hb Hg. apply rtc_l. unfold steps_to. rewrite source_step_at, Hp, Hb.
  destruct (if b then jt else jf) as [t|]; cbn in *.
  - unfold dict_getitem. by rewrite Hg.
  - subst. do 2 f_equal. lia.
Qed.

(** Follow a jump and stop there, or continue behind it. *)
Lemma reach_jump_stop a p o k jt jf b r :
  insns fin !! p = Some (Jump o k jt jf) → jump_cond o a k = Some b →
  goto (if b then jt else jf) p r → reach a p a r.
Proof. intros. eapply reach_jump; [done..|apply reach_refl]. Qed.

Lemma code_at_cons p i c :
  code_at p (i :: c) ↔ insns fin !! p = Some i ∧ code_at (S p) c.
Proof.
  unfold code_at. split.
  - intros H. split; [rewrite <- (Nat.add_0_r p); by apply H|].
    intros j i' Hj. rewrite Nat.add_succ_l, <- Nat.add_succ_r. by apply H.
  - intros [Hi H] [|j] i' Hj; cbn in Hj; [rewrite Nat.add_0_r; congruence|].
    rewrite Nat.add_succ_r, <- Nat.add_succ_l. auto.
Qed.

Lemma code_at_app p c1 c2 :
  code_at p (c1 ++ c2) ↔ code_at p c1 ∧ code_at (p + length c1) c2.
Proof.
  unfold code_at. split.
  - intros H. split; intros j i Hj.
    + apply H. by apply lookup_app_l_Some.
    + rewrite <- Nat.add_assoc. apply H. rewrite lookup_app_r by lia.
      by rewrite Nat.add_comm, Nat.add_sub.
  - intros [H1 H2] j i [Hj|[Hle Hj]]%lookup_app_Some; [auto|].
    replace (p + j)%nat with (p + length c1 + (j - length c1))%nat by lia. auto.
Qed.
End exec.

(** ** The code of one condition *)

Definition cond_code (c : ArgCmp) (fail passed : string) : list Insn :=
  let lo_off := _OFF_ARG0 + 8 * index c in
  let hi_off := lo_off + 4 in
  let lo := lo32 (value c) in
  let hi := hi32 (value c) in
  match op c with
  | EQ => [Load lo_off; Jump BPF_JEQ lo None (Some fail);
           Load hi_off; Jump BPF_JEQ hi None (Some fail)]
  | NE => [Load lo_off; Jump BPF_JEQ lo None (Some passed);
           Load hi_off; Jump BPF_JEQ hi (Some fail) None]
  | LT => [Load hi_off; Jump BPF_JGT hi (Some fail) None; Jump BPF_JEQ hi None (Some passed);
           Load lo_off; Jump BPF_JGEQ lo (Some fail) None]
  | LE => [Load hi_off; Jump BPF_JGT hi (Some fail) None; Jump BPF_JEQ hi None (Some passed);
           Load lo_off; Jump BPF_JGT lo (Some fail) None]
  | GT => [Load hi_off; Jump BPF_JGT hi (Some passed) None; Jump BPF_JEQ hi None (Some fail);
           Load lo_off; Jump BPF_JGT lo (Some passed) (Some fail)]
  | GE => [Load hi_off; Jump BPF_JGT hi (Some passed) None; Jump BPF_JEQ hi None (Some fail);
           Load lo_off; Jump BPF_JGEQ lo (Some passed) (Some fail)]
  | MASKED_EQ =>
      (if lo32 (mask c) =? 0 then []
       else [Load lo_off; And (lo32 (mask c)); Jump BPF_JEQ lo None (Some fail)]) ++
      (if hi32 (mask c) =? 0 then []
       else [Load hi_off; And (hi32 (mask c)); Jump BPF_JEQ hi None (Some fail)])
  end.

(** The program after a segment with its end label. *)
Definition extend (st : asm) (c : list Insn) : asm := mkAsm (insns st ++ c) (labels st).

Lemma check_u32_ok name z : 0 <= z <= 0xFFFFFFFF → _check_u32 name (PyInt z) = Ok z.
Proof. intros. unfold _check_u32. by rewrite int_between_PyInt. Qed.

Lemma mk_Load_ok k : 0 <= k <= 0xFFFFFFFF → mk_Load (PyInt k) = Ok (Load k).
Proof. intros. unfold mk_Load. by rewrite check_u32_ok. Qed.

Lemma mk_And_ok k : 0 <= k <= 0xFFFFFFFF → mk_And (PyInt k) = Ok (And k).
Proof. intros. unfold mk_And. by rewrite check_u32_ok. Qed.

Lemma mk_Ret_ok k : 0 <= k <= 0xFFFFFFFF → mk_Ret (PyInt k) = Ok (Ret k).
Proof. intros. unfold mk_Ret. by rewrite check_u32_ok. Qed.

Lemma mk_Jump_ok o k t f :
  o ∈ _JUMP_OPS → 0 <= k <= 0xFFFFFFFF → mk_Jump o (PyInt k) t f = Ok (Jump o k t f).
Proof.
  intros Ho Hk. unfold mk_Jump. rewrite bool_decide_eq_true_2 by done. cbn. by rewrite check_u32_ok.
Qed.

Lemma JEQ_op : BPF_JEQ ∈ _JUMP_OPS. Proof. by apply (bool_decide_unpack _). Qed.
Lemma JGT_op : BPF_JGT ∈ _JUMP_OPS. Proof. by apply (bool_decide_unpack _). Qed.
Lemma JGEQ_op : BPF_JGEQ ∈ _JUMP_OPS. Proof. by apply (bool_decide_unpack _). Qed.

Create HintDb bpf discriminated.
#[export] Hint Resolve JEQ_op JGT_op JGEQ_op lo32_range hi32_range : bpf.

Lemma append_ok st i insn : i = Ok insn → append i st = Ok (extend st [insn]).
Proof. by intros ->. Qed.

Lemma appends_ok l c st : Forall2 (λ r i, r = Ok i) l c → appends l st = Ok (extend st c).
Proof.
  unfold appends. intros H. revert st. induction H as [|r i l c -> _ IH]; intros st; cbn.
  - destruct st as [i0 l0]. unfold extend. cbn. by rewrite app_nil_r.
  - rewrite IH. unfold extend. cbn. by rewrite <- app_assoc.
Qed.

Lemma extend_extend st c1 c2 : extend (extend st c1) c2 = extend st (c1 ++ c2).
Proof. unfold extend. cbn. by rewrite <- app_assoc. Qed.

Lemma extend_nil st : extend st [] = st.
Proof. destruct st. unfold extend. cbn. by rewrite app_nil_r. Qed.

(** The generator writes the code above and binds [passed] to its end. *)
Lemma emit_cond_eq st c fail passed :
  ArgCmp_ok c →
  _emit_cond st c fail passed = Ok (set_label passed (extend st (cond_code c fail passed))).
Proof.
  intros (Hi & Hv & Hm & _). unfold _emit_cond, cond_code.
  rewrite lo32_land, hi32_land, lo32_land, hi32_land by done.
  pose proof (lo32_range (value c)). pose proof (hi32_range (value c) Hv).
  pose proof (lo32_range (mask c)). pose proof (hi32_range (mask c) Hm).
  assert (0 <= _OFF_ARG0 + 8 * index c ∧ _OFF_ARG0 + 8 * index c + 4 <= 0xFFFFFFFF)
    by (unfold _OFF_ARG0; lia).
  assert (∀ off m v, 0 <= off <= 0xFFFFFFFF → 0 <= m <= 0xFFFFFFFF → 0 <= v <= 0xFFFFFFFF →
    ∀ st, (if m =? 0 then Ok st else
       appends [mk_Load (PyInt off); mk_And (PyInt m);
                mk_Jump BPF_JEQ (PyInt v) None (Some fail)] st) =
     Ok (extend st (if m =? 0 then []
       else [Load off; And m; Jump BPF_JEQ v None (Some fail)]))) as Hmask.
  { intros off m v Ho Hm' Hv' st'. destruct (m =? 0); [by rewrite extend_nil|].
    erewrite appends_ok; [done|]. repeat (apply Forall2_cons; split); [..|apply Forall2_nil; done].
    all: first [apply mk_Load_ok|apply mk_And_ok|apply mk_Jump_ok; [auto with bpf|]]; lia. }
  destruct (op c); cbn [decide CmpOp_eq_dec].
  7: { cbn [foldM]. rewrite Hmask by lia. cbn [mbind result_bind]. rewrite Hmask by lia.
       cbn [mbind result_bind]. by rewrite extend_extend. }
  all: erewrite appends_ok; [reflexivity|];
    repeat (apply Forall2_cons; split); [..|apply Forall2_nil; done];
    first [apply mk_Load_ok|apply mk_Jump_ok; [auto with bpf|]]; lia.
Qed.

(** ** Running one condition *)

Section run_cond.
Context (fin : asm) (d : SeccompData) (Hd : SeccompData_ok d).
Abbreviation data := (SeccompData_bytes d).
Abbreviation reach := (reach fin data).

(** Step over the first instruction of the code at hand. *)
#[local] Ltac next_insn Hc Hi := apply code_at_cons in Hc as [Hi Hc].
#[local] Ltac load Hc E :=
  let Hi := fresh in next_insn Hc Hi; eapply reach_load; [exact Hi|]; rewrite E.
#[local] Ltac mask Hc :=
  let Hi := fresh in next_insn Hc Hi; eapply reach_and; [exact Hi|].
(** A jump whose condition has been evaluated. *)
#[local] Ltac jump Hc E :=
  let Hi := fresh in next_insn Hc Hi;
  eapply reach_jump; [exact Hi|cbn; rewrite E; reflexivity|cbn [goto]; eassumption || reflexivity|].
(** Close a branch: the position reached is the one the condition selects. *)
#[local] Ltac arrive :=
  bool_to_prop;
  match goal with
  | |- context [if ?b then _ else _] =>
      destruct b eqn:?; bool_to_prop; first [apply reach_refl | exfalso; lia]
  end.

Context (x v lo_off hi_off : Z) (fl ps : string) (f : nat).
Context (Hlo : load_word data lo_off = lo32 x) (Hhi : load_word data hi_off = hi32 x).
Context (Hf : lab_at fin fl f).

Lemma cond_run_eq p a :
  code_at fin p [Load lo_off; Jump BPF_JEQ (lo32 v) None (Some fl);
                 Load hi_off; Jump BPF_JEQ (hi32 v) None (Some fl)] →
  ∃ a', reach a p a' (if x =? v then (4 + p)%nat else f).
Proof using Hlo Hhi Hf.
  intros Hc. pose proof (eq_words x v) as Hw.
  destruct (lo32 x =? lo32 v) eqn:E1, (hi32 x =? hi32 v) eqn:E2;
    eexists; load Hc Hlo; jump Hc E1; try (load Hc Hhi; jump Hc E2); arrive.
Qed.

Lemma cond_run_ne p a :
  lab_at fin ps (4 + p) →
  code_at fin p [Load lo_off; Jump BPF_JEQ (lo32 v) None (Some ps);
                 Load hi_off; Jump BPF_JEQ (hi32 v) (Some fl) None] →
  ∃ a', reach a p a' (if negb (x =? v) then (4 + p)%nat else f).
Proof using Hlo Hhi Hf.
  intros Hp Hc. pose proof (eq_words x v) as Hw.
  destruct (lo32 x =? lo32 v) eqn:E1, (hi32 x =? hi32 v) eqn:E2;
    eexists; load Hc Hlo; jump Hc E1; try (load Hc Hhi; jump Hc E2); arrive.
Qed.

(** LT and LE: the high word decides unless it is equal. *)
Lemma cond_run_below o (t : bool) p a :
  lab_at fin ps (5 + p) →
  jump_cond o (lo32 x) (lo32 v) = Some t →
  code_at fin p [Load hi_off; Jump BPF_JGT (hi32 v) (Some fl) None;
                 Jump BPF_JEQ (hi32 v) None (Some ps);
                 Load lo_off; Jump o (lo32 v) (Some fl) None] →
  ∃ a', reach a p a' (if (hi32 x <? hi32 v) || (hi32 x =? hi32 v) && negb t
                      then (5 + p)%nat else f).
Proof using Hlo Hhi Hf.
  intros Hp Ht Hc. destruct (hi32 v <? hi32 x) eqn:E1, (hi32 x =? hi32 v) eqn:E2, t;
    eexists; load Hc Hhi; jump Hc E1; try (jump Hc E2); try (load Hc Hlo; jump Hc Ht); arrive.
Qed.

(** GT and GE: the high word decides unless it is equal. *)
Lemma cond_run_above o (t : bool) p a :
  lab_at fin ps (5 + p) →
  jump_cond o (lo32 x) (lo32 v) = Some t →
  code_at fin p [Load hi_off; Jump BPF_JGT (hi32 v) (Some ps) None;
                 Jump BPF_JEQ (hi32 v) None (Some fl);
                 Load lo_off; Jump o (lo32 v) (Some ps) (Some fl)] →
  ∃ a', reach a p a' (if (hi32 v <? hi32 x) || (hi32 x =? hi32 v) && t
                      then (5 + p)%nat else f).
Proof using Hlo Hhi Hf.
  intros Hp Ht Hc. destruct (hi32 v <? hi32 x) eqn:E1, (hi32 x =? hi32 v) eqn:E2, t;
    eexists; load Hc Hhi; jump Hc E1; try (jump Hc E2); try (load Hc Hlo; jump Hc Ht); arrive.
Qed.

(** One word of a masked comparison, which is skipped when its mask is zero. *)
Lemma cond_run_masked off w m u p a :
  load_word data off = w → (m = 0 → u = 0) →
  let c := if m =? 0 then [] else [Load off; And m; Jump BPF_JEQ u None (Some fl)] in
  code_at fin p c →
  ∃ a', reach a p a' (if Z.land w m =? u then (length c + p)%nat else f).
Proof using Hf.
  intros Hw Hm. cbn zeta. destruct (m =? 0) eqn:Em; intros Hc.
  - bool_to_prop. subst m. rewrite (Hm eq_refl), Z.land_0_r. eexists. apply reach_refl.
  - destruct (Z.land w m =? u) eqn:E; eexists; load Hc Hw; mask Hc; jump Hc E; apply reach_refl.
Qed.
End run_cond.

Lemma ltb_words x v :
  (x <? v) = (hi32 x <? hi32 v) || (hi32 x =? hi32 v) && (lo32 x <? lo32 v).
Proof.
  pose proof (lt_words x v). destruct (x <? v) eqn:E, (hi32 x <? hi32 v) eqn:E1,
    (hi32 x =? hi32 v) eqn:E2, (lo32 x <? lo32 v) eqn:E3; bool_to_prop; cbn; lia.
Qed.

Lemma leb_words x v :
  (x <=? v) = (hi32 x <? hi32 v) || (hi32 x =? hi32 v) && (lo32 x <=? lo32 v).
Proof.
  rewrite Z.leb_antisym, ltb_words, (Z.leb_antisym (lo32 v)).
  destruct (hi32 x <? hi32 v) eqn:E1, (hi32 x =? hi32 v) eqn:E2, (hi32 v <? hi32 x) eqn:E3,
    (hi32 v =? hi32 x) eqn:E4, (lo32 v <? lo32 x) eqn:E5; bool_to_prop; cbn; lia.
Qed.

(** The code of a condition goes to its end when the condition holds and to
    [fail] when it does not. *)
Lemma cond_run fin d c fl ps f p a :
  SeccompData_ok d → ArgCmp_ok c →
  code_at fin p (cond_code c fl ps) → lab_at fin fl f →
  lab_at fin ps (length (cond_code c fl ps) + p) →
  ∃ a', reach fin (SeccompData_bytes d) a p a'
    (if cond_holds c (sd_args d) then (length (cond_code c fl ps) + p)%nat else f).
Proof.
  intros Hd (Hi & Hv & Hm & Hval) Hc Hf Hp.
  destruct (load_arg d Hd (index c) Hi) as (Hlo & Hhi & Hx).
  unfold cond_code, cond_holds in *. cbn zeta in *.
  set (x := sd_args d !!! Z.to_nat (index c)) in *.
  destruct (op c).
  - by apply cond_run_eq with (lo_off := _OFF_ARG0 + 8 * index c)
      (hi_off := _OFF_ARG0 + 8 * index c + 4) (fl := fl).
  - by eapply cond_run_ne with (lo_off := _OFF_ARG0 + 8 * index c)
      (hi_off := _OFF_ARG0 + 8 * index c + 4) (fl := fl) (ps := ps).
  - rewrite ltb_words, (Z.ltb_antisym (lo32 (value c))).
    by eapply cond_run_below with (o := BPF_JGEQ) (ps := ps).
  - rewrite leb_words, (Z.leb_antisym (lo32 (value c))).
    by eapply cond_run_below with (o := BPF_JGT) (ps := ps).
  - rewrite ltb_words, (Z.eqb_sym (hi32 (value c))).
    by eapply cond_run_above with (o := BPF_JGT) (ps := ps).
  - rewrite leb_words, (Z.eqb_sym (hi32 (value c))).
    by eapply cond_run_above with (o := BPF_JGEQ) (ps := ps).
  - apply code_at_app in Hc as [Hc1 Hc2].
    pose proof (value_inside_mask _ _ (Hval eq_refl)) as Hin.
    edestruct (cond_run_masked fin d fl f Hf (_OFF_ARG0 + 8 * index c)) as [a1 H1];
      [exact Hlo| |exact Hc1|].
    { intros H0. by rewrite <- Hin, lo32_and, H0, Z.land_0_r. }
    rewrite Nat.add_comm in Hc2.
    edestruct (cond_run_masked fin d fl f Hf (_OFF_ARG0 + 8 * index c + 4)) as [a2 H2];
      [exact Hhi| |exact Hc2|].
    { intros H0. by rewrite <- Hin, hi32_and, H0, Z.land_0_r. }
    rewrite <- lo32_and in H1. rewrite <- hi32_and in H2.
    pose proof (eq_words (Z.land x (mask c)) (value c)) as Hw.
    rewrite length_app.
    destruct (lo32 (Z.land x (mask c)) =? lo32 (value c)) eqn:E1; bool_to_prop.
    + exists a2. eapply reach_trans; [exact H1|].
      replace (Z.land x (mask c) =? value c) with (hi32 (Z.land x (mask c)) =? hi32 (value c)).
      * rewrite (Nat.add_comm (length _) (length _)), <- Nat.add_assoc. exact H2.
      * destruct (hi32 _ =? _) eqn:E2, (Z.land x (mask c) =? value c) eqn:E3; bool_to_prop; lia.
    + exists a1. destruct (Z.land x (mask c) =? value c) eqn:E3; bool_to_prop; [lia|exact H1].
Qed.
