(* ===== verification/FilterRun.v ===== *)
(** * Running a compiled filter

    Each piece of generated code, found inside the finished program, jumps only
    forward and computes its part of the specification: a condition sequence
    decides the conjunction of its conditions, a rule block returns the action
    of its first matching rule, and the dispatch selects the block of the
    syscall number.  The theorems about [_compile] follow. *)

From S2P Require Import Prelude PyBytes PyDict Machine Bpf BpfSem BpfResolve BpfLayout BpfSim.
From S2P Require Import BpfAccept Syscalls Structs Filter FilterSpec FilterLabels.
From S2P Require Import FilterCorrect FilterGen.

(** ** Forward segments *)

Definition seg_forward (fin : asm) (p q : nat) : Prop :=
  ∀ k insn t, (p <= k < q)%nat → insns fin !! k = Some insn → t ∈ _targets insn →
    ∃ r, target_at (labels fin) (length (insns fin)) t r ∧ (k < r)%nat.

Lemma seg_forward_app fin p q r : seg_forward fin p q → seg_forward fin q r → seg_forward fin p r.
Proof.
  intros H1 H2 k insn t Hk. destruct (decide (k < q)%nat); [apply H1; lia|apply H2; lia].
Qed.

Lemma seg_forward_nil fin p : seg_forward fin p p.
Proof. intros k insn t Hk. lia. Qed.

(** Code all of whose labels lie behind it. *)
Lemma seg_forward_code fin p c :
  code_at fin p c →
  (∀ insn t, insn ∈ c → t ∈ _targets insn →
     ∃ r, lab_at fin t r ∧ (length c + p <= r <= length (insns fin))%nat) →
  seg_forward fin p (length c + p).
Proof.
  intros Hc Ht k insn t Hk Hin Htt.
  destruct (lookup_lt_is_Some_2 c (k - p)) as [i Hi]; [lia|].
  pose proof (Hc _ _ Hi) as Hi'. replace (p + (k - p))%nat with k in Hi' by lia.
  rewrite Hi' in Hin. injection Hin as ->.
  destruct (Ht insn t) as (r & Hr & Hle); [by eapply list_elem_of_lookup_2|done|].
  exists r. split; [|lia]. split; [done|lia].
Qed.

Lemma cond_code_targets c fl ps insn t :
  insn ∈ cond_code c fl ps → t ∈ _targets insn → t = fl ∨ t = ps.
Proof.
  unfold cond_code. destruct (op c); repeat case_match; cbn [app];
    rewrite ?elem_of_cons, ?elem_of_nil; intros Hin Ht;
    repeat destruct Hin as [->|Hin]; try done; cbn in Ht; set_solver.
Qed.

Lemma length_cond_code c fl ps : (length (cond_code c fl ps) <= 6)%nat.
Proof. unfold cond_code. destruct (op c); repeat case_match; cbn; lia. Qed.

(** ** Conditions, rules, blocks *)

Section run.
Context (fin : asm).
Abbreviation len st := (length (insns st)).

(** The condition sequence of rule [i]: to its end if all hold, else to the
    next rule. *)
Lemma conds_run nr i conds :
  Forall ArgCmp_ok conds → ∀ j st S f,
  grows S (conds_st nr i j st conds) fin → (∀ j', ¬ S (LHit nr i j')) →
  lab_at fin (lab_name (LNext nr i)) f →
  (len (conds_st nr i j st conds) <= f <= len fin)%nat →
  seg_forward fin (len st) (len (conds_st nr i j st conds)) ∧
  ∀ d a, SeccompData_ok d → ∃ a', reach fin (SeccompData_bytes d) a (len st) a'
    (if forallb (λ c, cond_holds c (sd_args d)) conds
     then len (conds_st nr i j st conds) else f).
Proof.
  induction 1 as [|c conds Hc _ IH]; intros j st S f Hg HS Hf Hle; cbn [conds_st] in *.
  { split; [apply seg_forward_nil|]. intros d a _. exists a. apply reach_refl. }
  set (hit := lab_name (LHit nr i j)) in *. set (nxt := lab_name (LNext nr i)) in *.
  set (code := cond_code c nxt hit) in *. set (st1 := extend st code) in *.
  assert (grows (λ l, S l ∨ conds_labs nr i (Datatypes.S j) l) (set_label hit st1) fin) as Hg1.
  { eapply grows_trans; [eapply grows_mono; [apply conds_grow|by right]|].
    eapply grows_mono; [apply Hg|by left]. }
  assert (grows (λ _, True) st1 fin) as Hg0.
  { eapply grows_trans; [apply (grows_label (λ _, True) st1 (LHit nr i j)); done|].
    by eapply grows_mono. }
  assert (len st1 = (length code + len st)%nat) as Hlen1 by (cbn; rewrite length_app; lia).
  pose proof (grows_code _ _ _ _ Hg0) as Hcode.
  assert (lab_at fin hit (len st1)) as Hhit.
  { apply (grows_lab _ _ _ _ Hg1). intros [?|(j' & [= <-] & ?)]; [by eapply HS|lia]. }
  pose proof (grows_length _ _ _ (conds_grow nr i conds (Datatypes.S j) (set_label hit st1))) as Hlen.
  change (len (set_label hit st1)) with (len st1) in Hlen.
  destruct (IH _ _ _ _ Hg HS Hf Hle) as [Hfw Hrun]. split.
  - eapply seg_forward_app; [|apply Hfw]. change (len (set_label hit st1)) with (len st1).
    rewrite Hlen1. apply seg_forward_code; [done|].
    intros insn t Hin [-> | ->]%(cond_code_targets _ _ _ _ _ Hin); eexists; (split; [eassumption|]);
      rewrite <- Hlen1; lia.
  - intros d a Hd. cbn [forallb].
    rewrite Hlen1 in Hhit.
    destruct (cond_run fin d c nxt hit f (len st) a Hd Hc Hcode Hf Hhit) as [a1 H1].
    destruct (cond_holds c (sd_args d)); cbn [andb]; [|by exists a1].
    destruct (Hrun d a1 Hd) as [a2 H2]. exists a2. eapply reach_trans; [exact H1|].
    change (len (set_label hit st1)) with (len st1) in H2. by rewrite Hlen1 in H2.
Qed.

(** Code that only returns needs no label. *)
Lemma ret_forward p v : code_at fin p [Ret v] → seg_forward fin p (1 + p).
Proof.
  intros Hc. apply (seg_forward_code fin p [Ret v]); [done|].
  intros insn t ->%list_elem_of_singleton Ht. by apply not_elem_of_nil in Ht.
Qed.

Lemma ret_runs data a p v : code_at fin p [Ret v] → returns fin data a p v.
Proof.
  intros Hc. apply ret_returns. specialize (Hc 0%nat _ eq_refl). by rewrite Nat.add_0_r in Hc.
Qed.

(** One conditional rule: it returns its action if it matches and falls
    through to its [next] label otherwise. *)
Lemma cond_rule_run nr i r st S :
  let st2 := set_label (lab_name (LNext nr i))
               (extend (conds_st nr i 0 st (args r)) [Ret (action r)]) in
  Forall ArgCmp_ok (args r) → grows S st2 fin → (∀ l, rule_labs nr i l → S l → rule_labs nr (Datatypes.S i) l) →
  seg_forward fin (len st) (len st2) ∧
  ∀ d a, SeccompData_ok d →
    if rule_matches r (sd_args d)
    then returns fin (SeccompData_bytes d) a (len st) (action r)
    else ∃ a', reach fin (SeccompData_bytes d) a (len st) a' (len st2).
Proof.
  intros st2 Hc Hg HS. set (st1 := conds_st nr i 0 st (args r)) in *.
  assert (lab_at fin (lab_name (LNext nr i)) (len st2)) as Hnext.
  { apply (grows_lab _ _ _ _ Hg). intros H. apply HS in H; cbn in *; lia. }
  assert (grows (λ l, S l ∨ l = LNext nr i) (extend st1 [Ret (action r)]) fin) as Hg1.
  { eapply grows_trans; [|eapply grows_mono; [apply Hg|by left]]. apply grows_label. auto. }
  assert (grows (λ l, S l ∨ l = LNext nr i) st1 fin) as Hg0.
  { eapply grows_trans; [apply grows_extend|apply Hg1]. }
  pose proof (grows_code _ _ _ _ Hg1) as Hret. pose proof (grows_length _ _ _ Hg) as Hle2.
  assert (len st2 = (1 + len st1)%nat) as Hlen2 by (cbn; rewrite length_app; cbn; lia).
  destruct (conds_run nr i (args r) Hc 0%nat st _ (len st2) Hg0) as [Hfw Hrun];
    [|done|fold st1; lia|].
  { intros j' [H|H]; [|done]. apply HS in H; cbn in *; lia. }
  fold st1 in Hfw, Hrun. split.
  - eapply seg_forward_app; [apply Hfw|]. rewrite Hlen2. by eapply ret_forward.
  - intros d a Hd. destruct (Hrun d a Hd) as [a1 H1]. unfold rule_matches.
    destruct (forallb _ (args r)); [|by exists a1].
    eapply reach_returns; [apply H1|]. by apply ret_runs.
Qed.

(** The rules of a syscall from rule [i] on. *)
Lemma rules_run nr rules :
  Forall Rule_ok rules → ∀ i st S,
  grows S (rules_st nr i st rules).1 fin → (∀ l, rule_labs nr i l → ¬ S l) →
  seg_forward fin (len st) (len (rules_st nr i st rules).1) ∧
  ∀ d a, SeccompData_ok d →
    match first_match rules (sd_args d) with
    | Some v => returns fin (SeccompData_bytes d) a (len st) v
    | None => (rules_st nr i st rules).2 = true ∧
        ∃ a', reach fin (SeccompData_bytes d) a (len st) a' (len (rules_st nr i st rules).1)
    end.
Proof.
  induction 1 as [|r rules [Ha Hc] _ IH]; intros i st S Hg HS; cbn [rules_st first_match] in *.
  { split; [apply seg_forward_nil|]. intros d a _. split; [done|]. exists a. apply reach_refl. }
  destruct (args r) as [|c0 cs] eqn:E.
  { pose proof (grows_code _ _ _ _ Hg) as Hcode. unfold rule_matches. rewrite E. split.
    - cbn [fst extend insns]. rewrite length_app, Nat.add_comm. by eapply ret_forward.
    - intros d a _. by apply ret_runs. }
  rewrite <- E in *. clear E c0 cs.
  set (st2 := set_label (lab_name (LNext nr i)) _) in *.
  assert (grows (λ l, S l ∨ rule_labs nr (Datatypes.S i) l) st2 fin) as Hg2.
  { eapply grows_trans; [eapply grows_mono; [apply rules_grow|by right]|].
    eapply grows_mono; [apply Hg|by left]. }
  destruct (IH (Datatypes.S i) st2 S Hg) as [Hfw Hrun].
  { intros l Hl. apply HS. destruct l; cbn in *; lia. }
  destruct (cond_rule_run nr i r st _ Hc Hg2) as [Hfw1 Hrun1].
  { intros l Hl [H|H]; [by destruct (HS l)|done]. }
  split; [eapply seg_forward_app; [apply Hfw1|apply Hfw]|].
  intros d a Hd. specialize (Hrun1 d a Hd). destruct (rule_matches r (sd_args d)); [done|].
  destruct Hrun1 as [a1 H1]. specialize (Hrun d a1 Hd).
  destruct (first_match rules (sd_args d)); [by eapply reach_returns|].
  destruct Hrun as [Hft [a2 H2]]. split; [done|]. exists a2. by eapply reach_trans.
Qed.

(** The block of one syscall: it decides the rules, with the default behind
    them. *)
Lemma block_run dflt nr rs st S :
  Forall Rule_ok rs → grows S (block_st dflt st (nr, rs)) fin → (∀ l, block_labs nr l → ¬ S l) →
  lab_at fin (lab_name (LBlock nr)) (len st) ∧
  seg_forward fin (len st) (len (block_st dflt st (nr, rs))) ∧
  ∀ d a, SeccompData_ok d →
    returns fin (SeccompData_bytes d) a (len st) (default dflt (first_match rs (sd_args d))).
Proof.
  intros Hrs Hg HS. unfold block_st in *. cbn [fst snd] in *.
  set (st0 := set_label (lab_name (LBlock nr)) st) in *.
  pose proof (rules_grow nr rs 0 st0) as Hgr.
  assert (∀ l, rule_labs nr 0 l → ¬ S l) as HSr by (intros l Hl; apply HS; by right).
  pose proof (rules_run nr rs Hrs 0 st0 S) as Hrr.
  destruct (rules_st nr 0 st0 rs) as [st' falls]. cbn [fst snd] in *.
  assert (grows S st' fin) as Hg'.
  { destruct falls; [|done]. eapply grows_trans; [apply grows_extend|done]. }
  destruct (Hrr Hg' HSr) as [Hfw Hrun]. split_and!.
  - assert (grows (λ l, S l ∨ rule_labs nr 0 l) st0 fin) as Hg0.
    { eapply grows_trans; [eapply grows_mono; [apply Hgr|by right]|].
      eapply grows_mono; [apply Hg'|by left]. }
    apply (grows_lab _ _ _ _ Hg0). intros [H|H]; [|done]. eapply HS; [by left|done].
  - eapply seg_forward_app; [apply Hfw|]. destruct falls; [|apply seg_forward_nil].
    cbn [extend insns]. rewrite length_app, Nat.add_comm. eapply ret_forward, grows_code, Hg.
  - intros d a Hd. specialize (Hrun d a Hd).
    destruct (first_match rs (sd_args d)) as [v|]; cbn; [done|].
    destruct Hrun as [-> [a' Ha']]. eapply reach_returns; [apply Ha'|].
    eapply ret_runs, grows_code, Hg.
Qed.

Lemma blocks_run dflt entries :
  NoDup entries.*1 → Forall (λ kv, Forall Rule_ok kv.2) entries → ∀ st S,
  grows S (foldl (block_st dflt) st entries) fin →
  (∀ nr l, nr ∈ entries.*1 → block_labs nr l → ¬ S l) →
  seg_forward fin (len st) (len (foldl (block_st dflt) st entries)) ∧
  ∀ nr rs, (nr, rs) ∈ entries → ∃ p, (len st <= p <= len fin)%nat ∧
    lab_at fin (lab_name (LBlock nr)) p ∧
    ∀ d a, SeccompData_ok d →
      returns fin (SeccompData_bytes d) a p (default dflt (first_match rs (sd_args d))).
Proof.
  intros Hnd Hall. induction Hall as [|[nr0 rs0] entries Hrs _ IH]; intros st S Hg HS;
    cbn [foldl fst snd] in *.
  { split; [apply seg_forward_nil|]. by intros ? ? ?%not_elem_of_nil. }
  rewrite fmap_cons in *. cbn [fst] in *. apply NoDup_cons in Hnd as [Hnin Hnd].
  set (st1 := block_st dflt st (nr0, rs0)) in *.
  pose proof (block_grow dflt st (nr0, rs0)) as Hg0. fold st1 in Hg0.
  assert (grows (λ l, S l ∨ ∃ nr, nr ∈ entries.*1 ∧ block_labs nr l) st1 fin) as Hg1.
  { eapply grows_trans; [eapply grows_mono; [apply blocks_grow|by right]|].
    eapply grows_mono; [apply Hg|by left]. }
  destruct (IH Hnd st1 S Hg) as [Hfw Hrun].
  { intros nr l Hn. apply HS. by apply elem_of_cons; right. }
  destruct (block_run dflt nr0 rs0 st _ Hrs Hg1) as (Hlab & Hfw1 & Hrun1).
  { intros l Hl [H|(nr & Hn & H)].
    - eapply HS; [|done..]. apply elem_of_cons. by left.
    - assert (nr = nr0) as ->; [|done].
      destruct Hl as [->|Hl], H as [H|H]; simplify_eq; try done.
      destruct l; cbn in *; destruct Hl, H; congruence. }
  pose proof (grows_length _ _ _ Hg0). pose proof (grows_length _ _ _ Hg1).
  split; [by eapply seg_forward_app|].
  intros nr rs [[= -> ->]|Hin]%elem_of_cons.
  - exists (len st). split; [lia|done].
  - destruct (Hrun nr rs Hin) as (p & Hp & Hl & Hr). exists p. split; [lia|done].
Qed.

(** The chain of equality tests on the syscall number. *)
Lemma dispatch_run data keys n p :
  code_at fin p (dispatch_code keys) →
  (∀ nr, nr ∈ keys → ∃ q, lab_at fin (lab_name (LBlock nr)) q) →
  if decide (n ∈ keys) then ∃ q, lab_at fin (lab_name (LBlock n)) q ∧ reach fin data n p n q
  else reach fin data n p n (length keys + p).
Proof.
  revert p. induction keys as [|k keys IH]; intros p Hc Hl.
  { rewrite decide_False by apply not_elem_of_nil. apply reach_refl. }
  unfold dispatch_code in Hc. rewrite fmap_cons in Hc. fold (dispatch_code keys) in Hc.
  apply code_at_cons in Hc as [Hi Hc].
  destruct (decide (n = k)) as [->|Hne].
  - rewrite decide_True by (apply elem_of_cons; by left).
    destruct (Hl k) as [q Hq]; [apply elem_of_cons; by left|]. exists q. split; [done|].
    eapply reach_jump_stop; [done|cbn; by rewrite Z.eqb_refl|done].
  - assert (reach fin data n p n (S p)) as H1.
    { eapply reach_jump_stop; [done|cbn; by rewrite (proj2 (Z.eqb_neq n k) Hne)|done]. }
    specialize (IH (S p) Hc ltac:(intros nr Hn; apply Hl, elem_of_cons; by right)).
    destruct (decide (n ∈ keys)) as [Hin|Hin].
    + rewrite decide_True by (apply elem_of_cons; by right).
      destruct IH as (q & Hq & Hr). exists q. split; [done|]. by eapply reach_trans.
    + rewrite decide_False by (rewrite not_elem_of_cons; auto). cbn [length].
      rewrite Nat.add_succ_l, <- Nat.add_succ_r. by eapply reach_trans.
Qed.
End run.

(** ** The whole program *)

Section total.
Context (aa dflt : Z) (rules : list (Z * list _Rule)).
Context (Haa : 0 <= aa <= 0xFFFFFFFF) (Hdflt : 0 <= dflt <= 0xFFFFFFFF) (Hrules : rules_ok rules).

Let head := head_st aa dflt rules.
Let blocks := foldl (block_st dflt) head rules.
Let fin := compile_st aa dflt rules.
Abbreviation len st := (length (insns st)).
Abbreviation keys := (dict_keys rules).

Lemma fin_blocks : grows (λ l, l = LKill) blocks fin.
Proof. eapply grows_trans; [|apply grows_extend]. by apply (grows_label (λ l, l = LKill)). Qed.

Lemma fin_kill : lab_at fin (lab_name LKill) (len blocks).
Proof. unfold lab_at, fin, compile_st. cbn. apply lookup_insert_eq. Qed.

Lemma fin_kill_code : code_at fin (len blocks) [Ret (Action_value KILL_PROCESS)].
Proof. apply (grows_code (λ _, True) (set_label (lab_name LKill) blocks)). apply grows_refl. Qed.

Lemma fin_len : len fin = (1 + len blocks)%nat.
Proof. unfold fin, compile_st. cbn. rewrite length_app. cbn. fold head blocks. lia. Qed.

Lemma fin_head : code_at fin 0
  ([Load _OFF_ARCH; Jump BPF_JEQ aa None (Some (lab_name LKill)); Load _OFF_NR] ++
   dispatch_code keys ++ [Ret dflt]).
Proof.
  apply (grows_code (λ _, True) (mkAsm [] ∅)).
  eapply grows_trans; [eapply grows_mono; [apply blocks_grow|done]|].
  eapply grows_mono; [apply fin_blocks|done].
Qed.

Lemma head_len : len head = (4 + length keys)%nat.
Proof.
  unfold head, head_st. cbn. rewrite length_app. unfold dispatch_code. rewrite length_fmap. cbn. lia.
Qed.

Lemma head_code_len :
  (length ([Load _OFF_ARCH; Jump BPF_JEQ aa None (Some (lab_name LKill)); Load _OFF_NR] ++
    dispatch_code keys ++ [Ret dflt]) + 0)%nat = len head.
Proof. rewrite head_len, !length_app. unfold dispatch_code. rewrite length_fmap. cbn. lia. Qed.

Lemma fin_block_facts :
  seg_forward fin (len head) (len blocks) ∧
  ∀ nr rs, (nr, rs) ∈ rules → ∃ p, (len head <= p <= len fin)%nat ∧
    lab_at fin (lab_name (LBlock nr)) p ∧
    ∀ d a, SeccompData_ok d →
      returns fin (SeccompData_bytes d) a p (default dflt (first_match rs (sd_args d))).
Proof using Hrules.
  apply (blocks_run fin dflt rules (rules_keys _ Hrules) (rules_each _ Hrules) head
           (λ l, l = LKill) fin_blocks).
  intros nr l _ Hl ->. destruct Hl as [?|Hl]; done.
Qed.

Lemma block_label_at nr : nr ∈ keys → ∃ p, (len head <= p <= len fin)%nat ∧
  lab_at fin (lab_name (LBlock nr)) p.
Proof using Hrules.
  intros Hn. unfold dict_keys in Hn. apply list_elem_of_fmap in Hn as ([nr' rs] & -> & Hin).
  destruct (proj2 fin_block_facts nr' rs Hin) as (p & Hp & Hl & _). by exists p.
Qed.

(** Every jump of the compiled program goes forward. *)
Lemma fin_forward : forward_program (insns fin) (labels fin).
Proof using Hrules.
  assert (seg_forward fin 0 (len fin)) as H.
  { eapply seg_forward_app; [|eapply seg_forward_app; [apply fin_block_facts|]].
    - rewrite <- head_code_len.
      apply seg_forward_code; [apply fin_head|].
      pose proof (grows_length _ _ _ (blocks_grow dflt rules head)) as Hle.
      fold blocks in Hle. pose proof fin_len as Hfl.
      rewrite head_code_len.
      intros insn t Hin Ht. unfold dispatch_code in Hin.
      rewrite !elem_of_app, !elem_of_cons, elem_of_nil in Hin.
      destruct Hin as [[->|[->|[->|[]]]]|[Hin|[->|[]]]]; try by apply not_elem_of_nil in Ht.
      + cbn in Ht. apply list_elem_of_singleton in Ht as ->.
        exists (len blocks). split; [apply fin_kill|lia].
      + apply list_elem_of_fmap in Hin as (nr & -> & Hnr). cbn in Ht.
        apply list_elem_of_singleton in Ht as ->.
        destruct (block_label_at nr Hnr) as (p & Hp & Hl). exists p. by split.
    - rewrite fin_len. eapply ret_forward, fin_kill_code. }
  intros i insn Hi t Ht. apply (H i insn t); [|done..].
  split; [lia|by eapply lookup_lt_Some].
Qed.

(** The compiled program decides every syscall as the specification does. *)
Lemma fin_returns d f :
  SeccompData_ok d → _default f = dflt → _rules f = rules →
  returns fin (SeccompData_bytes d) 0 0 (verdict aa f d).
Proof using Hrules Hdflt.
  intros Hd Hdf Hrl. unfold verdict. rewrite Hdf, Hrl. pose proof fin_head as Hc.
  apply code_at_app in Hc as [Hc1 Hc2]. cbn [length Nat.add] in Hc2.
  apply code_at_cons in Hc1 as [H0 Hc1]. apply code_at_cons in Hc1 as [H1 Hc1].
  apply code_at_cons in Hc1 as [H2 _].
  destruct (sd_arch d =? aa) eqn:E.
  - apply code_at_app in Hc2 as [Hdisp Hret].
    assert (reach fin (SeccompData_bytes d) 0 0 (sd_nr d mod 2 ^ 32) 3) as Hr.
    { eapply reach_load; [done|]. rewrite load_arch by done.
      eapply reach_jump; [done|cbn; rewrite E; reflexivity|done|].
      eapply reach_load; [done|]. rewrite load_nr by done. apply reach_refl. }
    eapply reach_returns; [apply Hr|].
    pose proof (dispatch_run fin (SeccompData_bytes d) keys (sd_nr d mod 2 ^ 32) 3 Hdisp) as Hx.
    specialize (Hx ltac:(intros nr Hn; destruct (block_label_at nr Hn) as (p & _ & Hl); by exists p)).
    case_decide as Hin.
    + destruct Hx as (q & Hq & Hr2). unfold dict_keys in Hin.
      apply list_elem_of_fmap in Hin as ([nr rs] & Hnr & Hin). cbn in Hnr.
      rewrite (elem_of_dict_get (sd_nr d mod 2 ^ 32) rs); [|apply Hrules|by rewrite Hnr].
      destruct (proj2 fin_block_facts nr rs Hin) as (p & _ & Hl & Hrun).
      assert (q = p) as ->.
      { unfold lab_at in Hq, Hl. rewrite Hnr in Hq. simplify_eq. lia. }
      eapply reach_returns; [apply Hr2|]. by apply Hrun.
    + rewrite (proj2 (dict_get_None _ _) Hin). cbn [mbind option_bind default].
      eapply reach_returns; [apply Hx|]. apply (ret_runs fin).
      unfold dispatch_code in Hret. rewrite length_fmap, Nat.add_comm in Hret. exact Hret.
  - eapply reach_returns; [|eapply (ret_runs fin), fin_kill_code].
    eapply reach_load; [done|]. rewrite load_arch by done.
    eapply reach_jump_stop; [done|cbn; rewrite E; reflexivity|]. apply fin_kill.
Qed.
End total.
