(* ===== verification/FilterCompile.v ===== *)
(** * Properties of every compiled filter

    What the generator emits, instruction by instruction: a predicate that
    holds of the code of conditions, of returns and of the dispatch holds of the
    whole program.  From it follow that the assembler accepts every compiled
    filter, how long the program can get, and, through the assembler's
    simulation, that the assembled bytes decide every syscall as [verdict]
    does. *)

From S2P Require Import Prelude PyBytes PyDict Machine Bpf BpfSem BpfResolve BpfLayout BpfSim.
From S2P Require Import BpfAccept Syscalls Structs Filter FilterSpec FilterLabels.
From S2P Require Import FilterCorrect FilterGen FilterRun.

(** ** Predicates on the emitted instructions *)

Section emitted.
Context (Q : Insn → Prop).
Context (Qcond : ∀ c fail passed, ArgCmp_ok c → Forall Q (cond_code c fail passed)).
Context (Qret : ∀ k, 0 <= k <= 0xFFFFFFFF → Q (Ret k)).
Context (Qjump : ∀ k jt jf, 0 <= k <= 0xFFFFFFFF → Q (Jump BPF_JEQ k jt jf)).
Context (Qnr : Q (Load _OFF_NR)) (Qarch : Q (Load _OFF_ARCH)).
Abbreviation all st := (Forall Q (insns st)).

Lemma extend_all st c : all st → Forall Q c → all (extend st c).
Proof using Type. intros. by apply Forall_app. Qed.

Lemma ret_all st k : all st → 0 <= k <= 0xFFFFFFFF → all (extend st [Ret k]).
Proof using Qret. intros. apply extend_all; [done|]. by apply Forall_singleton, Qret. Qed.

Lemma conds_all nr i conds : Forall ArgCmp_ok conds →
  ∀ j st, all st → all (conds_st nr i j st conds).
Proof using Qcond.
  induction 1 as [|c conds Hc _ IH]; intros j st Hst; cbn [conds_st]; [done|].
  apply IH. apply extend_all; [done|by apply Qcond].
Qed.

Lemma rules_all nr rules : Forall Rule_ok rules →
  ∀ i st, all st → all (rules_st nr i st rules).1.
Proof using Qcond Qret.
  induction 1 as [|r rules [Ha Hc] _ IH]; intros i st Hst; cbn [rules_st]; [done|].
  destruct (args r) as [|c cs] eqn:E; [by apply ret_all|]. rewrite <- E in Hc |- *.
  apply IH. apply ret_all; [by apply conds_all|done].
Qed.

Lemma compile_all aa dflt rules :
  0 <= aa <= 0xFFFFFFFF → 0 <= dflt <= 0xFFFFFFFF → rules_ok rules →
  all (compile_st aa dflt rules).
Proof using Qcond Qret Qjump Qnr Qarch.
  intros Haa Hd [_ Hr He]. unfold compile_st. apply ret_all; [|done].
  change (all (foldl (block_st dflt) (head_st aa dflt rules) rules)).
  assert (all (head_st aa dflt rules)) as Hst.
  { unfold head_st. apply extend_all; [constructor|].
    repeat (apply Forall_app; split); [by repeat constructor; auto| |by repeat constructor; auto].
    unfold dispatch_code, dict_keys. apply Forall_fmap, Forall_fmap.
    eapply Forall_impl; [exact Hr|]. intros [nr rs] Hn. by apply Qjump. }
  revert Hst. generalize (head_st aa dflt rules). clear Hr.
  induction He as [|[nr rs] rules Hrs _ IH]; intros st Hst; cbn [foldl]; [done|].
  apply IH. unfold block_st. cbn [fst snd].
  pose proof (rules_all nr rs Hrs 0 (set_label (lab_name (LBlock nr)) st) Hst) as Ha.
  destruct (rules_st _ _ _ _) as [st' []]; cbn in Ha; [by apply ret_all|done].
Qed.
End emitted.

(** What the emitted instructions may be: aligned loads of a word inside
    [struct seccomp_data], masks, the three comparisons and returns. *)
Definition emitted (insn : Insn) : Prop :=
  match insn with
  | Load k => 0 <= k <= 60 ∧ k mod 4 = 0
  | And k | Ret k => 0 <= k <= 0xFFFFFFFF
  | Jump op k _ _ => op ∈ [BPF_JEQ; BPF_JGT; BPF_JGEQ] ∧ 0 <= k <= 0xFFFFFFFF
  | Ja _ | InsnBase => False
  end.

Lemma emitted_insn_ok insn : emitted insn → insn_ok insn.
Proof.
  unfold emitted, insn_ok, _U32_MAX, _JUMP_OPS. destruct insn; try done; [lia|].
  rewrite !elem_of_cons. naive_solver.
Qed.

Lemma emitted_jump op k jt jf :
  op ∈ [BPF_JEQ; BPF_JGT; BPF_JGEQ] → 0 <= k <= 0xFFFFFFFF → emitted (Jump op k jt jf).
Proof. done. Qed.

Lemma emitted_arg i : 0 <= i <= 5 →
  emitted (Load (_OFF_ARG0 + 8 * i)) ∧ emitted (Load (_OFF_ARG0 + 8 * i + 4)).
Proof.
  intros Hi. unfold emitted, _OFF_ARG0. split; (split; [lia|]).
  - replace (16 + 8 * i) with ((4 + 2 * i) * 4) by lia. by apply Z.mod_mul.
  - replace (16 + 8 * i + 4) with ((5 + 2 * i) * 4) by lia. by apply Z.mod_mul.
Qed.

Lemma cond_code_emitted c fail passed :
  ArgCmp_ok c → Forall emitted (cond_code c fail passed).
Proof.
  intros (Hi & Hv & Hm & _). destruct (emitted_arg (index c) Hi) as [Hlo Hhi].
  pose proof (lo32_range (value c)). pose proof (hi32_range (value c) Hv).
  pose proof (lo32_range (mask c)). pose proof (hi32_range (mask c) Hm).
  unfold cond_code. destruct (op c); try (destruct (lo32 (mask c) =? 0), (hi32 (mask c) =? 0));
    repeat (apply Forall_cons; split); try apply Forall_nil_2;
    first [done | apply emitted_jump; [set_solver|done]].
Qed.

Lemma compile_emitted aa dflt rules :
  0 <= aa <= 0xFFFFFFFF → 0 <= dflt <= 0xFFFFFFFF → rules_ok rules →
  Forall emitted (insns (compile_st aa dflt rules)).
Proof.
  intros. apply compile_all; try done; [apply cond_code_emitted|].
  intros. apply emitted_jump; [set_solver|done].
Qed.

(** ** Labels stay inside the program *)

Definition labels_below (st : asm) : Prop :=
  ∀ t v, labels st !! t = Some v → ∃ q : nat, v = PyInt (Z.of_nat q) ∧ (q <= length (insns st))%nat.

Lemma labels_below_extend st c : labels_below st → labels_below (extend st c).
Proof.
  intros H t v Hv. destruct (H t v Hv) as (q & -> & Hq). exists q. cbn.
  rewrite length_app. split; [done|lia].
Qed.

Lemma labels_below_label st t : labels_below st → labels_below (set_label t st).
Proof.
  intros H t' v. cbn. rewrite lookup_insert. case_decide; [|apply H].
  intros [= <-]. by eexists.
Qed.

Lemma conds_below nr i conds : ∀ j st, labels_below st → labels_below (conds_st nr i j st conds).
Proof.
  induction conds as [|c conds IH]; intros j st H; cbn [conds_st]; [done|].
  by apply IH, labels_below_label, labels_below_extend.
Qed.

Lemma rules_below nr rules : ∀ i st, labels_below st → labels_below (rules_st nr i st rules).1.
Proof.
  induction rules as [|r rules IH]; intros i st H; cbn [rules_st]; [done|].
  destruct (args r); [by apply labels_below_extend|].
  by apply IH, labels_below_label, labels_below_extend, conds_below.
Qed.

Lemma blocks_below dflt rules : ∀ st,
  labels_below st → labels_below (foldl (block_st dflt) st rules).
Proof.
  induction rules as [|[nr rs] rules IH]; intros st H; cbn [foldl]; [done|].
  apply IH. unfold block_st. cbn [fst snd].
  pose proof (rules_below nr rs 0 _ (labels_below_label st (lab_name (LBlock nr)) H)) as Ha.
  destruct (rules_st _ _ _ _) as [st' []]; cbn in Ha; [by apply labels_below_extend|done].
Qed.

(** Every label of a compiled filter names an instruction: the kill at the end
    comes after all of them. *)
Lemma compile_below aa dflt rules t v :
  labels (compile_st aa dflt rules) !! t = Some v →
  ∃ q : nat, v = PyInt (Z.of_nat q) ∧ (q < length (insns (compile_st aa dflt rules)))%nat.
Proof.
  intros Hv. unfold compile_st in *.
  assert (labels_below (set_label (lab_name LKill)
    (foldl (block_st dflt) (head_st aa dflt rules) rules))) as H.
  { apply labels_below_label, blocks_below, labels_below_extend. intros ? ?. cbn. by rewrite lookup_empty. }
  destruct (H t v Hv) as (q & -> & Hq). exists q. split; [done|].
  cbn [extend insns]. rewrite length_app. cbn [length]. lia.
Qed.

(** ** Size *)

(** An upper bound on the instructions of a rule, of a block and of a program. *)
Definition rule_bound (r : _Rule) : nat := 1 + 6 * length (args r).
Definition block_bound (entry : Z * list _Rule) : nat := 2 + sum_list_with rule_bound entry.2.
Definition size_bound (rules : list (Z * list _Rule)) : nat := 5 + sum_list_with block_bound rules.

Lemma length_extend st c : length (insns (extend st c)) = (length (insns st) + length c)%nat.
Proof. cbn. apply length_app. Qed.

Lemma conds_size nr i conds : ∀ j st,
  (length (insns (conds_st nr i j st conds)) <= length (insns st) + 6 * length conds)%nat.
Proof.
  induction conds as [|c conds IH]; intros j st; cbn [conds_st]; [lia|].
  etrans; [apply IH|]. cbn [set_label insns]. rewrite length_extend. cbn [length].
  pose proof (length_cond_code c (lab_name (LNext nr i)) (lab_name (LHit nr i j))). lia.
Qed.

Lemma rules_size nr rules : ∀ i st,
  (length (insns (rules_st nr i st rules).1) <=
    length (insns st) + sum_list_with rule_bound rules)%nat.
Proof.
  induction rules as [|r rules IH]; intros i st; cbn [rules_st sum_list_with]; [cbn; lia|].
  unfold rule_bound at 1. destruct (args r) as [|c cs] eqn:E.
  - cbn [fst]. rewrite length_extend. cbn. lia.
  - rewrite <- E. etrans; [apply IH|]. cbn [set_label insns]. rewrite length_extend.
    pose proof (conds_size nr i (args r) 0 st). cbn [length]. lia.
Qed.

Lemma blocks_size dflt rules : ∀ st,
  (length (insns (foldl (block_st dflt) st rules)) + length rules <=
    length (insns st) + sum_list_with block_bound rules)%nat.
Proof.
  induction rules as [|[nr rs] rules IH]; intros st; cbn [foldl sum_list_with length]; [lia|].
  specialize (IH (block_st dflt st (nr, rs))).
  assert (length (insns (block_st dflt st (nr, rs))) <=
    length (insns st) + (1 + sum_list_with rule_bound rs))%nat as Hb; [|unfold block_bound at 1; cbn [snd]; lia].
  unfold block_st. cbn [fst snd].
  pose proof (rules_size nr rs 0 (set_label (lab_name (LBlock nr)) st)) as Hr.
  destruct (rules_st _ _ _ _) as [st' []]; cbn [fst set_label insns] in Hr;
    rewrite ?length_extend; cbn [length]; lia.
Qed.

Lemma compile_size aa dflt rules :
  (length (insns (compile_st aa dflt rules)) <= size_bound rules)%nat.
Proof.
  unfold compile_st, size_bound. rewrite length_extend. cbn [set_label insns length].
  pose proof (blocks_size dflt rules (head_st aa dflt rules)) as H.
  rewrite head_len in H. unfold dict_keys in H. rewrite length_fmap in H. lia.
Qed.

(** ** The assembled program *)

(** The state of a filter that its constructor and methods maintain. *)
Record filter_ok (f : Filter) : Prop := {
  ok_default : 0 <= _default f <= 0xFFFFFFFF;
  ok_flags : 0 <= _flags f <= 0xFFFFFFFF;
  ok_rules : rules_ok (_rules f) }.

Section assembled.
Context (machine : string) (aa : Z) (f : Filter).
Context (Haa : audit_arch machine = Ok aa) (Hf : filter_ok f).
Abbreviation fin := (compile_st aa (_default f) (_rules f)).

Lemma compile_unfold : _compile machine f = assemble (insns fin) (labels fin).
Proof using Haa Hf.
  unfold _compile. by rewrite (compile_insns_eq machine aa f Haa (ok_default f Hf) (ok_rules f Hf)).
Qed.

Lemma fin_emitted : Forall emitted (insns fin).
Proof using Haa Hf.
  apply compile_emitted; [by eapply audit_arch_range|apply Hf..].
Qed.

Lemma fin_insns_ok : Forall insn_ok (insns fin).
Proof using Haa Hf. eapply Forall_impl; [apply fin_emitted|apply emitted_insn_ok]. Qed.

(** The assembler accepts it, unless the filter has hundreds of millions of
    conditions. *)
Lemma compile_accepted :
  3 * Z.of_nat (size_bound (_rules f)) <= 2 ^ 32 → ∃ prog, _compile machine f = Ok prog.
Proof using Haa Hf.
  intros Hs. rewrite compile_unfold. destruct (assemble _ _) as [prog|e] eqn:E; [by eauto|].
  pose proof (compile_size aa (_default f) (_rules f)) as Hsz.
  pose proof (fin_forward aa (_default f) (_rules f) (ok_rules f Hf)) as Hfw.
  apply assemble_raise in E as [E|[[_ E]|[E _]]];
    [by rewrite forward_valid in E|by destruct (forward_not_backward _ _ Hfw E)| |
     apply fin_insns_ok|unfold small_program; lia].
  pose proof fin_emitted as He. rewrite Forall_forall in He. destruct (He _ E).
Qed.

(** Its bytes decide every syscall as the specification says. *)
Lemma compiled_verdict prog d :
  _compile machine f = Ok prog → SeccompData_ok d →
  run_packed prog (SeccompData_bytes d) = Some (Ok (verdict aa f d)).
Proof using Haa Hf.
  rewrite compile_unfold. intros Ha Hd.
  destruct (assemble_layout _ _ _ fin_insns_ok Ha) as (sizes & fss & _ & Hl & ->).
  destruct (simulate_run _ _ _ _ (SeccompData_bytes d) fin_insns_ok Hl)
    as (r & r' & Hr & Hr' & Hsame). rewrite Hr'.
  pose proof (fin_returns aa (_default f) (_rules f) (ok_default f Hf) (ok_rules f Hf) d f Hd
    eq_refl eq_refl) as (a & q & Hreach & Hret).
  destruct (run_reach _ _ _ (Ok (verdict aa f d)) Hreach) as [fuel Hrun].
  { by rewrite source_step_at, Hret. }
  unfold run_source in Hr. pose proof (run_det _ _ _ _ _ _ Hr Hrun) as ->.
  destruct r' as [v|e]; cbn in Hsame; [by subst|done].
Qed.
End assembled.
