(* ===== verification/FilterApi.v ===== *)
(** * The life of a Filter object

    Every filter a program can hold is built by the constructor, the rule
    methods, reads of [program] and a successful load.  This file gives these as
    a transition system, proves its invariant, and states what the methods mean
    for the verdict: argument conditions, payloads, first match, errors and
    the program cache. *)

From Stdlib Require Import Sorting.Sorted.
From S2P Require Import Prelude PyBytes PyDict Machine Bpf BpfSem Syscalls Structs Filter.
From S2P Require Import FilterSpec FilterCompile.

(** ** The rule methods *)

(** One call of a rule method with its arguments. *)
Inductive rule_call :=
| CallAllow (syscall : syscall_arg) (args : Args)
| CallKill (syscall : syscall_arg) (args : Args)
| CallKillThread (syscall : syscall_arg) (args : Args)
| CallTrap (syscall : syscall_arg) (args : Args)
| CallErrno (syscall : syscall_arg) (error : pyobj) (args : Args)
| CallTrace (syscall : syscall_arg) (msg : pyobj) (args : Args)
| CallLog (syscall : syscall_arg) (args : Args)
| CallNotify (syscall : syscall_arg) (args : Args).

Definition apply_call (machine : string) (f : Filter) (c : rule_call) : result Filter :=
  match c with
  | CallAllow s a => allow machine f s a
  | CallKill s a => kill machine f s a
  | CallKillThread s a => kill_thread machine f s a
  | CallTrap s a => trap machine f s a
  | CallErrno s e a => errno machine f s e a
  | CallTrace s m a => trace machine f s m a
  | CallLog s a => log machine f s a
  | CallNotify s a => notify machine f s a
  end.

Definition call_syscall (c : rule_call) : syscall_arg :=
  match c with
  | CallAllow s _ | CallKill s _ | CallKillThread s _ | CallTrap s _ | CallErrno s _ _
  | CallTrace s _ _ | CallLog s _ | CallNotify s _ => s
  end.

Definition call_args (c : rule_call) : Args :=
  match c with
  | CallAllow _ a | CallKill _ a | CallKillThread _ a | CallTrap _ a | CallErrno _ _ a
  | CallTrace _ _ a | CallLog _ a | CallNotify _ a => a
  end.

(** The documented return action of a method and its 16-bit data. *)
Definition call_action (c : rule_call) : Action :=
  match c with
  | CallAllow _ _ => ALLOW
  | CallKill _ _ => KILL_PROCESS
  | CallKillThread _ _ => KILL_THREAD
  | CallTrap _ _ => TRAP
  | CallErrno _ _ _ => ERRNO
  | CallTrace _ _ _ => TRACE
  | CallLog _ _ => LOG
  | CallNotify _ _ => USER_NOTIF
  end.

Definition call_data (c : rule_call) : option Z :=
  match c with
  | CallErrno _ v _ | CallTrace _ v _ => int_between 0 SECCOMP_RET_DATA v
  | _ => Some 0
  end.

(** ** Argument conditions *)

(** An [ArgCmp] object exists only if its constructor accepted it. *)
Definition constructed (c : ArgCmp) : Prop :=
  ∃ index op value mask, mk_ArgCmp index op value mask = Ok c.

Definition args_constructed (a : Args) : Prop :=
  match a with
  | ArgsConds conds => ∀ c, CondCmp c ∈ conds → constructed c
  | _ => True
  end.

Lemma mk_ArgCmp_ok index op value mask c :
  mk_ArgCmp index op value mask = Ok c ↔
  CmpOp_of op = Ok (Filter.op c) ∧ index = PyInt (Filter.index c) ∧
  value = PyInt (Filter.value c) ∧ mask = PyInt (Filter.mask c) ∧
  ArgCmp_ok c ∧ (Filter.op c ≠ MASKED_EQ → Filter.mask c = _U64).
Proof.
  unfold mk_ArgCmp, ArgCmp_ok. split.
  - intros H. inv_ok.
    repeat match goal with H : int_between _ _ _ = Some _ |- _ => apply int_between_Some in H as [-> ?] end.
    cbn [Filter.op Filter.index Filter.value Filter.mask].
    destruct (decide (a = MASKED_EQ)); inv_ok; bool_to_prop; naive_solver.
  - intros (Ho & -> & -> & -> & (Hi & Hv & Hm & Hin) & Hmask). destruct c as [i o v m].
    cbn [Filter.op Filter.index Filter.value Filter.mask] in *. rewrite Ho.
    cbn [mbind result_bind]. rewrite !int_between_PyInt by done. cbn [or_raise mbind result_bind].
    destruct (decide (o = MASKED_EQ)) as [E|E].
    + by rewrite (Hin E).
    + by rewrite (Hmask E), Z.eqb_refl.
Qed.

Lemma constructed_ok c : constructed c → ArgCmp_ok c.
Proof. intros (i & o & v & m & H). by apply mk_ArgCmp_ok in H as (_ & _ & _ & _ & ? & _). Qed.

Lemma coerce_cond_ok cond c :
  (∀ c', cond = CondCmp c' → constructed c') → _coerce_cond cond = Ok c → constructed c.
Proof.
  destruct cond as [c'|items|cls]; cbn [_coerce_cond]; intros Hc H; [|clear Hc|done].
  - inv_ok. by apply Hc.
  - destruct items as [|i [|o [|v [|m [|? ?]]]]]; inv_ok; by do 4 eexists.
Qed.

(** Sorting permutes the conditions. *)
Lemma insert_cond_perm c l : insert_cond c l ≡ₚ c :: l.
Proof.
  induction l as [|c' l IH]; cbn; [done|]. destruct (_ <=? _); [done|].
  rewrite IH. apply Permutation_swap.
Qed.

Lemma sort_conds_perm l : sort_conds l ≡ₚ l.
Proof. induction l as [|c l IH]; cbn; [done|]. by rewrite insert_cond_perm, IH. Qed.

Definition index_le (a b : ArgCmp) : Prop := index a <= index b.

Lemma insert_cond_sorted c l : StronglySorted index_le l → StronglySorted index_le (insert_cond c l).
Proof.
  induction 1 as [|c' l Hs IH Hall]; cbn; [by repeat constructor|].
  destruct (_ <=? _) eqn:E; bool_to_prop.
  - constructor; [by constructor|]. constructor; [done|].
    eapply Forall_impl; [exact Hall|]. unfold index_le. intros x Hx. lia.
  - constructor; [done|]. rewrite (insert_cond_perm c l). constructor; [|done].
    unfold index_le. lia.
Qed.

Lemma sort_conds_sorted l : StronglySorted index_le (sort_conds l).
Proof. induction l as [|c l IH]; cbn; [constructor|]. by apply insert_cond_sorted. Qed.

(** Conditions on different arguments apart, the sort keeps the written order. *)
Lemma insert_cond_stable c l i :
  filter (λ c, index c = i) (insert_cond c l) = filter (λ c, index c = i) (c :: l).
Proof.
  induction l as [|c' l IH]; [done|]. cbn [insert_cond].
  destruct (index c <=? index c') eqn:E; [done|]. bool_to_prop.
  rewrite (filter_cons _ c'), IH, !filter_cons.
  repeat case_decide; done || lia.
Qed.

Lemma sort_conds_stable l i :
  filter (λ c, index c = i) (sort_conds l) = filter (λ c, index c = i) l.
Proof.
  induction l as [|c l IH]; [done|]. change (sort_conds (c :: l)) with (insert_cond c (sort_conds l)).
  by rewrite insert_cond_stable, !filter_cons, IH.
Qed.

(** The conditions of a rule, before sorting. *)
Definition raw_conds (a : Args) : result (list ArgCmp) :=
  match a with
  | NoArgs => Ok []
  | ArgsMapping items => sequence ((λ '(i, v), mk_ArgCmp i (PyInt 0) v (PyInt _U64)) <$> items)
  | ArgsConds conds => sequence (_coerce_cond <$> conds)
  end.

Lemma rule_conds_raw a : rule_conds a = (sort_conds <$> raw_conds a).
Proof. destruct a as [|items|conds]; cbn; [done|..]; by destruct (sequence _). Qed.

Lemma raw_conds_constructed a conds :
  args_constructed a → raw_conds a = Ok conds → Forall constructed conds.
Proof.
  intros Ha H. apply Forall_forall. intros c Hc.
  apply list_elem_of_lookup in Hc as [j Hj].
  destruct a as [|items|raw]; cbn in H; [by inv_ok|..];
    apply sequence_Forall2 in H; destruct (Forall2_lookup_r _ _ _ _ _ H Hj) as (r & Hr & ->);
    apply list_lookup_fmap_Some in Hr as (x & Hx & Hi).
  - destruct x as [i v]. by do 4 eexists.
  - eapply coerce_cond_ok; [|done]. intros c' ->. apply Ha. by eapply list_elem_of_lookup_2.
Qed.

Lemma rule_conds_ok a conds :
  args_constructed a → rule_conds a = Ok conds → Forall ArgCmp_ok conds.
Proof.
  rewrite rule_conds_raw. destruct (raw_conds a) as [raw|] eqn:E; cbn; [|done].
  intros Ha H. inv_ok. rewrite sort_conds_perm.
  eapply Forall_impl; [by eapply raw_conds_constructed|apply constructed_ok].
Qed.

(** What the caller wrote, read directly: an index-to-value mapping asks for
    equality, a tuple for its comparison. *)
Definition cond_means (cond : ArgCond) (vals : list Z) : bool :=
  match _coerce_cond cond with Ok c => cond_holds c vals | Raise _ => false end.

Definition item_means (item : pyobj * pyobj) (vals : list Z) : bool :=
  match item with
  | (PyInt i, PyInt v) => vals !!! Z.to_nat i =? v
  | _ => false
  end.

Definition args_mean (a : Args) (vals : list Z) : bool :=
  match a with
  | NoArgs => true
  | ArgsMapping items => forallb (λ it, item_means it vals) items
  | ArgsConds conds => forallb (λ c, cond_means c vals) conds
  end.

Lemma forallb_perm {A} (p : A → bool) l l' : l ≡ₚ l' → forallb p l = forallb p l'.
Proof.
  induction 1 as [|x l l' _ IH|x y l|l1 l2 l3 _ IH1 _ IH2]; cbn; [done|by rewrite IH| |congruence].
  by rewrite !andb_assoc, (andb_comm (p x)).
Qed.

Lemma sequence_forallb {A B} (f : A → result B) (p : B → bool) (q : A → bool) l xs :
  (∀ a b, f a = Ok b → p b = q a) →
  sequence (f <$> l) = Ok xs → forallb p xs = forallb q l.
Proof.
  intros Hpq H. apply sequence_Forall2, Forall2_fmap_l in H.
  induction H as [|a b l xs Hab _ IH]; cbn; [done|]. by rewrite IH, (Hpq a b).
Qed.

Lemma raw_conds_mean a raw vals :
  raw_conds a = Ok raw → forallb (λ c, cond_holds c vals) raw = args_mean a vals.
Proof.
  destruct a as [|items|conds]; cbn; intros H; [by inv_ok|..].
  - apply (sequence_forallb _ (λ c, cond_holds c vals) (λ it, item_means it vals)) in H; [done|].
    intros [i v] c Hc. apply mk_ArgCmp_ok in Hc as (Ho & -> & -> & _).
    cbn in Ho. injection Ho as Ho. unfold cond_holds. by rewrite <- Ho.
  - apply (sequence_forallb _ (λ c, cond_holds c vals) (λ c, cond_means c vals)) in H; [done|].
    intros cd c Hc. unfold cond_means. by rewrite Hc.
Qed.

Lemma rule_conds_mean a conds vals :
  rule_conds a = Ok conds → forallb (λ c, cond_holds c vals) conds = args_mean a vals.
Proof.
  rewrite rule_conds_raw. destruct (raw_conds a) as [raw|] eqn:E; cbn; [|done].
  intros H. inv_ok. rewrite (forallb_perm _ _ _ (sort_conds_perm raw)). by apply raw_conds_mean.
Qed.
