(* ===== verification/FilterLife.v ===== *)
(** * Reachable filters and their theorems

    The states a [Filter] object can be in, their invariant, and the theorems
    about what a filter decides: the compiled program against the
    specification, one rule more, the program cache and the end of
    mutability. *)

From S2P Require Import Prelude PyBytes PyDict Machine Bpf BpfSem Syscalls Structs Filter.
From S2P Require Import FilterSpec FilterCompile FilterApi.

(** ** The transition system *)

Inductive built (machine : string) : Filter → Prop :=
| built_init default flags f :
    Filter_init default flags = Ok f → built machine f
| built_call f c f' :
    built machine f → args_constructed (call_args c) →
    apply_call machine f c = Ok f' → built machine f'
| built_program f :
    built machine f → built machine (program machine f).1
| built_loaded f :
    built machine f → built machine (set_loaded f).

(** What every reachable filter satisfies: fields in range, rules well formed,
    and a cached program that is the compilation of the current rules. *)
Record filter_inv (machine : string) (f : Filter) : Prop := {
  inv_ok_fields : filter_ok f;
  inv_cache : ∀ p, _program f = Some p → _compile machine f = Ok p }.

(** [_compile] reads the default action and the rules only. *)
Lemma compile_ext machine f f' :
  _default f' = _default f → _rules f' = _rules f → _compile machine f' = _compile machine f.
Proof. intros Hd Hr. unfold _compile, _compile_insns. by rewrite Hd, Hr. Qed.

Lemma verdict_ext aa f f' d :
  _default f' = _default f → _rules f' = _rules f → verdict aa f' d = verdict aa f d.
Proof. intros Hd Hr. unfold verdict. by rewrite Hd, Hr. Qed.

(** ** Adding a rule *)

(** The full outcome of [_add], error by error. *)
Lemma add_ok machine f sc act a f' :
  _add machine f sc act a = Ok f' ↔
  _loaded f = false ∧ ∃ nr conds, syscall_nr machine sc = Ok nr ∧ rule_conds a = Ok conds ∧
    f' = mkFilter (_default f) (_flags f) (dict_append nr (mkRule act conds) (_rules f)) None false.
Proof.
  unfold _add, _check_mutable. split.
  - intros H. inv_ok. split; [done|]. by exists a1, a2.
  - intros [Hl (nr & conds & Hnr & Hc & ->)].
    rewrite Hl, Hnr. cbn [raise_if mbind result_bind]. rewrite Hc. done.
Qed.

(** The action value of a rule method with valid data. *)
Definition call_value (c : rule_call) (data : Z) : Z := Z.lor (Action_value (call_action c)) data.

Lemma apply_call_ok machine f c f' :
  apply_call machine f c = Ok f' ↔
  ∃ data, call_data c = Some data ∧
    _add machine f (call_syscall c) (call_value c data) (call_args c) = Ok f'.
Proof.
  assert (∀ z s a, (∃ data, Some 0 = Some data ∧ _add machine f s (Z.lor z data) a = Ok f')
    ↔ _add machine f s z a = Ok f') as Hplain.
  { intros z s a. split.
    - intros (data & [= <-] & H). by rewrite Z.lor_0_r in H.
    - intros H. exists 0. by rewrite Z.lor_0_r. }
  unfold call_value. destruct c as [s a|s a|s a|s a|s e a|s m a|s a|s a]; cbn [call_data call_action
    call_syscall call_args apply_call]; rewrite ?Hplain; try done.
  - unfold errno. destruct (int_between _ _ e) as [z|]; cbn; naive_solver.
  - unfold trace. destruct (int_between _ _ m) as [z|]; cbn; naive_solver.
Qed.

Lemma call_data_range c data : call_data c = Some data → 0 <= data <= SECCOMP_RET_DATA.
Proof.
  destruct c; cbn; intros H; try (injection H as <-; unfold SECCOMP_RET_DATA; lia);
    by apply int_between_Some in H as [_ ?].
Qed.

(** The two halves of a return value. *)
Lemma call_value_halves c data :
  0 <= data <= SECCOMP_RET_DATA →
  Z.land (call_value c data) 0xFFFF0000 = Action_value (call_action c) ∧
  Z.land (call_value c data) SECCOMP_RET_DATA = data ∧
  0 <= call_value c data <= 0xFFFFFFFF.
Proof.
  unfold SECCOMP_RET_DATA, call_value. intros Hd.
  assert (Z.land data 0xFFFF = data) as H2.
  { change 0xFFFF with (Z.ones 16). rewrite Z.land_ones by done. apply Z.mod_small. lia. }
  assert (Z.land data 0xFFFF0000 = 0) as H1 by (by rewrite <- H2, <- Z.land_assoc, Z.land_0_r).
  assert (Z.land (Action_value (call_action c)) 0xFFFF0000 = Action_value (call_action c)) as H3
    by (by destruct c).
  assert (Z.land (Action_value (call_action c)) 0xFFFF = 0) as H4 by (by destruct c).
  rewrite !Z.land_lor_distr_l, H1, H2, H3, H4, Z.lor_0_r. split_and!; [done..| |].
  - apply Z.lor_nonneg. split; [by destruct c|lia].
  - assert (Z.lor (Action_value (call_action c)) data =
      Z.land (Z.lor (Action_value (call_action c)) data) (Z.ones 32)) as ->.
    { rewrite Z.land_lor_distr_l. change 0xFFFFFFFF with (Z.ones 32).
      rewrite (Z.land_ones data) by done. rewrite (Z.mod_small data) by lia. f_equal.
      by destruct c. }
    rewrite Z.land_ones by done. pose proof (Z.mod_pos_bound (Z.lor (Action_value (call_action c)) data)
      (2 ^ 32)). lia.
Qed.

(** ** The invariant *)

Lemma dict_append_ok nr r rules :
  0 <= nr <= 0xFFFFFFFF → Rule_ok r → rules_ok rules → rules_ok (dict_append nr r rules).
Proof.
  intros Hnr Hr [Hk Hrange He]. unfold dict_append. split.
  - by apply dict_set_NoDup.
  - assert (Forall (λ k, 0 <= k <= 0xFFFFFFFF) (dict_keys rules)) as Hkeys by (by apply Forall_fmap).
    apply (Forall_fmap fst (λ k, 0 <= k <= 0xFFFFFFFF)).
    change (Forall (λ k, 0 <= k <= 0xFFFFFFFF)
      (dict_keys (dict_set nr (default [] (dict_get nr rules) ++ [r]) rules))).
    rewrite dict_keys_set. case_decide; [done|].
    apply Forall_app. split; [done|by constructor].
  - apply (dict_set_Forall (Forall Rule_ok)); [|done]. apply Forall_app. split; [|by constructor].
    destruct (dict_get nr rules) as [rs|] eqn:E; [|done]. apply dict_get_elem_of in E.
    rewrite Forall_forall in He. apply (He _ E).
Qed.

Lemma program_fields machine f :
  _default (program machine f).1 = _default f ∧ _flags (program machine f).1 = _flags f ∧
  _rules (program machine f).1 = _rules f ∧ _loaded (program machine f).1 = _loaded f.
Proof. unfold program. by destruct (_program f), (_compile machine f). Qed.

Lemma built_inv machine f : built machine f → filter_inv machine f.
Proof.
  induction 1 as [default flags f H|f c f' _ IH Hc H|f _ IH|f _ [[Hd Hf Hr] IHc]].
  - unfold Filter_init in H. inv_ok.
    repeat match goal with H : int_between _ _ _ = Some _ |- _ => apply int_between_Some in H as [-> ?] end.
    split; [|done]. split; [done..|]. split; constructor.
  - apply apply_call_ok in H as (data & Hdata & H).
    apply add_ok in H as (_ & nr & conds & Hnr & Hcs & ->). destruct IH as [[Hd Hf Hr] _].
    split; [|done]. split; [done..|]. apply dict_append_ok; [by eapply syscall_nr_range| |done].
    split; [|by eapply rule_conds_ok].
    by eapply call_value_halves, call_data_range.
  - destruct (program_fields machine f) as (Hd & Hf & Hr & _). destruct IH as [[Hd' Hf' Hr'] Hcache].
    split; [split; congruence|]. intros p Hp.
    rewrite (compile_ext machine f _ Hd Hr). unfold program in Hp.
    destruct (_program f) as [q|] eqn:E; [cbn in Hp; apply Hcache; congruence|].
    destruct (_compile machine f) as [q|e] eqn:Ec; cbn in Hp; congruence.
  - split; [by split|]. intros p Hp. rewrite <- (IHc p Hp). by apply compile_ext.
Qed.

(** The program of a reachable filter is its compilation, cached or not. *)
Lemma program_compile machine f :
  built machine f → (program machine f).2 = _compile machine f.
Proof.
  intros Hb. unfold program. destruct (_program f) as [p|] eqn:E.
  - by rewrite (inv_cache _ _ (built_inv _ _ Hb) p E).
  - by destruct (_compile machine f).
Qed.

Lemma compile_native machine f prog :
  _compile machine f = Ok prog → ∃ aa, audit_arch machine = Ok aa.
Proof.
  unfold _compile, _compile_insns. destruct (audit_arch machine) as [aa|]; [by eauto|done].
Qed.
