(* ===== verification/FilterTheorems.v ===== *)
(** * What filters promise

    The theorems about [Filter]: the compiled bytes decide every syscall as the
    specification says, compilation fails only on an unsupported platform, the
    first matching rule wins, arguments and payloads mean what was written, a
    loaded filter is frozen and the program cache is never stale. *)

From Stdlib Require Import Sorting.Sorted.
From S2P Require Import Prelude PyBytes PyDict Machine Bpf BpfSem BpfResolve BpfLayout BpfSim.
From S2P Require Import BpfAccept BpfVerify Syscalls Structs Filter FilterSpec FilterCorrect.
From S2P Require Import FilterGen FilterRun FilterCompile FilterApi FilterLife.

(** ** A filter for the witnesses *)

(** [Filter(default=ALLOW); errno("write", 13, args=[(2, GT, 4096)]);
    kill("ptrace")]. *)
Definition demo_write : rule_call :=
  CallErrno (SysName "write") (PyInt 13) (ArgsConds [CondTuple [PyInt 2; PyInt 4; PyInt 4096]]).
Definition demo_ptrace : rule_call := CallKill (SysName "ptrace") NoArgs.

Definition demo_init : Filter := mkFilter (Action_value ALLOW) 0 [] None false.
Definition demo_one : Filter :=
  mkFilter (Action_value ALLOW) 0 [(1, [mkRule 0x5000D [mkArgCmp 2 GT 4096 _U64]])] None false.
Definition demo : Filter :=
  mkFilter (Action_value ALLOW) 0
    [(1, [mkRule 0x5000D [mkArgCmp 2 GT 4096 _U64]]); (101, [mkRule 0x80000000 []])] None false.
Definition demo_prog : list Z :=
  match (program "x86_64" demo).2 with Ok p => p | Raise _ => [] end.

(** [write(1, buf, n)] seen by the filter. *)
Definition demo_data (nr arch n : Z) : SeccompData :=
  {| sd_nr := nr; sd_arch := arch; sd_instruction_pointer := 0; sd_args := [1; 0; n; 0; 0; 0] |}.

Lemma demo_one_built : built "x86_64" demo_one.
Proof.
  eapply (built_call _ demo_init demo_write); [|intros c [?|?%not_elem_of_nil]%elem_of_cons; done|].
  - by apply (built_init _ (PyInt (Action_value ALLOW)) (PyInt 0)).
  - vm_compute. reflexivity.
Qed.

Lemma demo_built : built "x86_64" demo.
Proof.
  eapply (built_call _ demo_one demo_ptrace); [apply demo_one_built|done|].
  vm_compute. reflexivity.
Qed.

Lemma demo_data_ok nr arch n :
  is_s 4 nr → is_u 4 arch → is_u 8 n → SeccompData_ok (demo_data nr arch n).
Proof.
  intros Hn Ha Hu. unfold SeccompData_ok, demo_data; cbn [sd_nr sd_arch sd_instruction_pointer sd_args].
  split; [done|]. split; [done|]. split; [done|]. split; [done|].
  repeat (apply Forall_cons; split; [done|]). apply Forall_nil_2.
Qed.

(** ** Compilation *)

(** C1.  A compiled filter decides every syscall as documented.  For every
    filter built through the API, the assembled program terminates on every
    [struct seccomp_data] and returns the verdict of the specification: kill on
    a foreign architecture, else the action of the first rule of the syscall
    whose conditions on the 64-bit arguments all hold, else the default. *)
Theorem compile_correct (machine : string) (f : Filter) (prog : list Z) (d : SeccompData)
    (Hb : built machine f) (Hp : (program machine f).2 = Ok prog) (Hd : SeccompData_ok d) :
  ∃ aa, audit_arch machine = Ok aa ∧
    run_packed prog (SeccompData_bytes d) = Some (Ok (verdict aa f d)).
Proof.
  rewrite program_compile in Hp by done. destruct (compile_native _ _ _ Hp) as [aa Haa].
  exists aa. split; [done|]. by apply (compiled_verdict machine aa f Haa (inv_ok_fields _ _ (built_inv _ _ Hb))).
Qed.

Lemma compile_correct_witness :
  ∃ aa, audit_arch "x86_64" = Ok aa ∧
    run_packed demo_prog (SeccompData_bytes (demo_data 1 AUDIT_ARCH_X86_64 5000)) =
      Some (Ok (verdict aa demo (demo_data 1 AUDIT_ARCH_X86_64 5000))).
Proof.
  apply (compile_correct "x86_64" demo demo_prog (demo_data 1 AUDIT_ARCH_X86_64 5000)).
  - apply demo_built.
  - vm_compute. reflexivity.
  - by apply demo_data_ok.
Defined.

(** C6.  Reading [program] fails only where the platform is unsupported.  For
    every filter built through the API with fewer than 2^32 / 3 instructions,
    [program] returns bytes if the machine is a supported one and otherwise
    raises the [UnsupportedError] of [audit_arch]: no jump is ever out of range
    or backward and no label undefined. *)
Theorem program_outcome (machine : string) (f : Filter)
    (Hb : built machine f) (Hs : 3 * Z.of_nat (size_bound (_rules f)) <= 2 ^ 32) :
  match (program machine f).2 with
  | Ok _ => is_ok (audit_arch machine) = true
  | Raise e => audit_arch machine = Raise e ∧ e = UnsupportedError None
  end.
Proof.
  rewrite program_compile by done. destruct (audit_arch machine) as [aa|e] eqn:Ha.
  - destruct (compile_accepted machine aa f Ha (inv_ok_fields _ _ (built_inv _ _ Hb)) Hs) as [prog ->].
    done.
  - unfold _compile, _compile_insns. rewrite Ha. cbn. split; [done|].
    unfold audit_arch, _native in Ha. destruct (dict_get _ _ARCHES); cbn in Ha; congruence.
Qed.

Lemma program_outcome_witness :
  match (program "x86_64" demo).2 with
  | Ok _ => is_ok (audit_arch "x86_64") = true
  | Raise e => audit_arch "x86_64" = Raise e ∧ e = UnsupportedError None
  end.
Proof. apply (program_outcome "x86_64" demo); [apply demo_built|vm_compute; discriminate]. Defined.

(** A syscall entered through a foreign ABI is killed, whatever the rules
    and the default action are. *)
Theorem foreign_arch_killed (machine : string) (f : Filter) (prog : list Z) (d : SeccompData)
    (Hb : built machine f) (Hp : (program machine f).2 = Ok prog) (Hd : SeccompData_ok d)
    (Ha : audit_arch machine ≠ Ok (sd_arch d)) :
  run_packed prog (SeccompData_bytes d) = Some (Ok (Action_value KILL_PROCESS)).
Proof.
  rewrite program_compile in Hp by done. destruct (compile_native _ _ _ Hp) as [aa Haa].
  rewrite (compiled_verdict machine aa f Haa (inv_ok_fields _ _ (built_inv _ _ Hb)) prog d Hp Hd).
  unfold verdict. destruct (sd_arch d =? aa) eqn:E; [|done]. bool_to_prop. congruence.
Qed.

Lemma foreign_arch_killed_witness :
  run_packed demo_prog (SeccompData_bytes (demo_data 0 0x40000003 0)) =
    Some (Ok (Action_value KILL_PROCESS)).
Proof.
  apply (foreign_arch_killed "x86_64" demo demo_prog (demo_data 0 0x40000003 0)).
  - apply demo_built.
  - vm_compute. reflexivity.
  - by apply demo_data_ok.
  - discriminate.
Defined.

(** C34.  The x32 ABI is not told apart.  On x86_64 an x32 syscall carries the
    native audit architecture and its number has bit 30 set, so a rule for a
    syscall does not apply to its x32 entry: unless the filter has a rule for
    the tagged number itself, the default action decides. *)
Theorem x32_takes_default (f : Filter) (prog : list Z) (d : SeccompData) (nr : Z)
    (Hb : built "x86_64" f) (Hp : (program "x86_64" f).2 = Ok prog) (Hd : SeccompData_ok d)
    (Ha : sd_arch d = AUDIT_ARCH_X86_64) (Hnr : 0 <= nr < 2 ^ 30)
    (Hx32 : sd_nr d = 0x40000000 + nr) (Hno : (0x40000000 + nr) ∉ dict_keys (_rules f)) :
  run_packed prog (SeccompData_bytes d) = Some (Ok (_default f)).
Proof.
  rewrite program_compile in Hp by done.
  rewrite (compiled_verdict "x86_64" AUDIT_ARCH_X86_64 f eq_refl
    (inv_ok_fields _ _ (built_inv _ _ Hb)) prog d Hp Hd).
  unfold verdict. rewrite Ha, Z.eqb_refl, Hx32, Z.mod_small by lia.
  by rewrite (proj2 (dict_get_None _ _) Hno).
Qed.

Lemma x32_takes_default_witness :
  syscall_nr "x86_64" (SysName "ptrace") = Ok 101 ∧
  run_packed demo_prog (SeccompData_bytes (demo_data (0x40000000 + 101) AUDIT_ARCH_X86_64 0)) =
    Some (Ok (Action_value ALLOW)).
Proof.
  split; [vm_compute; reflexivity|].
  apply (x32_takes_default demo demo_prog (demo_data (0x40000000 + 101) AUDIT_ARCH_X86_64 0) 101).
  - apply demo_built.
  - vm_compute. reflexivity.
  - by apply demo_data_ok.
  - reflexivity.
  - lia.
  - reflexivity.
  - vm_compute. intros H. repeat (apply elem_of_cons in H as [H|H]; [discriminate H|]).
    by apply not_elem_of_nil in H.
Defined.

(** On a supported machine there is one. *)
Lemma built_program_ok (machine : string) (f : Filter) :
  built machine f → is_ok (_native machine) = true →
  3 * Z.of_nat (size_bound (_rules f)) <= 2 ^ 32 → ∃ prog, (program machine f).2 = Ok prog.
Proof.
  intros Hb Hm Hs. rewrite program_compile by done.
  destruct (_native machine) as [e|] eqn:Hn; [|done].
  apply (compile_accepted machine (arch_audit e) f); [|by eapply inv_ok_fields, built_inv|done].
  unfold audit_arch. by rewrite Hn.
Qed.

(** The program of a filter as records: how many there are, and that the
    kernel's checks pass if they are not too many. *)
Lemma built_program_records (machine : string) (f : Filter) (prog : list Z) :
  built machine f → (program machine f).2 = Ok prog →
  ∃ fs, prog = pack_all fs ∧ Forall sock_filter_ok fs ∧
    (length fs <= 3 * size_bound (_rules f))%nat ∧
    (Z.of_nat (length fs) <= BPF_MAXINSNS → kernel_accepts fs = true).
Proof.
  intros Hb Hp.
  rewrite program_compile in Hp by done. destruct (compile_native _ _ _ Hp) as [aa Haa].
  pose proof (inv_ok_fields _ _ (built_inv _ _ Hb)) as Hf.
  rewrite (compile_unfold machine aa f Haa Hf) in Hp.
  pose proof (fin_insns_ok machine aa f Haa Hf) as Hok.
  destruct (assemble_layout _ _ _ Hok Hp) as (sizes & fss & _ & Hl & ->).
  exists (concat fss). split_and!; [done|apply Hl| |].
  - destruct (layout_size _ _ _ _ Hl) as [_ Hsz].
    pose proof (compile_size aa (_default f) (_rules f)). lia.
  - intros Hn. eapply layout_accepted; [exact Hl| | | |done].
    + eapply Forall_impl; [apply (fin_emitted machine aa f Haa Hf)|].
      unfold emitted, checkable, SECCOMP_DATA_SIZE, _JUMP_OPS.
      intros [k|k|op k jt jf|t|k|] Hi; try done; [lia|]. destruct Hi as [Hi _]. set_solver.
    + apply compile_below.
    + eexists. unfold compile_st. cbn [extend insns]. apply last_snoc.
Qed.

(** C5.  The kernel accepts every compiled filter of at most 4096 records: it
    is not empty, every opcode is permitted, every load is an aligned word of
    [struct seccomp_data], every jump stays inside the program and the last
    record returns. *)
Theorem compiled_accepted (machine : string) (f : Filter) (prog : list Z)
    (Hb : built machine f) (Hp : (program machine f).2 = Ok prog)
    (Hn : Z.of_nat (length prog) <= 8 * 4096) :
  ∃ fs, prog = pack_all fs ∧ Forall sock_filter_ok fs ∧ kernel_accepts fs = true.
Proof.
  destruct (built_program_records _ _ _ Hb Hp) as (fs & -> & Hfs & _ & Hacc).
  exists fs. split_and!; [done..|]. apply Hacc.
  rewrite length_pack_all in Hn. unfold BPF_MAXINSNS. lia.
Qed.

Lemma compiled_accepted_witness :
  ∃ fs, demo_prog = pack_all fs ∧ Forall sock_filter_ok fs ∧ kernel_accepts fs = true.
Proof.
  apply (compiled_accepted "x86_64" demo demo_prog).
  - apply demo_built.
  - vm_compute. reflexivity.
  - vm_compute. discriminate.
Defined.

(** ** Rules *)

Lemma first_match_snoc rs r vals :
  first_match (rs ++ [r]) vals =
  match first_match rs vals with
  | Some a => Some a
  | None => if rule_matches r vals then Some (action r) else None
  end.
Proof.
  induction rs as [|r' rs IH]; cbn; [done|]. by destruct (rule_matches r' vals).
Qed.

(** C4.  The first match wins.  Adding a rule changes the verdict of a syscall
    only if it has the rule's number, no earlier rule of that number matches it
    and the conditions of the new rule, read as the caller wrote them, hold. *)
Theorem add_rule_verdict (machine : string) (f f' : Filter) (c : rule_call) (aa : Z)
    (d : SeccompData) (H : apply_call machine f c = Ok f') :
  ∃ nr data, syscall_nr machine (call_syscall c) = Ok nr ∧ call_data c = Some data ∧
    verdict aa f' d =
      (if (sd_arch d =? aa) && (sd_nr d mod 2 ^ 32 =? nr) &&
          args_mean (call_args c) (sd_args d) &&
          bool_decide (dict_get nr (_rules f) ≫= (λ rs, first_match rs (sd_args d)) = None)
       then Z.lor (Action_value (call_action c)) data
       else verdict aa f d).
Proof.
  apply apply_call_ok in H as (data & Hdata & (_ & nr & conds & Hnr & Hc & ->)%add_ok).
  exists nr, data. split_and!; [done..|]. unfold verdict. cbn [_default _rules].
  rewrite <- (rule_conds_mean _ _ (sd_args d) Hc).
  destruct (sd_arch d =? aa); cbn [andb]; [|done].
  unfold dict_append. destruct (Z.eqb_spec (sd_nr d mod 2 ^ 32) nr) as [->|Hne]; cbn [andb].
  - rewrite dict_get_set_eq. cbn [mbind option_bind]. rewrite first_match_snoc.
    unfold rule_matches. cbn [args action]. unfold call_value.
    destruct (dict_get nr (_rules f)) as [rs|]; cbn [default from_option id mbind option_bind first_match];
      [destruct (first_match rs _)|]; case_bool_decide; destruct (forallb _ conds); done.
  - by rewrite dict_get_set_ne.
Qed.

Lemma add_rule_verdict_witness :
  ∃ nr data, syscall_nr "x86_64" (call_syscall demo_ptrace) = Ok nr ∧
    call_data demo_ptrace = Some data ∧
    verdict AUDIT_ARCH_X86_64 demo (demo_data 101 AUDIT_ARCH_X86_64 0) =
      (if (sd_arch (demo_data 101 AUDIT_ARCH_X86_64 0) =? AUDIT_ARCH_X86_64) &&
          (sd_nr (demo_data 101 AUDIT_ARCH_X86_64 0) mod 2 ^ 32 =? nr) &&
          args_mean (call_args demo_ptrace) (sd_args (demo_data 101 AUDIT_ARCH_X86_64 0)) &&
          bool_decide (dict_get nr (_rules demo_one) ≫=
            (λ rs, first_match rs (sd_args (demo_data 101 AUDIT_ARCH_X86_64 0))) = None)
       then Z.lor (Action_value (call_action demo_ptrace)) data
       else verdict AUDIT_ARCH_X86_64 demo_one (demo_data 101 AUDIT_ARCH_X86_64 0)).
Proof.
  apply (add_rule_verdict "x86_64" demo_one demo demo_ptrace AUDIT_ARCH_X86_64
    (demo_data 101 AUDIT_ARCH_X86_64 0)).
  vm_compute. reflexivity.
Defined.

(** C16.  A rule method appends one rule, after the others of its syscall, whose
    return value carries the documented [SECCOMP_RET_*] action in its high half
    and the errno or trace message, unchanged, in its low half; no other rule,
    the default action and the flags are not touched, and the cached program is
    dropped. *)
Theorem rule_method_effect (machine : string) (f f' : Filter) (c : rule_call)
    (H : apply_call machine f c = Ok f') :
  ∃ nr r, syscall_nr machine (call_syscall c) = Ok nr ∧
    dict_get nr (_rules f') = Some (default [] (dict_get nr (_rules f)) ++ [r]) ∧
    (∀ nr', nr' ≠ nr → dict_get nr' (_rules f') = dict_get nr' (_rules f)) ∧
    dict_keys (_rules f') `prefix_of` dict_keys (_rules f) ++ [nr] ∧
    Z.land (action r) 0xFFFF0000 = Action_value (call_action c) ∧
    call_data c = Some (Z.land (action r) SECCOMP_RET_DATA) ∧
    _default f' = _default f ∧ _flags f' = _flags f ∧ _program f' = None ∧ _loaded f' = false.
Proof.
  apply apply_call_ok in H as (data & Hdata & (_ & nr & conds & Hnr & Hc & ->)%add_ok).
  destruct (call_value_halves c data (call_data_range _ _ Hdata)) as (Hhi & Hlo & _).
  exists nr, (mkRule (call_value c data) conds). cbn [_rules action _default _flags _program _loaded].
  unfold dict_append. rewrite dict_get_set_eq, dict_keys_set, Hlo.
  split_and!; try done.
  - intros nr' Hne. by apply dict_get_set_ne.
  - case_decide; [by apply prefix_app_r|done].
Qed.

Lemma rule_method_effect_witness :
  ∃ nr r, syscall_nr "x86_64" (call_syscall demo_write) = Ok nr ∧
    dict_get nr (_rules demo_one) = Some (default [] (dict_get nr (_rules demo_init)) ++ [r]) ∧
    (∀ nr', nr' ≠ nr → dict_get nr' (_rules demo_one) = dict_get nr' (_rules demo_init)) ∧
    dict_keys (_rules demo_one) `prefix_of` dict_keys (_rules demo_init) ++ [nr] ∧
    Z.land (action r) 0xFFFF0000 = Action_value (call_action demo_write) ∧
    call_data demo_write = Some (Z.land (action r) SECCOMP_RET_DATA) ∧
    _default demo_one = _default demo_init ∧ _flags demo_one = _flags demo_init ∧
    _program demo_one = None ∧ _loaded demo_one = false.
Proof.
  apply (rule_method_effect "x86_64" demo_init demo_one demo_write). vm_compute. reflexivity.
Defined.

(** C17.  Every outcome of a rule method.  It succeeds exactly when its payload
    fits in 16 bits, the filter is not loaded, the syscall is known and the
    conditions are valid; otherwise the exception is that of the first check
    that fails, in this order.  In particular a loaded filter cannot be
    changed. *)
Theorem rule_method_outcome (machine : string) (f : Filter) (c : rule_call) :
  match apply_call machine f c with
  | Ok _ => is_Some (call_data c) ∧ _loaded f = false ∧
      is_ok (syscall_nr machine (call_syscall c)) = true ∧ is_ok (rule_conds (call_args c)) = true
  | Raise e =>
      match call_data c with
      | None => ∃ msg, e = ValueError msg
      | Some _ =>
          if _loaded f then e = RuntimeError "filter is already loaded"
          else match syscall_nr machine (call_syscall c) with
               | Raise e' => e = e'
               | Ok _ => rule_conds (call_args c) = Raise e
               end
      end
  end.
Proof.
  destruct (apply_call machine f c) as [f'|e] eqn:E.
  - apply apply_call_ok in E as (data & Hdata & (Hl & nr & conds & Hnr & Hc & _)%add_ok).
    rewrite Hnr, Hc. by split_and!.
  - assert (∀ act, _add machine f (call_syscall c) act (call_args c) = Raise e →
      if _loaded f then e = RuntimeError "filter is already loaded"
      else match syscall_nr machine (call_syscall c) with
           | Raise e' => e = e'
           | Ok _ => rule_conds (call_args c) = Raise e
           end) as Hadd.
    { intros act. unfold _add, _check_mutable.
      destruct (_loaded f); cbn [raise_if mbind result_bind]; [congruence|].
      destruct (syscall_nr _ _); cbn [mbind result_bind]; [|congruence].
      by destruct (rule_conds _); cbn [mbind result_bind]; [|congruence]. }
    destruct c as [s a|s a|s a|s a|s v a|s v a|s a|s a]; cbn [apply_call call_data call_syscall
      call_args] in *; try (by eapply Hadd).
    + unfold errno in E. destruct (int_between _ _ v); cbn in E; [by eapply Hadd|].
      injection E as <-. by eexists.
    + unfold trace in E. destruct (int_between _ _ v); cbn in E; [by eapply Hadd|].
      injection E as <-. by eexists.
Qed.

(** ** Conditions *)

(** C19.  [ArgCmp] accepts exactly the conditions it documents: index 0 to 5, a
    64-bit value, a 64-bit mask that only [MASKED_EQ] may restrict and that
    covers the value; the object holds the values given. *)
Theorem ArgCmp_accepts_iff (index op value mask : pyobj) (c : ArgCmp) :
  mk_ArgCmp index op value mask = Ok c ↔
  CmpOp_of op = Ok (Filter.op c) ∧ index = PyInt (Filter.index c) ∧
  value = PyInt (Filter.value c) ∧ mask = PyInt (Filter.mask c) ∧
  0 <= Filter.index c <= 5 ∧ 0 <= Filter.value c < 2 ^ 64 ∧ 0 <= Filter.mask c < 2 ^ 64 ∧
  (if decide (Filter.op c = MASKED_EQ)
   then Z.land (Filter.value c) (Filter.mask c) = Filter.value c
   else Filter.mask c = 2 ^ 64 - 1).
Proof.
  rewrite mk_ArgCmp_ok. unfold ArgCmp_ok, _U64.
  change 0xFFFFFFFFFFFFFFFF with (2 ^ 64 - 1).
  assert (∀ v m, Z.land v m = v → Z.land v (Z.lnot m) = 0) as Hinside.
  { intros v m <-. apply Z.bits_inj'. intros n Hn.
    rewrite !Z.land_spec, Z.lnot_spec, Z.bits_0 by done.
    by destruct (Z.testbit v n), (Z.testbit m n). }
  destruct (decide (Filter.op c = MASKED_EQ)) as [E|E]; split.
  - intros (H1 & H2 & H3 & H4 & (Hi & Hv & Hm & Hin) & _).
    repeat (split; [done || lia|]). by apply value_inside_mask, Hin.
  - intros (H1 & H2 & H3 & H4 & Hi & Hv & Hm & Hin).
    repeat (split; [done|]). split; [|done]. split_and!; [lia..|]. intros _. by apply Hinside.
  - intros (H1 & H2 & H3 & H4 & (Hi & Hv & Hm & _) & Hmask).
    repeat (split; [done || lia|]). by apply Hmask.
  - intros (H1 & H2 & H3 & H4 & Hi & Hv & Hm & Hmask).
    repeat (split; [done|]). split; [|done]. split_and!; [lia..|done].
Qed.

(** C18.  The conditions of a rule mean what the caller wrote.  Sorting by
    argument index permutes them, keeps the order of conditions on the same
    argument, and the rule matches exactly the arguments of which every given
    condition holds. *)
Theorem rule_conds_meaning (a : Args) (raw conds : list ArgCmp)
    (Hr : raw_conds a = Ok raw) (H : rule_conds a = Ok conds) :
  conds ≡ₚ raw ∧ StronglySorted index_le conds ∧
  (∀ i, filter (λ c, index c = i) conds = filter (λ c, index c = i) raw) ∧
  ∀ act vals, rule_matches (mkRule act conds) vals = args_mean a vals.
Proof.
  pose proof (rule_conds_mean a conds) as Hm.
  rewrite rule_conds_raw, Hr in H. cbn in H. inv_ok. split_and!.
  - apply sort_conds_perm.
  - apply sort_conds_sorted.
  - intros i. apply sort_conds_stable.
  - intros act vals. apply Hm. by rewrite rule_conds_raw, Hr.
Qed.

Lemma rule_conds_meaning_witness :
  ∃ raw conds,
    raw_conds (ArgsConds [CondTuple [PyInt 2; PyInt 4; PyInt 9]; CondTuple [PyInt 0; PyInt 0; PyInt 1]]) = Ok raw ∧
    conds ≡ₚ raw ∧ StronglySorted index_le conds ∧
    (∀ i, filter (λ c, index c = i) conds = filter (λ c, index c = i) raw) ∧
    ∀ act vals, rule_matches (mkRule act conds) vals =
      args_mean (ArgsConds [CondTuple [PyInt 2; PyInt 4; PyInt 9]; CondTuple [PyInt 0; PyInt 0; PyInt 1]]) vals.
Proof.
  exists [mkArgCmp 2 GT 9 _U64; mkArgCmp 0 EQ 1 _U64], [mkArgCmp 0 EQ 1 _U64; mkArgCmp 2 GT 9 _U64].
  split; [vm_compute; reflexivity|].
  apply (rule_conds_meaning
    (ArgsConds [CondTuple [PyInt 2; PyInt 4; PyInt 9]; CondTuple [PyInt 0; PyInt 0; PyInt 1]])).
  - vm_compute. reflexivity.
  - vm_compute. reflexivity.
Defined.

(** ** The life of the object *)

(** C20.  Every filter built through the API is well formed: its default action
    and flags fit in 32 bits, rule keys are distinct 32-bit numbers, every
    condition satisfies the checks of [ArgCmp], and a cached program is the
    compilation of the rules the filter has now. *)
Theorem reachable_invariant (machine : string) (f : Filter) (Hb : built machine f) :
  filter_ok f ∧ ∀ p, _program f = Some p → _compile machine f = Ok p.
Proof. destruct (built_inv machine f Hb). done. Qed.

Lemma reachable_invariant_witness :
  filter_ok demo ∧ ∀ p, _program demo = Some p → _compile "x86_64" demo = Ok p.
Proof. apply (reachable_invariant "x86_64" demo). apply demo_built. Defined.

(** Reading [program] is idempotent and never changes what the filter
    decides or whether it can still be changed; a second read answers from the
    cache with the same bytes. *)
Theorem program_idempotent (machine : string) (f : Filter) :
  program machine (program machine f).1 = ((program machine f).1, (program machine f).2) ∧
  (∀ aa d, verdict aa (program machine f).1 d = verdict aa f d) ∧
  _loaded (program machine f).1 = _loaded f ∧
  ∀ p, (program machine f).2 = Ok p → _program (program machine f).1 = Some p.
Proof.
  destruct (program_fields machine f) as (Hd & _ & Hr & Hl). split_and!.
  - unfold program. destruct (_program f) as [p|] eqn:E; cbn [fst snd]; [by rewrite E|].
    destruct (_compile machine f) as [p|e] eqn:Ec; cbn [fst snd _program]; [done|]. by rewrite E, Ec.
  - intros aa d. by apply verdict_ext.
  - done.
  - unfold program. destruct (_program f) as [p|] eqn:E; cbn [fst snd]; [intros q [= <-]; done|].
    destruct (_compile machine f) as [p|e]; cbn [fst snd _program]; [by intros q [= <-]|done].
Qed.
