(* ===== verification/Effects.v ===== *)
(** * Effects: kernel calls, exceptions and object state

    The package talks to the kernel only through libc's [syscall], [prctl] and
    [ioctl] and through [os.close], [os.set_inheritable], [os.fork] and
    [os.waitpid].  Integers in a call are C values: what crosses the boundary is
    in [CInt].  The kernel is a parameter: an oracle that answers each call from
    the history of all calls before it, or never answers it, so any deterministic
    kernel state, and any schedule of interruptions and blocking calls, is one
    instance.  Code with effects is a state-passing function that returns or
    raises, or does not end: a call blocks, or a retry loop uses up the fuel that
    stands for [while True]. *)

From S2P Require Import Prelude.

(** ** Kernel calls *)

(** The pointer argument of a call, as the memory it points to: none, NULL, a
    buffer, or a [struct sock_fprog] with its length field and its program. *)
Inductive pointer :=
| NoPtr
| Null
| Buf (mem : list Z)
| Fprog (len : Z) (filter : list Z).

#[export] Instance pointer_eq_dec : EqDecision pointer.
Proof. solve_decision. Defined.

Inductive kcall :=
| KSyscall (args : list Z) (ptr : pointer)
| KPrctl (args : list Z)
| KIoctl (fd request : Z) (ptr : pointer)
| KClose (fd : Z)
| KSetInheritable (fd : Z) (inheritable : bool)
| KFork
| KWaitpid (pid : Z).

#[export] Instance kcall_eq_dec : EqDecision kcall.
Proof. solve_decision. Defined.

(** The answer: the return value of the libc function, [errno] after it, and the
    contents of the buffer it was given. *)
Record kreply := KReply { kr_ret : Z; kr_errno : Z; kr_mem : list Z }.

Definition event : Type := kcall * kreply.

(** The kernel: what it answers after a history, most recent event last; [None]
    if the call blocks for ever. *)
Class Kernel := kernel : list event → kcall → option kreply.

(** errno values of the uapi headers the code names. *)
Definition ENOENT : Z := 2.
Definition EINTR : Z := 4.
Definition EACCES : Z := 13.
Definition EFAULT : Z := 14.
Definition EINVAL : Z := 22.
Definition ENOSYS : Z := 38.
Definition EOPNOTSUPP : Z := 95.

(** ** The monad *)

(** A computation on the state [S]; [None] means that it has not ended: it ran out
    of fuel, or a call blocks. *)
Definition M (S A : Type) : Type := S → option (result A * S).

#[export] Instance M_ret {S} : MRet (M S) := λ A a s, Some (Ok a, s).
#[export] Instance M_bind {S} : MBind (M S) := λ A B f m s,
  match m s with
  | Some (Ok a, s') => f a s'
  | Some (Raise e, s') => Some (Raise e, s')
  | None => None
  end.

Definition raise {S A} (e : exn) : M S A := λ s, Some (Raise e, s).

Definition lift {S A} (r : result A) : M S A := λ s, Some (r, s).

(** [try: m except Exception as e: h(e)]. *)
Definition try_except {S A} (m : M S A) (h : exn → M S A) : M S A := λ s,
  match m s with
  | Some (Raise e, s') => h e s'
  | r => r
  end.

(** Methods of an object run on the pair of the object and the history. *)
Definition run_kernel {O A} (m : M (list event) A) : M (O * list event) A := λ '(o, h),
  match m h with
  | Some (r, h') => Some (r, (o, h'))
  | None => None
  end.

Definition get_self {O H} : M (O * H) O := λ '(o, h), Some (Ok o, (o, h)).
Definition set_self {O H} (o : O) : M (O * H) unit := λ '(_, h), Some (Ok tt, (o, h)).

(** ** The retry loop *)

Section retry.
Context `{Kernel}.

(** One call. *)
Definition do_call (c : kcall) : M (list event) kreply := λ h,
  match kernel h c with
  | Some r => Some (Ok r, h ++ [(c, r)])
  | None => None
  end.

(** What one call gives, by its answer. *)
Definition on_answer {A} (h : list event) (c : kcall) (f : kreply → result A) :
    option (result A * list event) :=
  match kernel h c with
  | Some r => Some (f r, h ++ [(c, r)])
  | None => None
  end.

Lemma on_answer_Some {A} h c (f : kreply → result A) res h' :
  on_answer h c f = Some (res, h') →
  ∃ r, kernel h c = Some r ∧ res = f r ∧ h' = h ++ [(c, r)].
Proof. unfold on_answer. destruct (kernel h c) as [r|]; naive_solver. Qed.

(** The same call after the kernel wrote [mem] into its buffer. *)
Definition again (c : kcall) (mem : list Z) : kcall :=
  match c with
  | KSyscall args (Buf _) => KSyscall args (Buf mem)
  | KIoctl fd req (Buf _) => KIoctl fd req (Buf mem)
  | _ => c
  end.

Definition interrupted (r : kreply) : bool := (kr_ret r =? -1) && (kr_errno r =? EINTR).

(** Specification of the EINTR loops: repeat the call until its answer is not
    an interruption. *)
Fixpoint persist (fuel : nat) (c : kcall) (h : list event) : option (kreply * list event) :=
  match fuel with
  | O => None
  | S fuel =>
      match kernel h c with
      | None => None
      | Some r =>
          let h' := h ++ [(c, r)] in
          if interrupted r then persist fuel (again c (kr_mem r)) h' else Some (r, h')
      end
  end.

Lemma persist_mono fuel fuel' c h x :
  (fuel <= fuel')%nat → persist fuel c h = Some x → persist fuel' c h = Some x.
Proof.
  revert fuel' c h. induction fuel as [|fuel IH]; intros [|fuel'] c h Hle; cbn; try done; [lia|].
  destruct (kernel h c) as [r0|]; [|done]. destruct (interrupted _); [|done]. apply IH. lia.
Qed.

(** The answer it stops at is not an interruption. *)
Lemma persist_final fuel c h r h' : persist fuel c h = Some (r, h') → interrupted r = false.
Proof.
  revert c h. induction fuel as [|fuel IH]; intros c h; cbn; [done|].
  destruct (kernel h c) as [r0|]; [|done].
  destruct (interrupted r0) eqn:E; [apply IH|]. by intros [= <- <-].
Qed.

Lemma again_again c m m' : again (again c m) m' = again c m'.
Proof. by destruct c as [? []| |? ? []| | | |]. Qed.

(** The history grows by repetitions of the call, the last one answered. *)
Lemma persist_answer fuel c h r h' :
  persist fuel c h = Some (r, h') →
  ∃ tries c', h' = h ++ tries ++ [(c', r)] ∧ (c' = c ∨ ∃ mem, c' = again c mem) ∧
    Forall (λ ev, interrupted ev.2 = true ∧ (ev.1 = c ∨ ∃ mem, ev.1 = again c mem)) tries ∧
    kernel (h ++ tries) c' = Some r ∧ interrupted r = false.
Proof.
  revert c h. induction fuel as [|fuel IH]; intros c h; cbn; [done|].
  destruct (kernel h c) as [r0|] eqn:Hk; [|done]. destruct (interrupted r0) eqn:E.
  - intros (tries & c' & -> & Hc & Htries & Hr & Hlast)%IH. exists ((c, r0) :: tries), c'.
    split_and!.
    + by rewrite <- app_assoc.
    + destruct Hc as [->|[m ->]]; right; eexists; [done|by rewrite again_again].
    + constructor; [by cbn; auto|]. eapply Forall_impl; [exact Htries|].
      intros ev [Hi He]. split; [done|]. right.
      destruct He as [->|[m ->]]; eexists; [done|by rewrite again_again].
    + by rewrite <- app_assoc in Hr.
    + done.
  - intros [= <- <-]. exists [], c. rewrite app_nil_r. split_and!; [done|by left|constructor|done..].
Qed.

Lemma persist_history fuel c h r h' :
  persist fuel c h = Some (r, h') →
  ∃ tries c', h' = h ++ tries ++ [(c', r)] ∧ (c' = c ∨ ∃ mem, c' = again c mem) ∧
    Forall (λ ev, interrupted ev.2 = true ∧ (ev.1 = c ∨ ∃ mem, ev.1 = again c mem)) tries.
Proof. intros (tries & c' & ? & ? & ? & _)%persist_answer. by exists tries, c'. Qed.

(** A kernel in which no call blocks or is interrupted for ever. *)
Class Patient := patient : ∀ c h, ∃ fuel, persist fuel c h ≠ None.
End retry.

(** ** Equations of the monad *)

Section equations.
Context {S A B : Type} (f : A → M S B).

Lemma bind_ret (a : A) s : (mret a ≫= f) s = f a s.
Proof. done. Qed.

Lemma bind_lift_ok (a : A) s : (lift (Ok a) ≫= f) s = f a s.
Proof. done. Qed.

Lemma bind_lift_raise e s : (lift (Raise e) ≫= f) s = Some (Raise e, s).
Proof. done. Qed.

Lemma bind_raise e s : (raise e ≫= f) s = Some (Raise e, s).
Proof. done. Qed.
End equations.

Lemma bind_do_call `{Kernel} {B} (f : kreply → M (list event) B) c h :
  (do_call c ≫= f) h =
    match kernel h c with Some r => f r (h ++ [(c, r)]) | None => None end.
Proof. unfold mbind, M_bind, do_call. by destruct (kernel h c). Qed.

Section object_equations.
Context {O A B : Type}.

Lemma bind_get_self (f : O → M (O * list event) B) o h : (get_self ≫= f) (o, h) = f o (o, h).
Proof. done. Qed.

Lemma bind_set_self (f : unit → M (O * list event) B) o o' h :
  (set_self o' ≫= f) (o, h) = f tt (o', h).
Proof. done. Qed.

Lemma bind_run_kernel (m : M (list event) A) (f : A → M (O * list event) B) o h :
  (run_kernel m ≫= f) (o, h) =
    (match m h with
     | Some (Ok a, h') => f a (o, h')
     | Some (Raise e, h') => Some (Raise e, (o, h'))
     | None => None
     end).
Proof. unfold mbind, M_bind, run_kernel. by destruct (m h) as [[[a|e] h']|]. Qed.
End object_equations.

Create Rewrite HintDb io.
#[export] Hint Rewrite @bind_get_self @bind_set_self @bind_run_kernel : io.
#[export] Hint Rewrite @bind_ret @bind_lift_ok @bind_lift_raise @bind_raise @bind_do_call : io.

Lemma run_kernel_Some {O A} (m : M (list event) A) (o : O) h r s :
  run_kernel m (o, h) = Some (r, s) ↔ ∃ h', m h = Some (r, h') ∧ s = (o, h').
Proof. cbn. destruct (m h) as [[r' h']|]; naive_solver. Qed.

(** ** Inversion of effectful runs *)

Lemma bind_inv {S A B} (m : M S A) (f : A → M S B) s r s' :
  (m ≫= f) s = Some (r, s') →
  (∃ a s1, m s = Some (Ok a, s1) ∧ f a s1 = Some (r, s')) ∨
  (∃ e, m s = Some (Raise e, s') ∧ r = Raise e).
Proof. unfold mbind, M_bind. destruct (m s) as [[[a|e] s1]|]; naive_solver. Qed.

Lemma try_inv {S A} (m : M S A) (g : exn → M S A) s r s' :
  try_except m g s = Some (r, s') →
  (∃ a, m s = Some (Ok a, s') ∧ r = Ok a) ∨
  (∃ e s1, m s = Some (Raise e, s1) ∧ g e s1 = Some (r, s')).
Proof. unfold try_except. destruct (m s) as [[[a|e] s1]|]; naive_solver. Qed.

(** Computations that only append events. *)
Definition only_calls {A} (P : event → Prop) (m : M (list event) A) : Prop :=
  ∀ h r h', m h = Some (r, h') → ∃ new, h' = h ++ new ∧ Forall P new.

Section only_calls.
Context {P : event → Prop}.

Lemma only_calls_bind {A B} (m : M (list event) A) (f : A → M (list event) B) :
  only_calls P m → (∀ a, only_calls P (f a)) → only_calls P (m ≫= f).
Proof.
  intros Hm Hf h r h' [(a & h1 & H1 & H2)|(e & H1 & _)]%bind_inv; [|by eapply Hm].
  apply Hm in H1 as (n1 & -> & Hn1). apply Hf in H2 as (n2 & -> & Hn2).
  exists (n1 ++ n2). by rewrite app_assoc, Forall_app.
Qed.

Lemma only_calls_lift {A} (r : result A) : only_calls P (lift r).
Proof. intros h r' h' [= <- <-]. exists []. by rewrite app_nil_r. Qed.

Lemma only_calls_lift_bind {A B} (r : result A) (f : A → M (list event) B) :
  (∀ a, r = Ok a → only_calls P (f a)) → only_calls P (lift r ≫= f).
Proof.
  intros Hf. destruct r as [a|e]; [by apply Hf|]. intros h r' h' [= <- <-]. exists [].
  by rewrite app_nil_r.
Qed.

Lemma only_calls_ret {A} (a : A) : only_calls P (mret a).
Proof. apply (only_calls_lift (Ok a)). Qed.

Lemma only_calls_raise {A} e : only_calls P (raise e : M _ A).
Proof. apply (only_calls_lift (Raise e)). Qed.

Lemma only_calls_call `{Kernel} c : (∀ r, P (c, r)) → only_calls P (do_call c).
Proof.
  intros Hc h r h'. unfold do_call. destruct (kernel h c) as [r0|]; [|done].
  intros [= <- <-]. eexists. split; [done|]. by constructor.
Qed.

End only_calls.

Create HintDb effects discriminated.
#[export] Hint Resolve only_calls_lift only_calls_ret only_calls_raise only_calls_call : effects.
