(* ===== verification/RawSyscall.v ===== *)
(** * _syscall.py: the calls

    Every function of the module that reaches the kernel.  The [while True]
    loops take fuel; [sys.platform] and [platform.machine()] are parameters.
    ctypes converts the integer arguments of every call ([CInt]), after the libc
    handle was looked up and before the call is made.  A call returns the value of the
    libc function together with the contents of the buffer it was given. *)

From S2P Require Import Prelude PyBytes CInt PyDict Syscalls Structs Effects.

Definition PR_SET_NO_NEW_PRIVS : Z := 38.
Definition SECCOMP_SET_MODE_FILTER : Z := 1.
Definition SECCOMP_GET_ACTION_AVAIL : Z := 2.
Definition SECCOMP_GET_NOTIF_SIZES : Z := 3.

Definition _SYS_SECCOMP : list (string * Z) :=
  [("x86_64", 317); ("amd64", 317); ("aarch64", 277); ("arm64", 277)].

Definition _SYS_PIDFD : list (string * (Z * Z)) :=
  [("x86_64", (434, 438)); ("amd64", (434, 438)); ("aarch64", (434, 438)); ("arm64", (434, 438))].

Section raw.
Context (sys_platform platform_machine : string) (fuel : nat) `{Kernel}.
Abbreviation IO := (M (list event)).

Definition _get_libc : result unit :=
  raise_if (negb (bool_decide (sys_platform = "linux"))) (UnsupportedError None).

Definition _arch_nr (table : list (string * Z)) : result Z :=
  or_raise (dict_get (str_lower platform_machine) table) (UnsupportedError None).

Definition _seccomp_nr : result Z := _arch_nr _SYS_SECCOMP.

Definition _pidfd_nr : result (Z * Z) :=
  or_raise (dict_get (str_lower platform_machine) _SYS_PIDFD) (UnsupportedError None).

(** The exception for a failed call. *)
Definition call_error (err : Z) : exn :=
  if (err =? ENOSYS) || (err =? EOPNOTSUPP) then UnsupportedError (Some err)
  else SeccompError err.

Fixpoint _call (fuel : nat) (args : list Z) (ptr : pointer) : IO (Z * list Z) :=
  match fuel with
  | O => λ _, None
  | S fuel =>
      lift _get_libc;;
      cargs ← lift (c_ints args);
      r ← do_call (KSyscall cargs ptr);
      if negb (kr_ret r =? -1) then mret (kr_ret r, kr_mem r)
      else if negb (kr_errno r =? EINTR) then raise (call_error (kr_errno r))
      else _call fuel args (match ptr with Buf _ => Buf (kr_mem r) | _ => ptr end)
  end.

Definition _seccomp (op flags : Z) (uargs : pointer) : IO (Z * list Z) :=
  nr ← lift _seccomp_nr;
  _call fuel [nr; op; flags] uargs.

(** [c_uint32(action)] wraps to 32 bits. *)
Definition action_avail (action : Z) : IO Z :=
  '(ret, _) ← _seccomp SECCOMP_GET_ACTION_AVAIL 0 (Buf (le_bytes 4 action));
  mret ret.

Definition probe_flag (flag : Z) : IO bool :=
  try_except
    (_seccomp SECCOMP_SET_MODE_FILTER flag Null;; mret true)
    (λ e, match e with
          | UnsupportedError _ => raise e
          | SeccompError err =>
              if err =? EINVAL then mret false
              else if (err =? EFAULT) || (err =? EACCES) then mret true
              else raise e
          | _ => raise e
          end).

Fixpoint set_no_new_privs (fuel : nat) : IO unit :=
  match fuel with
  | O => λ _, None
  | S fuel =>
      lift _get_libc;;
      cargs ← lift (c_ints [PR_SET_NO_NEW_PRIVS; 1; 0; 0; 0]);
      r ← do_call (KPrctl cargs);
      if negb (kr_ret r =? -1) then mret tt
      else if negb (kr_errno r =? EINTR) then raise (SeccompError (kr_errno r))
      else set_no_new_privs fuel
  end.

(** The field [len] of [SockFprog] is a [c_ushort]. *)
Definition set_mode_filter (program : list Z) (flags : Z) : IO Z :=
  let len := Z.of_nat (length program) in
  lift (raise_if (negb (len mod 8 =? 0) || (len =? 0))
    (ValueError "program must be a non-empty multiple of 8 bytes"));;
  let insns := len / 8 in
  lift (raise_if (4096 <? insns)
    (ValueError "program exceeds the kernel limit of 4096 instructions"));;
  '(ret, _) ← _seccomp SECCOMP_SET_MODE_FILTER flags (Fprog (insns mod 2 ^ 16) program);
  mret ret.

(** The structure starts zeroed and the kernel fills it. *)
Definition notif_sizes : IO SeccompNotifSizes :=
  let sizes := {| ss_seccomp_notif := 0; ss_seccomp_notif_resp := 0; ss_seccomp_data := 0 |} in
  '(_, mem) ← _seccomp SECCOMP_GET_NOTIF_SIZES 0 (Buf (SeccompNotifSizes_bytes sizes));
  mret (SeccompNotifSizes_of_bytes mem).

Fixpoint ioctl (fuel : nat) (fd request : Z) (arg : list Z) : IO (Z * list Z) :=
  match fuel with
  | O => λ _, None
  | S fuel =>
      lift _get_libc;;
      cfd ← lift (c_int fd);
      creq ← lift (c_int request);
      r ← do_call (KIoctl cfd creq (Buf arg));
      if negb (kr_ret r =? -1) then mret (kr_ret r, kr_mem r)
      else if negb (kr_errno r =? EINTR) then raise (call_error (kr_errno r))
      else ioctl fuel fd request (kr_mem r)
  end.

Definition pidfd_open (pid : pyobj) (flags : Z) : IO Z :=
  p ← lift (or_raise (int_between 0 0x7FFFFFFF pid) (ValueError "pid out of range"));
  nrs ← lift _pidfd_nr;
  '(ret, _) ← _call fuel [nrs.1; p; flags] NoPtr;
  mret ret.

Definition pidfd_getfd (pidfd fd flags : Z) : IO Z :=
  nrs ← lift _pidfd_nr;
  '(ret, _) ← _call fuel [nrs.2; pidfd; fd; flags] NoPtr;
  mret ret.

(** The two functions of module [os] the package uses on descriptors. *)
Definition os_result (r : kreply) : result unit :=
  raise_if (kr_ret r =? -1) (OSError (Some (kr_errno r))).

Definition os_close (fd : Z) : IO unit :=
  cfd ← lift (os_fd fd);
  r ← do_call (KClose cfd);
  lift (os_result r).

Definition os_set_inheritable (fd : Z) (inheritable : bool) : IO unit :=
  cfd ← lift (os_fd fd);
  r ← do_call (KSetInheritable cfd inheritable);
  lift (os_result r).

(** ** The loops are the specification of a retried call *)

Definition classify (r : kreply) : result (Z * list Z) :=
  if kr_ret r =? -1 then Raise (call_error (kr_errno r)) else Ok (kr_ret r, kr_mem r).

(** One turn of a loop against one turn of [persist]. *)
#[local] Ltac loop_turn IH :=
  cbn zeta; autorewrite with io; unfold interrupted, classify;
  match goal with |- context [kernel ?h ?c] => destruct (kernel h c); [|done] end;
  match goal with
  | |- context [kr_ret ?r =? -1] =>
      destruct (kr_ret r =? -1) eqn:?; cbn [negb andb];
      [destruct (kr_errno r =? EINTR) eqn:?; cbn [negb andb]|];
      [|cbn iota; by repeat match goal with E : (kr_ret _ =? _) = _ |- _ => rewrite E end..]
  end; rewrite IH.

Lemma call_persist n args cargs ptr h :
  _get_libc = Ok tt → c_ints args = Ok cargs →
  _call n args ptr h =
    (match persist n (KSyscall cargs ptr) h with
     | Some (r, h') => Some (classify r, h')
     | None => None
     end).
Proof.
  intros Hlibc Hc. revert ptr h. induction n as [|n IH]; intros ptr h; [done|].
  cbn [_call persist]. rewrite Hlibc, Hc. loop_turn IH. by destruct ptr.
Qed.

Lemma ioctl_persist n fd req cfd creq arg h :
  _get_libc = Ok tt → c_int fd = Ok cfd → c_int req = Ok creq →
  ioctl n fd req arg h =
    (match persist n (KIoctl cfd creq (Buf arg)) h with
     | Some (r, h') => Some (classify r, h')
     | None => None
     end).
Proof.
  intros Hlibc Hf Hr. revert arg h. induction n as [|n IH]; intros arg h; [done|].
  cbn [ioctl persist]. rewrite Hlibc, Hf, Hr. by loop_turn IH.
Qed.

(** An argument that is no C integer is refused without a call. *)
Lemma call_bad_args n args ptr e h :
  _get_libc = Ok tt → c_ints args = Raise e → _call (S n) args ptr h = Some (Raise e, h).
Proof. intros Hlibc Hc. cbn [_call]. by rewrite Hlibc, Hc. Qed.

Lemma no_new_privs_persist n h :
  _get_libc = Ok tt →
  set_no_new_privs n h =
    (match persist n (KPrctl [PR_SET_NO_NEW_PRIVS; 1; 0; 0; 0]) h with
     | Some (r, h') =>
         Some (if kr_ret r =? -1 then Raise (SeccompError (kr_errno r)) else Ok tt, h')
     | None => None
     end).
Proof.
  intros Hlibc. revert h. induction n as [|n IH]; intros h; [done|].
  cbn [set_no_new_privs persist]. rewrite Hlibc.
  change (c_ints _) with (@Ok (list Z) [PR_SET_NO_NEW_PRIVS; 1; 0; 0; 0]). by loop_turn IH.
Qed.
End raw.
