(* ===== verification/Demo.v ===== *)
(** * A concrete kernel

    An instance of the kernel interface for the witnesses: the first call is
    interrupted by a signal, later ones succeed; it reports the structure sizes
    of the uapi headers, answers a program installation with descriptor 7 and a
    request for a notification with a fixed event. *)

From S2P Require Import Prelude PyBytes Structs Effects.

Definition demo_notif : SeccompNotif :=
  {| sn_id := 77; sn_pid := 4242; sn_flags := 0;
     sn_data := {| sd_nr := 165; sd_arch := 0xC000003E; sd_instruction_pointer := 0x7F0000001000;
                   sd_args := [1; 2; 3; 4; 5; 0xFFFFFFFFFFFFFFFF] |} |}.
Definition demo_sizes : SeccompNotifSizes :=
  {| ss_seccomp_notif := 80; ss_seccomp_notif_resp := 24; ss_seccomp_data := 64 |}.

(** The buffer of a call, which an interrupted call leaves as it was. *)
Definition buffer (c : kcall) : list Z :=
  match c with
  | KSyscall _ (Buf mem) | KIoctl _ _ (Buf mem) => mem
  | _ => []
  end.

Definition demo_reply (h : list event) (c : kcall) : kreply :=
  match h with
  | [] => KReply (-1) EINTR (buffer c)
  | _ =>
      match c with
      | KSyscall [_; 3; _] _ => KReply 0 0 (SeccompNotifSizes_bytes demo_sizes)
      | KSyscall [_; 1; _] (Fprog _ _) => KReply 7 0 []
      | KIoctl _ (-1068490496) _ => KReply 0 0 (SeccompNotif_bytes demo_notif)
      | _ => KReply 0 0 (buffer c)
      end
  end.

Definition demo_kernel : Kernel := λ h c, Some (demo_reply h c).

Lemma demo_answers h c : h ≠ [] → interrupted (demo_reply h c) = false.
Proof. intros Hh. destruct h; [done|]. unfold demo_reply. repeat case_match; done. Qed.

(** A kernel that interrupts nothing but a first call is patient. *)
Lemma answers_patient (reply : list event → kcall → kreply) :
  (∀ h c, h ≠ [] → interrupted (reply h c) = false) →
  @Patient (λ h c, Some (reply h c)).
Proof.
  intros Hr c h. exists 2%nat. cbn [persist]. unfold kernel.
  destruct (interrupted _); [|done]. rewrite Hr; [done|]. by destruct h.
Qed.

Lemma demo_patient : @Patient demo_kernel.
Proof. apply (answers_patient demo_reply), demo_answers. Qed.
