(* ===== verification/RawTheorems.v ===== *)
(** * What the raw calls promise

    The syscall numbers agree with the tables of syscalls.py, an interrupted
    call is retried until it is answered and its answer classified, the flag
    probe reads the kernel's errno as documented, and a program the kernel could
    only refuse is rejected before any call. *)

From S2P Require Import Prelude PyBytes CInt PyDict Syscalls Structs Effects RawSyscall Demo.

Section facts.
Context (sys_platform platform_machine : string) (fuel : nat) `{Kernel}.

Lemma get_libc_linux : sys_platform = "linux" → _get_libc sys_platform = Ok tt.
Proof. intros ->. done. Qed.

(** The number of the syscall is a small integer. *)
Lemma seccomp_nr_c_int nr : _seccomp_nr platform_machine = Ok nr → c_int nr = Ok nr.
Proof.
  unfold _seccomp_nr, _arch_nr. intros Hn.
  destruct (dict_get _ _SYS_SECCOMP) as [n|] eqn:E; [|done]. injection Hn as <-.
  apply dict_get_elem_of in E. unfold _SYS_SECCOMP in E. rewrite !elem_of_cons in E.
  apply c_int_id. unfold is_c_int.
  destruct E as [[= _ ->]|[[= _ ->]|[[= _ ->]|[[= _ ->]|[]%elem_of_nil]]]]; lia.
Qed.

Lemma seccomp_args nr op flags cflags :
  _seccomp_nr platform_machine = Ok nr → c_int op = Ok op → c_int flags = Ok cflags →
  c_ints [nr; op; flags] = Ok [nr; op; cflags].
Proof.
  intros Hn Ho Hf. unfold c_ints. cbn [fmap list_fmap sequence].
  by rewrite (seccomp_nr_c_int _ Hn), Ho, Hf.
Qed.

Lemma seccomp_persist nr op flags cflags uargs h :
  _get_libc sys_platform = Ok tt → _seccomp_nr platform_machine = Ok nr →
  c_int op = Ok op → c_int flags = Ok cflags →
  _seccomp sys_platform platform_machine fuel op flags uargs h =
    (match persist fuel (KSyscall [nr; op; cflags] uargs) h with
     | Some (r, h') => Some (classify r, h')
     | None => None
     end).
Proof.
  intros Hl Hn Ho Hf. unfold _seccomp. rewrite Hn, bind_lift_ok.
  apply call_persist; [done|]. by apply seccomp_args.
Qed.

(** On an unsupported machine no call is made. *)
Lemma seccomp_unsupported e op flags uargs h :
  _seccomp_nr platform_machine = Raise e →
  _seccomp sys_platform platform_machine fuel op flags uargs h = Some (Raise e, h).
Proof. intros Hn. unfold _seccomp. by rewrite Hn. Qed.

(** The two kinds of machine. *)
Lemma seccomp_nr_native :
  is_ok (_seccomp_nr platform_machine) = is_ok (_native platform_machine) ∧
  is_ok (_pidfd_nr platform_machine) = is_ok (_native platform_machine).
Proof.
  unfold _seccomp_nr, _arch_nr, _pidfd_nr, _native. generalize (str_lower platform_machine).
  intros m. unfold _SYS_SECCOMP, _SYS_PIDFD, _ARCHES. cbn [dict_get].
  by repeat case_decide.
Qed.
End facts.

(** The tables that serve the four machine names. *)
Lemma numbers_agree (m : string) (e : arch_entry) (nr : Z) (nrs : Z * Z) :
  dict_get m _ARCHES = Some e → dict_get m _SYS_SECCOMP = Some nr → dict_get m _SYS_PIDFD = Some nrs →
  dict_get "seccomp" (arch_table e) = Some nr ∧
  dict_get "pidfd_open" (arch_table e) = Some nrs.1 ∧
  dict_get "pidfd_getfd" (arch_table e) = Some nrs.2.
Proof.
  intros He Hn Hp. apply dict_get_elem_of in He as Hin. unfold _ARCHES in Hin.
  rewrite !elem_of_cons in Hin.
  destruct Hin as [Hin|[Hin|[Hin|[Hin|Hin]]]]; [..|by apply not_elem_of_nil in Hin];
    pose proof (f_equal fst Hin) as Hm; pose proof (f_equal snd Hin) as Heq;
    cbn [fst snd] in Hm, Heq; clear He Hin; subst m e;
    vm_compute in Hn; vm_compute in Hp; apply (inj Some) in Hn, Hp; subst nr nrs;
    vm_compute; done.
Qed.

(** C38.  The package's own syscall numbers are those of its tables: on every
    machine the number it calls for seccomp, pidfd_open and pidfd_getfd is the
    one [syscall_nr] gives for that name, and the machines with a number are
    exactly the supported ones. *)
Theorem syscall_numbers_consistent (machine : string) :
  match _seccomp_nr machine, _pidfd_nr machine with
  | Ok nr, Ok (open_nr, getfd_nr) =>
      syscall_nr machine (SysName "seccomp") = Ok nr ∧
      syscall_nr machine (SysName "pidfd_open") = Ok open_nr ∧
      syscall_nr machine (SysName "pidfd_getfd") = Ok getfd_nr
  | Raise e, Raise e' =>
      e = UnsupportedError None ∧ e' = UnsupportedError None ∧
      _native machine = Raise (UnsupportedError None)
  | _, _ => False
  end.
Proof.
  destruct (seccomp_nr_native machine) as [H1 H2].
  unfold _seccomp_nr, _arch_nr, _pidfd_nr, syscall_nr, _native in *.
  destruct (dict_get (str_lower machine) _ARCHES) as [e|] eqn:He;
    destruct (dict_get (str_lower machine) _SYS_SECCOMP) as [nr|] eqn:Hn;
    destruct (dict_get (str_lower machine) _SYS_PIDFD) as [nrs|] eqn:Hp;
    cbn [or_raise is_ok] in *; try discriminate; [|by split_and!].
  destruct (numbers_agree _ _ _ _ He Hn Hp) as (E1 & E2 & E3).
  destruct nrs as [o g]. cbn [mbind result_bind]. rewrite E1, E2, E3. done.
Qed.

(** C14.  An interrupted call is retried and then answered.  On Linux, with a
    kernel that does not interrupt for ever and arguments that are C integers,
    [_call] terminates; the calls it made are repetitions of one request, all but
    the last interrupted by a signal; it returns the value of the last one or raises [UnsupportedError] for ENOSYS
    and EOPNOTSUPP and [SeccompError] for any other errno, never for EINTR. *)
Theorem call_retries `{Kernel} `{!Patient} (sys_platform : string) (args cargs : list Z)
    (ptr : pointer) (h : list event) (Hlinux : sys_platform = "linux")
    (Hargs : c_ints args = Ok cargs) :
  ∃ n tries c r,
    (∀ fuel, (n <= fuel)%nat → _call sys_platform fuel args ptr h =
       Some (if kr_ret r =? -1 then
               Raise (if bool_decide (kr_errno r ∈ [ENOSYS; EOPNOTSUPP])
                      then UnsupportedError (Some (kr_errno r)) else SeccompError (kr_errno r))
             else Ok (kr_ret r, kr_mem r),
             h ++ tries ++ [(c, r)])) ∧
    ¬ (kr_ret r = -1 ∧ kr_errno r = EINTR) ∧
    Forall (λ ev, (kr_ret ev.2 = -1 ∧ kr_errno ev.2 = EINTR) ∧
      (ev.1 = KSyscall cargs ptr ∨ ∃ mem, ev.1 = again (KSyscall cargs ptr) mem)) tries ∧
    (c = KSyscall cargs ptr ∨ ∃ mem, c = again (KSyscall cargs ptr) mem).
Proof.
  destruct (patient (KSyscall cargs ptr) h) as [n Hn].
  destruct (persist n (KSyscall cargs ptr) h) as [[r h']|] eqn:E; [|done].
  destruct (persist_history _ _ _ _ _ E) as (tries & c & -> & Hc & Htries).
  pose proof (persist_final _ _ _ _ _ E) as Hf. unfold interrupted in Hf.
  exists n, tries, c, r. split_and!.
  - intros fuel Hle. rewrite (call_persist _ _ _ cargs) by (done || by apply get_libc_linux).
    rewrite (persist_mono _ _ _ _ _ Hle E). unfold classify, call_error. do 2 f_equal.
    destruct (kr_ret r =? -1); [|done]. f_equal.
    rewrite <- (decide_bool_decide (kr_errno r ∈ [ENOSYS; EOPNOTSUPP])).
    case_decide as Hin.
    + rewrite !elem_of_cons, elem_of_nil in Hin.
      by destruct Hin as [->|[->|[]]].
    + rewrite !not_elem_of_cons in Hin. destruct Hin as (H1 & H2 & _).
      by rewrite (proj2 (Z.eqb_neq _ _) H1), (proj2 (Z.eqb_neq _ _) H2).
  - intros [H1 H2]. by rewrite H1, H2 in Hf.
  - eapply Forall_impl; [exact Htries|]. intros ev [Hi He]. split; [|done].
    unfold interrupted in Hi. apply andb_prop in Hi as [H1 H2]. by split; apply Z.eqb_eq.
  - done.
Qed.

Lemma call_retries_witness :
  ∃ n tries c r,
    (∀ fuel, (n <= fuel)%nat → _call (H := demo_kernel) "linux" fuel [317; 2; 0] (Buf [1]) [] =
       Some (if kr_ret r =? -1 then
               Raise (if bool_decide (kr_errno r ∈ [ENOSYS; EOPNOTSUPP])
                      then UnsupportedError (Some (kr_errno r)) else SeccompError (kr_errno r))
             else Ok (kr_ret r, kr_mem r),
             [] ++ tries ++ [(c, r)])) ∧
    ¬ (kr_ret r = -1 ∧ kr_errno r = EINTR) ∧
    Forall (λ ev, (kr_ret ev.2 = -1 ∧ kr_errno ev.2 = EINTR) ∧
      (ev.1 = KSyscall [317; 2; 0] (Buf [1]) ∨
       ∃ mem, ev.1 = again (KSyscall [317; 2; 0] (Buf [1])) mem)) tries ∧
    (c = KSyscall [317; 2; 0] (Buf [1]) ∨ ∃ mem, c = again (KSyscall [317; 2; 0] (Buf [1])) mem).
Proof. apply (@call_retries demo_kernel demo_patient "linux" [317; 2; 0] [317; 2; 0] (Buf [1]) []); reflexivity. Defined.

(** The flag probe by the errno of its answered call. *)
Lemma probe_flag_eq `{Kernel} (machine : string) (nr flag cflag : Z) (fuel : nat)
    (h h' : list event) (r : kreply)
    (Hnr : _seccomp_nr machine = Ok nr) (Hf : c_int flag = Ok cflag)
    (Hr : persist fuel (KSyscall [nr; SECCOMP_SET_MODE_FILTER; cflag] Null) h = Some (r, h')) :
  probe_flag "linux" machine fuel flag h =
    Some (if kr_ret r =? -1 then
            if kr_errno r =? EINVAL then Ok false
            else if bool_decide (kr_errno r ∈ [EFAULT; EACCES]) then Ok true
            else Raise (call_error (kr_errno r))
          else Ok true, h').
Proof.
  unfold probe_flag, try_except. unfold mbind at 1, M_bind at 1.
  rewrite (seccomp_persist _ _ _ nr _ _ cflag), Hr by done. unfold classify.
  destruct (kr_ret r =? -1); [|done]. unfold call_error.
  destruct (Z.eqb_spec (kr_errno r) EINVAL) as [->|H1]; [done|].
  destruct (Z.eqb_spec (kr_errno r) ENOSYS) as [->|H2]; [done|].
  destruct (Z.eqb_spec (kr_errno r) EOPNOTSUPP) as [->|H3]; [done|]. cbn [orb].
  rewrite (proj2 (Z.eqb_neq _ _) H1).
  destruct (Z.eqb_spec (kr_errno r) EFAULT) as [->|H4]; [done|].
  destruct (Z.eqb_spec (kr_errno r) EACCES) as [->|H5]; [done|]. cbn [orb].
  rewrite bool_decide_false; [done|]. by rewrite !not_elem_of_cons, elem_of_nil; auto.
Qed.

(** [probe_flag] reads the answer as documented: success, EFAULT and
    EACCES mean that the kernel knows the flag, EINVAL that it does not, and any
    other errno is raised. *)
Theorem probe_flag_outcome `{Kernel} (machine : string) (nr flag cflag : Z) (fuel : nat)
    (h h' : list event) (r : kreply)
    (Hnr : _seccomp_nr machine = Ok nr) (Hf : c_int flag = Ok cflag)
    (Hr : persist fuel (KSyscall [nr; SECCOMP_SET_MODE_FILTER; cflag] Null) h = Some (r, h')) :
  probe_flag "linux" machine fuel flag h =
    Some (if kr_ret r =? -1 then
            if kr_errno r =? EINVAL then Ok false
            else if bool_decide (kr_errno r ∈ [EFAULT; EACCES]) then Ok true
            else Raise (call_error (kr_errno r))
          else Ok true, h').
Proof. by apply probe_flag_eq with (nr := nr) (cflag := cflag). Qed.

Lemma probe_flag_outcome_witness :
  probe_flag (H := demo_kernel) "linux" "aarch64" 3 1 [] =
    Some (Ok true, [(KSyscall [277; 1; 1] Null, KReply (-1) EINTR []);
                    (KSyscall [277; 1; 1] Null, KReply 0 0 [])]).
Proof.
  apply (probe_flag_outcome (H := demo_kernel) "aarch64" 277 1 1 3 [] _ (KReply 0 0 [])).
  - reflexivity.
  - reflexivity.
  - vm_compute. reflexivity.
Defined.

(** C25.  [set_mode_filter] passes a program on exactly when it is a positive
    number of 8-byte records and at most 4096 of them; anything else is a
    [ValueError] and no call is made.  The kernel sees the record count without
    truncation and the bytes unchanged. *)
Theorem set_mode_filter_outcome `{Kernel} (machine : string) (nr flags cflags : Z) (fuel : nat)
    (prog : list Z) (h : list event) (Hnr : _seccomp_nr machine = Ok nr)
    (Hf : c_int flags = Ok cflags) :
  (∃ k : nat, length prog = (8 * k)%nat ∧ (1 <= k <= 4096)%nat ∧
     set_mode_filter "linux" machine fuel prog flags h =
       match persist fuel
               (KSyscall [nr; SECCOMP_SET_MODE_FILTER; cflags] (Fprog (Z.of_nat k) prog)) h with
       | Some (r, h') => Some (if kr_ret r =? -1 then Raise (call_error (kr_errno r)) else Ok (kr_ret r), h')
       | None => None
       end) ∨
  ((∀ k : nat, length prog = (8 * k)%nat → ¬ (1 <= k <= 4096)%nat) ∧
   ∃ msg, set_mode_filter "linux" machine fuel prog flags h = Some (Raise (ValueError msg), h)).
Proof.
  unfold set_mode_filter. set (len := Z.of_nat (length prog)).
  destruct (len mod 8 =? 0) eqn:E8; bool_to_prop; cbn [negb orb].
  2: { right. split; [|by eexists]. intros k Hk _. apply E8. unfold len. rewrite Hk, Nat2Z.inj_mul.
       change (Z.of_nat 8) with 8. rewrite Z.mul_comm. apply Z.mod_mul. lia. }
  pose proof (Z.div_mod len 8 ltac:(lia)) as Hdiv. rewrite E8, Z.add_0_r in Hdiv.
  destruct (len =? 0) eqn:E0; bool_to_prop.
  { right. split; [|by eexists]. intros k Hk Hr. lia. }
  cbn [raise_if]. rewrite bind_lift_ok.
  destruct (4096 <? len / 8) eqn:E4; bool_to_prop; cbn [raise_if].
  { right. split; [|by eexists]. intros k Hk Hr. lia. }
  left. exists (Z.to_nat (len / 8)). assert (1 <= len / 8) by lia. split; [lia|]. split; [lia|].
  rewrite bind_lift_ok. unfold mbind at 1, M_bind at 1.
  rewrite Z2Nat.id, Z.mod_small by lia.
  rewrite (seccomp_persist _ _ _ nr _ _ cflags) by done.
  destruct (persist _ _ h) as [[r h']|]; [|done]. unfold classify. by destruct (kr_ret r =? -1).
Qed.

Lemma set_mode_filter_outcome_witness :
  (∃ k : nat, length (replicate 16 6) = (8 * k)%nat ∧ (1 <= k <= 4096)%nat ∧
     set_mode_filter (H := demo_kernel) "linux" "x86_64" 3 (replicate 16 6) 0 [] =
       match persist (H := demo_kernel) 3 (KSyscall [317; SECCOMP_SET_MODE_FILTER; 0]
               (Fprog (Z.of_nat k) (replicate 16 6))) [] with
       | Some (r, h') => Some (if kr_ret r =? -1 then Raise (call_error (kr_errno r)) else Ok (kr_ret r), h')
       | None => None
       end) ∨
  ((∀ k : nat, length (replicate 16 6) = (8 * k)%nat → ¬ (1 <= k <= 4096)%nat) ∧
   ∃ msg, set_mode_filter (H := demo_kernel) "linux" "x86_64" 3 (replicate 16 6) 0 [] =
     Some (Raise (ValueError msg), [])).
Proof.
  apply (set_mode_filter_outcome (H := demo_kernel) "x86_64" 317 0 0 3 (replicate 16 6) []); reflexivity.
Defined.
