(* ===== verification/Notify.v ===== *)
(** * notify.py: the supervisor side of user notification

    The ioctl requests, the [Listener] object and the pidfd wrappers.  A method
    is a computation on the object and the history of kernel calls; the ctypes
    structure it passes is its memory image, and what the kernel writes there is
    decoded from the reply. *)

From S2P Require Import Prelude PyFormat PyBytes Ctypes Structs Effects RawSyscall.

Definition _IOC_WRITE : Z := 1.
Definition _IOC_READ : Z := 2.
(** [ord("!")]. *)
Definition _IOC_MAGIC : Z := 33.

Definition _ioc (direction nr size : Z) : Z :=
  Z.lor (Z.lor (Z.lor (Z.shiftl direction 30) (Z.shiftl size 16)) (Z.shiftl _IOC_MAGIC 8)) nr.

Definition _IOCTL_NOTIF_RECV : Z := _ioc (Z.lor _IOC_READ _IOC_WRITE) 0 (c_sizeof SeccompNotif_fields).
Definition _IOCTL_NOTIF_SEND : Z := _ioc (Z.lor _IOC_READ _IOC_WRITE) 1 (c_sizeof SeccompNotifResp_fields).
Definition _IOCTL_NOTIF_ID_VALID : Z := _ioc _IOC_WRITE 2 8.
Definition _IOCTL_NOTIF_ADDFD : Z := _ioc _IOC_WRITE 3 (c_sizeof SeccompNotifAddfd_fields).
Definition _IOCTL_NOTIF_SET_FLAGS : Z := _ioc _IOC_WRITE 4 8.

Definition _MAX_ERRNO : Z := 4095.
Definition _U64 : Z := 0xFFFFFFFFFFFFFFFF.

Definition RespFlag_CONTINUE : Z := 1.
Definition AddFdFlag_SETFD : Z := 1.
Definition AddFdFlag_SEND : Z := 2.
Definition FdFlag_SYNC_WAKE_UP : Z := 1.

(** [os.O_CLOEXEC] on Linux. *)
Definition O_CLOEXEC : Z := 0x80000.

Definition _check_id (notif_id : pyobj) : result Z :=
  or_raise (int_between 0 _U64 notif_id) (ValueError "notification id out of range").

Record NotifSizes := mkNotifSizes {
  ns_seccomp_notif : Z; ns_seccomp_notif_resp : Z; ns_seccomp_data : Z }.

#[export] Instance NotifSizes_eq_dec : EqDecision NotifSizes.
Proof. solve_decision. Defined.

Record Notification := mkNotification {
  n_id : Z; n_pid : Z; n_flags : Z; n_nr : Z; n_arch : Z; n_instruction_pointer : Z;
  n_args : list Z }.

Definition _EXPECTED_SIZES : NotifSizes :=
  mkNotifSizes (c_sizeof SeccompNotif_fields) (c_sizeof SeccompNotifResp_fields)
    (c_sizeof SeccompData_fields).

Record Listener := mkListener { _fd : Z; _closed : bool }.

(** [SeccompNotif()]. *)
Definition SeccompNotif_zero : SeccompNotif :=
  {| sn_id := 0; sn_pid := 0; sn_flags := 0;
     sn_data := {| sd_nr := 0; sd_arch := 0; sd_instruction_pointer := 0;
                   sd_args := replicate 6 0 |} |}.

Section notify.
Context (sys_platform platform_machine : string) (fuel : nat) `{Kernel}.
Abbreviation IO := (M (list event)).
Abbreviation Method := (M (Listener * list event)).

Definition sizes : IO NotifSizes :=
  raw ← notif_sizes sys_platform platform_machine fuel;
  mret (mkNotifSizes (ss_seccomp_notif raw) (ss_seccomp_notif_resp raw) (ss_seccomp_data raw)).

Definition pidfd_open (pid : pyobj) (flags : Z) : IO Z :=
  fd ← RawSyscall.pidfd_open sys_platform platform_machine fuel pid flags;
  os_set_inheritable fd false;;
  mret fd.

Definition pidfd_getfd (pidfd fd flags : Z) : IO Z :=
  dup ← RawSyscall.pidfd_getfd sys_platform platform_machine fuel pidfd fd flags;
  os_set_inheritable dup false;;
  mret dup.

(** [Listener(fd)]; the object exists only if the constructor returns. *)
Definition Listener_init (fd : Z) : IO Listener :=
  kernel ← try_except sizes (λ e, os_close fd;; raise e);
  (if decide (kernel = _EXPECTED_SIZES) then mret tt
   else os_close fd;; raise (UnsupportedError None));;
  os_set_inheritable fd false;;
  mret (mkListener fd false).

Definition fileno : Method Z :=
  self ← get_self;
  lift (raise_if (_closed self) (ValueError "listener is closed"));;
  mret (_fd self).

Definition Listener_ioctl (request : Z) (arg : list Z) : Method (Z * list Z) :=
  self ← get_self;
  lift (raise_if (_closed self) (RuntimeError "listener is closed"));;
  run_kernel (ioctl sys_platform fuel (_fd self) request arg).

Definition recv : Method Notification :=
  '(_, mem) ← Listener_ioctl _IOCTL_NOTIF_RECV (SeccompNotif_bytes SeccompNotif_zero);
  let req := SeccompNotif_of_bytes mem in
  mret (mkNotification (sn_id req) (sn_pid req) (sn_flags req) (sd_nr (sn_data req))
    (sd_arch (sn_data req)) (sd_instruction_pointer (sn_data req)) (sd_args (sn_data req))).

(** The checks of [respond] and the structure it fills. *)
Definition respond_request (notif_id error val flags : pyobj) : result SeccompNotifResp :=
  id ← _check_id notif_id;
  err ← or_raise (int_between 0 _MAX_ERRNO error) (ValueError "errno out of range");
  v ← or_raise (int_between (- 2 ^ 63) (2 ^ 63 - 1) val) (ValueError "return value out of range");
  fl ← or_raise (int_between 0 0xFFFFFFFF flags) (ValueError "response flags out of range");
  raise_if (negb (Z.land fl RespFlag_CONTINUE =? 0) && (negb (err =? 0) || negb (v =? 0)))
    (ValueError "RespFlag.CONTINUE requires error and val to be 0");;
  Ok {| sr_id := id; sr_val := v; sr_error := - err; sr_flags := fl |}.

Definition respond (notif_id error val flags : pyobj) : Method unit :=
  resp ← lift (respond_request notif_id error val flags);
  Listener_ioctl _IOCTL_NOTIF_SEND (SeccompNotifResp_bytes resp);;
  mret tt.

(** [newfd != 0 and not flags & SETFD]: the operator is applied before the
    type of [flags] is checked. *)
Definition newfd_needs_setfd (newfd : Z) (flags : pyobj) : result bool :=
  if newfd =? 0 then Ok false
  else match as_int flags with
       | Some fl => Ok (Z.land fl AddFdFlag_SETFD =? 0)
       | None => Raise (TypeError "unsupported operand type(s) for &")
       end.

Definition addfd_request (notif_id local_fd flags newfd newfd_flags : pyobj)
    : result SeccompNotifAddfd :=
  id ← _check_id notif_id;
  fd ← or_raise (int_between 0 0x7FFFFFFF local_fd) (ValueError "fd out of range");
  nfd ← or_raise (int_between 0 0x7FFFFFFF newfd) (ValueError "fd out of range");
  bad ← newfd_needs_setfd nfd flags;
  raise_if bad (ValueError "newfd requires AddFdFlag.SETFD");;
  fl ← or_raise (int_between 0 0xFFFFFFFF flags) (ValueError "addfd flags out of range");
  nfl ← or_raise
    (as_int newfd_flags ≫= λ z, if Z.land z (Z.lnot O_CLOEXEC) =? 0 then Some z else None)
    (ValueError "newfd_flags accepts only O_CLOEXEC");
  Ok {| sa_id := id; sa_flags := fl; sa_srcfd := fd; sa_newfd := nfd; sa_newfd_flags := nfl |}.

Definition addfd (notif_id local_fd flags newfd newfd_flags : pyobj) : Method Z :=
  req ← lift (addfd_request notif_id local_fd flags newfd newfd_flags);
  '(ret, _) ← Listener_ioctl _IOCTL_NOTIF_ADDFD (SeccompNotifAddfd_bytes req);
  mret ret.

(** [UnsupportedError] is a [SeccompError]. *)
Definition valid (notif_id : pyobj) : Method bool :=
  id ← lift (_check_id notif_id);
  try_except
    (Listener_ioctl _IOCTL_NOTIF_ID_VALID (le_bytes 8 id);; mret true)
    (λ e, match e with
          | SeccompError err | UnsupportedError (Some err) =>
              if err =? ENOENT then mret false else raise e
          | _ => raise e
          end).

Definition set_flags (flags : pyobj) : Method unit :=
  fl ← lift (or_raise (int_between 0 _U64 flags) (ValueError "fd flags out of range"));
  Listener_ioctl _IOCTL_NOTIF_SET_FLAGS (le_bytes 8 fl);;
  mret tt.

Definition close : Method unit :=
  self ← get_self;
  if _closed self then mret tt
  else run_kernel (os_close (_fd self));; set_self (mkListener (_fd self) true).

Definition __enter__ : Method unit :=
  self ← get_self;
  lift (raise_if (_closed self) (RuntimeError "listener is closed")).

Definition __exit__ : Method unit := close.

Definition __del__ : Method unit := try_except close (λ _, mret tt).
End notify.

(** ** Looking at a listener *)

Definition Listener_closed (self : Listener) : bool := _closed self.

(** A listener refuses to be copied: it owns its descriptor. *)
Definition Listener_copy (self : Listener) : result Listener :=
  Raise (TypeError "Listener cannot be copied: it owns a kernel file descriptor").
Definition Listener_deepcopy (self : Listener) : result Listener :=
  Raise (TypeError "Listener cannot be copied: it owns a kernel file descriptor").

(** [cls] is [type(self).__name__]. *)
Definition Listener_repr (cls : string) (self : Listener) : string :=
  let state := if _closed self then "closed" else "open" in
  cls +:+ "(fd=" +:+ pretty (_fd self) +:+ ", " +:+ state +:+ ")".
