(* ===== verification/NotifyFacts.v ===== *)
(** * Which calls a method makes

    Frame facts about the effectful functions: each appends events of one kind
    to the history and nothing else, so a listener never touches a descriptor
    that is not its own; and what the constructor does with the descriptor. *)

From S2P Require Import Prelude PyBytes CInt Structs Effects RawSyscall Notify.

(** ** Kinds of events *)

(** A system call that reports through a buffer. *)
Definition is_query (ev : event) : Prop := ∃ args mem, ev.1 = KSyscall args (Buf mem).
Definition is_ioctl (fd : Z) (ev : event) : Prop := ∃ req ptr, ev.1 = KIoctl (int32 fd) req ptr.

Section frames.
Context (sys_platform machine : string) (fuel : nat) `{Kernel}.

Lemma only_calls_query n args mem : only_calls is_query (_call sys_platform n args (Buf mem)).
Proof.
  revert mem. induction n as [|n IH]; intros mem; [by intros ? ? ?|]. cbn [_call].
  do 2 (apply only_calls_bind; [auto with effects|]; intros ?).
  apply only_calls_bind; [apply only_calls_call; intros r; by eexists _, _|]. intros r.
  repeat case_match; auto with effects.
Qed.

Lemma only_calls_ioctl n fd req arg : only_calls (is_ioctl fd) (ioctl sys_platform n fd req arg).
Proof.
  revert arg. induction n as [|n IH]; intros arg; [by intros ? ? ?|]. cbn [ioctl].
  apply only_calls_bind; [auto with effects|]. intros _.
  apply only_calls_lift_bind. intros cfd [_ ->]%c_int_ok.
  apply only_calls_bind; [auto with effects|]. intros creq.
  apply only_calls_bind; [apply only_calls_call; intros r; by eexists _, _|]. intros r.
  repeat case_match; auto with effects.
Qed.

Lemma only_calls_sizes : only_calls is_query (sizes sys_platform machine fuel).
Proof.
  apply only_calls_bind; [|auto with effects]. apply only_calls_bind.
  - apply only_calls_bind; [auto with effects|]. intros nr. apply only_calls_query.
  - intros [ret mem]. auto with effects.
Qed.
End frames.

(** ** Descriptors *)

(** How often [fd] was closed. *)
Definition closes (fd : Z) (evs : list event) : nat :=
  length (filter (λ ev, ev.1 = KClose fd) evs).

Lemma closes_app fd l1 l2 : closes fd (l1 ++ l2) = (closes fd l1 + closes fd l2)%nat.
Proof. unfold closes. by rewrite filter_app, length_app. Qed.

Lemma closes_none fd evs : Forall (λ ev, ev.1 ≠ KClose fd) evs → closes fd evs = 0%nat.
Proof.
  unfold closes. induction 1 as [|ev evs He _ IH]; [done|]. by rewrite filter_cons_False.
Qed.

Lemma queries_close fd evs : Forall is_query evs → Forall (λ ev, ev.1 ≠ KClose fd) evs.
Proof.
  intros Hq. eapply Forall_impl; [exact Hq|]. by intros [c ?] (args & mem & ->).
Qed.

Lemma queries_close_none fd evs : Forall is_query evs → closes fd evs = 0%nat.
Proof. intros. by apply closes_none, queries_close. Qed.

Section descriptors.
Context `{Kernel}.

Lemma os_close_run fd h : is_c_int fd → os_close fd h = on_answer h (KClose fd) os_result.
Proof. intros. unfold os_close. rewrite os_fd_id by done. by autorewrite with io. Qed.

Lemma os_set_inheritable_run fd b h :
  is_c_int fd →
  os_set_inheritable fd b h = on_answer h (KSetInheritable fd b) os_result.
Proof. intros. unfold os_set_inheritable. rewrite os_fd_id by done. by autorewrite with io. Qed.

(** A number that is no C [int] is refused without a call. *)
Lemma os_close_overflow fd h :
  ¬ is_c_int fd → os_close fd h = Some (Raise (OtherError "OverflowError"), h).
Proof. intros. unfold os_close. by rewrite os_fd_raise. Qed.

Lemma os_set_inheritable_overflow fd b h :
  ¬ is_c_int fd → os_set_inheritable fd b h = Some (Raise (OtherError "OverflowError"), h).
Proof. intros. unfold os_set_inheritable. by rewrite os_fd_raise. Qed.
End descriptors.

(** ** The constructor *)

(** [os.close(fd); raise e]: the error of the failed [close], or [e]. *)
Definition close_error (e : exn) (r : kreply) : exn :=
  if kr_ret r =? -1 then OSError (Some (kr_errno r)) else e.

Lemma close_raise_run `{Kernel} {A} fd e h :
  (os_close fd;; raise e) h =
    if decide (is_c_int fd) then on_answer h (KClose fd) (λ r, Raise (close_error e r) : result A)
    else Some (Raise (OtherError "OverflowError"), h).
Proof.
  unfold mbind, M_bind. case_decide as Hfd.
  - rewrite os_close_run by done. unfold on_answer, os_result, close_error.
    destruct (kernel h _) as [r|]; [|done]. by destruct (kr_ret r =? -1).
  - by rewrite os_close_overflow.
Qed.

(** What happened to the descriptor when a construction raised: it was closed
    exactly once, or making it non-inheritable failed, or it was no descriptor
    number and never used. *)
Definition init_failed (fd : Z) (new : list event) : Prop :=
  if decide (is_c_int fd) then
    closes fd new = 1%nat ∨
    closes fd new = 0%nat ∧ ∃ r, last new = Some (KSetInheritable fd false, r) ∧ kr_ret r = -1
  else Forall is_query new.

(** The constructor by the outcome of the size query: the sizes are the expected
    ones and the descriptor is made non-inheritable, or it is closed. *)
Definition init_end `{Kernel} (fd : Z) (rs : result NotifSizes) (h1 : list event) :
    option (result Listener * list event) :=
  if decide (is_c_int fd) then
    match rs with
    | Ok k =>
        if decide (k = _EXPECTED_SIZES) then
          on_answer h1 (KSetInheritable fd false)
            (λ r, if kr_ret r =? -1 then Raise (OSError (Some (kr_errno r)))
                  else Ok (mkListener fd false))
        else on_answer h1 (KClose fd) (λ r, Raise (close_error (UnsupportedError None) r))
    | Raise e => on_answer h1 (KClose fd) (λ r, Raise (close_error e r))
    end
  else Some (Raise (OtherError "OverflowError"), h1).

Lemma Listener_init_run `{Kernel} (sys_platform machine : string) (fuel : nat) (fd : Z) h :
  Listener_init sys_platform machine fuel fd h =
    match sizes sys_platform machine fuel h with
    | Some (rs, h1) => init_end fd rs h1
    | None => None
    end.
Proof.
  unfold Listener_init. unfold mbind at 1, M_bind at 1. unfold try_except, init_end.
  destruct (sizes _ _ _ h) as [[[k|e] h1]|]; [| |done].
  2: { rewrite close_raise_run. case_decide; [|done]. unfold on_answer.
       by destruct (kernel h1 _). }
  case_decide as Hk.
  - unfold mbind, M_bind, mret, M_ret. case_decide; [|by rewrite os_set_inheritable_overflow].
    rewrite os_set_inheritable_run by done. unfold on_answer, os_result.
    destruct (kernel h1 _) as [r|]; [|done]. by destruct (kr_ret r =? -1).
  - unfold mbind at 1, M_bind at 1. rewrite close_raise_run. case_decide; [|done].
    unfold on_answer. by destruct (kernel h1 _).
Qed.

(** The same with the bounds and sizes as numbers. *)
Lemma init_end_cases `{Kernel} fd rs h1 :
  init_end fd rs h1 =
    (if negb (bool_decide (- 2 ^ 31 <= fd < 2 ^ 31)) then
       Some (Raise (OtherError "OverflowError"), h1)
     else if bool_decide (rs = Ok (mkNotifSizes 80 24 64)) then
       on_answer h1 (KSetInheritable fd false) (λ r,
         if kr_ret r =? -1 then Raise (OSError (Some (kr_errno r))) else Ok (mkListener fd false))
     else
       on_answer h1 (KClose fd) (λ r,
         Raise (close_error (match rs with Ok _ => UnsupportedError None | Raise e => e end) r))).
Proof.
  unfold init_end, is_c_int. case_decide as Hfd; [|by rewrite bool_decide_false].
  rewrite bool_decide_true by done. cbn [negb].
  change _EXPECTED_SIZES with (mkNotifSizes 80 24 64). destruct rs as [k|e]; [case_decide as Hk|].
  - by rewrite bool_decide_true by by subst.
  - by rewrite bool_decide_false by congruence.
  - done.
Qed.

Lemma init_end_closes `{Kernel} fd rs h sized res h' :
  Forall is_query sized → init_end fd rs (h ++ sized) = Some (res, h') →
  ∃ new, h' = h ++ new ∧
    closes fd new =
      if bool_decide (- 2 ^ 31 <= fd < 2 ^ 31 ∧ rs ≠ Ok (mkNotifSizes 80 24 64)) then 1%nat
      else 0%nat.
Proof.
  intros Hsized. pose proof (queries_close_none fd _ Hsized) as Hc1. rewrite init_end_cases.
  destruct (bool_decide (- 2 ^ 31 <= fd < 2 ^ 31)) eqn:Hfd; cbn [negb].
  2: { intros [= <- <-]. exists sized. split; [done|].
       rewrite bool_decide_false; [done|]. intros [? _]. by apply bool_decide_eq_false in Hfd. }
  apply bool_decide_eq_true in Hfd. case_bool_decide as Hrs;
    intros (r & _ & -> & ->)%on_answer_Some; rewrite <- app_assoc; eexists;
    (split; [done|]); rewrite closes_app, Hc1; unfold closes.
  - by rewrite bool_decide_false by naive_solver.
  - by rewrite bool_decide_true, filter_cons_True by naive_solver.
Qed.

(** How a construction can end, and what happened to the descriptor. *)
Lemma listener_init_cases `{Kernel} (sys_platform machine : string) (fuel : nat) (fd : Z)
    (h h' : list event) (res : result Listener)
    (Hr : Listener_init sys_platform machine fuel fd h = Some (res, h')) :
  ∃ new, h' = h ++ new ∧
    match res with
    | Ok l => l = mkListener fd false ∧ is_c_int fd ∧ closes fd new = 0%nat ∧
        ∃ sized r, new = sized ++ [(KSetInheritable fd false, r)] ∧ Forall is_query sized ∧
          kr_ret r ≠ -1
    | Raise e => init_failed fd new
    end.
Proof.
  rewrite Listener_init_run in Hr. destruct (sizes _ _ _ h) as [[rs h1]|] eqn:Hs; [|done].
  destruct (only_calls_sizes _ _ _ _ _ _ Hs) as (n1 & -> & Hn1).
  pose proof (queries_close_none fd _ Hn1) as Hc1.
  unfold init_end in Hr. unfold init_failed. case_decide as Hfd.
  2: { injection Hr as <- <-. by exists n1. }
  assert (∀ r : kreply, closes fd (n1 ++ [(KClose fd, r)]) = 1%nat) as Hc2.
  { intros r. rewrite closes_app, Hc1. unfold closes. by rewrite filter_cons_True. }
  destruct rs as [k|e]; [case_decide|]; apply on_answer_Some in Hr as (r & _ & -> & ->);
    rewrite <- app_assoc; eexists; (split; [done|]); [|by left..].
  assert (closes fd (n1 ++ [(KSetInheritable fd false, r)]) = 0%nat) as Hc3
    by by rewrite closes_app, Hc1.
  destruct (kr_ret r =? -1) eqn:E; bool_to_prop; [|by split_and!; eauto].
  right. split; [done|]. exists r. by rewrite last_snoc.
Qed.
