(* ===== verification/Load.v ===== *)
(** * Filter.load

    Loading sets no_new_privs, installs the compiled program and, if asked for,
    wraps the returned descriptor.  It is a computation on the filter object and
    the history of kernel calls, so what an exception leaves behind is part of
    the model. *)

From S2P Require Import Prelude Filter Structs Effects RawSyscall Notify.

Section load.
Context (sys_platform platform_machine : string) (fuel : nat) `{Kernel}.
Abbreviation Method := (M (Filter * list event)).

(** The property [program] as an access that may fill the cache. *)
Definition read_program : Method (list Z) := λ '(self, h),
  let '(self', p) := program platform_machine self in Some (p, (self', h)).

Definition load : Method (option Listener) :=
  self ← get_self;
  lift (raise_if (_loaded self) (RuntimeError "filter is already loaded"));;
  run_kernel (set_no_new_privs sys_platform fuel);;
  prog ← read_program;
  ret ← run_kernel (set_mode_filter sys_platform platform_machine fuel prog (_flags self));
  self' ← get_self;
  set_self (set_loaded self');;
  if negb (Z.land (_flags self') FLAG_NEW_LISTENER =? 0) then
    l ← run_kernel (Listener_init sys_platform platform_machine fuel ret);
    mret (Some l)
  else mret None.
End load.
