(* ===== verification/NotifyTheorems.v ===== *)
(** * What the listener promises

    The ioctl requests are the kernel's, the messages a listener sends say what its
    caller asked for, and the answers are handed on as the kernel gave them; what
    the constructor does with the descriptor on every path. *)

From S2P Require Import Prelude PyBytes CInt PyDict Ctypes Structs StructTypes Effects.
From S2P Require Import RawSyscall Notify NotifyFacts Demo.

(** ** ioctl requests and structures *)

(** The fields of a request as linux/ioctl.h extracts them. *)
Definition ioc_dir (req : Z) : Z := Z.shiftr req 30.
Definition ioc_size (req : Z) : Z := Z.land (Z.shiftr req 16) 0x3FFF.
Definition ioc_type (req : Z) : Z := Z.land (Z.shiftr req 8) 0xFF.
Definition ioc_nr (req : Z) : Z := Z.land req 0xFF.

(** Disjoint bit fields add up. *)
Lemma lor_shift_add a b n : 0 <= n → 0 <= b < 2 ^ n → Z.lor (Z.shiftl a n) b = a * 2 ^ n + b.
Proof.
  intros Hn Hb. rewrite <- Z.add_nocarry_lor.
  - by rewrite Z.shiftl_mul_pow2.
  - apply Z.bits_inj'. intros k Hk. rewrite Z.land_spec, Z.bits_0.
    destruct (Z.lt_ge_cases k n) as [Hlt|Hge].
    + by rewrite Z.shiftl_spec_low.
    + destruct (Z.eq_dec b 0) as [->|Hne]; [by rewrite Z.bits_0, andb_false_r|].
      rewrite (Z.bits_above_log2 b); [by rewrite andb_false_r|lia|].
      apply Z.lt_le_trans with n; [|done]. apply Z.log2_lt_pow2; lia.
Qed.

Lemma ioc_sum direction nr size :
  0 <= nr < 256 → 0 <= size < 2 ^ 14 →
  _ioc direction nr size = direction * 2 ^ 30 + size * 2 ^ 16 + 33 * 2 ^ 8 + nr.
Proof.
  intros Hn Hs. unfold _ioc, _IOC_MAGIC.
  assert (Z.lor (Z.shiftl direction 30) (Z.shiftl size 16) =
    Z.shiftl (direction * 2 ^ 14 + size) 16) as ->.
  { rewrite <- lor_shift_add, Z.shiftl_lor, Z.shiftl_shiftl by lia. done. }
  assert (Z.lor (Z.shiftl (direction * 2 ^ 14 + size) 16) (Z.shiftl 33 8) =
    Z.shiftl ((direction * 2 ^ 14 + size) * 2 ^ 8 + 33) 8) as ->.
  { rewrite <- (lor_shift_add _ 33 8), Z.shiftl_lor, Z.shiftl_shiftl by lia. done. }
  rewrite lor_shift_add by lia. lia.
Qed.

(** [_ioc] packs its arguments the way linux/ioctl.h unpacks them:
    direction, structure size, type ['!'] and number sit in disjoint fields,
    so no request aliases another. *)
Theorem ioc_fields (direction nr size : Z)
    (Hd : 0 <= direction < 4) (Hn : 0 <= nr < 256) (Hs : 0 <= size < 2 ^ 14) :
  0 <= _ioc direction nr size < 2 ^ 32 ∧
  ioc_dir (_ioc direction nr size) = direction ∧ ioc_size (_ioc direction nr size) = size ∧
  ioc_type (_ioc direction nr size) = 33 ∧ ioc_nr (_ioc direction nr size) = nr.
Proof.
  rewrite ioc_sum by done. unfold ioc_dir, ioc_size, ioc_type, ioc_nr.
  change 0x3FFF with (Z.ones 14). change 0xFF with (Z.ones 8).
  rewrite !Z.land_ones, !Z.shiftr_div_pow2 by done.
  change (2 ^ 30) with 1073741824. change (2 ^ 16) with 65536. change (2 ^ 8) with 256.
  change (2 ^ 14) with 16384 in *. change (2 ^ 32) with 4294967296.
  split_and!; try lia; Z.to_euclidean_division_equations; lia.
Qed.

Lemma ioc_fields_witness :
  0 <= _ioc 3 1 24 < 2 ^ 32 ∧
  ioc_dir (_ioc 3 1 24) = 3 ∧ ioc_size (_ioc 3 1 24) = 24 ∧
  ioc_type (_ioc 3 1 24) = 33 ∧ ioc_nr (_ioc 3 1 24) = 1.
Proof. apply (ioc_fields 3 1 24); lia. Defined.

(** The five requests and the structure sizes are those of the kernel's
    uapi header linux/seccomp.h. *)
Theorem ioctl_requests_uapi :
  _IOCTL_NOTIF_RECV = 0xC0502100 ∧ _IOCTL_NOTIF_SEND = 0xC0182101 ∧
  _IOCTL_NOTIF_ID_VALID = 0x40082102 ∧ _IOCTL_NOTIF_ADDFD = 0x40182103 ∧
  _IOCTL_NOTIF_SET_FLAGS = 0x40082104 ∧
  _EXPECTED_SIZES = mkNotifSizes 80 24 64 ∧
  c_sizeof SockFprog_fields = 16 ∧ c_sizeof SeccompNotifSizes_fields = 6.
Proof. vm_compute. by repeat split. Qed.

Definition demo_resp : SeccompNotifResp :=
  {| sr_id := 77; sr_val := 0; sr_error := -1; sr_flags := 0 |}.
(** ** Messages *)

Lemma continue_odd fl : 0 <= fl → (Z.land fl RespFlag_CONTINUE =? 0) = Z.even fl.
Proof.
  intros _. unfold RespFlag_CONTINUE. change 1 with (Z.ones 1). rewrite Z.land_ones by done.
  change (2 ^ 1) with 2. rewrite Zmod_even. by destruct (Z.even fl).
Qed.

(** C21.  [respond] accepts exactly the documented responses and encodes them:
    a 64-bit id, an errno up to 4095, a signed 64-bit value, 32-bit flags, and
    no error or value with CONTINUE; the kernel reads the errno negated. *)
Theorem respond_request_iff (notif_id error val flags : pyobj) (resp : SeccompNotifResp) :
  respond_request notif_id error val flags = Ok resp ↔
  ∃ id err v fl, notif_id = PyInt id ∧ error = PyInt err ∧ val = PyInt v ∧ flags = PyInt fl ∧
    0 <= id < 2 ^ 64 ∧ 0 <= err <= 4095 ∧ - 2 ^ 63 <= v < 2 ^ 63 ∧ 0 <= fl < 2 ^ 32 ∧
    (Z.odd fl = true → err = 0 ∧ v = 0) ∧
    SeccompNotifResp_of_bytes (SeccompNotifResp_bytes resp) = resp ∧
    resp = {| sr_id := id; sr_val := v; sr_error := - err; sr_flags := fl |}.
Proof.
  unfold respond_request, _check_id, _U64, _MAX_ERRNO.
  split.
  - intros H. inv_ok.
    repeat match goal with H : int_between _ _ _ = Some _ |- _ => apply int_between_Some in H as [-> ?] end.
    eexists _, _, _, _. split; [done|]. split; [done|]. split; [done|]. split; [done|].
    split; [lia|]. split; [lia|]. split; [lia|]. split; [lia|]. split; [|split; [|done]].
    + intros Hodd. rewrite continue_odd in * by lia. rewrite <- Z.negb_even in Hodd.
      rewrite Hodd in *. cbn [andb] in *. bool_to_prop. done.
    + apply SeccompNotifResp_roundtrip. unfold SeccompNotifResp_ok, is_u, is_s.
      cbn [sr_id sr_val sr_error sr_flags]. change (256 ^ Z.of_nat 8) with (2 ^ 64).
      change (256 ^ Z.of_nat 4) with (2 ^ 32). cbn. lia.
  - intros (id & err & v & fl & -> & -> & -> & -> & Hid & Herr & Hv & Hfl & Hc & _ & ->).
    rewrite !int_between_PyInt by lia. cbn [or_raise mbind result_bind].
    rewrite continue_odd, Z.negb_even by lia.
    destruct (Z.odd fl); [|done]. by destruct (Hc eq_refl) as [-> ->].
Qed.

Lemma cloexec_only z :
  Z.land z (Z.lnot O_CLOEXEC) = 0 ↔ z = 0 ∨ z = O_CLOEXEC.
Proof.
  split; [|by intros [->| ->]]. intros H.
  assert (z = Z.land z O_CLOEXEC) as Hz.
  { apply Z.bits_inj'. intros n Hn. rewrite Z.land_spec.
    assert (Z.testbit (Z.land z (Z.lnot O_CLOEXEC)) n = false) as Hb by (by rewrite H, Z.bits_0).
    rewrite Z.land_spec, Z.lnot_spec in Hb by done.
    by destruct (Z.testbit z n), (Z.testbit O_CLOEXEC n). }
  unfold O_CLOEXEC in *. change 0x80000 with (2 ^ 19) in *.
  destruct (Z.testbit z 19) eqn:E; [right|left]; rewrite Hz;
    apply Z.bits_inj'; intros n Hn; rewrite Z.land_spec, Z.pow2_bits_eqb, ?Z.bits_0 by done;
    destruct (Z.eqb_spec 19 n) as [<-|]; rewrite ?E, ?andb_false_r; done.
Qed.

(** C22.  [addfd] accepts exactly the documented requests: a 64-bit id,
    descriptors that fit a C int, a target number only together with SETFD,
    32-bit flags, and no descriptor flag but O_CLOEXEC; the structure the
    kernel reads holds these values. *)
Theorem addfd_request_iff (notif_id local_fd flags newfd newfd_flags : pyobj)
    (req : SeccompNotifAddfd) :
  addfd_request notif_id local_fd flags newfd newfd_flags = Ok req ↔
  ∃ id fd fl nfd nfl, notif_id = PyInt id ∧ local_fd = PyInt fd ∧ flags = PyInt fl ∧
    newfd = PyInt nfd ∧ newfd_flags = PyInt nfl ∧
    0 <= id < 2 ^ 64 ∧ 0 <= fd < 2 ^ 31 ∧ 0 <= nfd < 2 ^ 31 ∧ 0 <= fl < 2 ^ 32 ∧
    (nfl = 0 ∨ nfl = O_CLOEXEC) ∧ (nfd ≠ 0 → Z.odd fl = true) ∧
    SeccompNotifAddfd_of_bytes (SeccompNotifAddfd_bytes req) = req ∧
    req = {| sa_id := id; sa_flags := fl; sa_srcfd := fd; sa_newfd := nfd; sa_newfd_flags := nfl |}.
Proof.
  unfold addfd_request, _check_id, _U64, newfd_needs_setfd. change AddFdFlag_SETFD with RespFlag_CONTINUE.
  split.
  - intros H. inv_ok.
    repeat match goal with H : int_between _ _ _ = Some _ |- _ => apply int_between_Some in H as [-> ?] end.
    cbn [as_int] in *.
    match goal with H : (as_int newfd_flags ≫= _) = Some _ |- _ =>
      destruct newfd_flags as [nfl| |]; cbn in H; try done;
      destruct (Z.land nfl (Z.lnot O_CLOEXEC) =? 0) eqn:Ec; [|done]; injection H as <- end.
    bool_to_prop. apply cloexec_only in Ec.
    eexists _, _, _, _, _. do 5 (split; [done|]). do 4 (split; [lia|]). split; [done|].
    split; [|split; [|done]].
    + intros Hne. match goal with H : (if ?b =? 0 then _ else _) = _ |- _ =>
        rewrite (proj2 (Z.eqb_neq b 0) Hne) in H; rewrite continue_odd in H by lia end.
      rewrite <- Z.negb_even. inv_ok. apply negb_true_iff. congruence.
    + apply SeccompNotifAddfd_roundtrip. unfold SeccompNotifAddfd_ok, is_u, O_CLOEXEC in *.
      cbn [sa_id sa_flags sa_srcfd sa_newfd sa_newfd_flags]. change (256 ^ Z.of_nat 8) with (2 ^ 64).
      change (256 ^ Z.of_nat 4) with (2 ^ 32). lia.
  - intros (id & fd & fl & nfd & nfl & -> & -> & -> & -> & -> & Hid & Hfd & Hnfd & Hfl & Hnfl & Hset & _ & ->).
    rewrite !int_between_PyInt by lia. cbn [or_raise mbind result_bind as_int].
    rewrite continue_odd by lia. cbn [mbind option_bind].
    rewrite (proj2 (cloexec_only nfl) Hnfl), Z.eqb_refl.
    destruct (Z.eqb_spec nfd 0) as [->|Hne]; cbn; [done|].
    rewrite <- Z.negb_odd, (Hset Hne). done.
Qed.

(** ** The object *)

Section listener.
Context (sys_platform machine : string) (fuel : nat) `{Kernel}.

(** The descriptor is a C [int] and the request a 32-bit word; it arrives with
    the same bits. *)
Lemma listener_ioctl_open fd req arg h :
  sys_platform = "linux" → is_c_int fd → 0 <= req < 2 ^ 32 →
  Listener_ioctl sys_platform fuel req arg (mkListener fd false, h) =
    (match persist fuel (KIoctl fd (int32 req) (Buf arg)) h with
     | Some (r, h') => Some (classify r, (mkListener fd false, h'))
     | None => None
     end).
Proof.
  intros -> Hfd Hreq. unfold Listener_ioctl. autorewrite with io. cbn [_closed raise_if _fd].
  autorewrite with io. unfold run_kernel. rewrite (ioctl_persist _ _ _ _ fd (int32 req)) by auto with cint.
  by destruct (persist _ _ _) as [[r h']|].
Qed.
End listener.

(** C23.  [recv] returns what the kernel reported.  On an open listener the
    request goes out with a zeroed structure, as the kernel requires; whatever 80
    bytes the kernel leaves there are the image of exactly one notification, whose
    fields [recv] returns, the signed syscall number and the six 64-bit arguments
    included; a failed request is raised by errno. *)
Theorem recv_outcome `{Kernel} (fuel : nat) (fd : Z) (h h' : list event) (r : kreply)
    (Hfd : is_c_int fd) (Hmem : is_image 80 (kr_mem r))
    (Hr : persist fuel (KIoctl fd (int32 0xC0502100) (Buf (replicate 80 0))) h = Some (r, h')) :
  ∃ n, SeccompNotif_ok n ∧ SeccompNotif_bytes n = kr_mem r ∧
    recv "linux" fuel (mkListener fd false, h) =
      Some (if kr_ret r =? -1 then Raise (call_error (kr_errno r))
            else Ok (mkNotification (sn_id n) (sn_pid n) (sn_flags n) (sd_nr (sn_data n))
                   (sd_arch (sn_data n)) (sd_instruction_pointer (sn_data n)) (sd_args (sn_data n))),
            (mkListener fd false, h')).
Proof.
  exists (SeccompNotif_of_bytes (kr_mem r)).
  destruct (SeccompNotif_image _ Hmem) as [Hok Himg]. split_and!; [done..|].
  unfold recv. unfold mbind at 1, M_bind at 1.
  rewrite listener_ioctl_open by done.
  change (SeccompNotif_bytes SeccompNotif_zero) with (replicate 80 0).
  change _IOCTL_NOTIF_RECV with 0xC0502100. rewrite Hr. unfold classify.
  by destruct (kr_ret r =? -1).
Qed.

Lemma recv_outcome_witness :
  ∃ n, SeccompNotif_ok n ∧ SeccompNotif_bytes n = SeccompNotif_bytes demo_notif ∧
    recv (H := demo_kernel) "linux" 3 (mkListener 7 false, []) =
      Some (Ok (mkNotification (sn_id n) (sn_pid n) (sn_flags n) (sd_nr (sn_data n))
                  (sd_arch (sn_data n)) (sd_instruction_pointer (sn_data n)) (sd_args (sn_data n))),
          (mkListener 7 false,
           [(KIoctl 7 (int32 0xC0502100) (Buf (replicate 80 0)), KReply (-1) EINTR (replicate 80 0));
            (KIoctl 7 (int32 0xC0502100) (Buf (replicate 80 0)),
             KReply 0 0 (SeccompNotif_bytes demo_notif))])).
Proof.
  apply (recv_outcome (H := demo_kernel) 3 7 [] _ (KReply 0 0 (SeccompNotif_bytes demo_notif))).
  - by vm_compute.
  - by apply (bool_decide_unpack _); vm_compute.
  - vm_compute. reflexivity.
Defined.

(** One request on an open listener: it is repeated until it is answered, and
    its result or its errno handed to the caller. *)
Definition exchange `{Kernel} {A} (fuel : nat) (fd req : Z) (mem : list Z) (answer : Z → A)
    (h : list event) : option (result A * (Listener * list event)) :=
  match persist fuel (KIoctl fd (int32 req) (Buf mem)) h with
  | Some (r, h') =>
      Some (if kr_ret r =? -1 then Raise (call_error (kr_errno r)) else Ok (answer (kr_ret r)),
            (mkListener fd false, h'))
  | None => None
  end.

Lemma listener_exchange `{Kernel} {A} (fuel : nat) (fd req : Z) (mem : list Z) (answer : Z → A)
    (h : list event) :
  is_c_int fd → 0 <= req < 2 ^ 32 →
  (Listener_ioctl "linux" fuel req mem ≫= λ x, mret (answer x.1)) (mkListener fd false, h) =
    exchange fuel fd req mem answer h.
Proof.
  intros Hfd Hreq. unfold mbind, M_bind. rewrite listener_ioctl_open by done. unfold exchange.
  destruct (persist _ _ h) as [[r h']|]; [|done]. unfold classify. by destruct (kr_ret r =? -1).
Qed.

(** C31.  [respond], [addfd] and [set_flags] on an open listener send exactly the
    checked message with their own request number, retrying interruptions, and
    hand on what the kernel answers; [addfd] returns the number of the
    descriptor in the target.  A rejected message makes no call. *)
Theorem message_outcome `{Kernel} (fuel : nat) (fd : Z) (h : list event)
    (notif_id error val flags local_fd newfd newfd_flags : pyobj) (Hfd : is_c_int fd) :
  respond "linux" fuel notif_id error val flags (mkListener fd false, h) =
    match respond_request notif_id error val flags with
    | Raise e => Some (Raise e, (mkListener fd false, h))
    | Ok resp => exchange fuel fd 0xC0182101 (SeccompNotifResp_bytes resp) (λ _, tt) h
    end ∧
  addfd "linux" fuel notif_id local_fd flags newfd newfd_flags (mkListener fd false, h) =
    match addfd_request notif_id local_fd flags newfd newfd_flags with
    | Raise e => Some (Raise e, (mkListener fd false, h))
    | Ok req => exchange fuel fd 0x40182103 (SeccompNotifAddfd_bytes req) (λ ret, ret) h
    end ∧
  set_flags "linux" fuel flags (mkListener fd false, h) =
    match int_between 0 (2 ^ 64 - 1) flags with
    | None => Some (Raise (ValueError "fd flags out of range"), (mkListener fd false, h))
    | Some fl => exchange fuel fd 0x40082104 (le_bytes 8 fl) (λ _, tt) h
    end.
Proof.
  split_and!.
  - unfold respond. destruct (respond_request _ _ _ _) as [resp|e]; [|done].
    rewrite bind_lift_ok, <- listener_exchange by done. done.
  - unfold addfd. destruct (addfd_request _ _ _ _ _) as [req|e]; [|done].
    rewrite bind_lift_ok, <- listener_exchange by done. unfold mbind, M_bind.
    by destruct (Listener_ioctl _ _ _ _ _) as [[[[]|] ]|].
  - unfold set_flags. change _U64 with (2 ^ 64 - 1).
    destruct (int_between _ _ flags) as [fl|]; [|done]. cbn [or_raise].
    rewrite bind_lift_ok, <- listener_exchange by done. done.
Qed.

Lemma message_outcome_witness :
  respond (H := demo_kernel) "linux" 3 (PyInt 77) (PyInt 1) (PyInt 0) (PyInt 0) (mkListener 7 false, []) =
    exchange (H := demo_kernel) 3 7 0xC0182101 (SeccompNotifResp_bytes demo_resp) (λ _, tt) [] ∧
  addfd (H := demo_kernel) "linux" 3 (PyInt 77) (PyInt 3) (PyInt 0) (PyInt 0) (PyInt 8)
      (mkListener 7 false, []) =
    Some (Raise (ValueError "newfd_flags accepts only O_CLOEXEC"), (mkListener 7 false, [])) ∧
  set_flags (H := demo_kernel) "linux" 3 (PyInt 0) (mkListener 7 false, []) =
    exchange (H := demo_kernel) 3 7 0x40082104 (le_bytes 8 0) (λ _, tt) [].
Proof.
  apply (message_outcome (H := demo_kernel) 3 7 [] (PyInt 77) (PyInt 1) (PyInt 0) (PyInt 0)
    (PyInt 3) (PyInt 0) (PyInt 8)).
  by vm_compute.
Defined.

(** C39.  [valid] answers True when the kernel confirms the id, False exactly
    when it answers ENOENT, and raises otherwise. *)
Theorem valid_outcome `{Kernel} (fuel : nat) (fd id : Z) (h h' : list event) (r : kreply)
    (Hfd : is_c_int fd) (Hid : 0 <= id < 2 ^ 64)
    (Hr : persist fuel (KIoctl fd 0x40082102 (Buf (le_bytes 8 id))) h = Some (r, h')) :
  valid "linux" fuel (PyInt id) (mkListener fd false, h) =
    Some (if kr_ret r =? -1 then
            if kr_errno r =? ENOENT then Ok false else Raise (call_error (kr_errno r))
          else Ok true, (mkListener fd false, h')).
Proof.
  unfold valid, _check_id, _U64. rewrite int_between_PyInt by lia.
  cbn [or_raise]. rewrite bind_lift_ok. unfold try_except, mbind at 1, M_bind at 1.
  rewrite listener_ioctl_open by done. change (int32 _IOCTL_NOTIF_ID_VALID) with 0x40082102. rewrite Hr.
  unfold classify. destruct (kr_ret r =? -1); [|done]. unfold call_error.
  destruct (Z.eqb_spec (kr_errno r) ENOENT) as [->|Hne]; [done|].
  destruct ((kr_errno r =? ENOSYS) || (kr_errno r =? EOPNOTSUPP)); cbn;
    by rewrite (proj2 (Z.eqb_neq _ _) Hne).
Qed.

Lemma valid_outcome_witness :
  valid (H := demo_kernel) "linux" 3 (PyInt 77) (mkListener 7 false, []) =
    Some (Ok true, (mkListener 7 false,
      [(KIoctl 7 0x40082102 (Buf [77; 0; 0; 0; 0; 0; 0; 0]), KReply (-1) EINTR [77; 0; 0; 0; 0; 0; 0; 0]);
       (KIoctl 7 0x40082102 (Buf [77; 0; 0; 0; 0; 0; 0; 0]), KReply 0 0 [77; 0; 0; 0; 0; 0; 0; 0])])).
Proof.
  apply (valid_outcome (H := demo_kernel) 3 7 77 [] _ (KReply 0 0 [77; 0; 0; 0; 0; 0; 0; 0])).
  - by vm_compute.
  - lia.
  - vm_compute. reflexivity.
Defined.

(** C13.  What the constructor does with the descriptor, on every path.  Whatever
    the way the query of the kernel's structure sizes ends, it touched no
    descriptor.  If the sizes are the package's own, the descriptor is made
    non-inheritable and an open listener returned; if making it so fails, the
    error is raised and the descriptor stays open, with no listener to close it.
    If the query raised or the sizes differ, the descriptor is closed by exactly
    one call and the query's error or [UnsupportedError] raised, or the error of
    that call.  A number that is no C [int] is refused with no call on it. *)
Theorem Listener_init_outcome `{Kernel} (sys_platform machine : string) (fuel : nat) (fd : Z)
    (h h1 : list event) (rs : result NotifSizes)
    (Hs : sizes sys_platform machine fuel h = Some (rs, h1)) :
  (∃ sized, h1 = h ++ sized ∧ Forall is_query sized) ∧
  Listener_init sys_platform machine fuel fd h =
    (if negb (bool_decide (- 2 ^ 31 <= fd < 2 ^ 31)) then
       Some (Raise (OtherError "OverflowError"), h1)
     else if bool_decide (rs = Ok (mkNotifSizes 80 24 64)) then
       on_answer h1 (KSetInheritable fd false) (λ r,
         if kr_ret r =? -1 then Raise (OSError (Some (kr_errno r))) else Ok (mkListener fd false))
     else
       on_answer h1 (KClose fd) (λ r,
         Raise (if kr_ret r =? -1 then OSError (Some (kr_errno r))
                else match rs with Ok _ => UnsupportedError None | Raise e => e end))) ∧
  (∀ res h', Listener_init sys_platform machine fuel fd h = Some (res, h') →
     ∃ new, h' = h ++ new ∧
       closes fd new =
         if bool_decide (- 2 ^ 31 <= fd < 2 ^ 31 ∧ rs ≠ Ok (mkNotifSizes 80 24 64)) then 1%nat
         else 0%nat).
Proof.
  pose proof (only_calls_sizes _ _ _ _ _ _ Hs) as (sized & -> & Hsized).
  split; [by exists sized|].
  pose proof (Listener_init_run sys_platform machine fuel fd h) as Hrun.
  rewrite Hs in Hrun. rewrite Hrun. split; [by apply init_end_cases|].
  intros res h' Hi. exact (init_end_closes _ _ _ _ _ _ Hsized Hi).
Qed.

(** The sizes agree, but the kernel interrupts [os.set_inheritable], which does
    not retry: the descriptor stays open. *)
Definition demo_leaking : Kernel := λ h c,
  match c with
  | KSetInheritable _ _ => Some (KReply (-1) EINTR [])
  | _ => demo_kernel h c
  end.

Definition demo_sized : list event :=
  match sizes (H := demo_leaking) "linux" "x86_64" 3 [] with Some (_, h) => h | None => [] end.

Lemma Listener_init_outcome_witness :
  Listener_init (H := demo_leaking) "linux" "x86_64" 3 7 [] =
    Some (Raise (OSError (Some EINTR)),
      demo_sized ++ [(KSetInheritable 7 false, KReply (-1) EINTR [])]) ∧
  (∃ new, demo_sized ++ [(KSetInheritable 7 false, KReply (-1) EINTR [])] = [] ++ new ∧
     closes 7 new = 0%nat).
Proof.
  destruct (Listener_init_outcome (H := demo_leaking) "linux" "x86_64" 3 7 [] demo_sized
    (Ok (mkNotifSizes 80 24 64))) as (_ & Hrun & Hcl).
  - vm_compute. reflexivity.
  - split; [exact Hrun|]. exact (Hcl _ _ Hrun).
Defined.

(** ** pidfd wrappers *)

(** What the wrappers do with the answer of their system call: a new descriptor
    is made non-inheritable before it is handed out; [os] refuses a number that
    is no descriptor. *)
Definition owned_fd `{Kernel} (r : kreply) (h : list event) : option (result Z * list event) :=
  if kr_ret r =? -1 then Some (Raise (call_error (kr_errno r)), h)
  else if decide (is_c_int (kr_ret r)) then
    on_answer h (KSetInheritable (kr_ret r) false) (λ r',
      if kr_ret r' =? -1 then Raise (OSError (Some (kr_errno r'))) else Ok (kr_ret r))
  else Some (Raise (OtherError "OverflowError"), h).

(** The two numbers are small integers. *)
Lemma pidfd_nr_values machine nrs : _pidfd_nr machine = Ok nrs → nrs = (434, 438).
Proof.
  unfold _pidfd_nr. intros Hn. destruct (dict_get _ _SYS_PIDFD) as [p|] eqn:E; [|done].
  injection Hn as <-. apply dict_get_elem_of in E. unfold _SYS_PIDFD in E.
  rewrite !elem_of_cons, elem_of_nil in E. naive_solver.
Qed.

Lemma owned_call `{Kernel} fuel args cargs h :
  c_ints args = Ok cargs →
  ((('(ret, _) ← _call "linux" fuel args NoPtr; mret ret) ≫= λ fd,
      os_set_inheritable fd false;; mret fd) : M (list event) Z) h =
    match persist fuel (KSyscall cargs NoPtr) h with
    | Some (r, h') => owned_fd r h'
    | None => None
    end.
Proof.
  intros Hc. unfold mbind, M_bind. rewrite (call_persist _ _ _ cargs) by done.
  destruct (persist _ _ h) as [[r h']|]; [|done]. unfold classify, owned_fd.
  destruct (kr_ret r =? -1); [done|]. unfold mret, M_ret. case_decide as Hfd.
  - rewrite os_set_inheritable_run by done. unfold on_answer, os_result.
    destruct (kernel h' _) as [r'|]; [|done]. by destruct (kr_ret r' =? -1).
  - by rewrite os_set_inheritable_overflow.
Qed.

(** C40.  [pidfd_open] and [pidfd_getfd] call the kernel with their own syscall
    number and arguments, refuse a pid that is no 31-bit integer without a
    call, and never return a descriptor that children would inherit.  The other
    arguments are not checked: what the kernel sees is their low 32 bits. *)
Theorem pidfd_outcome `{Kernel} (machine : string) (fuel : nat) (nrs : Z * Z) (pid : pyobj)
    (pidfd fd flags cpidfd cfd cflags : Z) (h : list event) (Hnr : _pidfd_nr machine = Ok nrs)
    (Hpidfd : c_int pidfd = Ok cpidfd) (Hfd : c_int fd = Ok cfd) (Hflags : c_int flags = Ok cflags) :
  Notify.pidfd_open "linux" machine fuel pid flags h =
    match int_between 0 0x7FFFFFFF pid with
    | None => Some (Raise (ValueError "pid out of range"), h)
    | Some p =>
        match persist fuel (KSyscall [nrs.1; p; cflags] NoPtr) h with
        | Some (r, h') => owned_fd r h'
        | None => None
        end
    end ∧
  Notify.pidfd_getfd "linux" machine fuel pidfd fd flags h =
    match persist fuel (KSyscall [nrs.2; cpidfd; cfd; cflags] NoPtr) h with
    | Some (r, h') => owned_fd r h'
    | None => None
    end.
Proof.
  pose proof (pidfd_nr_values _ _ Hnr) as ->. split.
  - unfold Notify.pidfd_open, RawSyscall.pidfd_open.
    destruct (int_between _ _ pid) as [p|] eqn:Hp; [|done]. cbn [or_raise].
    apply int_between_Some in Hp as [_ Hp].
    rewrite <- (owned_call fuel [434; p; flags]), Hnr; [done|].
    unfold c_ints. cbn [fmap list_fmap sequence].
    rewrite (c_int_id p), Hflags by (unfold is_c_int; lia). done.
  - unfold Notify.pidfd_getfd, RawSyscall.pidfd_getfd.
    rewrite <- (owned_call fuel [438; pidfd; fd; flags]), Hnr; [done|].
    unfold c_ints. cbn [fmap list_fmap sequence]. by rewrite Hpidfd, Hfd, Hflags.
Qed.

(** The descriptor [2 ^ 32 + 6] is taken for descriptor 6. *)
Lemma pidfd_outcome_witness :
  Notify.pidfd_open (H := demo_kernel) "linux" "x86_64" 3 (PyInt 4242) 0 [] =
    Some (Ok 0, [(KSyscall [434; 4242; 0] NoPtr, KReply (-1) EINTR []);
                 (KSyscall [434; 4242; 0] NoPtr, KReply 0 0 []);
                 (KSetInheritable 0 false, KReply 0 0 [])]) ∧
  Notify.pidfd_getfd (H := demo_kernel) "linux" "x86_64" 3 5 (2 ^ 32 + 6) 0 [] =
    Some (Ok 0, [(KSyscall [438; 5; 6; 0] NoPtr, KReply (-1) EINTR []);
                 (KSyscall [438; 5; 6; 0] NoPtr, KReply 0 0 []);
                 (KSetInheritable 0 false, KReply 0 0 [])]).
Proof.
  apply (pidfd_outcome (H := demo_kernel) "x86_64" 3 (434, 438) (PyInt 4242) 5 (2 ^ 32 + 6) 0 5 6 0 []);
    reflexivity.
Defined.
