(* ===== verification/NotifyLife.v ===== *)
(** * The life of a listener

    Any sequence of method calls on a listener, whatever they are given and
    whatever the kernel answers, uses its descriptor only while the listener is
    open, and closes it successfully at most once. *)

From S2P Require Import Prelude PyBytes CInt Structs Effects RawSyscall Notify NotifyFacts Demo.

(** One method call with its arguments. *)
Inductive listener_call :=
| LFileno
| LRecv
| LRespond (notif_id error val flags : pyobj)
| LAddfd (notif_id local_fd flags newfd newfd_flags : pyobj)
| LValid (notif_id : pyobj)
| LSetFlags (flags : pyobj)
| LClose
| LEnter
| LExit
| LDel.

#[export] Instance listener_call_eq_dec : EqDecision listener_call.
Proof. solve_decision. Defined.

Section life.
Context (sys_platform : string) (fuel : nat) `{Kernel}.
Abbreviation Method := (M (Listener * list event)).

Definition run_listener_call (c : listener_call) : Method unit :=
  match c with
  | LFileno => fileno;; mret tt
  | LRecv => recv sys_platform fuel;; mret tt
  | LRespond i e v f => respond sys_platform fuel i e v f
  | LAddfd i l f n nf => addfd sys_platform fuel i l f n nf;; mret tt
  | LValid i => valid sys_platform fuel i;; mret tt
  | LSetFlags f => set_flags sys_platform fuel f
  | LClose => close
  | LEnter => __enter__
  | LExit => __exit__
  | LDel => __del__
  end.

(** A call that returned or raised; the caller may go on either way. *)
Definition listener_step (s s' : Listener * list event) : Prop :=
  ∃ c r, run_listener_call c s = Some (r, s').

(** ** Methods that leave the object alone *)

(** Starting with the object [o], [m] keeps it and only issues ioctls on its
    descriptor, none if it is closed. *)
Definition keeps {A} (o : Listener) (m : Method A) : Prop :=
  ∀ h r s', m (o, h) = Some (r, s') →
    ∃ new, s' = (o, h ++ new) ∧ Forall (λ ev, _closed o = false ∧ is_ioctl (_fd o) ev) new.

Lemma keeps_lift {A} o (r : result A) : keeps o (lift r).
Proof. intros h r' s' [= <- <-]. exists []. by rewrite app_nil_r. Qed.

Lemma keeps_ret {A} o (a : A) : keeps o (mret a).
Proof. apply (keeps_lift o (Ok a)). Qed.

Lemma keeps_raise {A} o e : keeps o (raise e : Method A).
Proof. apply (keeps_lift o (Raise e)). Qed.

Lemma keeps_bind {A B} o (m : Method A) (f : A → Method B) :
  keeps o m → (∀ a, keeps o (f a)) → keeps o (m ≫= f).
Proof.
  intros Hm Hf h r s' [(a & s1 & H1 & H2)|(e & H1 & _)]%bind_inv; [|by eapply Hm].
  apply Hm in H1 as (n1 & -> & Hn1). apply Hf in H2 as (n2 & -> & Hn2).
  exists (n1 ++ n2). by rewrite app_assoc, Forall_app.
Qed.

Lemma keeps_get {B} o (f : Listener → Method B) : keeps o (f o) → keeps o (get_self ≫= f).
Proof. intros Hf h r s'. rewrite bind_get_self. apply Hf. Qed.

Lemma keeps_try {A} o (m : Method A) g :
  keeps o m → (∀ e, keeps o (g e)) → keeps o (try_except m g).
Proof.
  intros Hm Hg h r s' [(a & H1 & _)|(e & s1 & H1 & H2)]%try_inv; [by eapply Hm|].
  apply Hm in H1 as (n1 & -> & Hn1). apply Hg in H2 as (n2 & -> & Hn2).
  exists (n1 ++ n2). by rewrite app_assoc, Forall_app.
Qed.

Lemma keeps_ioctl o req arg : keeps o (Listener_ioctl sys_platform fuel req arg).
Proof.
  apply keeps_get. destruct (_closed o) eqn:E; cbn [raise_if].
  { intros h r s' [= <- <-]. exists []. by rewrite app_nil_r. }
  intros h r s'. rewrite bind_lift_ok. intros (h' & H1 & ->)%run_kernel_Some.
  destruct (only_calls_ioctl _ _ _ _ _ _ _ _ H1) as (new & -> & Hnew).
  exists new. split; [done|]. eapply Forall_impl; [exact Hnew|]. auto.
Qed.

#[local] Hint Resolve keeps_lift keeps_ret keeps_raise keeps_ioctl : effects.

#[local] Ltac keep := repeat (apply keeps_bind; [auto with effects|intros []]); auto with effects.

(** Every method but the three that close. *)
Lemma keeps_call c o :
  match c with LClose | LExit | LDel => True | _ => keeps o (run_listener_call c) end.
Proof.
  destruct c as [| |i e v f|i l f n nf|i|f| | | |]; cbn [run_listener_call]; try done.
  - apply keeps_bind; [|auto with effects]. apply keeps_get. keep.
  - apply keeps_bind; [|auto with effects]. apply keeps_bind; [auto with effects|].
    intros [ret mem]. auto with effects.
  - apply keeps_bind; [auto with effects|]. intros resp. keep.
  - apply keeps_bind; [|auto with effects]. apply keeps_bind; [auto with effects|].
    intros req. apply keeps_bind; [auto with effects|]. intros [ret mem]. auto with effects.
  - apply keeps_bind; [|auto with effects]. apply keeps_bind; [auto with effects|].
    intros id. apply keeps_try; [keep|]. intros e. repeat case_match; auto with effects.
  - apply keeps_bind; [auto with effects|]. intros fl. keep.
  - apply keeps_get. auto with effects.
Qed.

(** ** Closing *)

Lemma close_run fd closed h :
  is_c_int fd →
  close (mkListener fd closed, h) =
    if closed then Some (Ok tt, (mkListener fd true, h))
    else match kernel h (KClose fd) with
         | Some r =>
             Some (os_result r, (mkListener fd (negb (kr_ret r =? -1)), h ++ [(KClose fd, r)]))
         | None => None
         end.
Proof.
  intros Hfd. unfold close. rewrite bind_get_self. cbn [_closed _fd]. destruct closed; [done|].
  rewrite bind_run_kernel, os_close_run by done. unfold on_answer, os_result.
  destruct (kernel h _) as [r|]; [|done]. by destruct (kr_ret r =? -1).
Qed.

Lemma closing_call c fd closed h r s' :
  c = LClose ∨ c = LExit ∨ c = LDel →
  run_listener_call c (mkListener fd closed, h) = Some (r, s') →
  ∃ r0, close (mkListener fd closed, h) = Some (r0, s').
Proof.
  intros [->|[->| ->]]; cbn [run_listener_call]; [by eauto..|].
  intros [(a & H1 & _)|(e & s1 & H1 & H2)]%try_inv; [by eauto|].
  injection H2 as _ <-. eauto.
Qed.

(** What may have happened on the descriptor before it was closed: ioctls and
    failed attempts to close it. *)
Definition before_close (fd : Z) (ev : event) : Prop :=
  is_ioctl fd ev ∨ ev.1 = KClose fd ∧ kr_ret ev.2 = -1.

(** The history of the descriptor up to a state of the listener. *)
Definition descriptor_history (fd : Z) (l : Listener) (new : list event) : Prop :=
  _fd l = fd ∧
  if _closed l then
    ∃ pre r, new = pre ++ [(KClose fd, r)] ∧ kr_ret r ≠ -1 ∧ Forall (before_close fd) pre
  else Forall (before_close fd) new.

Lemma descriptor_step fd l h0 new l' h' :
  is_c_int fd → descriptor_history fd l new → listener_step (l, h0 ++ new) (l', h') →
  ∃ new', h' = h0 ++ new' ∧ descriptor_history fd l' new'.
Proof.
  intros Hint [Hfd Hl] (c & r & Hc).
  destruct (decide (c = LClose ∨ c = LExit ∨ c = LDel)) as [Hcl|Hcl].
  - destruct l as [fd' closed]. cbn in Hfd. subst fd'.
    apply closing_call in Hc as [r0 Hc]; [|done]. rewrite close_run in Hc by done. cbn [_closed] in Hl.
    destruct closed; [by injection Hc as _ <- <-; exists new|].
    destruct (kernel _ _) as [rc|]; [|done]. injection Hc as _ <- <-.
    eexists (new ++ [(KClose fd, _)]). split; [by rewrite app_assoc|]. split; [done|]. cbn [_closed].
    destruct (kr_ret rc =? -1) eqn:E; cbn [negb]; bool_to_prop.
    + apply Forall_app. split; [done|]. apply Forall_singleton. by right.
    + by eexists _, _.
  - pose proof (keeps_call c l) as Hk.
    destruct c; try (exfalso; apply Hcl; auto; fail);
      (destruct (Hk _ _ _ Hc) as (more & [= -> ->] & Hmore);
       exists (new ++ more); split; [by rewrite app_assoc|]; split; [done|];
       destruct (_closed l);
       [destruct more as [|ev more]; [by rewrite app_nil_r|by apply Forall_cons in Hmore as [[? _] _]]
       |apply Forall_app; split; [done|]; eapply Forall_impl; [exact Hmore|];
        intros ev [_ He]; left; by rewrite <- Hfd]).
Qed.
End life.

(** No failed close among these events: then a closed descriptor was closed by
    one call, an open one by none. *)
Lemma before_close_none fd evs :
  Forall (before_close fd) evs → Forall (λ ev, ev.1 = KClose fd → kr_ret ev.2 ≠ -1) evs →
  closes fd evs = 0%nat.
Proof.
  intros Hb Hn. apply closes_none. apply Forall_forall. intros ev Hin Hev.
  rewrite Forall_forall in Hb, Hn. specialize (Hn _ Hin Hev).
  destruct (Hb _ Hin) as [(req & ptr & E)|[_ E]]; congruence.
Qed.

Lemma descriptor_closes fd l new :
  descriptor_history fd l new → Forall (λ ev, ev.1 = KClose fd → kr_ret ev.2 ≠ -1) new →
  closes fd new = if _closed l then 1%nat else 0%nat.
Proof.
  intros [_ Hl] Hn. destruct (_closed l); [|by apply before_close_none].
  destruct Hl as (pre & r & -> & _ & Hpre). apply Forall_app in Hn as [Hn _].
  rewrite closes_app, (before_close_none _ _ Hpre Hn). unfold closes. by rewrite filter_cons_True.
Qed.

(** C10.  The descriptor is used only while the listener is open, and one
    successful close ends its life.  Take an open listener and any sequence of
    method calls, successful or not, with any arguments and any answers of the
    kernel.  While the listener is open its history holds ioctls on its own
    descriptor and attempts to close it that the kernel answered with a failure;
    once it is closed, the one successful close is the last event.  An attempt
    that fails leaves the listener open, so that a later call may close the
    descriptor again; if no attempt fails, the descriptor is closed by exactly
    one call once the listener is closed, and by none before. *)
Theorem listener_descriptor `{Kernel} (sys_platform : string) (fuel : nat) (fd : Z)
    (h0 h : list event) (l : Listener) (Hfd : is_c_int fd)
    (Hs : rtc (listener_step sys_platform fuel) (mkListener fd false, h0) (l, h)) :
  ∃ new, h = h0 ++ new ∧ _fd l = fd ∧
    (if _closed l then
       ∃ pre r, new = pre ++ [(KClose fd, r)] ∧ kr_ret r ≠ -1 ∧ Forall (before_close fd) pre
     else Forall (before_close fd) new) ∧
    (Forall (λ ev, ev.1 = KClose fd → kr_ret ev.2 ≠ -1) new →
     closes fd new = if _closed l then 1%nat else 0%nat).
Proof.
  assert (∀ s s', rtc (listener_step sys_platform fuel) s s' →
    ∀ new, s.2 = h0 ++ new → descriptor_history fd s.1 new →
    ∃ new', s'.2 = h0 ++ new' ∧ descriptor_history fd s'.1 new') as Hinv.
  { induction 1 as [s|[l1 h1] [l2 h2] s3 Hstep _ IH]; intros new Hh Hd; [by exists new|].
    cbn in Hh. subst h1. destruct (descriptor_step _ _ _ _ _ _ _ _ Hfd Hd Hstep) as (new' & -> & Hd').
    by apply (IH new'). }
  destruct (Hinv _ _ Hs []) as (new & Hh & Hd); [by rewrite app_nil_r|split; [done|constructor]|].
  pose proof (descriptor_closes _ _ _ Hd). destruct Hd. exists new. by split_and!.
Qed.

(** The demonstration kernel fails a first [close]. *)
Lemma listener_descriptor_witness :
  ∃ new, [(KClose 7, KReply (-1) EINTR []); (KClose 7, KReply 0 0 [])] = [] ++ new ∧ 7 = 7 ∧
    (∃ pre r, new = pre ++ [(KClose 7, r)] ∧ kr_ret r ≠ -1 ∧ Forall (before_close 7) pre) ∧
    (Forall (λ ev, ev.1 = KClose 7 → kr_ret ev.2 ≠ -1) new → closes 7 new = 1%nat).
Proof.
  apply (listener_descriptor (H := demo_kernel) "linux" 3 7 []
    [(KClose 7, KReply (-1) EINTR []); (KClose 7, KReply 0 0 [])] (mkListener 7 true)).
  { by vm_compute. }
  eapply rtc_l; [exists LClose; eexists; vm_compute; reflexivity|].
  eapply rtc_l; [exists LClose; eexists; vm_compute; reflexivity|].
  eapply rtc_l; [exists LDel; eexists; vm_compute; reflexivity|].
  apply rtc_refl.
Defined.

(** C32.  A closed listener does nothing.  Every method ends without a kernel
    call and leaves it closed; [close], [__exit__] and [__del__] succeed, all
    others raise. *)
Theorem closed_listener_inert `{Kernel} (sys_platform : string) (fuel : nat) (fd : Z)
    (h : list event) (c : listener_call) :
  ∃ r, run_listener_call sys_platform fuel c (mkListener fd true, h) =
      Some (r, (mkListener fd true, h)) ∧
    (is_ok r = true ↔ c = LClose ∨ c = LExit ∨ c = LDel).
Proof.
  destruct c as [| |i e v f|i l f n nf|i|f| | | |]; cbn [run_listener_call].
  3: { unfold respond. destruct (respond_request _ _ _ _); eexists; split; [reflexivity|naive_solver..]. }
  3: { unfold addfd. destruct (addfd_request _ _ _ _ _); eexists; split; [reflexivity|naive_solver..]. }
  3: { unfold valid. destruct (_check_id i); eexists; split; [reflexivity|naive_solver..]. }
  3: { unfold set_flags. destruct (int_between _ _ f); eexists; split; [reflexivity|naive_solver..]. }
  all: eexists; split; [reflexivity|naive_solver].
Qed.
