(* ===== verification/Installed.v ===== *)
(** * What a history leaves installed

    The kernel's side of a load, as seccomp(2) documents it: which requests of a
    history installed a program, which listener descriptors they handed out, and
    how much of the limit on installed instructions is used.  The requests are
    those of [_syscall.py]; everything here is specification. *)

From S2P Require Import Prelude PyBytes CInt Filter Effects RawSyscall NotifyFacts.

(** ** Requests *)

(** The request that installs [prog]; the flags arrive as a C [int]. *)
Definition install (nr flags : Z) (prog : list Z) : kcall :=
  KSyscall [nr; SECCOMP_SET_MODE_FILTER; int32 flags]
    (Fprog ((Z.of_nat (length prog) / 8) mod 2 ^ 16) prog).

Definition no_new_privs_call : kcall := KPrctl [PR_SET_NO_NEW_PRIVS; 1; 0; 0; 0].

(** An answered [call] at the end of [evs], after interruptions of itself. *)
Definition answered (call : kcall) (evs : list event) (r : kreply) : Prop :=
  ∃ tries, evs = tries ++ [(call, r)] ∧
    Forall (λ ev, ev.1 = call ∧ interrupted ev.2 = true) tries.

Lemma persist_answered `{Kernel} fuel c h r h' :
  (∀ mem, again c mem = c) → persist fuel c h = Some (r, h') →
  ∃ evs, h' = h ++ evs ∧ answered c evs r.
Proof.
  intros Ha Hp. destruct (persist_history _ _ _ _ _ Hp) as (tries & c' & -> & Hc & Ht).
  eexists. split; [done|]. exists tries. split.
  - by destruct Hc as [->|[mem ->]]; rewrite ?Ha.
  - eapply Forall_impl; [exact Ht|]. intros ev [Hi He]. split; [|done].
    by destruct He as [->|[mem ->]]; rewrite ?Ha.
Qed.

(** ** Flags *)

(** The flag is among the flags of a filter. *)
Definition asks (flag flags : Z) : bool := negb (Z.land flags flag =? 0).

(** A flag that fits a C [int] arrives with the flags. *)
Lemma asks_int32 flag flags :
  0 <= flag < 2 ^ 31 → asks flag (int32 flags) = asks flag flags.
Proof.
  intros Hf. unfold asks. do 2 f_equal. apply Z.bits_inj'. intros n Hn. rewrite !Z.land_spec.
  destruct (Z.lt_ge_cases n 32) as [Hlt|Hge].
  - rewrite <- (Z.mod_pow2_bits_low (int32 flags) 32) by done.
    rewrite to_signed_low, Z.mod_pow2_bits_low by done. done.
  - assert (Z.testbit flag n = false) as ->; [|by rewrite !andb_false_r].
    destruct (Z.eq_dec flag 0) as [->|Hne]; [apply Z.bits_0|].
    apply Z.bits_above_log2; [lia|]. apply Z.lt_le_trans with 32; [|done].
    apply Z.log2_lt_pow2; lia.
Qed.

(** ** Installed programs *)

(** A positive answer that reports a thread that could not be synchronised:
    with TSYNC, unless TSYNC_ESRCH asks for an errno instead. *)
Definition tsync_failed (flags ret : Z) : bool :=
  asks FLAG_TSYNC flags && negb (asks FLAG_TSYNC_ESRCH flags) && negb (ret =? 0).

(** The program an answered request installed. *)
Definition installed_by (nr : Z) (ev : event) : option (list Z) :=
  match ev with
  | (KSyscall [n; op; flags] (Fprog _ prog), r) =>
      if (n =? nr) && (op =? SECCOMP_SET_MODE_FILTER) && negb (kr_ret r =? -1) &&
         negb (tsync_failed flags (kr_ret r))
      then Some prog else None
  | _ => None
  end.

(** The programs a history installed, in order. *)
Definition filters_of (nr : Z) (h : list event) : list (list Z) := omap (installed_by nr) h.

(** The listener descriptor an answered request handed out. *)
Definition listener_by (nr : Z) (ev : event) : option Z :=
  match installed_by nr ev, ev with
  | Some _, (KSyscall [_; _; flags] _, r) =>
      if asks FLAG_NEW_LISTENER flags then Some (kr_ret r) else None
  | _, _ => None
  end.

Definition listeners_of (nr : Z) (h : list event) : list Z := omap (listener_by nr) h.

(** [fd] is a listener descriptor of the process: an installation handed it out
    and it was not closed since. *)
Definition holds (nr : Z) (h : list event) (fd : Z) : Prop :=
  ∃ pre ev post, h = pre ++ ev :: post ∧ listener_by nr ev = Some fd ∧
    Forall (λ ev, ev.1 ≠ KClose fd) post.

(** The instructions of the installed programs as the kernel counts them: four
    more for each program. *)
Definition path_insns (progs : list (list Z)) : Z :=
  foldr (λ prog n, Z.of_nat (length prog) / 8 + 4 + n) 0 progs.

Definition MAX_INSNS_PER_PATH : Z := 32768.

(** no_new_privs was set. *)
Definition granted (h : list event) : Prop :=
  Exists (λ ev, ev.1 = no_new_privs_call ∧ kr_ret ev.2 = 0) h.

(** ** What the events of a load install *)

Lemma filters_of_app nr h1 h2 : filters_of nr (h1 ++ h2) = filters_of nr h1 ++ filters_of nr h2.
Proof. unfold filters_of. apply omap_app. Qed.

Lemma listeners_of_app nr h1 h2 :
  listeners_of nr (h1 ++ h2) = listeners_of nr h1 ++ listeners_of nr h2.
Proof. unfold listeners_of. apply omap_app. Qed.

Lemma filters_of_none nr evs :
  Forall (λ ev, installed_by nr ev = None) evs → filters_of nr evs = [].
Proof. unfold filters_of. induction 1 as [|ev evs He _ IH]; [done|]. cbn. by rewrite He. Qed.

Lemma listeners_of_none nr evs :
  Forall (λ ev, installed_by nr ev = None) evs → listeners_of nr evs = [].
Proof.
  unfold listeners_of, listener_by. induction 1 as [|ev evs He _ IH]; [done|]. cbn. by rewrite He.
Qed.

(** A failed request installs nothing, nor does any other call. *)
Lemma failed_installs nr c r : kr_ret r = -1 → installed_by nr (c, r) = None.
Proof.
  intros Hr. cbn. rewrite Hr, Z.eqb_refl. cbn [negb].
  repeat case_match; try done. by rewrite andb_false_r in *.
Qed.

Lemma queries_install nr evs :
  Forall is_query evs → Forall (λ ev, installed_by nr ev = None) evs.
Proof.
  intros Hq. eapply Forall_impl; [exact Hq|]. intros [c r] (args & mem & E). cbn in E. subst c.
  cbn. by repeat case_match.
Qed.

Lemma privs_install nr evs r :
  answered no_new_privs_call evs r → Forall (λ ev, installed_by nr ev = None) evs.
Proof.
  intros (tries & -> & Ht). apply Forall_app. split; [|by apply Forall_singleton].
  eapply Forall_impl; [exact Ht|]. intros [c r'] [E _]. cbn in E. by subst c.
Qed.

(** The request installs its program unless it fails or reports a thread. *)
Lemma install_installs nr flags prog r :
  kr_ret r ≠ -1 →
  installed_by nr (install nr flags prog, r) =
    if tsync_failed flags (kr_ret r) then None else Some prog.
Proof.
  intros Hr. cbn. rewrite !Z.eqb_refl, (proj2 (Z.eqb_neq _ _) Hr).
  unfold tsync_failed. rewrite !asks_int32 by done. rewrite andb_true_r.
  by destruct (asks _ _ && _ && _).
Qed.

(** An answered request and the interrupted attempts before it. *)
Lemma answered_install nr flags prog evs r :
  answered (install nr flags prog) evs r → kr_ret r ≠ -1 →
  ∃ tries, evs = tries ++ [(install nr flags prog, r)] ∧
    Forall (λ ev, installed_by nr ev = None) tries.
Proof.
  intros (tries & -> & Ht) Hr. exists tries. split; [done|].
  eapply Forall_impl; [exact Ht|]. intros [c r'] [_ Hi]. apply failed_installs.
  unfold interrupted in Hi. apply andb_prop in Hi as [Hi _]. by apply Z.eqb_eq.
Qed.

Lemma answered_install_filters nr flags prog evs r :
  answered (install nr flags prog) evs r → kr_ret r ≠ -1 →
  filters_of nr evs = if tsync_failed flags (kr_ret r) then [] else [prog].
Proof.
  intros Ha Hr. destruct (answered_install _ _ _ _ _ Ha Hr) as (tries & -> & Ht).
  rewrite filters_of_app, (filters_of_none _ _ Ht). cbn [filters_of omap list_omap app].
  rewrite install_installs by done. by destruct (tsync_failed _ _).
Qed.

Lemma granted_answered h evs r :
  answered no_new_privs_call evs r → kr_ret r = 0 → granted (h ++ evs).
Proof.
  intros (tries & -> & _) Hr. apply Exists_app. right. apply Exists_app. right. by constructor.
Qed.

(** Before the program is installed, nothing has changed. *)
Lemma granted_same nr h evs r :
  answered no_new_privs_call evs r →
  filters_of nr (h ++ evs) = filters_of nr h ∧ listeners_of nr (h ++ evs) = listeners_of nr h.
Proof.
  intros Hp%(privs_install nr). rewrite filters_of_app, listeners_of_app.
  by rewrite (filters_of_none _ _ Hp), (listeners_of_none _ _ Hp), !app_nil_r.
Qed.

(** An installation that was asked for a listener hands out its descriptor. *)
Lemma install_holds nr h flags prog evs r :
  answered (install nr flags prog) evs r → kr_ret r ≠ -1 →
  tsync_failed flags (kr_ret r) = false → asks FLAG_NEW_LISTENER flags = true →
  holds nr (h ++ evs) (kr_ret r).
Proof.
  intros Ha Hr Ht Hn. destruct (answered_install _ _ _ _ _ Ha Hr) as (tries & -> & _).
  exists (h ++ tries), (install nr flags prog, r), []. split_and!; [by rewrite <- app_assoc| |done].
  unfold listener_by. rewrite install_installs, Ht by done. unfold install.
  by rewrite asks_int32, Hn.
Qed.

(** It keeps it while nothing closes it. *)
Lemma holds_app nr h fd evs :
  holds nr h fd → Forall (λ ev, ev.1 ≠ KClose fd) evs → holds nr (h ++ evs) fd.
Proof.
  intros (pre & ev & post & -> & Hev & Hpost) Hevs. exists pre, ev, (post ++ evs).
  split_and!; [by rewrite <- app_assoc|done|]. by apply Forall_app.
Qed.
