(* ===== verification/Display.v ===== *)
(** * What objects show of themselves

    The [repr] of a filter and of a listener, and what it says: it determines the
    values printed, and the rule count of a filter is the number of rules that
    were added to it. *)

From Stdlib Require Import Ascii.
From S2P Require Import Prelude PyFormat PyDict Syscalls Filter FilterApi FilterLife Structs Notify.

Lemma string_app_inj (a b b' : string) : a +:+ b = a +:+ b' → b = b'.
Proof. induction a as [|c a IH]; cbn; [done|]. intros [= H]. auto. Qed.

(** Adding one rule. *)
Lemma rule_count_append nr r rules :
  sum_list_with (λ entry : Z * list _Rule, length entry.2) (dict_append nr r rules) =
    S (sum_list_with (λ entry : Z * list _Rule, length entry.2) rules).
Proof.
  unfold dict_append. induction rules as [|[k rs] rules IH]; cbn [dict_get dict_set sum_list_with]; [done|].
  case_decide as Hk; cbn [sum_list_with snd].
  - cbn [default from_option id]. rewrite length_app. cbn. lia.
  - rewrite IH. lia.
Qed.

Lemma apply_call_count machine f c f' :
  apply_call machine f c = Ok f' → rule_count f' = S (rule_count f).
Proof.
  intros (data & _ & (_ & nr & conds & _ & _ & ->)%add_ok)%apply_call_ok. apply rule_count_append.
Qed.

(** The [repr] of an object shows its state.  Two filters of one class print
    alike exactly if they agree on the default action, the number of rules and
    whether they are loaded; two listeners, if they have the same descriptor and
    are both open or both closed; the default action can be read back from its
    hexadecimal form. *)
Theorem repr_shows_state (cls : string) (f g : Filter) (l m : Listener) :
  (Filter_repr cls f = Filter_repr cls g ↔
    Filter_default f = Filter_default g ∧ rule_count f = rule_count g ∧
    Filter_loaded f = Filter_loaded g) ∧
  (Listener_repr cls l = Listener_repr cls m ↔
    _fd l = _fd m ∧ Listener_closed l = Listener_closed m) ∧
  py_of_hex (py_hex (Filter_default f)) = Some (Filter_default f).
Proof.
  unfold Filter_default, Filter_loaded, Listener_closed. split_and!; [| |apply py_hex_read].
  - unfold Filter_repr. split; [|by intros (-> & -> & ->)].
    intros H%string_app_inj%string_app_inj.
    change (", rules=" +:+ ?s) with (String "," (" rules=" +:+ s)) in H.
    apply split_char in H as [Hd H]; [|apply py_hex_no; cbn; set_solver..].
    apply py_hex_inj in Hd. apply string_app_inj in H.
    change (", " +:+ ?s) with (String "," (" " +:+ s)) in H.
    apply split_char in H as [Hn H]; [|by apply pretty_nat_no..].
    apply pretty_nat_inj in Hn. split_and!; [done..|]. by destruct (_loaded f), (_loaded g).
  - unfold Listener_repr. split; [|by intros (-> & ->)].
    intros H%string_app_inj%string_app_inj.
    change (", " +:+ ?s) with (String "," (" " +:+ s)) in H.
    apply split_char in H as [Hn H]; [|by apply pretty_Z_no..].
    apply pretty_Z_inj in Hn. split; [done|]. by destruct (_closed l), (_closed m).
Qed.

(** The rules a filter counts are those its methods added: a new filter has
    none, every successful rule method adds one, and neither compiling nor
    loading changes the number. *)
Theorem rule_count_calls (machine : string) (default flags : pyobj) (f f' : Filter)
    (calls : list rule_call) (Hi : Filter_init default flags = Ok f)
    (Hc : foldM (apply_call machine) f calls = Ok f') :
  rule_count f' = length calls ∧ rule_count (program machine f').1 = length calls ∧
  rule_count (set_loaded f') = length calls.
Proof.
  assert (∀ g, foldM (apply_call machine) g calls = Ok f' →
    rule_count f' = (rule_count g + length calls)%nat) as Hfold.
  { clear. induction calls as [|c calls IH]; intros g; cbn [foldM length].
    - intros [= ->]. lia.
    - intros (g' & Hg & Hc)%bind_ok. rewrite (IH _ Hc), (apply_call_count _ _ _ _ Hg). lia. }
  assert (rule_count f' = length calls) as Hn.
  { rewrite (Hfold _ Hc). unfold Filter_init in Hi. inv_ok. done. }
  split_and!; [done| |done]. unfold rule_count in *.
  by destruct (program_fields machine f') as (_ & _ & -> & _).
Qed.

Lemma rule_count_calls_witness :
  rule_count (mkFilter 0x7FFF0000 0 [(101, [mkRule 0x80000000 []]); (0, [mkRule 0 []])] None false) = 2%nat ∧
  rule_count (program "x86_64"
    (mkFilter 0x7FFF0000 0 [(101, [mkRule 0x80000000 []]); (0, [mkRule 0 []])] None false)).1 = 2%nat ∧
  rule_count (set_loaded
    (mkFilter 0x7FFF0000 0 [(101, [mkRule 0x80000000 []]); (0, [mkRule 0 []])] None false)) = 2%nat.
Proof.
  apply (rule_count_calls "x86_64" (PyInt 0x7FFF0000) (PyInt 0) (mkFilter 0x7FFF0000 0 [] None false)
    _ [CallKill (SysName "ptrace") NoArgs; CallKillThread (SysName "read") NoArgs]).
  - reflexivity.
  - vm_compute. reflexivity.
Defined.
