(* ===== verification/LoadTheorems.v ===== *)
(** * What loading promises

    A load that returns has set no_new_privs and handed the kernel exactly the
    compiled program and the flags of the filter, in that order, and the filter
    is frozen; one that raises before the kernel accepted the program leaves the
    filter usable.  The exception is the TSYNC flag, whose failure report is
    taken for success. *)

From S2P Require Import Prelude PyBytes CInt Machine BpfSem Syscalls Structs Filter FilterSpec.
From S2P Require Import FilterCompile FilterApi FilterLife Effects RawSyscall RawTheorems.
From S2P Require Import Notify NotifyFacts Installed Load Demo.

Section load.
Context (sys_platform machine : string) (fuel : nat) `{Kernel}.

Lemma no_new_privs_answered h res h' :
  set_no_new_privs sys_platform fuel h = Some (res, h') →
  (∃ r evs, h' = h ++ evs ∧ answered no_new_privs_call evs r ∧
     res = if kr_ret r =? -1 then Raise (SeccompError (kr_errno r)) else Ok tt) ∨
  (∃ e, res = Raise e ∧ h' = h).
Proof.
  intros Hp. destruct (_get_libc sys_platform) as [[]|e] eqn:Hl.
  - left. rewrite no_new_privs_persist in Hp by done.
    destruct (persist _ _ h) as [[r h1]|] eqn:E; [|done]. injection Hp as <- <-.
    apply persist_answered in E as (evs & -> & Ha); [|done]. by exists r, evs.
  - right. destruct fuel as [|n]; [done|]. cbn [set_no_new_privs] in Hp. rewrite Hl in Hp.
    rewrite bind_lift_raise in Hp. injection Hp as <- <-. by exists e.
Qed.

Lemma call_answered args ptr h res h' :
  (∀ cargs mem, again (KSyscall cargs ptr) mem = KSyscall cargs ptr) →
  _call sys_platform fuel args ptr h = Some (res, h') →
  (∃ cargs r evs, c_ints args = Ok cargs ∧ h' = h ++ evs ∧
     answered (KSyscall cargs ptr) evs r ∧ res = classify r) ∨
  (∃ e, res = Raise e ∧ h' = h).
Proof.
  intros Ha Hp. destruct (_get_libc sys_platform) as [[]|e] eqn:Hl.
  - destruct (c_ints args) as [cargs|e] eqn:Hc.
    2: { right. destruct fuel as [|n]; [done|]. rewrite (call_bad_args _ _ _ _ e) in Hp by done.
         injection Hp as <- <-. by exists e. }
    left. rewrite (call_persist _ _ _ cargs) in Hp by done.
    destruct (persist _ _ h) as [[r h1]|] eqn:E; [|done]. injection Hp as <- <-.
    apply persist_answered in E as (evs & -> & Ha'); [|done]. by exists cargs, r, evs.
  - right. destruct fuel as [|n]; [done|]. cbn [_call] in Hp. rewrite Hl in Hp.
    rewrite bind_lift_raise in Hp. injection Hp as <- <-. by exists e.
Qed.

(** The arguments as they arrive. *)
Lemma install_args nr op flags cargs :
  _seccomp_nr machine = Ok nr → is_c_int op →
  c_ints [nr; op; flags] = Ok cargs → cargs = [nr; op; int32 flags].
Proof.
  intros Hn Ho Hc. unfold c_ints in Hc. cbn [fmap list_fmap sequence] in Hc.
  rewrite (seccomp_nr_c_int _ _ Hn), (c_int_id _ Ho) in Hc. cbn in Hc. destruct (c_int flags) as [cf|] eqn:Hf; [|done].
  cbn in Hc. injection Hc as <-. by apply c_int_ok in Hf as [_ ->].
Qed.

(** A program is installed by one answered request, or no call was made. *)
Lemma set_mode_filter_answered prog flags h res h' :
  set_mode_filter sys_platform machine fuel prog flags h = Some (res, h') →
  (∃ nr r evs, _seccomp_nr machine = Ok nr ∧ h' = h ++ evs ∧
     answered (install nr flags prog) evs r ∧
     Z.of_nat (length prog) mod 8 = 0 ∧ 1 <= Z.of_nat (length prog) / 8 <= 4096 ∧
     res = if kr_ret r =? -1 then Raise (call_error (kr_errno r)) else Ok (kr_ret r)) ∨
  (∃ e, res = Raise e ∧ h' = h).
Proof.
  unfold set_mode_filter. intros Hp.
  destruct (_ || _) eqn:E1; cbn [raise_if] in Hp.
  { right. rewrite bind_lift_raise in Hp. injection Hp as <- <-. by eexists. }
  rewrite bind_lift_ok in Hp. destruct (4096 <? _) eqn:E2; cbn [raise_if] in Hp.
  { right. rewrite bind_lift_raise in Hp. injection Hp as <- <-. by eexists. }
  rewrite bind_lift_ok in Hp. unfold _seccomp in Hp.
  destruct (_seccomp_nr machine) as [nr|e] eqn:Hnr.
  2: { right. injection Hp as <- <-. by exists e. }
  bool_to_prop. pose proof (Z.div_mod (Z.of_nat (length prog)) 8).
  apply bind_inv in Hp as [([ret mem] & h1 & Hc & Hp)|(e & Hc & ->)]; rewrite bind_lift_ok in Hc;
    apply call_answered in Hc as [(cargs & r & evs & Hca & -> & Ha & Hres)|(e' & Hres & ->)];
    try done; 
    try (apply (install_args nr) in Hca; [subst cargs|done|by vm_compute]).
  - injection Hp as <- <-. left. exists nr, r, evs. split_and!; [done..|lia|lia|].
    unfold classify in Hres. destruct (kr_ret r =? -1); [done|]. congruence.
  - left. exists nr, r, evs. split_and!; [done..|lia|lia|].
    unfold classify in Hres. destruct (kr_ret r =? -1); [|done]. congruence.
  - right. exists e'. split; [congruence|done].
Qed.

(** Every way a load can end. *)
Inductive load_end (f : Filter) (h : list event) :
    result (option Listener) → Filter → list event → Prop :=
| end_loaded :
    _loaded f = true →
    load_end f h (Raise (RuntimeError "filter is already loaded")) f h
| end_privs e evs :
    _loaded f = false → Forall (λ ev, kr_ret ev.2 = -1) evs →
    load_end f h (Raise e) f (h ++ evs)
| end_refused e evs0 r0 evs1 :
    _loaded f = false → answered no_new_privs_call evs0 r0 → kr_ret r0 ≠ -1 →
    Forall (λ ev, kr_ret ev.2 = -1) evs1 →
    load_end f h (Raise e) (program machine f).1 (h ++ evs0 ++ evs1)
| end_installed nr prog evs0 r0 evs1 r1 h' res :
    _loaded f = false → answered no_new_privs_call evs0 r0 → kr_ret r0 ≠ -1 →
    _seccomp_nr machine = Ok nr → (program machine f).2 = Ok prog →
    Z.of_nat (length prog) mod 8 = 0 → 1 <= Z.of_nat (length prog) / 8 <= 4096 →
    answered (install nr (_flags f) prog) evs1 r1 → kr_ret r1 ≠ -1 →
    (if Z.land (_flags f) FLAG_NEW_LISTENER =? 0
     then h' = h ++ evs0 ++ evs1 ∧ res = Ok None
     else ∃ lres, Listener_init sys_platform machine fuel (kr_ret r1) (h ++ evs0 ++ evs1) =
            Some (lres, h') ∧ res = (Some <$> lres)) →
    load_end f h res (set_loaded (program machine f).1) h'.

Lemma answered_failed call evs r :
  answered call evs r → kr_ret r = -1 → Forall (λ ev, kr_ret ev.2 = -1) evs.
Proof using Type.
  intros (tries & -> & Ht) Hr. apply Forall_app. split; [|by apply Forall_singleton].
  eapply Forall_impl; [exact Ht|]. intros ev [_ Hi]. unfold interrupted in Hi.
  apply andb_prop in Hi as [Hi _]. by apply Z.eqb_eq.
Qed.

Lemma load_cases f h res f' h' :
  load sys_platform machine fuel (f, h) = Some (res, (f', h')) → load_end f h res f' h'.
Proof.
  unfold load. rewrite bind_get_self. destruct (_loaded f) eqn:Hload; cbn [raise_if].
  { rewrite bind_lift_raise. intros [= <- <- <-]. by apply end_loaded. }
  rewrite bind_lift_ok. rewrite bind_run_kernel.
  destruct (set_no_new_privs _ _ h) as [[rp h1]|] eqn:Hp; [|done].
  apply no_new_privs_answered in Hp as [(r0 & evs0 & -> & Ha0 & ->)|(e & -> & ->)].
  2: { intros [= <- <- <-]. rewrite <- (app_nil_r h) at 2. by apply end_privs. }
  destruct (kr_ret r0 =? -1) eqn:E0; bool_to_prop.
  { intros [= <- <- <-]. apply end_privs; [done|]. by eapply answered_failed. }
  intros Hr.
  assert (∃ p, (program machine f).2 = p ∧ read_program machine (f, h ++ evs0) =
    Some (p, ((program machine f).1, h ++ evs0))) as (p & Hp & Hread).
  { unfold read_program. destruct (program machine f) as [f1 p]. by exists p. }
  destruct (program_fields machine f) as (_ & Hfl & _ & _).
  unfold mbind at 1, M_bind at 1 in Hr. rewrite Hread in Hr.
  destruct p as [prog|e].
  2: { injection Hr as <- <- <-. rewrite <- (app_nil_r evs0). by eapply end_refused. }
  rewrite bind_run_kernel in Hr.
  destruct (set_mode_filter _ _ _ _ _ _) as [[rs h2]|] eqn:Hs; [|done].
  apply set_mode_filter_answered in Hs
    as [(nr & r1 & evs1 & Hnr & -> & Ha1 & Hm & Hlen & ->)|(e & -> & ->)].
  2: { injection Hr as <- <- <-. rewrite <- (app_nil_r evs0). by eapply end_refused. }
  destruct (kr_ret r1 =? -1) eqn:E1; bool_to_prop.
  { injection Hr as <- <- <-. rewrite <- app_assoc. eapply end_refused; [done..|].
    by eapply answered_failed. }
  rewrite bind_get_self, bind_set_self, Hfl in Hr. rewrite <- app_assoc in Hr.
  destruct (Z.land (_flags f) FLAG_NEW_LISTENER =? 0) eqn:Ef; cbn [negb] in Hr.
  - injection Hr as <- <- <-. eapply end_installed; [done..|]. by rewrite Ef.
  - rewrite bind_run_kernel in Hr.
    destruct (Listener_init _ _ _ _ _) as [[lres h3]|] eqn:Hi; [|done].
    assert (res = (Some <$> lres) ∧ f' = set_loaded (program machine f).1 ∧ h' = h3) as (-> & -> & ->).
    { destruct lres; cbn in Hr; unfold mret, M_ret in Hr; injection Hr as <- <- <-; done. }
    eapply end_installed; [done..|]. rewrite Ef. by exists lres.
Qed.

(** A listener that a load hands out is open, on a descriptor. *)
Lemma load_listener_open f h l s :
  load sys_platform machine fuel (f, h) = Some (Ok (Some l), s) →
  _closed l = false ∧ is_c_int (_fd l).
Proof.
  destruct s as [f' h']. intros Hl%load_cases. remember (Ok (Some l)) as res eqn:Eres.
  destruct Hl as [| | |? ? ? ? ? ? ? ? _ _ _ _ _ _ _ _ _ Hfl]; [done..|].
  destruct (_ =? 0); [by destruct Hfl; simplify_eq|]. destruct Hfl as (lres & Hi & Hres).
  destruct (listener_init_cases _ _ _ _ _ _ _ Hi) as (new & _ & Hcase).
  rewrite Hres in Eres. destruct lres as [l'|]; [|done]. injection Eres as ->.
  by destruct Hcase as (-> & Hfd & _).
Qed.
End load.

(** ** The theorems *)

(** The program a compiled filter hands out, and what it decides. *)
Lemma program_done machine f prog :
  built machine f → (program machine f).2 = Ok prog →
  (program machine f).1 = mkFilter (_default f) (_flags f) (_rules f) (Some prog) (_loaded f) ∧
  _compile machine f = Ok prog.
Proof.
  intros Hb Hp. rewrite <- (program_compile _ _ Hb). split; [|done].
  unfold program in *. destruct f as [d fl rs [p|] ld]; cbn in *; [congruence|].
  destruct (_compile machine _) as [p|e]; cbn in *; congruence.
Qed.

(** The events of a listener that was set up install nothing. *)
Lemma init_installs_none nr fd sized r :
  Forall is_query sized → filters_of nr (sized ++ [(KSetInheritable fd false, r)]) = [].
Proof.
  intros Hs. apply filters_of_none, Forall_app. split; [by apply queries_install|].
  by apply Forall_singleton.
Qed.

(** C2.  What a load that returns has done.  In this order and with nothing else
    in between but interrupted attempts, no_new_privs was set and the kernel was
    handed the compiled program with the filter's flags and answered without an
    error; that program decides every syscall as the rules say; the filter is
    frozen with the program cached; and a listener on the returned descriptor is
    handed out exactly if NEW_LISTENER was asked for.  Of the installed programs,
    the history gained this one and no other, except when TSYNC without
    TSYNC_ESRCH was asked for and the kernel answered with a thread it could not
    synchronise: then nothing was installed, although the load returns. *)
Theorem load_installs `{Kernel} (sys_platform machine : string) (fuel : nat) (f f' : Filter)
    (h h' : list event) (lo : option Listener) (Hb : built machine f)
    (Hl : load sys_platform machine fuel (f, h) = Some (Ok lo, (f', h'))) :
  ∃ nr aa prog r0 r1 evs0 evs1 evs2,
    _seccomp_nr machine = Ok nr ∧ audit_arch machine = Ok aa ∧
    f' = mkFilter (_default f) (_flags f) (_rules f) (Some prog) true ∧
    h' = h ++ evs0 ++ evs1 ++ evs2 ∧
    answered no_new_privs_call evs0 r0 ∧ kr_ret r0 ≠ -1 ∧
    answered (install nr (_flags f) prog) evs1 r1 ∧ kr_ret r1 ≠ -1 ∧
    filters_of nr h' =
      filters_of nr h ++ (if tsync_failed (_flags f) (kr_ret r1) then [] else [prog]) ∧
    Z.of_nat (length prog) <= 8 * 4096 ∧
    (∀ d, SeccompData_ok d → run_packed prog (SeccompData_bytes d) = Some (Ok (verdict aa f d))) ∧
    if Z.land (_flags f) FLAG_NEW_LISTENER =? 0 then lo = None ∧ evs2 = []
    else lo = Some (mkListener (kr_ret r1) false) ∧ closes (kr_ret r1) evs2 = 0%nat.
Proof.
  apply load_cases in Hl. remember (Ok lo) as res eqn:Eres.
  destruct Hl as [| | |nr prog evs0 r0 evs1 r1 h' res Hload Ha0 H0 Hnr Hp Hm Hlen Ha1 H1 Hfl]; try done.
  destruct (program_done _ _ _ Hb Hp) as [-> Hc].
  destruct (compile_native _ _ _ Hc) as [aa Haa].
  pose proof (λ d, compiled_verdict machine aa f Haa (inv_ok_fields _ _ (built_inv _ _ Hb)) prog d Hc) as Hv.
  assert (∃ evs2, h' = h ++ evs0 ++ evs1 ++ evs2 ∧ filters_of nr evs2 = [] ∧
    if Z.land (_flags f) FLAG_NEW_LISTENER =? 0 then lo = None ∧ evs2 = []
    else lo = Some (mkListener (kr_ret r1) false) ∧ closes (kr_ret r1) evs2 = 0%nat)
    as (evs2 & -> & Hno & Hlo).
  { destruct (Z.land _ _ =? 0).
    - destruct Hfl as [-> Hres]. exists []. rewrite app_nil_r. split_and!; [done..| |done]. congruence.
    - destruct Hfl as (lres & Hi & Hres).
      destruct (listener_init_cases _ _ _ _ _ _ _ Hi) as (evs2 & -> & Hcase).
      exists evs2. rewrite !app_assoc. split; [done|]. subst res.
      destruct lres as [l|e]; [|done]. injection Hres as ->.
      destruct Hcase as (-> & _ & Hcl & sized & r & -> & Hs & _).
      split; [by apply init_installs_none|done]. }
  exists nr, aa, prog, r0, r1, evs0, evs1, evs2. split_and!; try done.
  - rewrite !filters_of_app, Hno, (filters_of_none _ evs0) by by eapply privs_install.
    rewrite (answered_install_filters _ _ _ _ _ Ha1 H1). by rewrite app_nil_r.
  - pose proof (Z.div_mod (Z.of_nat (length prog)) 8). lia.
Qed.

Definition demo_loading : Filter := mkFilter (Action_value ALLOW) FLAG_NEW_LISTENER [] None false.

Lemma demo_loading_built : built "x86_64" demo_loading.
Proof. by apply (built_init _ (PyInt (Action_value ALLOW)) (PyInt FLAG_NEW_LISTENER)). Qed.

Definition demo_loaded : option (result (option Listener) * (Filter * list event)) :=
  load (H := demo_kernel) "linux" "x86_64" 3 (demo_loading, []).
Definition demo_loaded_state : Filter * list event :=
  match demo_loaded with Some (_, s) => s | None => (demo_loading, []) end.

Lemma load_installs_witness :
  ∃ nr aa prog r0 r1 evs0 evs1 evs2,
    _seccomp_nr "x86_64" = Ok nr ∧ audit_arch "x86_64" = Ok aa ∧
    demo_loaded_state.1 = mkFilter (Action_value ALLOW) FLAG_NEW_LISTENER [] (Some prog) true ∧
    demo_loaded_state.2 = [] ++ evs0 ++ evs1 ++ evs2 ∧
    answered no_new_privs_call evs0 r0 ∧ kr_ret r0 ≠ -1 ∧
    answered (install nr FLAG_NEW_LISTENER prog) evs1 r1 ∧ kr_ret r1 ≠ -1 ∧
    filters_of nr demo_loaded_state.2 = filters_of nr [] ++ [prog] ∧
    Z.of_nat (length prog) <= 8 * 4096 ∧
    (∀ d, SeccompData_ok d →
      run_packed prog (SeccompData_bytes d) = Some (Ok (verdict aa demo_loading d))) ∧
    Some (mkListener 7 false) = Some (mkListener (kr_ret r1) false) ∧ closes (kr_ret r1) evs2 = 0%nat.
Proof.
  apply (load_installs (H := demo_kernel) "linux" "x86_64" 3 demo_loading demo_loaded_state.1 []
    demo_loaded_state.2 (Some (mkListener 7 false))).
  - apply demo_loading_built.
  - vm_compute. reflexivity.
Defined.

(** C8.  A load that raises is safe to handle.  The rules, the default and the
    flags are untouched.  If the filter is not loaded afterwards, no call but
    the one for no_new_privs succeeded, so nothing was installed; if it is, it
    was loaded before and nothing happened, or the kernel did install it and
    only the listener could not be set up, in which case the descriptor was
    closed unless making it non-inheritable was what failed (or the kernel
    returned no descriptor number). *)
Theorem load_failure `{Kernel} (sys_platform machine : string) (fuel : nat) (f f' : Filter)
    (h h' : list event) (e : exn) (Hb : built machine f)
    (Hl : load sys_platform machine fuel (f, h) = Some (Raise e, (f', h'))) :
  _default f' = _default f ∧ _flags f' = _flags f ∧ _rules f' = _rules f ∧
  ∃ new, h' = h ++ new ∧
    if _loaded f' then
      (_loaded f = true ∧ new = [] ∧ e = RuntimeError "filter is already loaded") ∨
      (Z.land (_flags f) FLAG_NEW_LISTENER ≠ 0 ∧
       ∃ nr prog r pre evs post, new = pre ++ evs ++ post ∧
         answered (install nr (_flags f) prog) evs r ∧ kr_ret r ≠ -1 ∧
         (closes (kr_ret r) post = 1%nat ∨
          (∃ r', last post = Some (KSetInheritable (kr_ret r) false, r') ∧ kr_ret r' = -1) ∨
          ¬ is_c_int (kr_ret r)))
    else Forall (λ ev, ev.1 = no_new_privs_call ∨ kr_ret ev.2 = -1) new.
Proof.
  apply load_cases in Hl. remember (Raise e) as res eqn:Eres.
  destruct (program_fields machine f) as (Hd & Hf & Hr & Hld).
  destruct Hl as [Hload|e' evs Hload Hevs|e' evs0 r0 evs1 Hload Ha0 H0 Hevs|
    nr prog evs0 r0 evs1 r1 h' res Hload Ha0 H0 Hnr Hp Hm Hlen Ha1 H1 Hfl].
  - do 3 (split; [done|]). exists []. rewrite app_nil_r, Hload. split; [done|]. left.
    injection Eres as <-. done.
  - do 3 (split; [done|]). exists evs. rewrite Hload. split; [done|].
    eapply Forall_impl; [exact Hevs|]. by right.
  - do 3 (split; [done|]). exists (evs0 ++ evs1). rewrite Hld, Hload. split; [done|].
    apply Forall_app. split; [|eapply Forall_impl; [exact Hevs|]; by right].
    destruct Ha0 as (tries & -> & Ht). apply Forall_app. split; [|by apply Forall_singleton; left].
    eapply Forall_impl; [exact Ht|]. intros ev [He _]. by left.
  - do 3 (split; [done|]). cbn [set_loaded _loaded].
    destruct (Z.eqb_spec (Z.land (_flags f) FLAG_NEW_LISTENER) 0) as [E|E].
    { destruct Hfl as [_ Hres]. congruence. }
    destruct Hfl as (lres & Hi & Hres).
    destruct (listener_init_cases _ _ _ _ _ _ _ Hi) as (evs2 & -> & Hcase).
    exists (evs0 ++ evs1 ++ evs2). rewrite <- !app_assoc. split; [done|]. right. split; [done|].
    exists nr, prog, r1, evs0, evs1, evs2. do 3 (split; [done|]).
    subst res. destruct lres as [l|e']; [done|].
    unfold init_failed in Hcase. case_decide; [|by right; right].
    destruct Hcase as [Hc|(_ & r' & Hlast & Hr')]; [by left|]. right. left. by exists r'.
Qed.

Lemma load_failure_witness :
  _default demo_loading = _default demo_loading ∧ _flags demo_loading = _flags demo_loading ∧
  _rules demo_loading = _rules demo_loading ∧
  ∃ new, [] = [] ++ new ∧ Forall (λ ev, ev.1 = no_new_privs_call ∨ kr_ret ev.2 = -1) new.
Proof.
  apply (load_failure (H := demo_kernel) "darwin" "x86_64" 3 demo_loading demo_loading [] []
    (UnsupportedError None)).
  - apply demo_loading_built.
  - vm_compute. reflexivity.
Defined.

(** C33.  A failed thread synchronisation passes for success.  With TSYNC and
    without TSYNC_ESRCH the kernel reports a thread it could not synchronise by
    returning that thread's id, and installs nothing; [load] takes the positive
    result for success: it returns [None] and marks the filter loaded. *)
Theorem load_accepts_tsync_failure `{Kernel} (machine : string) (fuel : nat) (f : Filter) (nr : Z)
    (prog : list Z) (r0 r1 : kreply) (h h1 h2 : list event)
    (Hload : _loaded f = false)
    (Hflags : _flags f = FLAG_TSYNC)
    (Hnr : _seccomp_nr machine = Ok nr)
    (Hprog : (program machine f).2 = Ok prog)
    (Hlen : ∃ k, length prog = (8 * k)%nat ∧ (1 <= k <= 4096)%nat)
    (Hr0 : persist fuel no_new_privs_call h = Some (r0, h1)) (Hok : kr_ret r0 = 0)
    (Hr1 : persist fuel (install nr FLAG_TSYNC prog) h1 = Some (r1, h2)) (Htid : 0 < kr_ret r1) :
  ∃ f', load "linux" machine fuel (f, h) = Some (Ok None, (f', h2)) ∧ _loaded f' = true.
Proof.
  exists (set_loaded (program machine f).1). split; [|done].
  unfold load. rewrite bind_get_self, Hload. cbn [raise_if]. rewrite bind_lift_ok, bind_run_kernel.
  rewrite no_new_privs_persist by done.
  change (KPrctl _) with no_new_privs_call. rewrite Hr0, Hok. cbn [Z.eqb].
  unfold read_program. unfold mbind at 1, M_bind at 1.
  destruct (program_fields machine f) as (_ & Hfl & _ & _).
  destruct (program machine f) as [f1 p]. cbn [fst snd] in *. subst p.
  rewrite bind_run_kernel. unfold set_mode_filter.
  destruct Hlen as (k & Hk & Hrange).
  assert (Z.of_nat (length prog) mod 8 = 0) as Hm.
  { rewrite Hk, Nat2Z.inj_mul. change (Z.of_nat 8) with 8. rewrite Z.mul_comm. by apply Z.mod_mul. }
  assert (Z.of_nat (length prog) / 8 = Z.of_nat k) as Hd.
  { rewrite Hk, Nat2Z.inj_mul. change (Z.of_nat 8) with 8. rewrite Z.mul_comm. by apply Z.div_mul. }
  rewrite Hm, Z.eqb_refl. rewrite (proj2 (Z.eqb_neq _ _)) by lia. cbn [negb orb raise_if].
  rewrite bind_lift_ok. rewrite (proj2 (Z.ltb_ge _ _)) by lia. cbn [raise_if]. rewrite bind_lift_ok.
  unfold mbind at 1, M_bind at 1. rewrite (seccomp_persist _ _ _ nr _ _ (int32 FLAG_TSYNC)) by (rewrite ?Hflags; done).
  fold (install nr FLAG_TSYNC prog). rewrite Hr1. unfold classify.
  rewrite (proj2 (Z.eqb_neq _ _)) by lia. unfold mret at 1, M_ret at 1.
  by rewrite bind_get_self, bind_set_self, Hfl, Hflags.
Qed.

Definition demo_tsync : Filter := mkFilter (Action_value ALLOW) FLAG_TSYNC [] None false.
Definition demo_tsync_prog : list Z :=
  match (program "x86_64" demo_tsync).2 with Ok p => p | Raise _ => [] end.

(** The demonstration kernel answers the installation with 7, as it would to
    report thread 7. *)
Lemma load_accepts_tsync_failure_witness :
  ∃ f', load (H := demo_kernel) "linux" "x86_64" 3 (demo_tsync, []) =
      Some (Ok None, (f',
        [(no_new_privs_call, KReply (-1) EINTR []); (no_new_privs_call, KReply 0 0 []);
         (install 317 FLAG_TSYNC demo_tsync_prog, KReply 7 0 [])])) ∧ _loaded f' = true.
Proof.
  apply (load_accepts_tsync_failure (H := demo_kernel) "x86_64" 3 demo_tsync 317 demo_tsync_prog
    (KReply 0 0 []) (KReply 7 0 []) []
    [(no_new_privs_call, KReply (-1) EINTR []); (no_new_privs_call, KReply 0 0 [])]).
  - reflexivity.
  - reflexivity.
  - reflexivity.
  - vm_compute. reflexivity.
  - exists 5%nat. split; [vm_compute; reflexivity|lia].
  - vm_compute. reflexivity.
  - reflexivity.
  - vm_compute. reflexivity.
  - reflexivity.
Defined.
