(* ===== verification/LoadLive.v ===== *)
(** * Loading succeeds

    The other half of what loading promises: given a kernel that does what
    prctl(2), seccomp(2) and the package's checks entitle the caller to expect,
    a load of a filter of moderate size is not only safe: it ends, returns, and
    its program is installed.  What the kernel grants depends on the history: no
    program is installed without no_new_privs, a second listener is refused, the
    instructions of all programs are limited, and every installed program decides
    which of the package's own calls still go through. *)

From S2P Require Import Prelude PyBytes CInt Bpf BpfSem BpfVerify Syscalls Structs Filter FilterSpec.
From S2P Require Import FilterCompile FilterApi FilterLife FilterTheorems Effects RawSyscall.
From S2P Require Import RawTheorems Notify NotifyFacts Installed Load LoadTheorems Demo.

(** ** What the caller may expect of the kernel *)

(** The syscalls the package makes while a listener is set up. *)
Definition listener_syscalls : list string := ["seccomp"; "ioctl"; "fcntl"].

(** The program allows the syscalls of these names. *)
Definition admits (machine : string) (aa : Z) (names : list string) (prog : list Z) : Prop :=
  ∀ name sysnr d, name ∈ names → syscall_nr machine (SysName name) = Ok sysnr →
    SeccompData_ok d → sd_arch d = aa → sd_nr d = sysnr →
    run_packed prog (SeccompData_bytes d) = Some (Ok (Action_value ALLOW)).

(** The flags that go together: WAIT_KILLABLE_RECV needs a listener, and with
    TSYNC a listener needs TSYNC_ESRCH. *)
Definition flags_allowed (flags : Z) : Prop :=
  (asks FLAG_WAIT_KILLABLE_RECV flags = true → asks FLAG_NEW_LISTENER flags = true) ∧
  (asks FLAG_TSYNC flags = true → asks FLAG_NEW_LISTENER flags = true →
   asks FLAG_TSYNC_ESRCH flags = true).

(** Repeated while it is interrupted, the call is answered as [Q] says. *)
Definition served `{Kernel} (h : list event) (c : kcall) (Q : kreply → Prop) : Prop :=
  ∃ n r h', persist n c h = Some (r, h') ∧ Q r.

(** A 64-bit Linux kernel that supports the flags [flags], and with TSYNC a
    process whose threads can be synchronised.  As long as the installed programs
    allow the calls: no_new_privs can be set; a program that passes the checks of
    the verifier is installed if no_new_privs was set, the instructions of all
    programs stay within the limit and no second listener is asked for, and the
    answer is a descriptor or 0; the structure sizes are those of the uapi
    header; and a listener descriptor that the process holds can be made
    non-inheritable. *)
Class Supporting `{Kernel} (machine : string) (nr aa flags : Z) := {
  grants_privs : ∀ h, Forall (admits machine aa ["prctl"]) (filters_of nr h) →
    served h no_new_privs_call (λ r, kr_ret r = 0);
  installs : ∀ h fs, granted h → Forall (admits machine aa ["seccomp"]) (filters_of nr h) →
    flags_allowed flags → (asks FLAG_NEW_LISTENER flags = true → listeners_of nr h = []) →
    Forall sock_filter_ok fs → kernel_accepts fs = true →
    path_insns (filters_of nr h) + Z.of_nat (length fs) <= MAX_INSNS_PER_PATH →
    served h (install nr flags (pack_all fs)) (λ r,
      if asks FLAG_NEW_LISTENER flags then 0 <= kr_ret r < 2 ^ 31 else kr_ret r = 0);
  tells_sizes : ∀ h, Forall (admits machine aa ["seccomp"]) (filters_of nr h) →
    served h (KSyscall [nr; SECCOMP_GET_NOTIF_SIZES; 0] (Buf (replicate 6 0))) (λ r,
      kr_ret r = 0 ∧ kr_mem r = SeccompNotifSizes_bytes demo_sizes);
  shields : ∀ h fd, holds nr h fd → Forall (admits machine aa ["ioctl"; "fcntl"]) (filters_of nr h) →
    ∃ r, kernel h (KSetInheritable fd false) = Some r ∧ kr_ret r ≠ -1 }.

Lemma admits_mono machine aa names names' prog :
  names ⊆ names' → admits machine aa names' prog → admits machine aa names prog.
Proof. intros Hn Ha name sysnr d Hin. apply (Ha name sysnr d), Hn, Hin. Qed.

Lemma all_admit_mono machine aa names names' progs :
  names ⊆ names' → Forall (admits machine aa names') progs → Forall (admits machine aa names) progs.
Proof. intros Hn Hp. eapply Forall_impl; [exact Hp|]. intros prog. by apply admits_mono. Qed.

(** ** The steps of a load *)

(** An allowed request that was served is no thread report. *)
Lemma served_not_failed flags ret :
  flags_allowed flags →
  (if asks FLAG_NEW_LISTENER flags then 0 <= ret < 2 ^ 31 else ret = 0) →
  ret ≠ -1 ∧ tsync_failed flags ret = false.
Proof.
  intros [_ Ht]. unfold tsync_failed. destruct (asks FLAG_NEW_LISTENER flags); intros Hr.
  - split; [lia|]. destruct (asks FLAG_TSYNC flags); [by rewrite Ht|done].
  - subst. split; [done|]. by rewrite andb_false_r.
Qed.

Lemma load_run `{Kernel} (sys_platform machine : string) (fuel : nat) (f : Filter)
    (h h1 h2 : list event) (prog : list Z) (ret : Z) :
  _loaded f = false → set_no_new_privs sys_platform fuel h = Some (Ok tt, h1) →
  (program machine f).2 = Ok prog →
  set_mode_filter sys_platform machine fuel prog (_flags f) h1 = Some (Ok ret, h2) →
  load sys_platform machine fuel (f, h) =
    if Z.land (_flags f) FLAG_NEW_LISTENER =? 0
    then Some (Ok None, (set_loaded (program machine f).1, h2))
    else match Listener_init sys_platform machine fuel ret h2 with
         | Some (lres, h3) => Some (Some <$> lres, (set_loaded (program machine f).1, h3))
         | None => None
         end.
Proof.
  intros Hload Hprivs Hp Hset. destruct (program_fields machine f) as (_ & Hfl & _ & _).
  unfold load. rewrite bind_get_self, Hload. cbn [raise_if].
  rewrite bind_lift_ok, bind_run_kernel, Hprivs.
  unfold read_program. unfold mbind at 1, M_bind at 1.
  destruct (program machine f) as [f1 p]. cbn [fst snd] in *. subst p.
  rewrite bind_run_kernel, Hset, bind_get_self, bind_set_self, Hfl.
  destruct (_ =? 0); cbn [negb]; [done|]. rewrite bind_run_kernel.
  by destruct (Listener_init _ _ _ _ _) as [[[l|e] h3]|].
Qed.

Section live.
Context `{Kernel} (machine : string) (flags nr aa : Z) `{!Supporting machine nr aa flags}.
Context (Hnr : _seccomp_nr machine = Ok nr).

Lemma privs_granted h :
  Forall (admits machine aa ["prctl"]) (filters_of nr h) →
  ∃ n evs r, answered no_new_privs_call evs r ∧ kr_ret r = 0 ∧
    ∀ fuel, (n <= fuel)%nat → set_no_new_privs "linux" fuel h = Some (Ok tt, h ++ evs).
Proof using Type*.
  intros (n & r & h1 & Hr & H0)%grants_privs.
  destruct (persist_answered _ _ _ _ _ (λ _, eq_refl) Hr) as (evs & -> & Ha).
  exists n, evs, r. split_and!; [done..|]. intros fuel Hle.
  rewrite no_new_privs_persist by done. change (KPrctl _) with no_new_privs_call.
  by rewrite (persist_mono _ _ _ _ _ Hle Hr), H0.
Qed.

Lemma program_installed fs h :
  granted h → Forall (admits machine aa ["seccomp"]) (filters_of nr h) → flags_allowed flags →
  (asks FLAG_NEW_LISTENER flags = true → listeners_of nr h = []) →
  Forall sock_filter_ok fs → kernel_accepts fs = true → 0 <= flags < 2 ^ 32 →
  path_insns (filters_of nr h) + 4096 <= MAX_INSNS_PER_PATH →
  ∃ n evs r, answered (install nr flags (pack_all fs)) evs r ∧
    (if asks FLAG_NEW_LISTENER flags then 0 <= kr_ret r < 2 ^ 31 else kr_ret r = 0) ∧
    ∀ fuel, (n <= fuel)%nat →
      set_mode_filter "linux" machine fuel (pack_all fs) flags h = Some (Ok (kr_ret r), h ++ evs).
Proof using Type*.
  intros Hg Had Hfl Hli Hfs Hacc Hflags Hroom.
  assert (1 <= Z.of_nat (length fs) <= 4096) as Hlen.
  { unfold kernel_accepts, BPF_MAXINSNS in Hacc. bool_to_prop. lia. }
  destruct (installs h fs Hg Had Hfl Hli Hfs Hacc ltac:(lia)) as (n & r & h2 & Hr & Hret).
  destruct (persist_answered _ _ _ _ _ (λ _, eq_refl) Hr) as (evs & -> & Ha).
  exists n, evs, r. split_and!; [done..|]. intros fuel Hle.
  assert (Z.of_nat (length (pack_all fs)) = Z.of_nat (length fs) * 8) as Hl
    by (rewrite length_pack_all; lia).
  apply (persist_mono _ _ _ _ _ Hle) in Hr. unfold install in Hr.
  unfold set_mode_filter. rewrite Hl, Z.mod_mul, Z.div_mul in * by lia.
  rewrite (proj2 (Z.eqb_neq (Z.of_nat (length fs) * 8) 0)), (proj2 (Z.ltb_ge 4096 _)) by lia.
  cbn [Z.eqb negb orb raise_if]. rewrite !bind_lift_ok. unfold mbind, M_bind.
  rewrite (seccomp_persist _ _ _ nr _ _ (int32 flags)), Hr by auto with cint.
  unfold classify. rewrite (proj2 (Z.eqb_neq _ _)); [done|].
  destruct (asks _ _); lia.
Qed.

Lemma listener_ready fd h :
  is_c_int fd → holds nr h fd →
  Forall (admits machine aa listener_syscalls) (filters_of nr h) →
  ∃ n evs r, Forall is_query evs ∧ kr_ret r ≠ -1 ∧
    ∀ fuel, (n <= fuel)%nat → Listener_init "linux" machine fuel fd h =
      Some (Ok (mkListener fd false), h ++ evs ++ [(KSetInheritable fd false, r)]).
Proof using Type*.
  intros Hfd Hh Had.
  destruct (tells_sizes h) as (n & r & h1 & Hr & H0 & Hmem).
  { eapply all_admit_mono; [|exact Had]. set_solver. }
  assert (∀ fuel, (n <= fuel)%nat → sizes "linux" machine fuel h = Some (Ok _EXPECTED_SIZES, h1))
    as Hsizes.
  { intros fuel Hle. unfold sizes, notif_sizes, mbind, M_bind.
    rewrite (seccomp_persist _ _ _ nr _ _ 0) by done.
    change (SeccompNotifSizes_bytes _) with (replicate 6 0).
    rewrite (persist_mono _ _ _ _ _ Hle Hr). unfold classify. by rewrite H0, Hmem. }
  destruct (only_calls_sizes _ _ _ _ _ _ (Hsizes n (le_n n))) as (evs & -> & Hq).
  destruct (shields (h ++ evs) fd) as (r' & Hk & Hr').
  - apply holds_app; [done|]. by apply queries_close.
  - rewrite filters_of_app, (filters_of_none _ evs), app_nil_r by by apply queries_install.
    eapply all_admit_mono; [|exact Had]. set_solver.
  - exists n, evs, r'. split_and!; [done..|]. intros fuel Hle.
    rewrite Listener_init_run, Hsizes by done. unfold init_end, on_answer.
    by rewrite !decide_True, Hk, (proj2 (Z.eqb_neq _ _) Hr'), <- app_assoc by done.
Qed.

(** After the program was installed: the listener on the descriptor it gave. *)
Lemma listener_phase h prog evs1 r1 :
  answered (install nr flags prog) evs1 r1 → 0 <= kr_ret r1 < 2 ^ 31 →
  tsync_failed flags (kr_ret r1) = false → asks FLAG_NEW_LISTENER flags = true →
  Forall (admits machine aa listener_syscalls) (filters_of nr h ++ [prog]) →
  ∃ n evs2 r, kr_ret r ≠ -1 ∧ last evs2 = Some (KSetInheritable (kr_ret r1) false, r) ∧
    filters_of nr evs2 = [] ∧ holds nr ((h ++ evs1) ++ evs2) (kr_ret r1) ∧
    ∀ fuel, (n <= fuel)%nat → Listener_init "linux" machine fuel (kr_ret r1) (h ++ evs1) =
      Some (Ok (mkListener (kr_ret r1) false), (h ++ evs1) ++ evs2).
Proof using Type*.
  intros Ha1 Hr1 Ht Hn Had.
  pose proof (install_holds nr h _ _ _ _ Ha1 ltac:(lia) Ht Hn) as Hh.
  destruct (listener_ready (kr_ret r1) (h ++ evs1)) as (n & evs & r & Hq & Hr & Hrun).
  - unfold is_c_int. lia.
  - done.
  - by rewrite filters_of_app, (answered_install_filters _ _ _ _ _ Ha1), Ht by lia.
  - exists n, (evs ++ [(KSetInheritable (kr_ret r1) false, r)]), r.
    split_and!; [done|by rewrite last_snoc|by apply init_installs_none| |done].
    apply holds_app; [done|]. apply Forall_app. split; [by apply queries_close|].
    by apply Forall_singleton.
Qed.

(** The whole load of a filter whose program passes the checks. *)
Lemma load_returns f fs h :
  _loaded f = false → _flags f = flags → (program machine f).2 = Ok (pack_all fs) →
  Forall sock_filter_ok fs → kernel_accepts fs = true →
  0 <= flags < 2 ^ 32 → flags_allowed flags →
  path_insns (filters_of nr h) + 4096 <= MAX_INSNS_PER_PATH →
  Forall (admits machine aa ("prctl" :: listener_syscalls)) (filters_of nr h) →
  (asks FLAG_NEW_LISTENER flags = true →
   listeners_of nr h = [] ∧ admits machine aa listener_syscalls (pack_all fs)) →
  ∃ n lo evs0 r0 evs1 r1 evs2,
    (∀ fuel, (n <= fuel)%nat → load "linux" machine fuel (f, h) =
       Some (Ok lo, (set_loaded (program machine f).1, h ++ evs0 ++ evs1 ++ evs2))) ∧
    answered no_new_privs_call evs0 r0 ∧ kr_ret r0 = 0 ∧
    answered (install nr flags (pack_all fs)) evs1 r1 ∧
    filters_of nr (h ++ evs0 ++ evs1 ++ evs2) = filters_of nr h ++ [pack_all fs] ∧
    (if asks FLAG_NEW_LISTENER flags then
       lo = Some (mkListener (kr_ret r1) false) ∧
       holds nr (h ++ evs0 ++ evs1 ++ evs2) (kr_ret r1) ∧
       ∃ r, last evs2 = Some (KSetInheritable (kr_ret r1) false, r) ∧ kr_ret r ≠ -1
     else lo = None ∧ evs2 = []).
Proof using Type*.
  intros Hl Efl Hp Hfs Hacc Hrange Hflags Hroom Had Hli.
  destruct (privs_granted h) as (n0 & evs0 & r0 & Ha0 & H0 & Hrun0).
  { eapply all_admit_mono; [|exact Had]. set_solver. }
  destruct (granted_same nr h _ _ Ha0) as [Efil Elis].
  assert (Forall (admits machine aa listener_syscalls) (filters_of nr (h ++ evs0))) as Had'.
  { rewrite Efil. eapply all_admit_mono; [|exact Had]. set_solver. }
  destruct (program_installed fs (h ++ evs0)) as (n1 & evs1 & r1 & Ha1 & Hr1 & Hrun1);
    [by eapply granted_answered| | |by rewrite Elis; intros []%Hli|by rewrite ?Efil..|].
  { eapply all_admit_mono; [|exact Had']. set_solver. }
  { done. }
  destruct (served_not_failed _ _ Hflags Hr1) as [Hne Ht].
  pose proof (answered_install_filters _ _ _ _ _ Ha1 Hne) as Einst. rewrite Ht in Einst.
  rewrite <- Efl in Hrun1.
  pose proof (λ fuel H0 H1, load_run "linux" machine fuel f h _ _ _ _ Hl (Hrun0 fuel H0) Hp
    (Hrun1 fuel H1)) as Hrun. rewrite Efl in Hrun.
  unfold asks in *. destruct (Z.land flags FLAG_NEW_LISTENER =? 0) eqn:En; cbn [negb] in *.
  - exists (n0 + n1)%nat, None, evs0, r0, evs1, r1, []. rewrite app_nil_r. split_and!; try done.
    + intros fuel Hle. by rewrite Hrun, <- app_assoc by lia.
    + by rewrite app_assoc, filters_of_app, Efil, Einst.
  - destruct (listener_phase (h ++ evs0) (pack_all fs) evs1 r1)
      as (n2 & evs2 & r & Hr & Hlast & Hno & Hh & Hrun2); try done.
    { by unfold asks; rewrite En. }
    { apply Forall_app. split; [done|]. apply Forall_singleton. by apply Hli. }
    rewrite <- !app_assoc in Hh, Hrun2.
    exists (n0 + n1 + n2)%nat, (Some (mkListener (kr_ret r1) false)), evs0, r0, evs1, r1, evs2.
    split_and!; try done; [| |by exists r].
    + intros fuel Hle. rewrite Hrun by lia. by rewrite <- app_assoc, Hrun2, <- app_assoc by lia.
    + rewrite app_assoc, (filters_of_app _ (h ++ evs0)), (filters_of_app _ evs1).
      by rewrite Efil, Einst, Hno.
Qed.
End live.

(** C9.  Loading succeeds.  Take a filter built through the API on a supported
    machine, not loaded yet, with at most 1365 instructions by the bound
    [size_bound], so that its program fits in the kernel's 4096 records whatever
    trampolines it needs.  Let the programs already installed leave room for it
    and allow the package's own calls, and if NEW_LISTENER is asked for, let there
    be no listener yet and the filter itself allow what setting one up takes.
    Under a kernel that supports what the filter asks for, [load] ends and
    returns: no_new_privs was set first and the filter's program then installed,
    and it is the only one that was; the filter is loaded; a listener, if one was
    asked for, is on the very descriptor the kernel answered the installation
    with, which the process still holds and its children do not inherit. *)
Theorem load_succeeds `{Kernel} (machine : string) (nr aa : Z) (f : Filter) (h : list event)
    (Hb : built machine f) (Hl : _loaded f = false)
    (Hnr : _seccomp_nr machine = Ok nr) (Haa : audit_arch machine = Ok aa)
    (Hs : (size_bound (_rules f) <= 1365)%nat) (Hflags : flags_allowed (_flags f))
    (Hk : Supporting machine nr aa (_flags f))
    (Hroom : path_insns (filters_of nr h) + 4096 <= MAX_INSNS_PER_PATH)
    (Hadmit : Forall (admits machine aa ("prctl" :: listener_syscalls)) (filters_of nr h))
    (Hlistener : asks FLAG_NEW_LISTENER (_flags f) = true →
       listeners_of nr h = [] ∧
       ∀ name sysnr d, name ∈ listener_syscalls → syscall_nr machine (SysName name) = Ok sysnr →
         SeccompData_ok d → sd_arch d = aa → sd_nr d = sysnr →
         verdict aa f d = Action_value ALLOW) :
  ∃ n lo prog evs0 r0 evs1 r1 evs2,
    (∀ fuel, (n <= fuel)%nat → load "linux" machine fuel (f, h) =
       Some (Ok lo, (mkFilter (_default f) (_flags f) (_rules f) (Some prog) true,
                     h ++ evs0 ++ evs1 ++ evs2))) ∧
    answered no_new_privs_call evs0 r0 ∧ kr_ret r0 = 0 ∧
    answered (install nr (_flags f) prog) evs1 r1 ∧
    filters_of nr (h ++ evs0 ++ evs1 ++ evs2) = filters_of nr h ++ [prog] ∧
    (∀ d, SeccompData_ok d → run_packed prog (SeccompData_bytes d) = Some (Ok (verdict aa f d))) ∧
    (if asks FLAG_NEW_LISTENER (_flags f) then
       lo = Some (mkListener (kr_ret r1) false) ∧
       holds nr (h ++ evs0 ++ evs1 ++ evs2) (kr_ret r1) ∧
       ∃ r, last evs2 = Some (KSetInheritable (kr_ret r1) false, r) ∧ kr_ret r ≠ -1
     else lo = None ∧ evs2 = []).
Proof.
  pose proof (inv_ok_fields _ _ (built_inv _ _ Hb)) as Hf.
  assert (is_ok (_native machine) = true) as Hm
    by by (destruct (seccomp_nr_native machine) as [<- _]; rewrite Hnr).
  destruct (built_program_ok machine f Hb Hm) as [prog Hp]; [lia|].
  destruct (built_program_records _ _ _ Hb Hp) as (fs & Hfs & Hok & Hlen & Hacc).
  specialize (Hacc ltac:(unfold BPF_MAXINSNS; lia)).
  destruct (program_done _ _ _ Hb Hp) as [Hf1 Hc].
  pose proof (λ d, compiled_verdict machine aa f Haa Hf prog d Hc) as Hv.
  subst prog. destruct (load_returns machine (_flags f) nr aa Hnr f fs h)
    as (n & lo & evs0 & r0 & evs1 & r1 & evs2 & Hrun & Hrest); try done.
  - destruct (ok_flags f Hf). lia.
  - intros [Hli Hself]%Hlistener. split; [done|]. intros name sysnr d Hin Hsys Hd Ha Hn.
    rewrite Hv by done. by rewrite (Hself name sysnr d).
  - rewrite Hf1 in Hrun. exists n, lo, (pack_all fs), evs0, r0, evs1, r1, evs2.
    destruct Hrest as (? & ? & ? & ? & ?). by split_and!.
Qed.

(** ** A kernel that keeps track *)

Definition EBADF : Z := 9.
Definition ENOMEM : Z := 12.
Definition EBUSY : Z := 16.

(** The answer to a request to install a program, by the history: no_new_privs
    first, one listener, limited instructions. *)
Definition demo_install (h : list event) (flags : Z) (prog : list Z) : kreply :=
  if negb (bool_decide (granted h)) then KReply (-1) EACCES []
  else if MAX_INSNS_PER_PATH <? path_insns (filters_of 317 h) + Z.of_nat (length prog) / 8 then
    KReply (-1) ENOMEM []
  else if negb (asks FLAG_NEW_LISTENER flags) then KReply 0 0 []
  else if bool_decide (listeners_of 317 h = []) then KReply 7 0 [] else KReply (-1) EBUSY [].

(** The demonstration kernel with that answer, which makes listener descriptors
    non-inheritable and no others. *)
Definition demo_supporting : Kernel := λ h c, Some (
  match c with
  | KSyscall [317; 1; flags] (Fprog _ prog) => demo_install h flags prog
  | KSetInheritable fd _ =>
      if bool_decide (fd ∈ listeners_of 317 h) then KReply 0 0 [] else KReply (-1) EBADF []
  | _ => demo_reply h c
  end).

(** Calls that it may only interrupt when they are the first. *)
Lemma demo_served c (r0 r : kreply) (Q : kreply → Prop) h :
  kernel (Kernel := demo_supporting) [] c = Some r0 → interrupted r0 = true →
  again c (kr_mem r0) = c →
  (∀ h', h' ≠ [] → kernel (Kernel := demo_supporting) h' c = Some r) → interrupted r = false →
  Q r → served (H := demo_supporting) h c Q.
Proof.
  intros H0 Hi0 Hc Hk Hi HQ. exists 2%nat, r. destruct h as [|ev h].
  - eexists. cbn [persist]. rewrite H0, Hi0, Hc, Hk, Hi by done. by split.
  - eexists. cbn [persist]. rewrite Hk, Hi by done. by split.
Qed.

Lemma demo_holds h fd : holds 317 h fd → fd ∈ listeners_of 317 h.
Proof.
  intros (pre & ev & post & -> & Hev & _). rewrite listeners_of_app. apply elem_of_app. right.
  cbn. rewrite Hev. by left.
Qed.

Lemma demo_supporting_ok flags : @Supporting demo_supporting "x86_64" 317 AUDIT_ARCH_X86_64 flags.
Proof.
  split.
  - intros h _. by apply (demo_served _ (KReply (-1) EINTR []) (KReply 0 0 [])); [..|intros []| |].
  - intros h fs Hg _ _ Hli Hfs Hacc Hroom. exists 1%nat.
    assert (kernel (Kernel := demo_supporting) h (install 317 flags (pack_all fs)) =
      Some (if asks FLAG_NEW_LISTENER flags then KReply 7 0 [] else KReply 0 0 [])) as Hk.
    { unfold kernel, demo_supporting, install, demo_install. f_equal.
      rewrite bool_decide_true, asks_int32 by done. cbn [negb].
      assert (Z.of_nat (length (pack_all fs)) / 8 = Z.of_nat (length fs)) as ->.
      { rewrite length_pack_all, <- (Z.div_mul (Z.of_nat (length fs)) 8) by done. f_equal. lia. }
      rewrite (proj2 (Z.ltb_ge _ _)) by done.
      destruct (asks _ flags) eqn:En; cbn [negb]; [|done].
      rewrite (bool_decide_true _ (Hli eq_refl)). reflexivity. }
    destruct (asks _ flags); eexists _, _; cbn [persist]; rewrite Hk; by split.
  - intros h _. by apply (demo_served _ (KReply (-1) EINTR (replicate 6 0))
      (KReply 0 0 (SeccompNotifSizes_bytes demo_sizes))); [..|intros []| |].
  - intros h fd Hh _. eexists. split.
    + unfold kernel, demo_supporting. by rewrite bool_decide_true by by apply demo_holds.
    + done.
Qed.

Lemma load_succeeds_witness :
  ∃ n lo prog evs0 r0 evs1 r1 evs2,
    (∀ fuel, (n <= fuel)%nat → load (H := demo_supporting) "linux" "x86_64" fuel (demo_loading, []) =
       Some (Ok lo, (mkFilter (Action_value ALLOW) FLAG_NEW_LISTENER [] (Some prog) true,
                     [] ++ evs0 ++ evs1 ++ evs2))) ∧
    answered no_new_privs_call evs0 r0 ∧ kr_ret r0 = 0 ∧
    answered (install 317 FLAG_NEW_LISTENER prog) evs1 r1 ∧
    filters_of 317 ([] ++ evs0 ++ evs1 ++ evs2) = [] ++ [prog] ∧
    (∀ d, SeccompData_ok d →
      run_packed prog (SeccompData_bytes d) = Some (Ok (verdict AUDIT_ARCH_X86_64 demo_loading d))) ∧
    lo = Some (mkListener (kr_ret r1) false) ∧
    holds 317 ([] ++ evs0 ++ evs1 ++ evs2) (kr_ret r1) ∧
    ∃ r, last evs2 = Some (KSetInheritable (kr_ret r1) false, r) ∧ kr_ret r ≠ -1.
Proof.
  apply (@load_succeeds demo_supporting "x86_64" 317 AUDIT_ARCH_X86_64 demo_loading []).
  - apply demo_loading_built.
  - reflexivity.
  - reflexivity.
  - reflexivity.
  - cbn. lia.
  - split; discriminate.
  - apply demo_supporting_ok.
  - vm_compute. discriminate.
  - apply Forall_nil_2.
  - intros _. split; [reflexivity|]. intros name sysnr d _ _ _ Ha _. unfold verdict.
    rewrite Ha, Z.eqb_refl. reflexivity.
Defined.
