(* ===== verification/Support.v ===== *)
(** * __init__.py: what the running kernel supports

    The three probes of the package, each a call whose failure is read as an
    answer, and what they answer for every errno. *)

From S2P Require Import Prelude PyBytes CInt PyDict Syscalls Structs Filter Effects RawSyscall.
From S2P Require Import RawTheorems Demo.

Section support.
Context (sys_platform platform_machine : string) (fuel : nat) `{Kernel}.
Abbreviation IO := (M (list event)).

Definition supported : IO bool :=
  try_except
    (action_avail sys_platform platform_machine fuel (Action_value ALLOW);; mret true)
    (λ e, match e with
          | UnsupportedError _ =>
              try_except (probe_flag sys_platform platform_machine fuel 0)
                (λ e', match e' with UnsupportedError _ => mret false | _ => raise e' end)
          | SeccompError err => if err =? EINVAL then mret true else raise e
          | _ => raise e
          end).

Definition action_supported (action : Z) : IO bool :=
  try_except
    (action_avail sys_platform platform_machine fuel action;; mret true)
    (λ e, match e with
          | UnsupportedError _ => mret false
          | SeccompError err => if err =? EINVAL then mret false else raise e
          | _ => raise e
          end).

Definition flag_supported (flag : Z) : IO bool :=
  try_except (probe_flag sys_platform platform_machine fuel flag)
    (λ e, match e with UnsupportedError _ => mret false | _ => raise e end).
End support.

(** ** Lemmas *)

Definition unsupported_errno (err : Z) : bool := (err =? ENOSYS) || (err =? EOPNOTSUPP).

Section facts.
Context (machine : string) (fuel : nat) `{Kernel} (nr : Z) (Hnr : _seccomp_nr machine = Ok nr).

Lemma action_avail_eq action h r h' :
  persist fuel (KSyscall [nr; SECCOMP_GET_ACTION_AVAIL; 0] (Buf (le_bytes 4 action))) h = Some (r, h') →
  action_avail "linux" machine fuel action h =
    Some (if kr_ret r =? -1 then Raise (call_error (kr_errno r)) else Ok (kr_ret r), h').
Proof using Hnr.
  intros Hr. unfold action_avail. unfold mbind at 1, M_bind at 1.
  rewrite (seccomp_persist _ _ _ nr _ _ 0), Hr by done. unfold classify.
  by destruct (kr_ret r =? -1).
Qed.
End facts.

(** ** The theorems *)

(** C28.  [supported] is True if the kernel answers the action query, or refuses
    it with EINVAL as kernels before 4.8 do.  If it says that the call does not
    exist, a flag probe decides; any other errno is raised. *)
Theorem supported_outcome `{Kernel} (machine : string) (fuel : nat) (nr : Z) (h h1 : list event)
    (r1 : kreply) (Hnr : _seccomp_nr machine = Ok nr)
    (Hr1 : persist fuel (KSyscall [nr; SECCOMP_GET_ACTION_AVAIL; 0]
      (Buf [0x00; 0x00; 0xFF; 0x7F])) h = Some (r1, h1)) :
  supported "linux" machine fuel h =
    if negb (kr_ret r1 =? -1) || (kr_errno r1 =? EINVAL) then Some (Ok true, h1)
    else if unsupported_errno (kr_errno r1) then
      match persist fuel (KSyscall [nr; SECCOMP_SET_MODE_FILTER; 0] Null) h1 with
      | None => None
      | Some (r2, h2) =>
          Some (if kr_ret r2 =? -1 then
                  if (kr_errno r2 =? EINVAL) || unsupported_errno (kr_errno r2) then Ok false
                  else if bool_decide (kr_errno r2 ∈ [EFAULT; EACCES]) then Ok true
                  else Raise (SeccompError (kr_errno r2))
                else Ok true, h2)
      end
    else Some (Raise (SeccompError (kr_errno r1)), h1).
Proof.
  unfold supported, try_except at 1. unfold mbind at 1, M_bind at 1.
  rewrite (action_avail_eq machine fuel nr Hnr (Action_value ALLOW) h r1 h1 Hr1).
  destruct (kr_ret r1 =? -1); cbn [negb orb]; [|done].
  unfold call_error. fold (unsupported_errno (kr_errno r1)).
  destruct (unsupported_errno (kr_errno r1)) eqn:E.
  2: { by destruct (kr_errno r1 =? EINVAL). }
  assert ((kr_errno r1 =? EINVAL) = false) as ->.
  { unfold unsupported_errno in E. apply Z.eqb_neq. intros E2. rewrite E2 in E. done. }
  unfold try_except. destruct (persist _ _ h1) as [[r2 h2]|] eqn:Hr2.
  - rewrite (probe_flag_eq machine nr 0 0 fuel h1 h2 r2 Hnr eq_refl Hr2).
    destruct (kr_ret r2 =? -1); [|done]. destruct (kr_errno r2 =? EINVAL); [done|]. cbn [orb].
    unfold call_error. fold (unsupported_errno (kr_errno r2)).
    destruct (unsupported_errno (kr_errno r2)) eqn:E2.
    + rewrite bool_decide_false; [done|]. unfold unsupported_errno in E2.
      rewrite !not_elem_of_cons. apply orb_true_iff in E2 as [E2|E2]; apply Z.eqb_eq in E2; rewrite E2;
        (split; [done|]);
        (split; [done|apply not_elem_of_nil]).
    + by destruct (bool_decide _).
  - unfold probe_flag, try_except, mbind, M_bind.
    by rewrite (seccomp_persist _ _ _ nr _ _ 0), Hr2.
Qed.

Lemma supported_outcome_witness :
  supported (H := demo_kernel) "linux" "x86_64" 3 [] =
    Some (Ok true,
      [(KSyscall [317; 2; 0] (Buf [0x00; 0x00; 0xFF; 0x7F]), KReply (-1) EINTR [0x00; 0x00; 0xFF; 0x7F]);
       (KSyscall [317; 2; 0] (Buf [0x00; 0x00; 0xFF; 0x7F]), KReply 0 0 [0x00; 0x00; 0xFF; 0x7F])]).
Proof.
  apply (supported_outcome (H := demo_kernel) "x86_64" 3 317 [] _ (KReply 0 0 [0x00; 0x00; 0xFF; 0x7F])).
  - reflexivity.
  - vm_compute. reflexivity.
Defined.

(** What [action_supported] and [flag_supported] make of an answered call. *)
Definition action_answer (r : kreply) : result bool :=
  if kr_ret r =? -1 then
    if (kr_errno r =? EINVAL) || unsupported_errno (kr_errno r) then Ok false
    else Raise (SeccompError (kr_errno r))
  else Ok true.

Definition flag_answer (r : kreply) : result bool :=
  if kr_ret r =? -1 then
    if (kr_errno r =? EINVAL) || unsupported_errno (kr_errno r) then Ok false
    else if bool_decide (kr_errno r ∈ [EFAULT; EACCES]) then Ok true
    else Raise (SeccompError (kr_errno r))
  else Ok true.

Section queries.
Context (machine : string) (fuel : nat) `{Kernel} (nr : Z) (Hnr : _seccomp_nr machine = Ok nr).

Lemma action_supported_eq action h :
  action_supported "linux" machine fuel action h =
    (match persist fuel (KSyscall [nr; SECCOMP_GET_ACTION_AVAIL; 0]
             (Buf (le_bytes 4 (action mod 2 ^ 32)))) h with
     | Some (r, h') => Some (action_answer r, h')
     | None => None
     end).
Proof using Hnr.
  replace (le_bytes 4 (action mod 2 ^ 32)) with (le_bytes 4 action) by (by rewrite <- le_bytes_mod).
  unfold action_supported, try_except. unfold mbind at 1, M_bind at 1.
  destruct (persist _ _ h) as [[r h']|] eqn:Hr.
  - rewrite (action_avail_eq machine fuel nr Hnr action h r h' Hr). unfold action_answer.
    destruct (kr_ret r =? -1); [|done]. unfold call_error. fold (unsupported_errno (kr_errno r)).
    destruct (unsupported_errno (kr_errno r)); [by rewrite orb_true_r|].
    by destruct (kr_errno r =? EINVAL).
  - unfold action_avail, mbind, M_bind. by rewrite (seccomp_persist _ _ _ nr _ _ 0), Hr.
Qed.

Lemma flag_supported_eq flag cflag h :
  c_int flag = Ok cflag →
  flag_supported "linux" machine fuel flag h =
    (match persist fuel (KSyscall [nr; SECCOMP_SET_MODE_FILTER; cflag] Null) h with
     | Some (r, h') => Some (flag_answer r, h')
     | None => None
     end).
Proof using Hnr.
  intros Hf. unfold flag_supported, try_except. destruct (persist _ _ h) as [[r h']|] eqn:Hr.
  - rewrite (probe_flag_eq machine nr flag cflag fuel h h' r Hnr Hf Hr). unfold flag_answer.
    destruct (kr_ret r =? -1); [|done]. destruct (kr_errno r =? EINVAL); [done|]. cbn [orb].
    unfold call_error. fold (unsupported_errno (kr_errno r)).
    destruct (unsupported_errno (kr_errno r)) eqn:E; [|by destruct (bool_decide _)].
    rewrite bool_decide_false; [done|]. unfold unsupported_errno in E.
    apply orb_true_iff in E as [E|E]; apply Z.eqb_eq in E; rewrite E; set_solver by lia.
  - unfold probe_flag, try_except, mbind, M_bind. by rewrite (seccomp_persist _ _ _ nr _ _ cflag), Hr.
Qed.
End queries.

(** C36.  The feature queries read the kernel's answer as documented.  On a
    supported machine [action_supported] asks about the action's low 32 bits
    and is True if the kernel confirms them, False if it answers EINVAL or does
    not know the call; [flag_supported] probes with a NULL program, reads
    success, EFAULT and EACCES as True and EINVAL and a missing call as False;
    any other errno is raised. *)
Theorem feature_query_outcome `{Kernel} (machine : string) (fuel : nat) (nr action flag cflag : Z)
    (h : list event) (Hnr : _seccomp_nr machine = Ok nr) (Hf : c_int flag = Ok cflag) :
  action_supported "linux" machine fuel action h =
    match persist fuel (KSyscall [nr; SECCOMP_GET_ACTION_AVAIL; 0]
            (Buf (le_bytes 4 (action mod 2 ^ 32)))) h with
    | Some (r, h') => Some (action_answer r, h')
    | None => None
    end ∧
  flag_supported "linux" machine fuel flag h =
    match persist fuel (KSyscall [nr; SECCOMP_SET_MODE_FILTER; cflag] Null) h with
    | Some (r, h') => Some (flag_answer r, h')
    | None => None
    end.
Proof. by split; [apply action_supported_eq|apply flag_supported_eq]. Qed.

Lemma feature_query_outcome_witness :
  action_supported (H := demo_kernel) "linux" "x86_64" 3 0x7FFC0000 [] =
    Some (Ok true,
      [(KSyscall [317; 2; 0] (Buf [0x00; 0x00; 0xFC; 0x7F]), KReply (-1) EINTR [0x00; 0x00; 0xFC; 0x7F]);
       (KSyscall [317; 2; 0] (Buf [0x00; 0x00; 0xFC; 0x7F]), KReply 0 0 [0x00; 0x00; 0xFC; 0x7F])]) ∧
  flag_supported (H := demo_kernel) "linux" "x86_64" 3 1 [] =
    Some (Ok true, [(KSyscall [317; 1; 1] Null, KReply (-1) EINTR []);
                    (KSyscall [317; 1; 1] Null, KReply 0 0 [])]).
Proof. apply (feature_query_outcome (H := demo_kernel) "x86_64" 3 317 0x7FFC0000 1 1 []); reflexivity. Defined.

(** C37.  The kernel is asked about 32 bits only.  [action_supported] and
    [flag_supported] give for an integer that differs from [z] above bit 31 the
    answer for [z], as long as a flag still fits in a C [long]: a flag the
    kernel cannot know, such as bit 32, is reported as the empty set of flags
    is. *)
Theorem feature_query_truncates `{Kernel} (machine : string) (fuel : nat) (z k : Z)
    (h : list event) (Hz : 0 <= z < 2 ^ 32) (Hk : 0 <= z + k * 2 ^ 32 < 2 ^ 64)
    (Hm : is_ok (_native machine) = true) :
  action_supported "linux" machine fuel (z + k * 2 ^ 32) h =
    action_supported "linux" machine fuel z h ∧
  flag_supported "linux" machine fuel (z + k * 2 ^ 32) h =
    flag_supported "linux" machine fuel z h.
Proof.
  destruct (seccomp_nr_native machine) as [Hn _]. rewrite Hm in Hn.
  destruct (_seccomp_nr machine) as [nr|] eqn:Hnr; [|done].
  split.
  - rewrite !(action_supported_eq machine fuel nr Hnr). by rewrite Z.mod_add.
  - rewrite !(flag_supported_eq machine fuel nr Hnr _ (int32 z)); [done|by apply c_int_u32|].
    apply c_int_ok. split; [lia|]. rewrite <- (to_signed_mod 32 (z + _)), Z.mod_add by done.
    by rewrite to_signed_mod.
Qed.

Lemma feature_query_truncates_witness :
  action_supported (H := demo_kernel) "linux" "x86_64" 3 (0x7FFF0000 + 1 * 2 ^ 32) [] =
    action_supported (H := demo_kernel) "linux" "x86_64" 3 0x7FFF0000 [] ∧
  flag_supported (H := demo_kernel) "linux" "x86_64" 3 (0x7FFF0000 + 1 * 2 ^ 32) [] =
    flag_supported (H := demo_kernel) "linux" "x86_64" 3 0x7FFF0000 [].
Proof.
  apply (feature_query_truncates (H := demo_kernel) "x86_64" 3 0x7FFF0000 1 []);
    [lia|lia|reflexivity].
Defined.

(** Without seccomp nothing is probed.  On an unsupported machine the three
    functions answer False and make no call. *)
Theorem unsupported_machine `{Kernel} (sys_platform machine : string) (fuel : nat) (h : list event)
    (action flag : Z) (Hm : is_ok (_native machine) = false) :
  supported sys_platform machine fuel h = Some (Ok false, h) ∧
  action_supported sys_platform machine fuel action h = Some (Ok false, h) ∧
  flag_supported sys_platform machine fuel flag h = Some (Ok false, h).
Proof.
  destruct (seccomp_nr_native machine) as [Hn _]. rewrite Hm in Hn.
  assert (_seccomp_nr machine = Raise (UnsupportedError None)) as He.
  { unfold _seccomp_nr, _arch_nr in *. by destruct (dict_get _ _SYS_SECCOMP). }
  unfold supported, action_supported, flag_supported, action_avail, probe_flag, try_except, mbind, M_bind.
  by rewrite !(seccomp_unsupported _ _ _ _ _ _ _ _ He).
Qed.

Lemma unsupported_machine_witness :
  supported (H := demo_kernel) "linux" "riscv64" 3 [] = Some (Ok false, []) ∧
  action_supported (H := demo_kernel) "linux" "riscv64" 3 0x7FFC0000 [] = Some (Ok false, []) ∧
  flag_supported (H := demo_kernel) "linux" "riscv64" 3 1 [] = Some (Ok false, []).
Proof. apply (unsupported_machine (H := demo_kernel) "linux" "riscv64" 3 [] 0x7FFC0000 1). reflexivity. Defined.
