(* ===== verification/Probe.v ===== *)
(** * testing.py: probing a filter in a forked child

    [probe] forks, loads the filter and runs the callable in the child, and reads
    the child's fate from its wait status.  The function continues in two
    processes, each with its own state; the callable is a parameter that may make
    calls and change the filter it closes over, and returns, raises, or does not
    come back, because the child is killed or the callable does not end. *)

From S2P Require Import Prelude PyBytes CInt Ctypes Structs Syscalls Filter Effects RawSyscall Notify.
From S2P Require Import NotifyLife Load LoadTheorems Demo.

Record ProbeResult := mkProbeResult { pr_ok : bool; pr_errno : Z; pr_signal : Z }.

#[export] Instance ProbeResult_eq_dec : EqDecision ProbeResult.
Proof. solve_decision. Defined.

(** The [errno] attribute of an [OSError]; [None] for any other exception. *)
Definition os_errno (e : exn) : option (option Z) :=
  match e with
  | OSError o | UnsupportedError o => Some o
  | SeccompError err => Some (Some err)
  | _ => None
  end.

(** The argument of [os._exit] in the child, by how the [try] body ended. *)
Definition child_code (r : result unit) : Z :=
  match r with
  | Ok _ => 0
  | Raise e =>
      match os_errno e with
      | Some o =>
          let code := default 1 o in
          if (0 <? code) && (code <=? 255) then code else 255
      | None => 255
      end
  end.

(** How a process ends, and the wait status that encodes it. *)
Inductive process_end :=
| Exited (code : Z)
| Killed (sig : Z) (core : bool).

Definition wait_status (p : process_end) : Z :=
  match p with
  | Exited code => Z.shiftl (Z.land code 0xFF) 8
  | Killed sig core => Z.lor sig (if core then 0x80 else 0)
  end.

Definition WIFSIGNALED (status : Z) : bool :=
  let s := Z.land status 0x7F in negb (s =? 0) && negb (s =? 0x7F).
Definition WTERMSIG (status : Z) : Z := Z.land status 0x7F.
Definition WEXITSTATUS (status : Z) : Z := Z.land (Z.shiftr status 8) 0xFF.

(** What the parent makes of the status. *)
Definition probe_result (status : Z) : ProbeResult :=
  if WIFSIGNALED status then mkProbeResult false 0 (WTERMSIG status)
  else
    let code := WEXITSTATUS status in
    if code =? 0 then mkProbeResult true 0 0 else mkProbeResult false code 0.

(** How the callable ends in the child; [FnKilled] also stands for a child that
    its filter kills on the way to or from the callable. *)
Inductive fn_end :=
| FnReturns (r : result unit)
| FnKilled (sig : Z) (core : bool).

(** How a run of [probe] leaves the function: the parent returns or raises, the
    child ends its process. *)
Inductive probe_end :=
| Returned (r : result ProbeResult)
| ChildEnds (p : process_end).

(** The int that [waitpid] fills in. *)
Definition status_of (r : kreply) : Z := sfield (kr_mem r) 0 4.

#[local] Abbreviation state := (Filter * list event)%type.

(** The callable; [None] means that it does not end. *)
Abbreviation callable := (state → option (fn_end * state)).

Section probe.
Context (sys_platform platform_machine : string) (fuel : nat) `{Kernel}.

(** The value of [filt.load()] is not used: a listener is finalised at once. *)
Definition drop_listener (lo : option Listener) (h : list event) : option (list event) :=
  match lo with
  | None => Some h
  | Some l =>
      match __del__ (l, h) with
      | Some (_, (_, h')) => Some h'
      | None => None
      end
  end.

(** The branch [pid == 0]. *)
Definition child (fn : callable) : state → option (process_end * state) := λ '(self, h),
  match load sys_platform platform_machine fuel (self, h) with
  | None => None
  | Some (Raise e, s') => Some (Exited (child_code (Raise e)), s')
  | Some (Ok lo, (self', h')) =>
      match drop_listener lo h' with
      | None => None
      | Some h'' =>
          match fn (self', h'') with
          | None => None
          | Some (FnReturns r, s') => Some (Exited (child_code r), s')
          | Some (FnKilled sig core, s') => Some (Killed sig core, s')
          end
      end
  end.

(** The rest of the function in the parent. *)
Definition parent (pid : Z) : M state ProbeResult :=
  r ← run_kernel (do_call (KWaitpid pid));
  if kr_ret r =? -1 then raise (OSError (Some (kr_errno r)))
  else mret (probe_result (status_of r)).

(** After [fork] returned [pid]: two processes go on from here. *)
Definition after_fork (fn : callable) (pid : Z) (s : state)
    : option (probe_end * state) :=
  if pid =? 0 then
    match child fn s with
    | Some (p, s') => Some (ChildEnds p, s')
    | None => None
    end
  else
    match parent pid s with
    | Some (r, s') => Some (Returned r, s')
    | None => None
    end.

Definition probe (fn : callable) (s : state) : option (probe_end * state) :=
  let '(self, h) := s in
  if _loaded self then Some (Returned (Raise (RuntimeError "filter is already loaded")), s)
  else
    match kernel h KFork with
    | None => None
    | Some r =>
        let s' := (self, h ++ [(KFork, r)]) in
        if kr_ret r =? -1 then Some (Returned (Raise (OSError (Some (kr_errno r)))), s')
        else after_fork fn (kr_ret r) s'
    end.

(** The child starts from a copy of the parent, to which [fork] returned 0. *)
Definition run_child (fn : callable) (f : Filter) (h : list event) :
    option (process_end * state) :=
  child fn (f, h ++ [(KFork, KReply 0 0 [])]).

(** fork(2) and waitpid(2): a forked child has a positive pid, and waiting for one
    that has ended reports how.  This is what the parent relies on. *)
Class Reaps (fn : callable) (f : Filter) (h : list event) := {
  fork_pid : ∃ r, kernel h KFork = Some r ∧ (kr_ret r = -1 ∨ 0 < kr_ret r);
  wait_reports : ∀ p s fork, run_child fn f h = Some (p, s) → kernel h KFork = Some fork →
    0 < kr_ret fork →
    ∃ r, kernel (h ++ [(KFork, fork)]) (KWaitpid (kr_ret fork)) = Some r ∧
      kr_ret r ≠ -1 ∧ kr_mem r = le_bytes 4 (wait_status p) }.
End probe.

(** ** Statuses *)

Lemma exit_status_result code :
  0 <= code <= 255 →
  probe_result (wait_status (Exited code)) =
    if code =? 0 then mkProbeResult true 0 0 else mkProbeResult false code 0.
Proof.
  intros Hc. unfold probe_result, wait_status.
  assert (Z.land code 0xFF = code) as ->.
  { change 0xFF with (Z.ones 8). rewrite Z.land_ones by done. apply Z.mod_small. lia. }
  assert (Z.land (Z.shiftl code 8) 0x7F = 0) as Hl.
  { change 0x7F with (Z.ones 7). rewrite Z.land_ones, Z.shiftl_mul_pow2 by done.
    change (2 ^ 8) with (2 * 2 ^ 7). rewrite Z.mul_assoc. by apply Z.mod_mul. }
  unfold WIFSIGNALED, WEXITSTATUS. rewrite Hl. cbn [Z.eqb negb andb].
  rewrite Z.shiftr_shiftl_l, Z.sub_diag, Z.shiftl_0_r by done.
  assert (Z.land code 0xFF = code) as ->; [|done].
  change 0xFF with (Z.ones 8). rewrite Z.land_ones by done. apply Z.mod_small. lia.
Qed.

Lemma kill_status_result sig core :
  1 <= sig < 127 → probe_result (wait_status (Killed sig core)) = mkProbeResult false 0 sig.
Proof.
  intros Hs. unfold probe_result, wait_status, WIFSIGNALED, WTERMSIG.
  assert (Z.land (Z.lor sig (if core then 0x80 else 0)) 0x7F = sig) as ->.
  { rewrite Z.land_lor_distr_l. change 0x7F with (Z.ones 7).
    rewrite (Z.land_ones sig), (Z.mod_small sig) by lia.
    destruct core; [change (Z.land 0x80 (Z.ones 7)) with 0|]; by rewrite ?Z.land_0_l, Z.lor_0_r. }
  rewrite (proj2 (Z.eqb_neq sig 0)), (proj2 (Z.eqb_neq sig 127)) by lia. done.
Qed.

Lemma child_code_range r : 0 <= child_code r <= 255 ∧ (child_code r = 0 ↔ r = Ok tt).
Proof.
  destruct r as [[]|e]; cbn; [done|]. destruct (os_errno e) as [o|]; [|done].
  destruct (_ && _) eqn:E; bool_to_prop; (split; [lia|]); (split; [lia|done]).
Qed.

Lemma child_code_errno e err :
  os_errno e = Some (Some err) → 1 <= err <= 255 → child_code (Raise e) = err.
Proof.
  intros He Herr. cbn [child_code]. rewrite He. cbn [default from_option id].
  by rewrite (proj2 (Z.ltb_lt _ _)), (proj2 (Z.leb_le _ _)) by lia.
Qed.

(** Finalising an open listener closes its descriptor. *)
Lemma drop_listener_open `{Kernel} l h h' :
  _closed l = false → is_c_int (_fd l) → drop_listener (Some l) h = Some h' →
  ∃ r, h' = h ++ [(KClose (_fd l), r)].
Proof.
  destruct l as [fd closed]. cbn [_closed _fd]. intros -> Hfd.
  unfold drop_listener, __del__, try_except. rewrite close_run by done.
  destruct (kernel h _) as [r|]; [|done].
  unfold os_result. destruct (kr_ret r =? -1); intros [= <-]; by exists r.
Qed.

Lemma wait_status_range p :
  match p with Exited _ => True | Killed sig _ => 1 <= sig < 127 end → 0 <= wait_status p < 2 ^ 16.
Proof.
  destruct p as [code|sig core]; cbn [wait_status]; intros Hp.
  - change 0xFF with (Z.ones 8). rewrite Z.land_ones, Z.shiftl_mul_pow2 by done.
    pose proof (Z.mod_pos_bound code (2 ^ 8) ltac:(lia)). lia.
  - split; [apply Z.lor_nonneg; destruct core; lia|].
    assert (0 <= Z.lor sig (if core then 0x80 else 0)) by (apply Z.lor_nonneg; destruct core; lia).
    destruct (Z.eq_dec (Z.lor sig (if core then 0x80 else 0)) 0) as [E|E]; [lia|].
    apply Z.log2_lt_pow2; [lia|]. rewrite Z.log2_lor by (destruct core; lia).
    apply Z.max_lub_lt; [|by destruct core].
    apply Z.log2_lt_pow2; lia.
Qed.

(** The status comes through the buffer of [waitpid] as it was. *)
Lemma status_roundtrip p r :
  match p with Exited _ => True | Killed sig _ => 1 <= sig < 127 end →
  kr_mem r = le_bytes 4 (wait_status p) → status_of r = wait_status p.
Proof.
  intros Hp Hm. unfold status_of. rewrite Hm. apply sfield_last; [lia|].
  pose proof (wait_status_range p Hp). unfold is_s. cbn. lia.
Qed.

(** ** The theorems *)

(** The result of a probe by how the child ended. *)
Definition reported (p : process_end) : ProbeResult :=
  match p with
  | Exited code => if code =? 0 then mkProbeResult true 0 0 else mkProbeResult false code 0
  | Killed sig _ => mkProbeResult false 0 sig
  end.

Section outcome.
Context `{Kernel} (sys_platform machine : string) (fuel : nat).
Context (fn : callable) (f : Filter) (h : list event).
Context (Hsig : ∀ s sig core s', fn s = Some (FnKilled sig core, s') → 1 <= sig < 127).

Lemma child_end_ok p s s' :
  child sys_platform machine fuel fn s = Some (p, s') →
  match p with Exited code => 0 <= code <= 255 | Killed sig _ => 1 <= sig < 127 end.
Proof using Hsig.
  destruct s as [f0 h0]. unfold child. destruct (load _ _ _ _) as [[[lo|e] [f1 h1]]|]; [| |done].
  - destruct (drop_listener lo h1) as [h2|]; [|done].
    destruct (fn (f1, h2)) as [[[r|sig core] s2]|] eqn:Hf; [..|done]; intros [= <- _];
      [apply child_code_range|by eapply Hsig].
  - intros [= <- _]. apply (child_code_range (Raise e)).
Qed.

Lemma reported_status p :
  match p with Exited code => 0 <= code <= 255 | Killed sig _ => 1 <= sig < 127 end →
  probe_result (wait_status p) = reported p.
Proof using Type.
  destruct p as [code|sig core]; intros Hp; [by apply exit_status_result|by apply kill_status_result].
Qed.
End outcome.

(** C26.  [probe] reports how the child ended and leaves the caller's filter
    alone.  A loaded filter is refused without a fork, and a failing fork is
    raised.  Otherwise, if the parent's wait reports the child's end, the parent
    returns ok exactly if the child exited with 0, the exit status as errno if
    it is another, and the signal that killed it; it made no call but the fork
    and the wait. *)
Theorem probe_outcome `{Kernel} (sys_platform machine : string) (fuel : nat)
    (fn : callable) (f : Filter) (h : list event) (p : process_end)
    (s : Filter * list event)
    (Hsig : ∀ s sig core s', fn s = Some (FnKilled sig core, s') → 1 <= sig < 127)
    (Hreaps : Reaps sys_platform machine fuel fn f h)
    (Hchild : run_child sys_platform machine fuel fn f h = Some (p, s)) :
  ∃ fork, kernel h KFork = Some fork ∧
    if _loaded f then
      probe sys_platform machine fuel fn (f, h) =
        Some (Returned (Raise (RuntimeError "filter is already loaded")), (f, h))
    else if kr_ret fork =? -1 then
      probe sys_platform machine fuel fn (f, h) =
        Some (Returned (Raise (OSError (Some (kr_errno fork)))), (f, h ++ [(KFork, fork)]))
    else
      ∃ wait, kernel (h ++ [(KFork, fork)]) (KWaitpid (kr_ret fork)) = Some wait ∧
        probe sys_platform machine fuel fn (f, h) =
          Some (Returned (Ok (reported p)),
                (f, h ++ [(KFork, fork); (KWaitpid (kr_ret fork), wait)])).
Proof.
  destruct Hreaps as [(fork & Hfork & Hpid) Hwait]. exists fork. split; [done|].
  unfold probe. destruct (_loaded f); [done|]. rewrite Hfork.
  destruct (Z.eqb_spec (kr_ret fork) (-1)) as [E|E]; [done|].
  destruct Hpid as [?|Hpid]; [done|].
  destruct (Hwait _ _ _ Hchild Hfork Hpid) as (wait & Hk & Hok & Hmem). exists wait.
  split; [done|]. unfold after_fork. rewrite (proj2 (Z.eqb_neq _ _)) by lia.
  unfold parent. autorewrite with io. unfold do_call. rewrite Hk.
  rewrite (proj2 (Z.eqb_neq _ _) Hok), <- app_assoc.
  pose proof (child_end_ok sys_platform machine fuel fn Hsig _ _ _ Hchild) as Hp.
  unfold mret, M_ret. rewrite (status_roundtrip p wait), reported_status; [done|done| |done].
  by destruct p.
Qed.

Definition demo_filter : Filter := mkFilter (Action_value ALLOW) 0 [] None false.

(** A kernel that forks and waits: the child gets pid 4242 and is killed by
    SIGSYS. *)
Definition demo_probe_kernel : Kernel := λ h c,
  match c with
  | KFork => Some (KReply 4242 0 [])
  | KWaitpid _ => Some (KReply 4242 0 (le_bytes 4 (wait_status (Killed 31 true))))
  | _ => @kernel demo_kernel h c
  end.

(** A callable that its filter kills. *)
Definition demo_killed : callable := λ s, Some (FnKilled 31 true, s).

Definition demo_child : option (process_end * (Filter * list event)) :=
  run_child (H := demo_probe_kernel) "linux" "x86_64" 3 demo_killed demo_filter [].

Lemma probe_outcome_witness :
  ∃ fork, Some (KReply 4242 0 []) = Some fork ∧
    ∃ wait, kernel (Kernel := demo_probe_kernel) ([] ++ [(KFork, fork)])
        (KWaitpid (kr_ret fork)) = Some wait ∧
      probe (H := demo_probe_kernel) "linux" "x86_64" 3 demo_killed (demo_filter, []) =
        Some (Returned (Ok (mkProbeResult false 0 31)),
          (demo_filter, [] ++ [(KFork, fork); (KWaitpid (kr_ret fork), wait)])).
Proof.
  destruct (probe_outcome (H := demo_probe_kernel) "linux" "x86_64" 3 demo_killed
    demo_filter [] (Killed 31 true)
    (match demo_child with Some (_, s) => s | None => (demo_filter, []) end))
    as (fork & Hfork & Hout).
  - intros s sig core s' [= <- <- _]. lia.
  - split; [by eexists; split; [reflexivity|right]|]. intros p s fork Hc Hf _.
    vm_compute in Hc. injection Hc as <- _. injection Hf as <-. eexists. by split_and!.
  - vm_compute. reflexivity.
  - exists fork. split; [exact Hfork|]. injection Hfork as <-. exact Hout.
Defined.


(** A callable that returns after a call of its own. *)
Definition demo_writes : callable := λ '(f, h),
  Some (FnReturns (Ok tt), (f, h ++ [(KSyscall [1; 1; 0] NoPtr, KReply 0 0 [])])).

(** The demonstration kernel hands out descriptor 7 for the listener. *)
Definition demo_child_end : process_end * (Filter * list event) :=
  default (Exited 255, (demo_loading, []))
    (child (H := demo_kernel) "linux" "x86_64" 3 demo_writes (demo_loading, [])).


(** C35.  The errno of a probe is not always the errno of the exception.  An
    [OSError] without an errno is reported as 1 (EPERM), one whose errno does
    not fit in an exit status as 255, and so is every exception that is no
    [OSError] at all. *)
Theorem probe_errno_clamped (e : exn) :
  (os_errno e = Some None →
     probe_result (wait_status (Exited (child_code (Raise e)))) = mkProbeResult false 1 0) ∧
  (∀ err, os_errno e = Some (Some err) → err <= 0 ∨ 255 < err →
     probe_result (wait_status (Exited (child_code (Raise e)))) = mkProbeResult false 255 0) ∧
  (os_errno e = None →
     probe_result (wait_status (Exited (child_code (Raise e)))) = mkProbeResult false 255 0).
Proof.
  unfold child_code. split_and!.
  - by intros ->.
  - intros err -> Herr. cbn [default from_option id].
    destruct (_ && _) eqn:E; bool_to_prop; [lia|done..].
  - by intros ->.
Qed.

Lemma probe_errno_clamped_witness :
  os_errno (UnsupportedError None) = Some None ∧
  probe_result (wait_status (Exited (child_code (Raise (UnsupportedError None))))) =
    mkProbeResult false 1 0.
Proof. split; [reflexivity|]. apply (probe_errno_clamped (UnsupportedError None)). reflexivity. Defined.
