(* ===== verification/Termination.v ===== *)
(** * Termination of the retry loops

    Fuel stands for [while True].  When no call blocks or is interrupted for ever,
    every function of the package that reaches the kernel terminates: from some
    amount of fuel on, the result is the same and fuel is never exhausted. *)

From S2P Require Import Prelude CInt Filter Structs Effects RawSyscall Notify NotifyLife Load.
From S2P Require Import Support Probe Demo.

(** From some fuel on, [m] ends with one and the same result. *)
Definition terminates {S A} (m : nat → M S A) : Prop :=
  ∀ s, ∃ n x, ∀ fuel, (n <= fuel)%nat → m fuel s = Some x.

Section combinators.
Context {S A B : Type}.

Lemma terminates_now (m : M S A) : (∀ s, m s ≠ None) → terminates (λ _, m).
Proof.
  intros Hm s. destruct (m s) as [x|] eqn:E; [|by destruct (Hm s)].
  by exists 0%nat, x.
Qed.

Lemma terminates_lift (r : result A) : terminates (λ _, lift r : M S A).
Proof. by apply terminates_now. Qed.

Lemma terminates_ret (a : A) : terminates (λ _, mret a : M S A).
Proof. by apply terminates_now. Qed.

Lemma terminates_raise e : terminates (λ _, raise e : M S A).
Proof. by apply terminates_now. Qed.

Lemma terminates_bind (m : nat → M S A) (f : nat → A → M S B) :
  terminates m → (∀ a, terminates (λ fuel, f fuel a)) → terminates (λ fuel, m fuel ≫= f fuel).
Proof.
  intros Hm Hf s. destruct (Hm s) as (n1 & [[a|e] s1] & H1).
  - destruct (Hf a s1) as (n2 & x & H2). exists (n1 + n2)%nat, x. intros fuel Hle.
    unfold mbind, M_bind. rewrite H1 by lia. apply H2. lia.
  - exists n1, (Raise e, s1). intros fuel Hle. unfold mbind, M_bind. by rewrite H1.
Qed.

Lemma terminates_try (m : nat → M S A) (g : nat → exn → M S A) :
  terminates m → (∀ e, terminates (λ fuel, g fuel e)) →
  terminates (λ fuel, try_except (m fuel) (g fuel)).
Proof.
  intros Hm Hg s. destruct (Hm s) as (n1 & [[a|e] s1] & H1).
  - exists n1, (Ok a, s1). intros fuel Hle. unfold try_except. by rewrite H1.
  - destruct (Hg e s1) as (n2 & x & H2). exists (n1 + n2)%nat, x. intros fuel Hle.
    unfold try_except. rewrite H1 by lia. apply H2. lia.
Qed.
End combinators.

Lemma terminates_get {O} : terminates (λ _, get_self : M (O * list event) O).
Proof. apply terminates_now. by intros [o h]. Qed.

Lemma terminates_set {O} (o : O) : terminates (λ _, set_self o : M (O * list event) unit).
Proof. apply terminates_now. by intros [o' h]. Qed.

Lemma terminates_run_kernel {O A} (m : nat → M (list event) A) :
  terminates m → terminates (λ fuel, run_kernel (m fuel) : M (O * list event) A).
Proof.
  intros Hm [o h]. destruct (Hm h) as (n & [r h'] & H1). exists n, (r, (o, h')).
  intros fuel Hle. unfold run_kernel. by rewrite H1.
Qed.

Create HintDb term discriminated.
#[export] Hint Resolve terminates_lift terminates_ret terminates_raise terminates_get
  terminates_set terminates_run_kernel : term.

(** Follow the structure of a computation: its binds, its handlers, its case
    distinctions and its retry loops, whose lemmas are in [term]. *)
Ltac terminate_step :=
  match goal with
  | |- terminates (λ fuel, @mbind _ _ _ _ (@?f fuel) (@?m fuel)) => apply (terminates_bind m f)
  | |- terminates (λ fuel, try_except (@?m fuel) (@?g fuel)) => apply (terminates_try m g)
  | |- terminates (λ fuel, run_kernel (@?m fuel)) => apply (terminates_run_kernel m)
  | |- terminates _ => solve [auto with term nocore]
  | |- ∀ _ : _, terminates _ => intros ?; cbn beta
  | |- context [if decide _ then _ else _] => case_decide
  | |- context [match ?x with _ => _ end] => is_var x; destruct x
  | |- context [if ?b then _ else _] => destruct b
  end.
Ltac terminate := repeat terminate_step.

#[local] Ltac destruct_unit := repeat match goal with u : unit |- _ => destruct u end.

Section package.
Context (sys_platform machine : string) `{Kernel} `{!Patient}.

(** A loop that follows [persist] once its arguments are converted. *)
Lemma terminates_loop {A} (m : nat → M (list event) A) (pre : result kcall) (g : kreply → result A) :
  (∀ c fuel h, pre = Ok c → m fuel h =
    (match persist fuel c h with Some (r, h') => Some (g r, h') | None => None end)) →
  (∀ e fuel h, pre = Raise e → m (S fuel) h = Some (Raise e, h)) →
  terminates m.
Proof using Type*.
  intros Hok Hraise h. destruct pre as [c|e] eqn:El.
  - destruct (patient c h) as [n Hn]. destruct (persist n c h) as [[r h']|] eqn:E; [|done].
    exists n, (g r, h'). intros fuel Hle. rewrite (Hok c) by done.
    by rewrite (persist_mono _ _ _ _ _ Hle E).
  - exists 1%nat, (Raise e, h). intros [|fuel] Hle; [lia|]. by apply Hraise.
Qed.

Lemma terminates_call args ptr : terminates (λ fuel, _call sys_platform fuel args ptr).
Proof using Type*.
  apply (terminates_loop _
    (_get_libc sys_platform;; cargs ← c_ints args; Ok (KSyscall cargs ptr)) classify).
  - intros c fuel h Hc. inv_ok. destruct_unit. by apply call_persist.
  - intros e fuel h He. cbn [_call].
    destruct (_get_libc sys_platform) as [[]|]; [|by simplify_eq/=].
    cbn in He. by destruct (c_ints args); simplify_eq/=.
Qed.

Lemma terminates_ioctl fd req arg : terminates (λ fuel, ioctl sys_platform fuel fd req arg).
Proof using Type*.
  apply (terminates_loop _ (_get_libc sys_platform;;
    cfd ← c_int fd; creq ← c_int req; Ok (KIoctl cfd creq (Buf arg))) classify).
  - intros c fuel h Hc. inv_ok. destruct_unit. by apply ioctl_persist.
  - intros e fuel h He. cbn [ioctl].
    destruct (_get_libc sys_platform) as [[]|]; [|by simplify_eq/=].
    cbn in He. destruct (c_int fd); [|by simplify_eq/=].
    cbn in He. by destruct (c_int req); simplify_eq/=.
Qed.

Lemma terminates_no_new_privs : terminates (λ fuel, set_no_new_privs sys_platform fuel).
Proof using Type*.
  apply (terminates_loop _
    (_get_libc sys_platform;; Ok (KPrctl [PR_SET_NO_NEW_PRIVS; 1; 0; 0; 0]))
    (λ r, if kr_ret r =? -1 then Raise (SeccompError (kr_errno r)) else Ok tt)).
  - intros c fuel h Hc. inv_ok. destruct_unit. by apply no_new_privs_persist.
  - intros e fuel h He. cbn [set_no_new_privs]. by destruct (_get_libc _); simplify_eq/=.
Qed.

(** A patient kernel answers every call. *)
Lemma patient_answers c h : ∃ r, kernel h c = Some r.
Proof using Type*.
  destruct (patient c h) as [[|n] Hn]; [done|]. cbn in Hn.
  destruct (kernel h c) as [r|]; [by exists r|done].
Qed.

Lemma terminates_do_call c : terminates (λ _, do_call c).
Proof using Type*.
  apply terminates_now. intros h. unfold do_call. by destruct (patient_answers c h) as [r ->].
Qed.

#[local] Hint Resolve terminates_do_call : term.

Lemma terminates_close fd : terminates (λ _, os_close fd).
Proof using Type*. unfold os_close. terminate. Qed.

Lemma terminates_set_inheritable fd b : terminates (λ _, os_set_inheritable fd b).
Proof using Type*. unfold os_set_inheritable. terminate. Qed.

Lemma terminates_read_program : terminates (λ _, read_program machine).
Proof using Type. apply terminates_now. intros [f h]. unfold read_program. by destruct (program _ _). Qed.

#[local] Hint Resolve terminates_call terminates_ioctl terminates_no_new_privs terminates_close
  terminates_set_inheritable terminates_read_program : term.

Lemma terminates_set_mode_filter prog flags :
  terminates (λ fuel, set_mode_filter sys_platform machine fuel prog flags).
Proof using Type*. unfold set_mode_filter, _seccomp. terminate. Qed.

Lemma terminates_sizes : terminates (λ fuel, sizes sys_platform machine fuel).
Proof using Type*. unfold sizes, notif_sizes, _seccomp. terminate. Qed.

#[local] Hint Resolve terminates_set_mode_filter terminates_sizes : term.

Lemma terminates_listener_init fd : terminates (λ fuel, Listener_init sys_platform machine fuel fd).
Proof using Type*. unfold Listener_init. terminate. Qed.

#[local] Hint Resolve terminates_listener_init : term.

Lemma terminates_load : terminates (λ fuel, load sys_platform machine fuel).
Proof using Type*. unfold load. terminate. Qed.

(** Every method of a listener, whatever it is given. *)
Lemma terminates_listener_call c : terminates (λ fuel, run_listener_call sys_platform fuel c).
Proof using Type*.
  destruct c; cbn [run_listener_call];
    unfold fileno, recv, respond, addfd, valid, set_flags, __exit__, __del__, close, __enter__,
      Listener_ioctl; terminate.
Qed.

(** The queries about the kernel. *)
Lemma terminates_queries action flag :
  terminates (λ fuel, supported sys_platform machine fuel) ∧
  terminates (λ fuel, action_supported sys_platform machine fuel action) ∧
  terminates (λ fuel, flag_supported sys_platform machine fuel flag).
Proof using Type*.
  unfold supported, action_supported, flag_supported, action_avail, probe_flag, _seccomp.
  split_and!; terminate.
Qed.

Lemma terminates_pidfd pid pidfd fd flags :
  terminates (λ fuel, Notify.pidfd_open sys_platform machine fuel pid flags) ∧
  terminates (λ fuel, Notify.pidfd_getfd sys_platform machine fuel pidfd fd flags).
Proof using Type*.
  unfold Notify.pidfd_open, Notify.pidfd_getfd, RawSyscall.pidfd_open, RawSyscall.pidfd_getfd.
  split; terminate.
Qed.

Lemma terminates_parent pid : terminates (λ _, parent pid).
Proof using Type*. unfold parent. terminate. Qed.

Lemma drop_listener_ends lo h : drop_listener lo h ≠ None.
Proof using Type*.
  destruct lo as [l|]; [|done]. unfold drop_listener.
  assert (terminates (λ _, __del__)) as Hd by (unfold __del__, close; terminate).
  destruct (Hd (l, h)) as (n & [r [l' h']] & Hx). by rewrite (Hx n).
Qed.

(** The child ends if its callable does. *)
Lemma child_ends (fn : callable) (Hfn : ∀ s, fn s ≠ None) s :
  ∃ n x, ∀ fuel, (n <= fuel)%nat → child sys_platform machine fuel fn s = Some x.
Proof using Type*.
  destruct s as [f h]. destruct (terminates_load (f, h)) as (n & [res [f1 h1]] & Hl).
  assert (∃ x, child sys_platform machine n fn (f, h) = Some x) as [x Hx].
  { unfold child. rewrite (Hl n) by done. destruct res as [lo|e]; [|by eexists].
    destruct (drop_listener lo h1) as [h2|] eqn:Hd; [|by apply drop_listener_ends in Hd].
    destruct (fn (f1, h2)) as [[[] ?]|] eqn:E; [by eexists..|by apply Hfn in E]. }
  exists n, x. intros fuel Hle. unfold child in *. by rewrite Hl in * by lia.
Qed.

(** Both processes that go on after [fork], so [probe] however [fork] returns. *)
Lemma probe_ends (fn : callable) (Hfn : ∀ s, fn s ≠ None) s :
  ∃ n x, ∀ fuel, (n <= fuel)%nat → probe sys_platform machine fuel fn s = Some x.
Proof using Type*.
  destruct s as [f h]. unfold probe. destruct (_loaded f); [by exists 0%nat; eexists|].
  destruct (patient_answers KFork h) as [r ->]. destruct (_ =? -1); [by exists 0%nat; eexists|].
  unfold after_fork. destruct (_ =? 0).
  - destruct (child_ends fn Hfn (f, h ++ [(KFork, r)])) as (n & [p s'] & Hn). exists n. eexists.
    intros fuel Hle. by rewrite Hn.
  - destruct (terminates_parent (kr_ret r) (f, h ++ [(KFork, r)])) as (n & [res s'] & Hn).
    exists n. eexists. intros fuel Hle. by rewrite (Hn n).
Qed.
End package.

(** C15.  No loop of the package runs for ever.  Whatever the state, the arguments
    and the answers of the kernel, if no call blocks for ever (as [recv] does when
    no event comes) and none is interrupted for ever, then loading a filter,
    constructing a listener, every method of a listener, the size query, the pidfd
    wrappers and the queries end, from some amount of fuel on with one and the
    same result; and so does [probe], in the parent and in the child, for a
    callable that ends. *)
Theorem package_terminates `{Kernel} `{!Patient} (sys_platform machine : string)
    (c : listener_call) (pid : pyobj) (fd pidfd flags action : Z) (fn : callable)
    (Hfn : ∀ s, fn s ≠ None) :
  terminates (λ fuel, load sys_platform machine fuel) ∧
  terminates (λ fuel, Listener_init sys_platform machine fuel fd) ∧
  terminates (λ fuel, run_listener_call sys_platform fuel c) ∧
  terminates (λ fuel, sizes sys_platform machine fuel) ∧
  terminates (λ fuel, Notify.pidfd_open sys_platform machine fuel pid flags) ∧
  terminates (λ fuel, Notify.pidfd_getfd sys_platform machine fuel pidfd fd flags) ∧
  terminates (λ fuel, supported sys_platform machine fuel) ∧
  terminates (λ fuel, action_supported sys_platform machine fuel action) ∧
  terminates (λ fuel, flag_supported sys_platform machine fuel flags) ∧
  (∀ s, ∃ n x, ∀ fuel, (n <= fuel)%nat → probe sys_platform machine fuel fn s = Some x) ∧
  (∀ s, ∃ n x, ∀ fuel, (n <= fuel)%nat →
     after_fork sys_platform machine fuel fn 0 s = Some (ChildEnds x.1, x.2)).
Proof.
  pose proof (terminates_queries sys_platform machine action flags) as (H1 & H2 & H3).
  pose proof (terminates_pidfd sys_platform machine pid pidfd fd flags) as [H4 H5].
  split_and!; [by apply terminates_load|by apply terminates_listener_init
    |by apply terminates_listener_call|by apply terminates_sizes|done..|by apply probe_ends|].
  intros s. destruct (child_ends sys_platform machine fn Hfn s) as (n & [p s'] & Hn).
  exists n, (p, s'). intros fuel Hle. unfold after_fork. by rewrite Hn.
Qed.

Lemma package_terminates_witness :
  ∃ n x, ∀ fuel, (n <= fuel)%nat →
    probe (H := demo_kernel) "linux" "x86_64" fuel demo_writes (demo_filter, []) = Some x.
Proof.
  apply (@package_terminates demo_kernel demo_patient "linux" "x86_64" LRecv (PyInt 1) 7 5 0 0
    demo_writes).
  intros [f h]. discriminate.
Defined.
